(* ===== verification/_CoqProject ===== *)
-Q . S2P
Prelude.v
SnowFlake.v
Uuid.v
SafeQueue.v
StrUtil.v
Printf.v
Ini.v
ConfigMap.v
Topics.v
Wiring.v
FileSys.v
FileSplit.v
Messages.v
FileTransfer.v
TransferCorrect.v
ProcessManager.v
ProcStat.v
HwText.v
HwPci.v
HwCpu.v
HwDisk.v
HwSystem.v
HwDevices.v
Db.v
DbLife.v
Json.v
NodeCmd.v
LogMonitor.v
LogRelay.v
Exec.v
Podman.v
Worker.v
FileWatcher.v
FileCmd.v
S3Client.v
Node.v
Proto.v
Insert.v
CamObjects.v
CamEvents.v
CamFlow.v
CamSignal.v
CamRsc.v
CamVir.v
CamInsert.v
CamCorrect.v
CamStored.v
Shape.v
CamShape.v
CamCrc.v
CamTcp.v
CamDegrees.v
CamFusion.v
CamStart.v
Monitor.v
MonitorStart.v
Machine.v
HwState.v
NodeReg.v
Lifecycle.v
Instance.v
NodeStart.v
Delivery.v
RoundTrip.v
