(* ===== verification/Prelude.v ===== *)
(** * sadip: a verification development

    sadip runs a fleet of roadside computing nodes. One node is the manager
    (configuration group "mgr"); the others are edge nodes. All run the same
    program, [src/node/src/main.cpp], and talk over a publish/subscribe bus
    (zenoh). The manager reads tasks from a data base, publishes them as command
    messages and stores the replies; an edge node carries commands out: it
    starts and stops programs, runs shell commands and Podman, lists and moves
    files, and sends files block by block.

    Two more programs run beside it. The monitor application
    ([src/monitor-app/]) stores how many messages every topic of the nodes has
    carried. The camera application ([src/cam-app/]) runs at the edge and in the
    cloud: at the edge it reads frames of a sensor fusion from a socket and
    messages from an MQTT broker, and publishes them; in the cloud it writes
    every message it receives into some fifty tables.

    ** The parts and the files that model them

    - [Prelude] (this file): [std::string] as a list of chars, machine integers,
      and lemmas and tactics shared by all files.
    - [SnowFlake]: the id generator, [src/utils/SnowFlake.h].
    - [Uuid]: random ids, [src/utils/uuid.h].
    - [SafeQueue]: the queue between threads, [src/utils/ThreadSafeQueue.h].
    - [StrUtil]: the string helpers, [src/utils/split.h].
    - [Ini]: the INI parser and reader, [src/utils/ini/].
    - [ConfigMap]: the maps of settings and of groups,
      [src/utils/config/ConfigMap.cpp] and [src/utils/parseJson.h].
    - [Topics]: key expressions, [src/dds/zenoh_topic_manager.cpp].
    - [Wiring]: from settings to the publishers and subscribers of a node,
      [src/node/src/main.cpp]; [NodeStart]: [main] as a whole, and the node as the
      objects it starts; [Instance]: the lock file of its single instance.
    - [Lifecycle]: the objects behind all topics, with their sessions, end points,
      threads and callbacks, [src/dds/ZenohBase.h] and the topic classes.
    - [FileSys]: the file system the sources run on (POSIX, not the program).
    - [FileSplit]: splitting and merging files, [src/utils/FileSplit.h].
    - [Messages]: the messages of the bus, [src/node/src/proto/].
    - [FileTransfer], [TransferCorrect]: sender and receiver of files, then both
      over a lossy bus, [src/node/src/FileTopic.cpp].
    - [ProcessManager]: the programs a node keeps running,
      [src/node/src/ProcessManager.cpp]; [ProcStat]: what it reads from [/proc].
    - [Db]: the data base client, [src/db/rd/rd.cpp]; [DbLife]: its start, the
      thread that checks its connections, and its end.
    - [Json]: the JSON writer, [src/third_party/rapidjson/writer.h].
    - [NodeCmd]: sending, receiving and answering commands,
      [src/node/src/NodeCmdTopic.cpp]; [Delivery]: the manager's table and the
      queues of a node over the bus; [RoundTrip]: the same with the workers of the
      node, up to the replies at the manager.
    - [LogMonitor]: following log files, [src/node/src/LogMonitor.cpp],
      [LogMonitorManager.cpp] and [LogTopic.cpp]; [LogRelay]: the rest of the
      last, its subscribers and threads.
    - [Exec]: shell commands, [src/node/src/CommandExecutor.h].
    - [Podman]: containers, [src/node/src/PodmanManager.cpp].
    - [Worker]: the command worker, [src/node/src/NodeCmdWorker.cpp].
    - [FileWatcher]: watched directories, [src/utils/aws/s3/FileWatcher.h].
    - [FileCmd]: the file worker, [src/node/src/FileTopic.cpp].
    - [S3Client]: the S3 client, [src/utils/aws/s3/helper.cpp] and
      [S3Singleton.cpp], and the commands that use it.
    - [Node]: the queues and the two workers as one system.
    - [NodeReg]: configurations for the nodes, [src/node/src/NodeTopic.cpp].
    - [Machine]: what nodes report about themselves,
      [src/node/src/PingTopic.cpp] and [MachineStateTopic.cpp].
    - [HwText], [HwPci], [HwCpu], [HwDisk], [HwSystem], [HwDevices]: the Linux
      part of the hardware library, [src/node/src/hwinfo/]: its text helpers, the
      data base of PCI devices, processors, disks, memory with operating system
      and board, and cards with batteries and networks; [HwState]: from there to
      the message of [MachineStateTopic.cpp].
    - [Monitor], [MonitorStart]: the counters of the topics,
      [src/dds/ZenohBase.h], and the monitor application, [src/monitor-app/src/].
    - [Printf], [Proto], [Insert]: the ground for everything that writes rows:
      [sprintf] with its types, widths and buffers; protobuf messages with
      fields by name; a monad of handlers that draw ids and execute statements.
    - [CamObjects], [CamEvents], [CamFlow], [CamSignal], [CamRsc], [CamVir]: the
      tables of [src/cam-app/src/DataInsert.cpp], in the order of the file, and
      [CamInsert], its three entry points. [CamCorrect] shows what holds of all
      of them (types, buffers, ends), [CamStored] what is stored; [Shape] reads
      statements, and [CamShape] shows where they have the shape of their tables.
    - [CamCrc], [CamTcp]: the checksum and the frames of the socket,
      [src/cam-app/src/TcpRecv.cpp] and [UserTcpServer.cpp]; [CamDegrees]: the
      conversion of coordinates.
    - [CamFusion]: the queues at the edge, from the socket and the broker to the
      bus, and the handler in the cloud, [UserTcpServer.cpp],
      [MqttSubscriber.cpp] and [CamTopic.cpp].
    - [CamStart]: [src/cam-app/src/CamService.cpp], and edge and cloud together.

    ** How they interact

    [Ini] and [ConfigMap] give [Wiring] the settings, [Topics] the key
    expressions. [NodeCmd.handle_cmd] puts a command that is for the node into
    one of two queues; [FileCmd.process_node_cmd] and [Worker.dispatch] take them
    from there. The main worker calls [ProcessManager], [LogMonitor], [Exec] and
    [Podman]; the file worker calls [FileSplit], [FileWatcher] and
    [FileTransfer]. Both queue replies, which [NodeCmd.reader_worker] publishes
    and, on the manager, [NodeCmd.handle_reply] stores. [Node] has the two
    workers behind one interface, the class [Responder]; its theorems use
    nothing else of them.

    [NodeStart.main] gives the settings to an object of [Lifecycle] for every end
    point of [Wiring]; the counters of an object are those of [Monitor]. What a
    handler makes of its message, which [Lifecycle] leaves open but for the
    counting and for replies, is in the file of its class; [Delivery] joins the
    two for commands: the writer of [NodeCmd] publishes to an object that may or
    may not have declared its subscriber yet.

    [NodeReg], [Machine] and [Monitor] are topics of the same program:
    [Machine.get_system_info] runs [ProcessManager.listener], and [HwState] gives
    it the figures of the hardware, from the contents of the files of the system
    that [HwCpu], [HwDisk], [HwSystem] and [HwDevices] read with [HwText], and the
    data base of [HwPci]. [NodeReg] writes
    files through [FileSys] and reads settings with [Ini]. All rows go through
    [Insert], whose ids come from [SnowFlake] by the class [Gen]. At the edge,
    [CamFusion] takes frames from [CamTcp], coordinates through [CamDegrees]
    and queues from [SafeQueue]; in the cloud it calls [CamInsert]. [CamStart]
    and [MonitorStart] put the publishing and the storing side together.

    ** Conventions

    The state of a component is a record (or the map or list the class has as
    its one member), an operation a function on it; an operation that sends,
    writes or starts something also returns it, or the changed state of an
    environment. An exception, or a call that does not return, is a constructor
    of the result ([outcome] in [FileTransfer] and [SnowFlake], [ending] in
    [Worker] and [FileCmd], [fault] in the files of the hardware, [fate] and
    [result] in [FileWatcher]) or [None], as said at the definition. Undefined
    behaviour of C++ (a dangling pointer, an overrun buffer, an iterator that a
    loop has made invalid) is [None] or [Undefined]; an operation that becomes
    undefined has no state afterwards that a theorem speaks of. Unsigned and
    signed integers are [Z] with [uwrap w] and [swrap w] where they can wrap
    around; a signed overflow is undefined. Locks: where a class runs every method
    under its mutex, a method is one step; where the order of smaller steps matters
    the steps are explicit: the critical sections of [SafeQueue], the two flags of
    [Db] and each access to them in [DbLife], the loads and stores of the counters in
    [Monitor], the two pushes of a message in [CamFusion], [FileWatcher]'s factory,
    [Lifecycle], [Instance]. [Lifecycle] counts a message in one step, since it asks
    only what objects do to the program and to each other; what becomes of counts
    that interleave is in [Monitor].
    Handlers that write rows stop, where C++ is undefined or does not return,
    with a [stop]: arguments that do not fit the format, an overrun buffer, an
    index out of range, no id, an endless loop; what they have executed so far
    is kept. A protobuf message is a tree of named fields, an absent field
    reads as its default. A socket is the list of the segments that arrive.
    A comment "src/path:a-b, [symbol]" before a definition says which lines it
    translates.

    What is not the repository's code is an argument: the operating system
    ([Os]), the shell ([Shell]), HTTP and JSON parsing ([Host]), the plugin
    framework ([Framework]), Poco's archives ([Tools]), the S3 service
    ([Service], with the promises [StoreLaws]), the bus, the data
    base driver and the clock. Theorems hold for every instance of them;
    examples use small concrete ones. Strings hold no zero byte, and a message
    is received as it was sent: serialisation is generated code.

    ** What the theorems show

    - Systems: over a bus that loses messages and replies at will a file
      transfer that reports success has delivered the file
      ([send_file_delivers]); the cloud stores the camera messages that came in
      at the edge, in their order and none twice ([cloud_stores_in_order],
      [frame_reaches_database], [edge_publishes_in_order]); the counters of a
      node reach the monitor's data base and account for what was counted
      ([counts_reach_database], [counts_account]), as long as
      no two of the threads are at one counter at the same time; otherwise counts
      are taken twice, lost or overwritten ([counted_twice], [count_lost],
      [calls_overwrite]).
    - Files: split and merge are inverse ([split_merge_roundtrip]); a block is
      tried a bounded number of times and the result says what was answered
      ([sendOneBlock_outcome]); what the receiver does with missing blocks and
      unusual destinations ([merge_first_missing], [missing_block_unanswered],
      [directory_destination_loses_file], [failure_reply_taken_for_success]);
      a file put into S3 by one node and got by another is the same
      ([s3_moves_file]), and which commands ask without keys
      ([delete_without_keys]).
    - Commands: each row is sent once ([commands_sent_once]), each command goes
      to the right queue ([handle_cmd_routing], [queue_matches_worker]), is
      answered by the worker once ([one_reply], [file_one_reply]) and by the node
      at most once under any interleaving ([answered_at_most_once]) until a
      [RESTART] ends the process ([restart_ends_answers]); every reply is handed to
      the publisher once, and lost if that throws ([replies_all_sent]), and stored if
      it fits its buffer ([reply_sql_fits]). A node that has declared its subscriber gets every
      command for it into its queues in one turn of the manager
      ([commands_delivered]), none more often than its row was written
      ([queued_at_most_once]); one that has not never gets them
      ([command_lost]). With workers that know the commands, the manager has one
      reply to each after a turn of its own and as many rounds of the node
      ([command_round_trip]).
    - Nodes: what [main] starts ([objects_started]), with the data base before
      all that needs it ([db_before_use]); that in no run of the threads the sessions, end points and
      threads of its objects end a node but by a null pointer in one of two listeners,
      unless the body of a handler or a loop does ([node_ended_by],
      [object_down_only]; how it comes to that, [configuration_ends_node],
      [reply_ends_node]); that a node's objects do not disturb each other
      ([node_is_its_objects]); that objects come up when the bus works
      ([comes_up]) and what becomes of them when it does not ([never_recovers],
      [waiting_returns_on_failure]); what using them otherwise would do
      ([one_role_per_object], [destroying_ends_program]); one instance
      at a time ([one_instance]) until one is refused
      ([refused_start_opens_door]); which starts end early ([no_settings],
      [groups_needed]).
    - Configurations: a new one is taken over or the old one restored
      ([config_taken_or_restored]); when the backup is lost
      ([backup_overwritten]), and what is restored where there was no old one
      ([refused_leaves_empty]).
    - Programs: uuids stay unique as long as all is defined, which it is until a
      program that is there is killed or removed ([uuids_unique]); configured programs are there
      after the start ([configured_present]); what starting, restarting and
      listening do ([add_app_starts], [stop_undefined], [listener_last]);
      what is reported of them ([state_names_programs], [state_stored]) and what
      their figures mean ([cpu_usage_is_time], [memory_usage_is_pid]).
    - Frames: whatever the segments, frames that are sent are received
      ([frames_received]), nothing but a frame is accepted ([got_is_framed]), a
      changed byte is noticed ([changed_byte_refused]), the table driven checksum
      is the shift register ([crc_is_register]), and when bytes are lost
      ([rest_of_segment_lost]).
    - Camera rows: formats and arguments agree ([cam_formats_fit]), buffers are
      large enough for short texts ([cam_within_buffers]; [cam_overruns],
      [paths_overrun] when not), the handler returns ([cam_returns]; not with a
      sensor area, [sensor_area_never_returns]), every row has as many values as
      its table's columns ([statements_balanced]; where not, [bsm_unbalanced],
      [obj_ids_unbalanced], [quote_unbalanced]) and is in the statement
      ([regions_stored]) unless the first is left out
      ([skipped_event_headless]); coordinates fit ([degrees_fit]) and paths are
      converted one by one ([convert_paths]).
    - Hardware: a machine whose files are in order is reported as it is
      ([state_of_machine]) and stored, row by row ([hardware_reaches_database]): one
      processor for every socket ([one_cpu_per_socket]; every thread where sockets alternate, [interleaved_sockets]) with the
      frequencies of all cores ([clock_speeds_end]), the disks without partitions
      ([disks_reported], which also says what other devices are; where [isPartition] is decided by derivatives,
      [matchb_spec]; [namespace_partition] when a disk is lost), the memory
      ([meminfo_read], [meminfo_without_available]), system and board
      ([os_release], [board_value]), cards with the names of the data base
      ([gpus_reported]), which is read back from its text ([database_roundtrip],
      [lookup_vendor]; [subsystems_misfiled] where it is not); the search for
      batteries ends ([batteries_end]); what an exception of the library does to
      the message ([no_siblings_nothing_sent]). The text helpers are specified in
      [HwText] ([cut_segments], [split_char_loses_rest], [strip_spec],
      [strip_blank], [split_get_index_spec]).
    - Data structures: ids increase and carry their fields ([ids_increasing],
      [id_fields]); random ids fit their buffer and are told apart
      ([generate_fits], [generate_injective]); the queue is first-in first-out and loses no wakeup
      ([queue_fifo], [queue_no_lost_wakeup]); strings split and join back
      ([split_unsplit]); an INI file that is written is read back
      ([reader_roundtrip]); key expressions are injective and the end points of
      manager and nodes pair up ([buildKeyExpr_injective],
      [file_channels_paired]).
    - Watching: a version of a file is handed to the upload once, whether that
      succeeds or not ([version_uploaded_once]), and an exception in it terminates the
      process ([exception_terminates]);
      when a log monitor stops ([monitor_dies_at_end]) and that its lines are not
      published ([active_but_silent]); what its topic makes of replies ([nothing_relayed],
      [replies_replace_messages], [reply_echoes]); the threads and locks of the
      watchers and of the data base client ([started_for_good],
      [delete_watcher_blocks], [flags_meaning],
      [lost_connection_not_repaired]); that a data base down at the start stays
      down, and that the check repairs one that was up
      ([down_at_start_stays_down]; unless two threads execute statements at the same
      time, [overlap_reopens]; [check_repairs], [destructor_uses_null]); that the edge starts by chance
      ([edge_start_by_chance]) and bounds nothing it queues
      ([queues_unbounded]).

    ** Fuel

    [subreplace], [split], [merge] and [send_file] run on fuel, since their loops
    need not end. [subreplace_diverges] and [split_diverges] say when they do
    not; the theorems about what they return give a bound on the fuel that is
    enough, in terms of the length of the string or of the file. The loops of
    the workers take the number of turns as an argument, reading from a socket
    the number of attempts the code has (100). [sensor_area_never_returns] holds
    for every number of turns. The text helpers of [HwText] have the length of
    their string as fuel ([cut_segments] shows that [split] returns); the loops
    over cores, cards and batteries have a number of turns, and more turns than
    there are of them are enough ([clock_speeds_end], [gpus_reported],
    [batteries_end]). All other recursion is structural.

    ** Not modelled

    Zenoh itself, of which a call works or throws; logging; the parts of [hwinfo] for Windows, macOS
    and OpenCL, which this build leaves out, and [GetSystemInfo.h], which nothing
    includes; the sockets and clients the camera
    application opens, and its publisher for the broker, which is never started;
    the AWS library; [ExecManager.h], [ThreadSafeMap.h], the listeners of
    [ZenohPublisherListener.h] and [ZenohSubscriberListener.h], and
    [FloderWatchMap.h], which nothing uses (the last calls a constructor that does
    not exist); the plugins a node may load, whose loading is commented out;
    third-party and generated code. *)

From Stdlib Require Export ZArith Lia Bool Ascii String.
From stdpp Require Export base tactics decidable list gmap strings pretty sorting.

#[global] Open Scope Z_scope.
#[global] Set Default Goal Selector "!".

(** ** Strings: a [std::string] is the list of its chars. *)

Abbreviation str := (list ascii).

Declare Scope sadip_scope.
Delimit Scope sadip_scope with sadip.
Notation "$ s" := (list_ascii_of_string s%string)
  (at level 1, s at level 0, format "$ s") : sadip_scope.
#[global] Open Scope sadip_scope.

(** A decidable fact without variables, by evaluation. *)
Ltac by_decision := apply (bool_decide_unpack _); vm_compute; exact I.

Create HintDb sadip.

(** [std::to_string] on an unsigned value. *)
Definition to_str (n : N) : str := list_ascii_of_string (pretty n).

(** [std::to_string] on a signed value. *)
Definition to_strz (z : Z) : str := list_ascii_of_string (pretty z).

(** [s.compare(0, p.size(), p) == 0]: the prefix test. *)
Fixpoint prefixb (p s : str) : bool :=
  match p, s with
  | [], _ => true
  | c :: p', d :: s' => if decide (c = d) then prefixb p' s' else false
  | _ :: _, [] => false
  end.

(** [s.find(sub)]: the first index at which [sub] occurs; [None] is [npos]. *)
Fixpoint sfind (sub s : str) : option nat :=
  if prefixb sub s then Some 0%nat
  else match s with
       | [] => None
       | _ :: s' => S <$> sfind sub s'
       end.

(** [s.find_first_of(cs)] and [s.find_last_of(cs)]: [cs] is a set of chars. *)
Definition in_set (cs : str) (c : ascii) : bool := bool_decide (c ∈ cs).

Fixpoint find_first_of (cs s : str) : option nat :=
  match s with
  | [] => None
  | c :: s' => if in_set cs c then Some 0%nat else S <$> find_first_of cs s'
  end.

Fixpoint find_last_of (cs s : str) : option nat :=
  match s with
  | [] => None
  | c :: s' => match find_last_of cs s' with
               | Some i => Some (S i)
               | None => if in_set cs c then Some 0%nat else None
               end
  end.

(** [s.replace(pos, len, r)] with [pos <= s.size()]. *)
Definition sreplace (pos len : nat) (r s : str) : str :=
  take pos s ++ r ++ drop (pos + len)%nat s.

(** ** Machine integers *)

(** The value an unsigned integer of [w] bits keeps of [z]. *)
Definition uwrap (w z : Z) : Z := z mod 2 ^ w.

(** The value a signed integer of [w] bits keeps of [z]. *)
Definition swrap (w z : Z) : Z := (z + 2 ^ (w - 1)) mod 2 ^ w - 2 ^ (w - 1).

(** ** Automation *)

Ltac break_match :=
  match goal with
  | H : context [match ?x with _ => _ end] |- _ => destruct x eqn:?
  | |- context [match ?x with _ => _ end] => destruct x eqn:?
  end.

Ltac simp := simplify_eq/=.

(** Split on every match in sight. *)
Ltac simp_cases := simplify_eq/=; repeat (case_match; simplify_eq/=).

(** A closed, computable fact. *)
Ltac crunch := vm_compute; repeat split; try reflexivity; try congruence.

(** ** Lemmas: strings *)

Lemma list_ascii_of_string_inj (a b : string) :
  list_ascii_of_string a = list_ascii_of_string b -> a = b.
Proof.
  intros H. rewrite <- (string_of_list_ascii_of_string a), H.
  apply string_of_list_ascii_of_string.
Qed.

#[export] Instance to_str_inj : Inj (=) (=) to_str.
Proof.
  intros a b H. apply list_ascii_of_string_inj in H. by apply (inj pretty) in H.
Qed.

#[export] Instance to_strz_inj : Inj (=) (=) to_strz.
Proof.
  intros a b H. apply list_ascii_of_string_inj in H. by apply (inj pretty) in H.
Qed.

Lemma prefixb_spec p s : prefixb p s = true <-> exists r, s = p ++ r.
Proof.
  revert s. induction p as [|c p IH]; intros s; simpl.
  - split; eauto.
  - destruct s as [|d s].
    + split; [done|]. by intros [r ?].
    + destruct (decide (c = d)) as [->|Hne].
      * rewrite IH. split.
        -- intros [r ->]. by exists r.
        -- intros [r Hr]. simplify_eq. eauto.
      * split; [done|]. intros [r Hr]. by simplify_eq.
Qed.

Lemma prefixb_app p r : prefixb p (p ++ r) = true.
Proof. apply prefixb_spec. eauto. Qed.

(** [sfind] returns the first occurrence. *)
Lemma sfind_some sub s i :
  sfind sub s = Some i ->
  (exists r, s = take i s ++ sub ++ r) /\
  (forall j, (j < i)%nat -> prefixb sub (drop j s) = false).
Proof.
  revert i. induction s as [|c s IH]; intros i; simpl.
  - destruct (prefixb sub []) eqn:E; intros; simplify_eq/=.
    apply prefixb_spec in E as [r Hr]. split; [by exists r | intros; lia].
  - destruct (prefixb sub (c :: s)) eqn:E; intros Hi; simplify_eq/=.
    + apply prefixb_spec in E as [r Hr]. split; [|intros; lia].
      exists r. by rewrite Hr.
    + destruct (sfind sub s) as [j|] eqn:Ej; simplify_eq/=.
      destruct (IH j eq_refl) as [[r Hr] Hj]. split.
      * exists r. by rewrite Hr at 1.
      * intros [|k] Hk; [done|]. simpl. apply Hj. lia.
Qed.

Lemma sfind_none sub s :
  sfind sub s = None <-> forall a b, s <> a ++ sub ++ b.
Proof.
  induction s as [|c s IH]; simpl.
  - destruct (prefixb sub []) eqn:E; simpl.
    + split; [done|]. intros H. apply prefixb_spec in E as [r Hr].
      by destruct (H [] r).
    + split; [|done]. intros _ a b Hab.
      destruct a, sub; simplify_eq/=.
  - destruct (prefixb sub (c :: s)) eqn:E.
    + split; [done|]. intros H. apply prefixb_spec in E as [r Hr].
      by destruct (H [] r).
    + rewrite fmap_None, IH. split.
      * intros H [|d a] b Hab; simpl in *.
        -- rewrite Hab, prefixb_app in E. done.
        -- simplify_eq. by destruct (H a b).
      * intros H a b ->. by destruct (H (c :: a) b).
Qed.

Lemma sfind_lt sub s i :
  sfind sub s = Some i -> (i + length sub <= length s)%nat.
Proof.
  intros H. pose proof H as H'. apply sfind_some in H as [[r Hr] _].
  assert (i <= length s)%nat.
  { clear Hr. revert i H'. induction s as [|c s IH]; intros i; simpl.
    - destruct (prefixb sub []); intros; simplify_eq/=; lia.
    - destruct (prefixb sub (c :: s)); intros Hi; simplify_eq/=; [lia|].
      destruct (sfind sub s) eqn:E; simplify_eq/=.
      specialize (IH _ eq_refl). lia. }
  apply (f_equal length) in Hr. rewrite !length_app, length_take in Hr. lia.
Qed.

Lemma find_last_of_none cs s :
  find_last_of cs s = None <-> Forall (fun c => in_set cs c = false) s.
Proof.
  induction s as [|c s IH]; simpl; [by split|].
  rewrite Forall_cons, <- IH. destruct (find_last_of cs s).
  - by split; [|intros [_ ?]].
  - destruct (in_set cs c); split; try done; by intros [? _].
Qed.

Lemma find_last_of_app_none cs a b :
  find_last_of cs b = None -> find_last_of cs (a ++ b) = find_last_of cs a.
Proof. intros Hb. induction a as [|c a IH]; simpl; [done|]. by rewrite IH. Qed.

Lemma find_last_of_app_some cs a b i :
  find_last_of cs b = Some i ->
  find_last_of cs (a ++ b) = Some (length a + i)%nat.
Proof. intros Hb. induction a as [|c a IH]; simpl; [done|]. by rewrite IH. Qed.

(** ** Lemmas: integers *)

Lemma uwrap_small w z : 0 <= z < 2 ^ w -> uwrap w z = z.
Proof. apply Z.mod_small. Qed.

Lemma uwrap_range w z : 0 <= w -> 0 <= uwrap w z < 2 ^ w.
Proof. intros. apply Z.mod_pos_bound. lia. Qed.

Lemma swrap_small w z :
  0 < w -> - 2 ^ (w - 1) <= z < 2 ^ (w - 1) -> swrap w z = z.
Proof.
  intros Hw Hz. unfold swrap.
  assert (2 ^ w = 2 * 2 ^ (w - 1)).
  { rewrite <- Z.pow_succ_r by lia. f_equal. lia. }
  rewrite Z.mod_small; lia.
Qed.

(** Or-ing a value that fits under a shift adds it. *)
Lemma land_shiftl_small a b k :
  0 <= k -> 0 <= b < 2 ^ k -> Z.land (Z.shiftl a k) b = 0.
Proof.
  intros Hk Hb. apply Z.bits_inj'. intros n Hn.
  rewrite Z.land_spec, Z.bits_0, Z.shiftl_spec by done.
  destruct (decide (n < k)); [by rewrite Z.testbit_neg_r by lia|].
  apply andb_false_iff. right.
  destruct (decide (b = 0)) as [->|]; [apply Z.bits_0|].
  apply Z.bits_above_log2; [lia|].
  apply Z.lt_le_trans with k; [|lia]. apply Z.log2_lt_pow2; lia.
Qed.

Lemma lor_shiftl_add a b k :
  0 <= k -> 0 <= b < 2 ^ k -> Z.lor (Z.shiftl a k) b = a * 2 ^ k + b.
Proof.
  intros Hk Hb. pose proof (land_shiftl_small a b k Hk Hb) as Hl.
  rewrite <- Z.shiftl_mul_pow2, Z.add_nocarry_lxor, Z.lxor_lor by done. done.
Qed.

Lemma shiftl_uwrap a k w :
  0 <= k <= w -> uwrap w (Z.shiftl a k) = Z.shiftl (uwrap (w - k) a) k.
Proof.
  intros H. unfold uwrap. rewrite !Z.shiftl_mul_pow2 by lia.
  replace w with ((w - k) + k) at 1 by lia.
  rewrite Z.pow_add_r by lia. apply Z.mul_mod_distr_r; lia.
Qed.

(** ** Lemmas: lists *)

Lemma last_snoc_cases {A} (l : list A) : l = [] \/ exists l' x, l = l' ++ [x].
Proof. induction l using rev_ind; eauto. Qed.

Lemma take_drop_app_len {A} (l k : list A) :
  take (length l) (l ++ k) = l /\ drop (length l) (l ++ k) = k.
Proof. split; [apply take_app_length | apply drop_app_length]. Qed.

#[export] Hint Rewrite @length_app @length_take @length_drop @length_fmap : sadip.
#[export] Hint Resolve prefixb_app uwrap_range : sadip.
