(* ===== verification/SnowFlake.v ===== *)
(** * The id generator ([src/utils/SnowFlake.h])

    The generator's four [uint64_t] fields are a record; a call of [nextId]
    consumes readings of the clock, which is not the repository's code and is
    given as the list of the [timeval]s that [gettimeofday] returns. *)

From S2P Require Import Prelude.

Module SnowFlake.

(** src/utils/SnowFlake.h:18-29, [start_stmp_]. *)
Definition start_stmp_ : Z := 1480166465631.
Definition sequence_bit_ : Z := 12.
Definition machine_bit_ : Z := 5.
Definition datacenter_bit_ : Z := 5.

(** src/utils/SnowFlake.h:23-25, [max_datacenter_num_]. The constants
    [-1 ^ (uint64_t(-1) << bits)], computed in 64 bits. *)
Definition max_num (bits : Z) : Z :=
  Z.lxor (uwrap 64 (-1)) (uwrap 64 (Z.shiftl (uwrap 64 (-1)) bits)).
Definition max_datacenter_num_ : Z := max_num datacenter_bit_.
Definition max_machine_num_ : Z := max_num machine_bit_.
Definition max_sequence_num_ : Z := max_num sequence_bit_.

(** src/utils/SnowFlake.h:27-29, [machine_left]. *)
Definition machine_left : Z := sequence_bit_.
Definition datacenter_left : Z := sequence_bit_ + machine_bit_.
Definition timestmp_left : Z := sequence_bit_ + machine_bit_ + datacenter_bit_.

(** src/utils/SnowFlake.h:31-34, [SnowFlake]. *)
Record t := mk {
  datacenterId : Z;
  machineId : Z;
  sequence : Z;
  lastStmp : Z;
}.

(** A reading of the clock: [tv_sec] and [tv_usec]. *)
Record timeval := tv { tv_sec : Z; tv_usec : Z }.

(** src/utils/SnowFlake.h:46-71, [getNewstmp]. The branch of the Linux build. *)
Definition getNewstmp (c : timeval) : Z :=
  uwrap 64 (uwrap 64 (tv_usec c) `div` 1000 + uwrap 64 (tv_sec c * 1000)).

(** src/utils/SnowFlake.h:38-44, [getNextMill]. [None]: the readings ran out
    with the loop still spinning. *)
Fixpoint getNextMill (last : Z) (clk : list timeval) : option (Z * list timeval) :=
  match clk with
  | [] => None
  | c :: clk' => if getNewstmp c <=? last then getNextMill last clk'
                 else Some (getNewstmp c, clk')
  end.

(** src/utils/SnowFlake.h:74-87, [SnowFlake::SnowFlake]. [None] is [exit(0)]. *)
Definition new (datacenter_Id machine_Id : Z) : option t :=
  if (max_datacenter_num_ <? uwrap 64 datacenter_Id) || (datacenter_Id <? 0)
  then None
  else if (max_machine_num_ <? uwrap 64 machine_Id) || (machine_Id <? 0)
  then None
  else Some (mk (uwrap 64 datacenter_Id) (uwrap 64 machine_Id) 0 0).

Inductive outcome :=
  | Exited                                  (* [exit(0)]: the clock went back *)
  | Spinning                                (* no reading left *)
  | Id (id : Z) (s : t) (clk : list timeval).

(** src/utils/SnowFlake.h:106-109, [nextId]. The id of a generator's fields. *)
Definition compose (s : t) : Z :=
  Z.lor (Z.lor (Z.lor
    (uwrap 64 (Z.shiftl (uwrap 64 (lastStmp s - start_stmp_)) timestmp_left))
    (uwrap 64 (Z.shiftl (datacenterId s) datacenter_left)))
    (uwrap 64 (Z.shiftl (machineId s) machine_left)))
    (sequence s).

(** src/utils/SnowFlake.h:89-110, [nextId]. *)
Definition nextId (s : t) (clk : list timeval) : outcome :=
  match clk with
  | [] => Spinning
  | c :: clk1 =>
      let currStmp := getNewstmp c in
      if currStmp <? lastStmp s then Exited
      else if currStmp =? lastStmp s then
        let seq := Z.land (uwrap 64 (sequence s + 1)) max_sequence_num_ in
        if seq =? 0 then
          match getNextMill (lastStmp s) clk1 with
          | None => Spinning
          | Some (mill, clk2) =>
              let s' := mk (datacenterId s) (machineId s) seq mill in
              Id (compose s') s' clk2
          end
        else
          let s' := mk (datacenterId s) (machineId s) seq currStmp in
          Id (compose s') s' clk1
      else
        let s' := mk (datacenterId s) (machineId s) 0 currStmp in
        Id (compose s') s' clk1
  end.

(** The ids of [n] consecutive calls; the list stops where a call does not
    return. *)
Fixpoint ids (n : nat) (s : t) (clk : list timeval) : list Z :=
  match n with
  | O => []
  | S n' => match nextId s clk with
            | Id id s' clk' => id :: ids n' s' clk'
            | _ => []
            end
  end.

(** The fields of an id. *)
Definition id_stmp (id : Z) : Z := Z.shiftr id timestmp_left + start_stmp_.
Definition id_datacenter (id : Z) : Z := Z.land (Z.shiftr id datacenter_left) max_datacenter_num_.
Definition id_machine (id : Z) : Z := Z.land (Z.shiftr id machine_left) max_machine_num_.
Definition id_sequence (id : Z) : Z := Z.land id max_sequence_num_.

(** The generator's invariant, and the clock's range in which 42 bits of
    timestamp do not overflow (139 years from November 2016). *)
Definition wf (s : t) : Prop :=
  0 <= datacenterId s < 2 ^ 5 /\ 0 <= machineId s < 2 ^ 5 /\
  0 <= sequence s < 2 ^ 12 /\ 0 <= lastStmp s < 2 ^ 64.

Definition in_era (ms : Z) : Prop := start_stmp_ <= ms < start_stmp_ + 2 ^ 42.

Definition in_erab (ms : Z) : bool :=
  (start_stmp_ <=? ms) && (ms <? start_stmp_ + 2 ^ 42).

(** A machine-readable order on generator states: later stamp, or the same
    stamp and a later sequence number. *)
Definition before (s s' : t) : Prop :=
  lastStmp s < lastStmp s' \/
  (lastStmp s = lastStmp s' /\ sequence s < sequence s').

(** ** Lemmas *)

Lemma max_nums :
  max_datacenter_num_ = Z.ones 5 /\ max_machine_num_ = Z.ones 5 /\
  max_sequence_num_ = Z.ones 12.
Proof. by vm_compute. Qed.

Lemma getNewstmp_range c : 0 <= getNewstmp c < 2 ^ 64.
Proof. by apply uwrap_range. Qed.

Lemma new_wf d m s : new d m = Some s -> wf s.
Proof.
  unfold new. destruct max_nums as (-> & -> & _).
  change (Z.ones 5) with 31. intros H. repeat case_match; simplify_eq.
  rewrite orb_false_iff, !Z.ltb_ge in *.
  pose proof (uwrap_range 64 d ltac:(done)). pose proof (uwrap_range 64 m ltac:(done)).
  unfold wf; simpl. repeat split; lia.
Qed.

Lemma getNextMill_later last clk mill clk' :
  getNextMill last clk = Some (mill, clk') ->
  last < mill /\ exists c pre, clk = pre ++ c :: clk' /\ mill = getNewstmp c.
Proof.
  induction clk as [|c clk IH]; simpl; [done|].
  destruct (Z.leb_spec (getNewstmp c) last).
  - intros H'. destruct (IH H') as (? & c' & pre & -> & ->).
    split; [done|]. by exists c', (c :: pre).
  - intros; simplify_eq. split; [lia|]. by exists c, [].
Qed.

(** A call keeps the invariant, keeps the two ids, moves the generator on and
    stamps it with one of the readings it consumed. *)
Lemma nextId_step s clk id s' clk' :
  wf s -> nextId s clk = Id id s' clk' ->
  wf s' /\ before s s' /\ id = compose s' /\
  datacenterId s' = datacenterId s /\ machineId s' = machineId s /\
  exists pre c, clk = pre ++ c :: clk' /\ lastStmp s' = getNewstmp c.
Proof.
  intros (Hd & Hm & Hs & Hl). unfold nextId.
  destruct max_nums as (_ & _ & ->).
  destruct clk as [|c clk]; [done|].
  pose proof (getNewstmp_range c) as Hc.
  rewrite Z.land_ones by lia. rewrite (uwrap_small 64) by lia.
  destruct (Z.ltb_spec (getNewstmp c) (lastStmp s)); [done|].
  destruct (Z.eqb_spec (getNewstmp c) (lastStmp s)).
  - destruct (Z.eqb_spec ((sequence s + 1) `mod` 2 ^ 12) 0) as [E|E].
    + destruct (getNextMill _ _) as [[mill clk2]|] eqn:G; [|done].
      intros; simplify_eq. apply getNextMill_later in G as (? & c' & pre & -> & ->).
      pose proof (getNewstmp_range c').
      unfold wf, before; simpl. rewrite E.
      repeat split; try lia. by exists (c :: pre), c'.
    + intros; simplify_eq. unfold wf, before; simpl.
      assert (sequence s + 1 < 2 ^ 12).
      { destruct (decide (sequence s + 1 = 2 ^ 12)) as [E'|]; [|lia].
        rewrite E' in E. done. }
      rewrite Z.mod_small in * by lia.
      repeat split; try lia. by exists [], c.
  - intros; simplify_eq. unfold wf, before; simpl.
    repeat split; try lia. by exists [], c.
Qed.

(** The arithmetic value of an id within the era. *)
Lemma compose_value s :
  wf s -> in_era (lastStmp s) ->
  compose s = (lastStmp s - start_stmp_) * 2 ^ 22 + (datacenterId s * 2 ^ 17 +
              (machineId s * 2 ^ 12 + sequence s)).
Proof.
  intros (Hd & Hm & Hs & Hl) He. unfold in_era in He. unfold compose.
  change timestmp_left with 22. change datacenter_left with 17.
  change machine_left with 12.
  rewrite <- !Z.lor_assoc.
  rewrite (uwrap_small 64 (lastStmp s - start_stmp_))
    by (unfold start_stmp_ in *; lia).
  assert (Hsm : forall a k, 0 <= k -> 0 <= a * 2 ^ k < 2 ^ 64 ->
    uwrap 64 (Z.shiftl a k) = Z.shiftl a k).
  { intros a k ? ?. apply uwrap_small. by rewrite Z.shiftl_mul_pow2. }
  rewrite !Hsm by (unfold start_stmp_ in *; lia).
  rewrite (lor_shiftl_add (machineId s)) by lia.
  rewrite (lor_shiftl_add (datacenterId s)) by lia.
  rewrite lor_shiftl_add by lia. done.
Qed.

Lemma compose_before s s' :
  wf s -> wf s' -> in_era (lastStmp s) -> in_era (lastStmp s') ->
  datacenterId s' = datacenterId s -> machineId s' = machineId s ->
  before s s' -> compose s < compose s'.
Proof.
  intros Hw Hw' He He' Hd Hm Hb.
  rewrite !compose_value by done. rewrite Hd, Hm.
  destruct Hw as (? & ? & ? & ?), Hw' as (? & ? & ? & ?).
  destruct Hb as [Hb|[-> Hb]]; lia.
Qed.

Lemma ids_above n s clk :
  wf s -> Forall (fun c => in_era (getNewstmp c)) clk ->
  Forall (fun id => in_era (lastStmp s) -> compose s < id) (ids n s clk).
Proof.
  revert s clk. induction n as [|n IH]; intros s clk Hw He; simpl; [done|].
  destruct (nextId s clk) as [| |id s' clk'] eqn:E; try done.
  apply nextId_step in E as (Hw' & Hb & -> & Hd & Hm & pre & c & -> & Hc); [|done].
  apply Forall_app in He as [_ He]. apply Forall_cons in He as [Hc' He].
  assert (in_era (lastStmp s) -> compose s < compose s') as Hlt.
  { intros. apply compose_before; try done. by rewrite Hc. }
  constructor; [done|].
  specialize (IH s' clk' Hw' He). eapply Forall_impl; [exact IH|].
  simpl. intros id Hid Hs. rewrite Hc in Hid. specialize (Hid Hc'). specialize (Hlt Hs). lia.
Qed.

(** ** Properties *)

(** C27. The ids a generator hands out in any number of consecutive calls are
    strictly increasing (so no id is handed out twice), whatever the clock
    does, as long as its readings stay in the 139 years the 42 timestamp bits
    last. *)
Theorem ids_increasing n d m s clk :
  new d m = Some s ->
  Forall (fun c => in_era (getNewstmp c)) clk ->
  StronglySorted Z.lt (ids n s clk).
Proof.
  intros Hn He. apply new_wf in Hn. revert s clk Hn He.
  induction n as [|n IH]; intros s clk Hw He; simpl; [constructor|].
  destruct (nextId s clk) as [| |id s' clk'] eqn:E; try constructor.
  all: apply nextId_step in E as (Hw' & _ & -> & _ & _ & pre & c & -> & Hc); [|done].
  all: apply Forall_app in He as [_ He]; apply Forall_cons in He as [Hc' He].
  - by apply IH.
  - eapply Forall_impl; [by apply ids_above|]. simpl. intros id Hid.
    apply Hid. by rewrite Hc.
Qed.

Definition clk3 : list timeval :=
  [tv 1700000000 5000; tv 1700000000 5999; tv 1700000000 6000].

Lemma clk3_in_era : Forall (fun c => in_era (getNewstmp c)) clk3.
Proof. repeat constructor; vm_compute; congruence. Defined.

Lemma ids_increasing_witness :
  exists s, new 1 3 = Some s /\ length (ids 3 s clk3) = 3%nat /\
  StronglySorted Z.lt (ids 3 s clk3).
Proof.
  exists (mk 1 3 0 0). split; [reflexivity|]. split; [reflexivity|].
  apply (ids_increasing 3 1 3); [reflexivity | exact clk3_in_era].
Defined.

(** An id decodes: its four bit fields are the reading of the clock that
    stamped it, the two configured ids and the sequence number. *)
Theorem id_fields s clk id s' clk' :
  wf s -> Forall (fun c => in_era (getNewstmp c)) clk ->
  nextId s clk = Id id s' clk' ->
  id_stmp id = lastStmp s' /\ id_datacenter id = datacenterId s /\
  id_machine id = machineId s /\ id_sequence id = sequence s' /\
  0 <= id < 2 ^ 64.
Proof.
  intros Hw He E.
  apply nextId_step in E as (Hw' & _ & -> & Hd & Hm & pre & c & -> & Hc); [|done].
  apply Forall_app in He as [_ He]. apply Forall_cons in He as [Hc' _].
  rewrite <- Hc in Hc'. rewrite compose_value by done. rewrite <- Hd, <- Hm.
  destruct Hw' as (? & ? & ? & ?). unfold in_era in Hc'.
  unfold id_stmp, id_datacenter, id_machine, id_sequence.
  destruct max_nums as (-> & -> & ->).
  change timestmp_left with 22. change datacenter_left with 17.
  change machine_left with 12.
  rewrite !Z.shiftr_div_pow2, !Z.land_ones by lia.
  unfold start_stmp_ in *.
  repeat split; Z.to_euclidean_division_equations; lia.
Qed.

Lemma id_fields_witness :
  let s := mk 1 3 7 1700000000005 in
  let s' := mk 1 3 8 1700000000005 in
  nextId s clk3 = Id 922048672559149064 s' (drop 1 clk3) /\
  id_stmp 922048672559149064 = lastStmp s' /\
  id_datacenter 922048672559149064 = datacenterId s /\
  id_machine 922048672559149064 = machineId s /\
  id_sequence 922048672559149064 = sequence s' /\
  0 <= 922048672559149064 < 2 ^ 64.
Proof.
  split; [vm_compute; reflexivity|].
  apply (id_fields (mk 1 3 7 1700000000005) clk3 _ _ (drop 1 clk3));
    [repeat split; vm_compute; congruence | exact clk3_in_era
    | vm_compute; reflexivity].
Defined.

(** Within the era an id determines the whole state that composed it:
    generators with different datacenter or machine ids never hand out the
    same id, and generators with the same ones (every node constructs
    [SnowFlake(1, 3)], src/node/src/NodeTopic.cpp:22) hand out the same id
    whenever they are stamped by the same millisecond with the same sequence
    number. *)
Theorem id_determines_state s1 s2 :
  wf s1 -> wf s2 -> in_era (lastStmp s1) -> in_era (lastStmp s2) ->
  compose s1 = compose s2 <-> s1 = s2.
Proof.
  intros Hw1 Hw2 He1 He2. split; [|by intros ->].
  rewrite !compose_value by done.
  destruct s1, s2, Hw1 as (? & ? & ? & ?), Hw2 as (? & ? & ? & ?); simpl in *.
  intros. f_equal; lia.
Qed.

Lemma id_determines_state_witness :
  let a := mk 1 3 0 1700000000005 in
  let b := mk 1 3 1 1700000000005 in
  compose a = compose b <-> a = b.
Proof.
  apply id_determines_state; repeat split; vm_compute; congruence.
Defined.

End SnowFlake.
