(* ===== verification/Uuid.v ===== *)
(** * Random ids ([src/utils/uuid.h])

    Sixteen bytes of libuuid, printed as hexadecimal numbers into a buffer. *)

From S2P Require Import Prelude.

Module Uuid.

Definition GUID_LEN : nat := 64.

(** A digit of [%X]. *)
Definition hex (d : Z) : ascii := ascii_of_nat (Z.to_nat (if d <? 10 then 48 + d else 55 + d)).

(** [%02X] of a byte. *)
Definition two_digits (b : Z) : str := [hex (b / 16); hex (b mod 16)].

(** src/utils/uuid.h:60-68, [utility::uuid::generate]. The loop from byte [i] on;
    [buf] is what the buffer holds. [None]: it is overrun by a char or the zero
    behind it. *)
Fixpoint print_from (i : nat) (uu : list Z) (buf : str) : option str :=
  match uu with
  | [] => Some buf
  | b :: uu' =>
      let buf' := buf ++ (if (i <? 15)%nat then two_digits b ++ $"-" else two_digits b) in
      if (length buf' <? GUID_LEN)%nat then print_from (S i) uu' buf' else None
  end.

(** src/utils/uuid.h:52-71, [utility::uuid::generate]. [uu] are the bytes of
    [uuid_generate]. *)
Definition generate (uu : list Z) : option str := print_from 0 uu [].

Definition byte (b : Z) : Prop := 0 <= b < 256.

(** The sixteen bytes of an id. *)
Definition uuid_t (uu : list Z) : Prop := length uu = 16%nat /\ Forall byte uu.

(** What is printed. *)
Fixpoint text (uu : list Z) : str :=
  match uu with
  | [] => []
  | [b] => two_digits b
  | b :: uu' => two_digits b ++ $"-" ++ text uu'
  end.

Lemma text_cons b c uu : text (b :: c :: uu) = two_digits b ++ $"-" ++ text (c :: uu).
Proof. done. Qed.

Lemma text_length uu : uu <> [] -> length (text uu) = (3 * length uu - 1)%nat.
Proof.
  induction uu as [|b [|c uu] IH]; intros Hne; [done|done|]. rewrite text_cons, !length_app, IH by done. simpl. lia.
Qed.

Lemma print_from_text uu : forall i buf,
  (length uu <> 0)%nat -> (i + length uu = 16)%nat -> (length buf + 3 * length uu <= GUID_LEN)%nat ->
  print_from i uu buf = Some (buf ++ text uu).
Proof.
  induction uu as [|b uu IH]; intros i buf Hne Hi Hl; [done|]. simpl in Hi, Hl. cbn [print_from]. cbv zeta.
  destruct uu as [|c uu].
  - unfold GUID_LEN in *. simpl in Hi. rewrite (proj2 (Nat.ltb_ge i 15)) by lia. rewrite length_app. cbn [length two_digits].
    rewrite (proj2 (Nat.ltb_lt _ _)) by (simpl in Hl; lia). done.
  - unfold GUID_LEN in *. simpl in Hi, Hl. rewrite (proj2 (Nat.ltb_lt i 15)) by lia. rewrite !length_app. cbn [length two_digits list_ascii_of_string].
    rewrite (proj2 (Nat.ltb_lt _ _)) by lia.
    rewrite IH; [by rewrite text_cons, <- !app_assoc|done|simpl; lia|].
    rewrite !length_app. cbn [length two_digits list_ascii_of_string]. lia.
Qed.

(** An id of sixteen bytes fits the buffer: it has 47 chars. *)
Theorem generate_fits uu : length uu = 16%nat -> exists s, generate uu = Some s /\ length s = 47%nat.
Proof.
  intros H. exists (text uu). unfold generate. rewrite print_from_text by (unfold GUID_LEN; simpl; lia).
  split; [done|]. rewrite text_length by by destruct uu. lia.
Qed.

Lemma generate_fits_witness : exists s, generate (replicate 16 171) = Some s /\ length s = 47%nat.
Proof. by apply generate_fits. Defined.

Lemma hex_inj d e : 0 <= d < 16 -> 0 <= e < 16 -> hex d = hex e -> d = e.
Proof.
  unfold hex. intros Hd He H. apply (f_equal nat_of_ascii) in H.
  rewrite !nat_ascii_embedding in H by (destruct (Z.ltb_spec d 10), (Z.ltb_spec e 10); lia).
  destruct (Z.ltb_spec d 10), (Z.ltb_spec e 10); lia.
Qed.

Lemma two_digits_inj b c : byte b -> byte c -> two_digits b = two_digits c -> b = c.
Proof.
  unfold byte, two_digits. intros Hb Hc [= H1 H2].
  apply hex_inj in H1; [|split; [apply Z.div_pos; lia|apply Z.div_lt_upper_bound; lia]..].
  apply hex_inj in H2; [|apply Z.mod_pos_bound; lia..].
  rewrite (Z.div_mod b 16), (Z.div_mod c 16) by lia. by rewrite H1, H2.
Qed.

Lemma text_inj uu : forall vv, length uu = length vv -> Forall byte uu -> Forall byte vv -> text uu = text vv -> uu = vv.
Proof.
  induction uu as [|b uu IH]; intros [|c vv] Hl Hu Hv H; try done. injection Hl as Hl.
  apply Forall_cons in Hu as [Hb Hu]. apply Forall_cons in Hv as [Hc Hv].
  destruct uu as [|d uu], vv as [|e vv]; try done.
  - f_equal. by apply two_digits_inj.
  - rewrite !text_cons in H. apply app_inj_1 in H as [H1 H2]; [|done]. apply app_inv_head in H2.
    f_equal; [by apply two_digits_inj|by apply IH].
Qed.

(** Two ids print alike only if they are the same. *)
Theorem generate_injective uu vv (Hu : uuid_t uu) (Hv : uuid_t vv) (H : generate uu = generate vv) : uu = vv.
Proof.
  destruct Hu as [Lu Hu], Hv as [Lv Hv]. unfold generate in H.
  rewrite !print_from_text in H by (unfold GUID_LEN; simpl; lia). injection H as H. apply text_inj; congruence.
Qed.

Lemma generate_injective_witness : replicate 16 171 = replicate 16 171.
Proof. apply generate_injective; [split; [done|by apply Forall_replicate]..|reflexivity]. Defined.

Example an_id :
  generate [18; 52; 86; 120; 154; 188; 222; 240; 1; 2; 3; 4; 5; 6; 7; 8]
  = Some $"12-34-56-78-9A-BC-DE-F0-01-02-03-04-05-06-07-08".
Proof. vm_compute. reflexivity. Qed.

End Uuid.
