(* ===== verification/SafeQueue.v ===== *)
(** * The queue between threads ([src/utils/ThreadSafeQueue.h])

    Every operation runs under the queue's mutex, so a step of the model is one
    critical section; [Push] unlocks before it notifies, so it is two steps,
    and a blocked pop is a consumer asleep on the condition variable. *)

From S2P Require Import Prelude.

Section SafeQueue.
Context {T : Type}.

(** ** The operations under the lock *)

(** src/utils/ThreadSafeQueue.h:41-52, [ThreadSafeQueue::TryPop]. [None] is
    [false], which leaves [value] alone. *)
Definition TryPop (q : list T) : option T * list T :=
  match q with
  | [] => (None, [])
  | v :: q' => (Some v, q')
  end.

(** src/utils/ThreadSafeQueue.h:74-81, [ThreadSafeQueue::Push]. *)
Definition Push (v : T) (q : list T) : list T := q ++ [v].

(** src/utils/ThreadSafeQueue.h:25-28, [ThreadSafeQueue::Empty]. *)
Definition Empty (q : list T) : bool := match q with [] => true | _ => false end.

(** src/utils/ThreadSafeQueue.h:30-33, [ThreadSafeQueue::Size]. *)
Definition Size (q : list T) : Z := uwrap 32 (Z.of_nat (length q)).

(** ** The queue with its condition variable

    [awake] consumers are inside a blocking pop and about to evaluate the
    predicate; [asleep] ones are in [notempty_cond_]; [notifies] producers have
    unlocked the mutex and not yet called [notify_one]. *)

(** src/utils/ThreadSafeQueue.h:35-38, [ThreadSafeQueue]. *)
Record qstate := QState {
  q_ : list T;
  awake : nat;
  asleep : nat;
  notifies : nat;
}.

(** src/utils/ThreadSafeQueue.h:62-73, [ThreadSafeQueue::WaitAndTryPop]. When
    [rel_time] has passed, a woken consumer evaluates the predicate once more
    and leaves whatever it finds; the answer is the method's. *)
Definition timeout_check (s : qstate) : option (qstate * option T) :=
  match awake s with
  | O => None
  | S n => let '(r, q') := TryPop (q_ s) in
           Some (QState q' n (asleep s) (notifies s), r)
  end.

Inductive event :=
  | EPush (v : T)         (* lines 76-78: lock, push, unlock *)
  | ENotify               (* line 79: notify_one *)
  | ETryPop               (* lines 42-52 *)
  | EEnter                (* a thread calls WaitAndPop or WaitAndTryPop *)
  | ECheck                (* it evaluates the predicate under the lock *)
  | EWake                 (* a sleeper wakes with no notification, or timed out *)
  | EExpire.              (* a consumer whose time is up looks a last time *)

(** src/utils/ThreadSafeQueue.h:54-81, [ThreadSafeQueue::WaitAndPop]. One step;
    the second component is the value a consumer leaves with, [None] when the
    step is not enabled. *)
Definition qstep (s : qstate) (e : event) : option (qstate * option T) :=
  match e with
  | EPush v => Some (QState (Push v (q_ s)) (awake s) (asleep s) (S (notifies s)), None)
  | ENotify =>
      match notifies s with
      | O => None
      | S n => match asleep s with
               | O => Some (QState (q_ s) (awake s) O n, None)
               | S m => Some (QState (q_ s) (S (awake s)) m n, None)
               end
      end
  | ETryPop =>
      let '(r, q') := TryPop (q_ s) in
      Some (QState q' (awake s) (asleep s) (notifies s), r)
  | EEnter => Some (QState (q_ s) (S (awake s)) (asleep s) (notifies s), None)
  | ECheck =>
      match awake s with
      | O => None
      | S n => match q_ s with
               | [] => Some (QState [] n (S (asleep s)) (notifies s), None)
               | v :: q' => Some (QState q' n (asleep s) (notifies s), Some v)
               end
      end
  | EWake =>
      match asleep s with
      | O => None
      | S m => Some (QState (q_ s) (S (awake s)) m (notifies s), None)
      end
  | EExpire => timeout_check s
  end.

(** A schedule: the states it goes through and the values popped, in order. *)
Fixpoint qrun (s : qstate) (es : list event) : option (qstate * list T) :=
  match es with
  | [] => Some (s, [])
  | e :: es' =>
      '(s1, r) ← qstep s e;
      '(s2, rs) ← qrun s1 es';
      Some (s2, option_list r ++ rs)
  end.

Definition init : qstate := QState [] 0 0 0.

(** The values a schedule pushes, in order. *)
Fixpoint pushed (es : list event) : list T :=
  match es with
  | [] => []
  | EPush v :: es' => v :: pushed es'
  | _ :: es' => pushed es'
  end.

(** No wakeup is lost: while a consumer sleeps, each queued value has a
    notification on its way or a consumer about to look. *)
Definition no_lost_wakeup (s : qstate) : Prop :=
  (0 < asleep s)%nat -> (length (q_ s) <= notifies s + awake s)%nat.

(** ** Lemmas *)

Lemma qstep_fifo s e s' r :
  qstep s e = Some (s', r) ->
  option_list r ++ q_ s' = q_ s ++ pushed [e].
Proof.
  destruct s as [q a z n], e; simpl; unfold Push, timeout_check, TryPop;
    simpl; intros H; simp_cases; by rewrite ?app_nil_r.
Qed.

Lemma qrun_fifo s es s' rs :
  qrun s es = Some (s', rs) -> rs ++ q_ s' = q_ s ++ pushed es.
Proof.
  revert s rs. induction es as [|e es IH]; intros s rs; simpl.
  - intros; simplify_eq/=. by rewrite app_nil_r.
  - destruct (qstep s e) as [[s1 r]|] eqn:E; simpl; [|done].
    destruct (qrun s1 es) as [[s2 rs2]|] eqn:R; simpl; [|done].
    intros; simplify_eq. apply qstep_fifo in E. apply IH in R.
    rewrite <- app_assoc, R, app_assoc, E, <- app_assoc. f_equal.
    by destruct e.
Qed.

Lemma no_lost_wakeup_step s e s' r :
  no_lost_wakeup s -> qstep s e = Some (s', r) -> no_lost_wakeup s'.
Proof.
  unfold no_lost_wakeup.
  destruct s as [q a z n], e; simpl; unfold Push, timeout_check, TryPop;
    simpl; intros Hi H; simp_cases; rewrite ?length_app; simpl; lia.
Qed.

End SafeQueue.

Arguments qstate : clear implicits.
Arguments event : clear implicits.

(** ** Properties *)

(** C29. First in, first out, under every interleaving of producers and
    consumers: the values popped so far, followed by the values still queued,
    are the values pushed, in the order of the pushes. *)
Theorem queue_fifo {T} (es : list (event T)) s' rs :
  qrun init es = Some (s', rs) -> rs ++ q_ s' = pushed es.
Proof. intros H. by apply qrun_fifo in H. Qed.

Definition two_consumers : list (event nat) :=
  [EEnter; ECheck; EPush 1%nat; EEnter; ECheck; ENotify; EPush 2%nat; ECheck; ENotify].

Lemma queue_fifo_witness :
  exists s', qrun init two_consumers = Some (s', [1%nat; 2%nat]) /\
  [1%nat; 2%nat] ++ q_ s' = pushed two_consumers.
Proof.
  eexists. split; [vm_compute; reflexivity|].
  apply (queue_fifo two_consumers). vm_compute; reflexivity.
Defined.

(** C30. No lost wakeup, though [Push] notifies after it has unlocked the
    mutex: in every reachable state in which some consumer sleeps on the
    condition variable, there are at least as many pending notifications and
    awake consumers as values in the queue. *)
Theorem queue_no_lost_wakeup {T} (es : list (event T)) s' rs :
  qrun init es = Some (s', rs) -> no_lost_wakeup s'.
Proof.
  assert (forall s, no_lost_wakeup s ->
            forall rs, qrun s es = Some (s', rs) -> no_lost_wakeup s') as H.
  { induction es as [|e es IH]; intros s Hs rs'; simpl.
    - intros; by simplify_eq.
    - destruct (qstep s e) as [[s1 r]|] eqn:E; simpl; [|done].
      destruct (qrun s1 es) as [[s2 rs2]|] eqn:R; simpl; [|done].
      intros; simplify_eq. eapply IH; [|done]. by eapply no_lost_wakeup_step. }
  apply H. unfold no_lost_wakeup; simpl; lia.
Qed.

Lemma queue_no_lost_wakeup_witness :
  exists s', qrun init [EEnter; ECheck; @EPush nat 1%nat] = Some (s', []) /\
  no_lost_wakeup s'.
Proof.
  eexists. split; [vm_compute; reflexivity|].
  apply (queue_no_lost_wakeup [EEnter; ECheck; EPush 1%nat] _ []).
  vm_compute; reflexivity.
Defined.
