(* ===== verification/StrUtil.v ===== *)
(** * The string helpers ([src/utils/split.h])

    Namespace [utility::string]. The helpers that print "Invalid input string."
    when they find nothing return the string unchanged; the print is not
    modelled. [subreplace]'s loop need not terminate, so it runs on fuel. *)

From S2P Require Import Prelude.

Module StrUtil.

(** [std::getline(iss, temp, delim)] on what is left of the stream: the
    segment up to the delimiter, which is consumed; [None] when nothing is
    left to extract. *)
Fixpoint until (delim : ascii) (s : str) : str * str :=
  match s with
  | [] => ([], [])
  | c :: s' => if decide (c = delim) then ([], s')
               else let '(seg, rest) := until delim s' in (c :: seg, rest)
  end.

Definition getline (delim : ascii) (s : str) : option (str * str) :=
  match s with [] => None | _ => Some (until delim s) end.

(** src/utils/split.h:10-20, [utility::string::split]. Each turn of the loop
    extracts at least one char, so [length s] turns are enough. *)
Fixpoint split_loop (fuel : nat) (delim : ascii) (s : str) : list str :=
  match fuel with
  | O => []
  | S fuel' => match getline delim s with
               | None => []
               | Some (temp, rest) => temp :: split_loop fuel' delim rest
               end
  end.
Definition split (s : str) (delim : ascii) : list str :=
  split_loop (length s) delim s.

(** src/utils/split.h:32-41, [utility::string::subreplace]. [None]: the fuel
    ran out with an occurrence left. *)
Fixpoint subreplace (fuel : nat) (dst_str sub_str new_str : str) : option str :=
  match sfind sub_str dst_str with
  | None => Some dst_str
  | Some pos =>
      match fuel with
      | O => None
      | S fuel' => subreplace fuel' (sreplace pos (length sub_str) new_str dst_str)
                     sub_str new_str
      end
  end.

(** src/utils/split.h:51-61, [utility::string::replaceFirstString]. *)
Definition replaceFirstString (original target replacement : str) : str :=
  match sfind target original with
  | Some pos => sreplace pos (length target) replacement original
  | None => original
  end.

(** src/utils/split.h:64-75, [utility::string::cutlaststr]. *)
Definition cutlaststr (resource_str cut_str : str) : str :=
  match find_last_of cut_str resource_str with
  | Some pos => take pos resource_str
  | None => resource_str
  end.

(** src/utils/split.h:78-89, [utility::string::cutFisrtLeftStr]. *)
Definition cutFisrtLeftStr (resource_str cut_str : str) : str :=
  match find_first_of cut_str resource_str with
  | Some pos => take pos resource_str
  | None => resource_str
  end.

(** src/utils/split.h:91-102, [utility::string::cutLastRightStr]. *)
Definition cutLastRightStr (resource_str cut_str : str) : str :=
  match find_last_of cut_str resource_str with
  | Some pos => take (length resource_str) (drop pos resource_str)
  | None => resource_str
  end.

(** src/utils/split.h:104-115, [utility::string::cutLastLeftStr]. *)
Definition cutLastLeftStr (resource_str cut_str : str) : str :=
  match find_last_of cut_str resource_str with
  | Some pos => take pos resource_str
  | None => resource_str
  end.

(** src/utils/split.h:117-128, [utility::string::cutFisrtRightstr]. *)
Definition cutFisrtRightstr (resource_str cut_str : str) : str :=
  match find_first_of cut_str resource_str with
  | Some pos => take (length resource_str) (drop pos resource_str)
  | None => resource_str
  end.

Definition space : ascii := " "%char.

(** [s.erase(0, s.find_first_not_of(" "))]; [npos] erases everything. *)
Fixpoint drop_spaces (s : str) : str :=
  match s with
  | c :: s' => if decide (c = space) then drop_spaces s' else s
  | [] => []
  end.

(** [s.erase(s.find_last_not_of(" ") + 1)]; [npos + 1] is 0. *)
Fixpoint drop_trailing_spaces (s : str) : str :=
  match s with
  | [] => []
  | c :: s' => match drop_trailing_spaces s' with
               | [] => if decide (c = space) then [] else [c]
               | r => c :: r
               end
  end.

(** src/utils/split.h:130-139, [utility::string::trim]. The value it leaves in
    its argument and returns. *)
Definition trim (s : str) : str :=
  match s with
  | [] => []
  | _ => drop_trailing_spaces (drop_spaces s)
  end.

(** src/utils/split.h:141-148, [utility::string::formatPath]. *)
Definition formatPath (path : str) : str :=
  match path with
  | c :: _ => if decide (c = "/"%char) then $"." ++ path else path
  | [] => path
  end.

(** The inverse of [split]: each segment followed by the delimiter. *)
Fixpoint unsplit (delim : ascii) (l : list str) : str :=
  match l with
  | [] => []
  | seg :: l' => seg ++ delim :: unsplit delim l'
  end.

(** The string ends with the delimiter, or is empty. *)
Definition closed_by (delim : ascii) (s : str) : bool :=
  match last s with None => true | Some c => bool_decide (c = delim) end.

(** ** Lemmas *)

Lemma until_spec d s seg rest :
  until d s = (seg, rest) ->
  d ∉ seg /\ ((s = seg ++ d :: rest) \/ (s = seg /\ rest = [])).
Proof.
  revert seg rest. induction s as [|c s IH]; intros seg rest; simpl.
  - intros; simplify_eq. split; [apply not_elem_of_nil|]. by right.
  - destruct (decide (c = d)) as [->|Hc].
    + intros; simplify_eq. split; [apply not_elem_of_nil|]. by left.
    + destruct (until d s) as [seg' rest'] eqn:E. intros; simplify_eq.
      destruct (IH _ _ eq_refl) as [Hd Hs]. split.
      * rewrite not_elem_of_cons. done.
      * destruct Hs as [->|[-> ->]]; [by left|by right].
Qed.

Lemma until_app d seg s : d ∉ seg -> until d (seg ++ d :: s) = (seg, s).
Proof.
  induction seg as [|c seg IH]; simpl; intros Hd.
  - by rewrite decide_True by done.
  - apply not_elem_of_cons in Hd as [Hc Hd].
    rewrite decide_False by done. by rewrite IH.
Qed.

Lemma until_none d seg : d ∉ seg -> until d seg = (seg, []).
Proof.
  induction seg as [|c seg IH]; simpl; intros Hd; [done|].
  apply not_elem_of_cons in Hd as [Hc Hd].
  rewrite decide_False by done. by rewrite IH.
Qed.

Lemma until_shorter d s seg rest :
  until d s = (seg, rest) -> s <> [] -> (length rest < length s)%nat.
Proof.
  intros H Hs. apply until_spec in H as [_ [->|[-> ->]]].
  - rewrite length_app; simpl; lia.
  - destruct seg; simpl; [done|lia].
Qed.

Lemma split_loop_fuel d s f1 f2 :
  (length s <= f1)%nat -> (length s <= f2)%nat ->
  split_loop f1 d s = split_loop f2 d s.
Proof.
  revert s f2. induction f1 as [|f1 IH]; intros s f2 H1 H2.
  - destruct s; simpl in *; [|lia]. by destruct f2.
  - destruct f2 as [|f2]; [by destruct s; simpl in *; [|lia]|].
    destruct s as [|c s]; [done|]. cbn [split_loop getline].
    destruct (until d (c :: s)) as [seg rest] eqn:E.
    f_equal. pose proof (until_shorter d (c :: s) seg rest E ltac:(done)).
    simpl in *. apply IH; lia.
Qed.

Lemma split_nil d : split [] d = [].
Proof. done. Qed.

Lemma split_step d s seg rest :
  s <> [] -> until d s = (seg, rest) -> split s d = seg :: split rest d.
Proof.
  intros Hs E. unfold split. destruct s as [|c s]; [done|].
  cbn [length split_loop getline]. rewrite E. f_equal.
  pose proof (until_shorter _ _ _ _ E Hs). simpl in *.
  apply split_loop_fuel; lia.
Qed.

(** What [split] loses: only whether the string ended with the delimiter. *)
Lemma split_segments d s : Forall (fun seg => d ∉ seg) (split s d).
Proof.
  remember (length s) as n eqn:Hn. revert s Hn.
  induction n as [n IH] using lt_wf_ind; intros s ->.
  destruct s as [|c s]; [by rewrite split_nil|].
  destruct (until d (c :: s)) as [seg rest] eqn:E.
  rewrite (split_step d (c :: s) seg rest ltac:(discriminate) E).
  pose proof (until_shorter d (c :: s) seg rest E ltac:(discriminate)).
  constructor; [by apply until_spec in E as [? _]|]. by eapply IH.
Qed.

Lemma drop_spaces_prefix s :
  exists k, s = replicate k space ++ drop_spaces s.
Proof.
  induction s as [|c s IH]; simpl; [by exists O|].
  destruct (decide (c = space)) as [->|].
  - destruct IH as [k Hk]. exists (S k). simpl. by f_equal.
  - by exists O.
Qed.

Lemma drop_trailing_suffix s :
  exists k, s = drop_trailing_spaces s ++ replicate k space.
Proof.
  induction s as [|c s [k Hk]]; simpl; [by exists O|].
  destruct (drop_trailing_spaces s) as [|x r] eqn:E.
  - destruct (decide (c = space)) as [->|].
    + exists (S k). simpl. by rewrite Hk at 1.
    + exists k. simpl. by rewrite Hk at 1.
  - exists k. simpl. by rewrite Hk at 1.
Qed.

Lemma drop_trailing_last s : last (drop_trailing_spaces s) <> Some space.
Proof.
  induction s as [|c s IH]; simpl; [done|].
  destruct (drop_trailing_spaces s) as [|x r].
  - destruct (decide (c = space)); [done|]. simpl. congruence.
  - done.
Qed.

Lemma drop_trailing_head s :
  head s <> Some space -> head (drop_trailing_spaces s) <> Some space.
Proof.
  destruct s as [|c s]; simpl; [done|]. intros H.
  destruct (drop_trailing_spaces s); simpl; [|done].
  destruct (decide (c = space)); simpl; [done|done].
Qed.

Lemma drop_spaces_head s : head (drop_spaces s) <> Some space.
Proof.
  induction s as [|c s IH]; simpl; [done|].
  destruct (decide (c = space)); [done|]. simpl. congruence.
Qed.

Lemma drop_spaces_id s : head s <> Some space -> drop_spaces s = s.
Proof.
  destruct s as [|c s]; simpl; [done|]. intros H.
  rewrite decide_False; [done|]. congruence.
Qed.

Lemma drop_trailing_id s : last s <> Some space -> drop_trailing_spaces s = s.
Proof.
  induction s as [|c s IH]; simpl; [done|]. intros H.
  destruct s as [|d s]; simpl in *.
  - rewrite decide_False; [done|]. congruence.
  - rewrite IH by done. done.
Qed.

Lemma trim_unfold s : trim s = drop_trailing_spaces (drop_spaces s).
Proof. by destruct s. Qed.

Lemma sreplace_length pos len r s :
  (pos + len <= length s)%nat ->
  length (sreplace pos len r s) = (length s - len + length r)%nat.
Proof.
  intros H. unfold sreplace.
  rewrite !length_app, length_take, length_drop. lia.
Qed.

Lemma subreplace_shrinks_aux sub new s fuel :
  (length new < length sub)%nat -> (length s <= fuel)%nat ->
  exists r, subreplace fuel s sub new = Some r /\ sfind sub r = None.
Proof.
  intros Hlt. revert s. induction fuel as [|fuel IH]; intros s Hf; simpl.
  - destruct (sfind sub s) as [pos|] eqn:E; [|eauto].
    apply sfind_lt in E. lia.
  - destruct (sfind sub s) as [pos|] eqn:E; [|eauto].
    apply sfind_lt in E. apply IH.
    rewrite sreplace_length by lia. lia.
Qed.

Lemma split_unsplit_segments d l :
  Forall (fun seg => d ∉ seg) l -> split (unsplit d l) d = l.
Proof.
  induction 1 as [|seg l Hseg _ IH]; [done|]. cbn [unsplit].
  rewrite (split_step d _ seg (unsplit d l)); [by rewrite IH| |by apply until_app].
  by destruct seg.
Qed.

(** ** Properties *)

(** [split] undoes joining: the segments of a string in which each
    segment is followed by the delimiter are those segments, empty ones
    included. *)
Theorem split_unsplit d l :
  Forall (fun seg => d ∉ seg) l -> split (unsplit d l) d = l.
Proof.
  apply split_unsplit_segments.
Qed.

Lemma split_unsplit_witness :
  split ($"a//b/") "/"%char = [$"a"; []; $"b"].
Proof.
  apply (split_unsplit "/"%char [$"a"; []; $"b"]).
  repeat constructor; intros H; repeat (apply elem_of_cons in H as [H|H]);
    try discriminate H; by apply not_elem_of_nil in H.
Defined.

(** And joining undoes [split], except that a final delimiter is added
    when the string did not end with one: [split] loses nothing else. *)
Theorem unsplit_split d s :
  unsplit d (split s d) = if closed_by d s then s else s ++ [d].
Proof.
  remember (length s) as n eqn:Hn. revert s Hn.
  induction n as [n IH] using lt_wf_ind; intros s ->.
  destruct s as [|c s]; [done|].
  destruct (until d (c :: s)) as [seg rest] eqn:E.
  rewrite (split_step d (c :: s) seg rest ltac:(discriminate) E). cbn [unsplit].
  rewrite (IH _ (until_shorter d (c :: s) seg rest E ltac:(discriminate)) _ eq_refl).
  apply until_spec in E as [Hd [->|[<- ->]]].
  - assert (closed_by d (seg ++ d :: rest) = closed_by d rest) as ->.
    { unfold closed_by. rewrite last_app, last_cons.
      destruct (last rest); [done|]. by rewrite bool_decide_true. }
    destruct (closed_by d rest); [done|]. by rewrite <- app_assoc.
  - change (closed_by d []) with true.
    assert (closed_by d (c :: s) = false) as ->; [|done].
    unfold closed_by. destruct (last (c :: s)) as [x|] eqn:L; [|by apply last_None in L].
    apply bool_decide_eq_false. intros ->. apply Hd.
    rewrite last_lookup in L. by eapply list_elem_of_lookup_2.
Qed.

(** [trim] removes the leading and the trailing spaces and nothing else:
    the result neither starts nor ends with a space, and the argument is the
    result between two runs of spaces. In particular it is idempotent. *)
Theorem trim_spec s :
  head (trim s) <> Some space /\ last (trim s) <> Some space /\
  (exists i j, s = replicate i space ++ trim s ++ replicate j space) /\
  trim (trim s) = trim s.
Proof.
  rewrite !trim_unfold.
  assert (head (drop_trailing_spaces (drop_spaces s)) <> Some space) as Hh
    by apply drop_trailing_head, drop_spaces_head.
  pose proof (drop_trailing_last (drop_spaces s)) as Hl.
  repeat split; try done.
  - destruct (drop_spaces_prefix s) as [i Hi].
    destruct (drop_trailing_suffix (drop_spaces s)) as [j Hj].
    exists i, j. by rewrite <- Hj.
  - by rewrite drop_spaces_id, drop_trailing_id.
Qed.

(** [subreplace] terminates, within as many turns as the string is long,
    and leaves no occurrence, when the replacement is shorter than what it
    replaces (the calls that strip "./"). *)
Theorem subreplace_shrinks s sub new :
  (length new < length sub)%nat ->
  exists r, subreplace (length s) s sub new = Some r /\
            forall a b, r <> a ++ sub ++ b.
Proof.
  intros H. destruct (subreplace_shrinks_aux sub new s (length s) H ltac:(lia))
    as (r & Hr & Hn).
  exists r. split; [done|]. by apply sfind_none.
Qed.

Lemma subreplace_shrinks_witness :
  exists r, subreplace (length $"./a/./b") $"./a/./b" $"./" [] = Some r /\
            forall a b, r <> a ++ $"./" ++ b.
Proof. apply (subreplace_shrinks $"./a/./b" $"./" []). simpl; lia. Defined.

(** It never terminates when the replacement contains what it replaces
    and the string has an occurrence: no number of turns is enough. *)
Theorem subreplace_diverges s sub x y fuel :
  sfind sub s <> None -> subreplace fuel s sub (x ++ sub ++ y) = None.
Proof.
  revert s. induction fuel as [|fuel IH]; intros s Hs; simpl;
    destruct (sfind sub s) as [pos|] eqn:E; try done.
  apply IH. intros Hn. rewrite sfind_none in Hn. unfold sreplace in Hn.
  eapply (Hn (take pos s ++ x)). rewrite <- !app_assoc. done.
Qed.

Lemma subreplace_diverges_witness :
  subreplace 100 $"a\b" $"\" $"\\" = None.
Proof. apply (subreplace_diverges $"a\b" $"\" $"\" []). vm_compute; discriminate. Defined.

End StrUtil.
