(* ===== verification/Printf.v ===== *)
(** * [sprintf]

    The statements of the handlers are built with the C library's [sprintf].
    A format is parsed into literal chars and conversions; an argument carries
    the class of its C type. A call whose arguments do not fit the format is
    undefined in C and has no result here. [%f] prints the exact value of a
    double rounded to six decimals, half to even. *)

From Stdlib Require Import SpecFloat.
From S2P Require Import Prelude.

Module Printf.

(** An argument: an [int] (or what is promoted to one), a 64-bit integer, a
    [double], a [const char *]. *)
Inductive arg :=
  | D (z : Z)
  | L (z : Z)
  | F (d : spec_float)
  | P (s : str).

Inductive class := ClsD | ClsL | ClsF | ClsP.
#[export] Instance class_eq_dec : EqDecision class.
Proof. solve_decision. Defined.

Definition class_of (a : arg) : class :=
  match a with D _ => ClsD | L _ => ClsL | F _ => ClsF | P _ => ClsP end.

(** A piece of a format: a char, or [%d] with a width of zeros, [%ld] and
    [%lld], [%llu], [%f] and [%lf], [%s]. *)
Inductive piece :=
  | Lit (c : ascii)
  | Cd (width : nat)
  | Cld
  | Clu
  | Cf
  | Cs.

Definition class_of_piece (p : piece) : option class :=
  match p with
  | Lit _ => None
  | Cd _ => Some ClsD
  | Cld | Clu => Some ClsL
  | Cf => Some ClsF
  | Cs => Some ClsP
  end.

(** The conversion at the head of [s], behind the percent sign. *)
Definition conversion (s : str) : option (piece * str) :=
  match s with
  | "%"%char :: s' => Some (Lit "%"%char, s')
  | "d"%char :: s' => Some (Cd 0, s')
  | "s"%char :: s' => Some (Cs, s')
  | "f"%char :: s' => Some (Cf, s')
  | "0"%char :: n :: "d"%char :: s' => Some (Cd (nat_of_ascii n - nat_of_ascii "0"%char), s')
  | "l"%char :: "d"%char :: s' => Some (Cld, s')
  | "l"%char :: "f"%char :: s' => Some (Cf, s')
  | "l"%char :: "l"%char :: "d"%char :: s' => Some (Cld, s')
  | "l"%char :: "l"%char :: "u"%char :: s' => Some (Clu, s')
  | _ => None
  end.

Fixpoint parse_fuel (fuel : nat) (s : str) : option (list piece) :=
  match fuel, s with
  | _, [] => Some []
  | O, _ :: _ => None
  | S fuel', "%"%char :: s' =>
      '(p, s'') ← conversion s'; ps ← parse_fuel fuel' s''; Some (p :: ps)
  | S fuel', c :: s' => ps ← parse_fuel fuel' s'; Some (Lit c :: ps)
  end.

(** The pieces of a format; [None] when it has a conversion not listed. *)
Definition parse (fmt : str) : option (list piece) := parse_fuel (length fmt) fmt.

(** ** Printing *)

(** Digits padded with zeros. *)
Definition pad (width : nat) (s : str) : str := replicate (width - length s) "0"%char ++ s.

Definition show_d (width : nat) (z : Z) : str :=
  if z <? 0 then "-"%char :: pad (width - 1) (to_strz (- z)) else pad width (to_strz z).

(** The quotient rounded to the nearest integer, half to even. *)
Definition round_half_even (num den : Z) : Z :=
  let q := num `div` den in
  let r := num `mod` den in
  match 2 * r ?= den with
  | Lt => q
  | Gt => q + 1
  | Eq => if Z.even q then q else q + 1
  end.

(** [m * 2^e] in millionths, rounded. *)
Definition millionths (m : positive) (e : Z) : Z :=
  if 0 <=? e then Z.pos m * 2 ^ e * 1000000
  else round_half_even (Z.pos m * 1000000) (2 ^ (- e)).

Definition show_f (d : spec_float) : str :=
  match d with
  | S754_zero s => (if s then $"-" else []) ++ $"0.000000"
  | S754_infinity s => (if s then $"-" else []) ++ $"inf"
  | S754_nan => $"nan"
  | S754_finite s m e =>
      let n := millionths m e in
      (if s then $"-" else []) ++ to_strz (n `div` 1000000) ++ $"."
      ++ pad 6 (to_strz (n `mod` 1000000))
  end.

(** What a conversion prints for its argument. *)
Definition show (p : piece) (a : arg) : option str :=
  match p, a with
  | Cd w, D z => Some (show_d w (swrap 32 z))
  | Cld, L z => Some (to_strz (swrap 64 z))
  | Clu, L z => Some (to_strz (uwrap 64 z))
  | Cf, F d => Some (show_f d)
  | Cs, P s => Some s
  | _, _ => None
  end.

(** Arguments that are left over are ignored, as C says. *)
Fixpoint print (ps : list piece) (args : list arg) : option str :=
  match ps with
  | [] => Some []
  | Lit c :: ps' => cons c <$> print ps' args
  | p :: ps' =>
      match args with
      | [] => None
      | a :: args' => s ← show p a; app s <$> print ps' args'
      end
  end.

(** The text [sprintf] writes. *)
Definition format (fmt : str) (args : list arg) : option str :=
  ps ← parse fmt; print ps args.

(** ** Formats and their arguments *)

(** The classes of the arguments a format asks for. *)
Definition classes (ps : list piece) : list class := omap class_of_piece ps.

(** Do arguments of these classes fit the format? *)
Definition fits (fmt : str) (cs : list class) : bool :=
  match parse fmt with
  | Some ps => bool_decide (take (length (classes ps)) cs = classes ps)
  | None => false
  end.

(** A bound on the length of the text, texts and doubles printing at most [n]
    chars each. *)
Definition bound_piece (n : nat) (p : piece) : nat :=
  match p with
  | Lit _ => 1
  | Cd w => 11 + w
  | Cld | Clu => 20
  | Cf | Cs => n
  end.

Definition bound (n : nat) (fmt : str) : nat :=
  match parse fmt with
  | Some ps => foldr (fun p b => bound_piece n p + b)%nat O ps
  | None => O
  end.

Definition arg_short (n : nat) (a : arg) : Prop :=
  match a with
  | P s => (length s <= n)%nat
  | F d => (length (show_f d) <= n)%nat
  | _ => True
  end.

(** ** Lemmas *)

Lemma show_class p a : class_of_piece p = Some (class_of a) -> is_Some (show p a).
Proof. destruct p, a; simpl; intros [=]; by eexists. Qed.

Lemma print_fits ps args :
  take (length (classes ps)) (map class_of args) = classes ps -> is_Some (print ps args).
Proof.
  revert args. induction ps as [|p ps IH]; intros args; [by eexists|].
  destruct (class_of_piece p) as [c|] eqn:Ep.
  - assert (classes (p :: ps) = c :: classes ps) as -> by (unfold classes; simpl; by rewrite Ep).
    destruct args as [|a args]; simpl; [done|]. intros [= Ha Hargs].
    destruct (show_class p a) as [s Hs]; [by rewrite Ep, Ha|].
    destruct (IH args Hargs) as [t Ht].
    destruct p; [done|..]; cbn [print]; rewrite Hs; cbn; rewrite Ht; by eexists.
  - destruct p; try done. simpl. intros Ht. destruct (IH args Ht) as [t E]. rewrite E. by eexists.
Qed.

Lemma format_fits fmt args :
  fits fmt (map class_of args) = true -> is_Some (format fmt args).
Proof.
  unfold fits, format. destruct (parse fmt) as [ps|]; [|done].
  intros H%bool_decide_eq_true. by apply print_fits.
Qed.

(** The digits of a number below [10^k]. *)
Lemma pretty_go_length n s k :
  (n < 10 ^ N.of_nat k)%N ->
  (String.length (pretty_N_go n s) <= k + String.length s)%nat.
Proof.
  revert n s. induction k as [|k IH]; intros n s Hn.
  - assert (n = 0%N) as -> by (simpl in Hn; lia). by rewrite pretty_N_go_0.
  - destruct (decide (n = 0%N)) as [->|]; [rewrite pretty_N_go_0; lia|].
    rewrite pretty_N_go_step by lia. etransitivity; [apply IH|simpl; lia].
    rewrite Nat2N.inj_succ, N.pow_succ_r' in Hn. apply N.Div0.div_lt_upper_bound. lia.
Qed.

Lemma length_to_str n k : (n < 10 ^ N.of_nat k)%N -> (0 < k)%nat -> (length (to_str n) <= k)%nat.
Proof.
  intros Hn Hk. unfold to_str, pretty, pretty_N.
  assert (forall s, length (list_ascii_of_string s) = String.length s) as Hl
    by (induction s; simpl; congruence).
  rewrite Hl. case_decide; [simpl; lia|].
  etransitivity; [by apply pretty_go_length|simpl; lia].
Qed.

Lemma length_to_strz z k :
  - 10 ^ Z.of_nat k < z < 10 ^ Z.of_nat k -> (0 < k)%nat ->
  (length (to_strz z) <= (if (z <? 0)%Z then S k else k))%nat.
Proof.
  intros Hz Hk.
  assert (forall p, Z.pos p < 10 ^ Z.of_nat k -> (length (to_str (N.pos p)) <= k)%nat) as Hp.
  { intros p Hp. apply length_to_str; [|done]. apply N2Z.inj_lt. rewrite N2Z.inj_pow, nat_N_Z. done. }
  destruct z as [|p|p]; [simpl; lia|..].
  - apply Hp. lia.
  - specialize (Hp p ltac:(lia)). unfold to_strz, to_str in *.
    change (pretty (Z.neg p)) with (String "-" (pretty (N.pos p))).
    change (Z.neg p <? 0) with true. cbn [list_ascii_of_string length]. lia.
Qed.

Lemma swrap_range w z : 0 < w -> - 2 ^ (w - 1) <= swrap w z < 2 ^ (w - 1).
Proof.
  intros Hw. unfold swrap.
  pose proof (Z.mod_pos_bound (z + 2 ^ (w - 1)) (2 ^ w) ltac:(apply Z.pow_pos_nonneg; lia)).
  assert (2 ^ w = 2 * 2 ^ (w - 1)) by (rewrite <- Z.pow_succ_r by lia; f_equal; lia). lia.
Qed.

Lemma length_pad w s : (length (pad w s) <= w + length s)%nat.
Proof. unfold pad. rewrite length_app, length_replicate. lia. Qed.

Lemma show_length n p a s :
  arg_short n a -> show p a = Some s -> (length s <= bound_piece n p)%nat.
Proof.
  destruct p, a; simpl; intros Ha [= <-]; try done.
  - pose proof (swrap_range 32 z ltac:(done)) as Hr.
    assert (forall y, 0 <= y < 10 ^ 10 -> (length (to_strz y) <= 10)%nat) as Hy.
    { intros y Hy. pose proof (length_to_strz y 10 ltac:(lia) ltac:(lia)) as H.
      destruct (Z.ltb_spec y 0); lia. }
    unfold show_d. destruct (Z.ltb_spec (swrap 32 z) 0); cbn [length];
      match goal with |- context [pad ?w (to_strz ?y)] =>
        pose proof (length_pad w (to_strz y)); specialize (Hy y ltac:(lia)) end; lia.
  - pose proof (swrap_range 64 z ltac:(done)) as Hr.
    pose proof (length_to_strz (swrap 64 z) 19 ltac:(lia) ltac:(lia)) as H. destruct (_ <? 0); lia.
  - pose proof (uwrap_range 64 z ltac:(done)) as Hr.
    pose proof (length_to_strz (uwrap 64 z) 20 ltac:(lia) ltac:(lia)) as H.
    destruct (Z.ltb_spec (uwrap 64 z) 0); lia.
Qed.

Lemma print_length n ps args s :
  Forall (arg_short n) args -> print ps args = Some s ->
  (length s <= foldr (fun p b => bound_piece n p + b) O ps)%nat.
Proof.
  revert args s. induction ps as [|p ps IH]; intros args s Ha; [by intros [= <-]|].
  destruct (class_of_piece p) as [c|] eqn:Ep.
  - destruct args as [|a args]; [by destruct p|]. apply Forall_cons in Ha as [Ha Hargs].
    assert (print (p :: ps) (a :: args) = (t ← show p a; app t <$> print ps args)) as -> by (by destruct p).
    destruct (show p a) as [t|] eqn:Et; [|done]. simpl.
    destruct (print ps args) as [u|] eqn:Eu; [|done]. intros [= <-]. rewrite length_app.
    specialize (IH _ _ Hargs Eu). pose proof (show_length _ _ _ _ Ha Et). lia.
  - destruct p; try done. simpl. destruct (print ps args) as [u|] eqn:Eu; [|done].
    intros [= <-]. specialize (IH _ _ Ha Eu). simpl. lia.
Qed.

Lemma format_length n fmt args s :
  Forall (arg_short n) args -> format fmt args = Some s -> (length s <= bound n fmt)%nat.
Proof.
  unfold format, bound. intros Ha. destruct (parse fmt) as [ps|]; [|done]. by apply print_length.
Qed.

(** The length of the text, piece by piece. *)
Fixpoint width (ps : list piece) (args : list arg) : nat :=
  match ps with
  | [] => O
  | Lit _ :: ps' => S (width ps' args)
  | p :: ps' =>
      match args with
      | [] => O
      | a :: args' => (length (default [] (show p a)) + width ps' args')%nat
      end
  end.

Lemma print_width ps args s : print ps args = Some s -> length s = width ps args.
Proof.
  revert args s. induction ps as [|p ps IH]; intros args s; [by intros [= <-]|].
  destruct (class_of_piece p) as [c|] eqn:Ep.
  - destruct args as [|a args]; [by destruct p|].
    assert (print (p :: ps) (a :: args) = (t ← show p a; app t <$> print ps args)) as -> by (by destruct p).
    assert (width (p :: ps) (a :: args) = (length (default [] (show p a)) + width ps args)%nat) as ->
      by (by destruct p).
    destruct (show p a) as [t|]; [|done]. simpl.
    destruct (print ps args) as [u|] eqn:Eu; [|done]. intros [= <-].
    rewrite length_app. by rewrite (IH _ _ Eu).
  - destruct p; try done. simpl. destruct (print ps args) as [u|] eqn:Eu; [|done].
    intros [= <-]. simpl. by rewrite (IH _ _ Eu).
Qed.

Lemma format_width fmt ps args s :
  parse fmt = Some ps -> format fmt args = Some s -> length s = width ps args.
Proof. unfold format. intros ->. apply print_width. Qed.

(** A number has its width, and at least as many digits as its size. *)
Lemma pretty_go_length_ge n s k :
  (10 ^ N.of_nat k <= n)%N -> (S k + String.length s <= String.length (pretty_N_go n s))%nat.
Proof.
  revert n s. induction k as [|k IH]; intros n s Hn.
  - assert (forall m t, String.length t <= String.length (pretty_N_go m t))%nat as Hge.
    { intros m. induction (N.lt_wf_0 m) as [m _ IHm]. intros t.
      destruct (decide (m = 0%N)) as [->|]; [by rewrite pretty_N_go_0|].
      rewrite pretty_N_go_step by lia. etransitivity; [|apply IHm, N.div_lt; lia]. simpl. lia. }
    simpl in Hn. rewrite pretty_N_go_step by lia. etransitivity; [|apply Hge]. simpl. lia.
  - rewrite Nat2N.inj_succ, N.pow_succ_r' in Hn. rewrite pretty_N_go_step by lia.
    etransitivity; [|apply IH, N.div_le_lower_bound; lia]. simpl. lia.
Qed.

Lemma length_to_str_ge n k : (10 ^ N.of_nat k <= n)%N -> (k < length (to_str n))%nat.
Proof.
  intros Hn. unfold to_str, pretty, pretty_N.
  assert (forall s, length (list_ascii_of_string s) = String.length s) as Hl
    by (induction s; simpl; congruence).
  rewrite Hl. pose proof (pretty_go_length_ge n "" k Hn) as H. simpl in H.
  case_decide as E; [subst; by destruct k|lia].
Qed.

Lemma length_show_d w z : (w <= length (show_d w z))%nat.
Proof.
  unfold show_d, pad. destruct (z <? 0); simpl; rewrite length_app, length_replicate; lia.
Qed.

Lemma length_show_d_ge k z : 10 ^ Z.of_nat k <= z -> (k < length (show_d 0 z))%nat.
Proof.
  intros Hz. assert (0 < 10 ^ Z.of_nat k) by (apply Z.pow_pos_nonneg; lia).
  unfold show_d, pad. destruct (Z.ltb_spec z 0); [lia|]. simpl.
  destruct z as [|p|p]; [lia| |lia].
  apply (length_to_str_ge (N.pos p)). apply N2Z.inj_le. by rewrite N2Z.inj_pow, nat_N_Z.
Qed.

(** ** Examples *)

Example format_row :
  format $"(%lld,%d,'%s',%02d,%lf)," [L 7; D (2 ^ 32 - 1); P $"x"; D 5; F (S754_finite true 5 (-2))]
  = Some $"(7,-1,'x',05,-1.250000),".
Proof. vm_compute. reflexivity. Qed.

Example format_misfit : format $"(%d)" [L 7] = None.
Proof. reflexivity. Qed.

End Printf.
