(* ===== verification/Ini.v ===== *)
(** * The INI parser ([src/utils/ini/ini.cpp]) and its reader
      ([src/utils/ini/INIReader.cpp])

    The parser is polymorphic in the handler, as the C code is in its function
    pointer; [INIReader] instantiates it with [ValueHandler] on its map. The
    compile-time options are those of [ini.h]: multi-line values, a byte order
    mark and inline comments are on; the line buffer is on the stack and never
    reallocated; the parser goes on after an error. *)

From S2P Require Import Prelude.

Module Ini.

(** ** The C library's character functions, in the C locale *)

Definition isspace (c : ascii) : bool :=
  let n := N_of_ascii c in ((9 <=? n)%N && (n <=? 13)%N) || (n =? 32)%N.

Definition tolower (c : ascii) : ascii :=
  let n := N_of_ascii c in
  if ((65 <=? n)%N && (n <=? 90)%N) then ascii_of_N (n + 32) else c.

Definition NUL : ascii := ascii_of_N 0.
Definition newline : ascii := ascii_of_N 10.

(** A char buffer read as a C string. *)
Fixpoint c_str (s : str) : str :=
  match s with
  | [] => []
  | c :: s' => if decide (c = NUL) then [] else c :: c_str s'
  end.

(** ** The compile-time options ([ini.h]) *)

Definition INI_MAX_LINE : nat := 200.
Definition MAX_SECTION : nat := 50.
Definition MAX_NAME : nat := 50.
Definition INI_START_COMMENT_PREFIXES : str := $";#".
Definition INI_INLINE_COMMENT_PREFIXES : str := $";".

(** ** ini.cpp *)

(** src/utils/ini/ini.cpp:56-62, [lskip]. *)
Fixpoint lskip (s : str) : str :=
  match s with
  | c :: s' => if isspace c then lskip s' else s
  | [] => []
  end.

(** src/utils/ini/ini.cpp:47-54, [rstrip]. *)
Fixpoint rstrip (s : str) : str :=
  match s with
  | [] => []
  | c :: s' => match rstrip s' with
               | [] => if isspace c then [] else [c]
               | r => c :: r
               end
  end.

(** src/utils/ini/ini.cpp:64-82, [find_chars_or_comment]. The offset of the
    returned pointer; [None] for the null [chars]. *)
Fixpoint find_chars_or_comment (was_space : bool) (chars : option str) (s : str) : nat :=
  match s with
  | [] => O
  | c :: s' =>
      if match chars with None => false | Some cs => in_set cs c end
         || (was_space && in_set INI_INLINE_COMMENT_PREFIXES c)
      then O
      else S (find_chars_or_comment (isspace c) chars s')
  end.

(** src/utils/ini/ini.cpp:84-94, [strncpy0]. *)
Definition strncpy0 (src : str) (size : nat) : str := take (size - 1) src.

(** src/utils/ini/ini.cpp:271-294, [ini_reader_string]. Also what the C
    library's [fgets] does on a file's bytes. [None] is NULL. *)
Fixpoint read_chars (room : nat) (s : str) : str * str :=
  match room, s with
  | S room', c :: s' =>
      if decide (c = newline) then ([c], s')
      else let '(line, rest) := read_chars room' s' in (c :: line, rest)
  | _, _ => ([], s)
  end.
Definition ini_reader_string (num : nat) (s : str) : option (str * str) :=
  match s with
  | [] => None
  | _ => if (num <? 2)%nat then None else Some (read_chars (num - 1) s)
  end.

Section Parser.
Context {U : Type}.
(** The handler: user data, section, name and value to its verdict. *)
Context (handler : U -> str -> str -> str -> bool * U).

(** src/utils/ini/ini.cpp:112-120, [ini_parse_stream]. The locals the loop
    carries from line to line. *)
Record pstate := PState {
  section : str;
  prev_name : str;
  lineno : Z;
  error : Z;
  user : U;
}.

Definition initial (u : U) : pstate := PState [] [] 0 0 u.

(** [if (... && !error) error = lineno] *)
Definition set_error (st : pstate) : pstate :=
  if error st =? 0 then PState (section st) (prev_name st) (lineno st) (lineno st) (user st)
  else st.

(** src/utils/ini/ini.cpp:132-132, [HANDLER]. With the error it may record. *)
Definition HANDLER (st : pstate) (name value : str) : pstate :=
  let '(ok, u) := handler (user st) (section st) name value in
  let st' := PState (section st) (prev_name st) (lineno st) (error st) u in
  if ok then st' else set_error st'.

(** src/utils/ini/ini.cpp:159-167, [ini_parse_stream]. The line without its
    byte order mark and surrounding white space, and whether [start > line]. *)
Definition line_start (lineno : Z) (line : str) : bool * str :=
  let start :=
    match line with
    | a :: b :: c :: rest =>
        if (lineno =? 1) && (N_of_ascii a =? 239)%N && (N_of_ascii b =? 187)%N
           && (N_of_ascii c =? 191)%N
        then rest else line
    | _ => line
    end in
  let s := lskip (rstrip start) in
  (negb ((length line =? length start)%nat && (length (rstrip start) =? length s)%nat), s).

(** src/utils/ini/ini.cpp:173-184, [ini_parse_stream]. A continuation line. *)
Definition continuation (st : pstate) (start : str) : pstate :=
  let value := rstrip (take (find_chars_or_comment false None start) start) in
  HANDLER st (prev_name st) value.

(** src/utils/ini/ini.cpp:186-202, [ini_parse_stream]. A line that starts with
    a bracket; [start1] is [start + 1]. *)
Definition section_line (st : pstate) (start1 : str) : pstate :=
  let e := find_chars_or_comment false (Some $"]") start1 in
  match start1 !! e with
  | Some c => if decide (c = "]"%char)
              then PState (strncpy0 (take e start1) MAX_SECTION) [] (lineno st) (error st) (user st)
              else set_error st
  | None => set_error st
  end.

(** src/utils/ini/ini.cpp:203-234, [ini_parse_stream]. A name and value. *)
Definition pair_line (st : pstate) (start : str) : pstate :=
  let e := find_chars_or_comment false (Some $"=:") start in
  match start !! e with
  | Some c =>
      if in_set $"=:" c then
        let name := rstrip (take e start) in
        let value := drop (S e) start in
        let value := take (find_chars_or_comment false None value) value in
        let value := rstrip (lskip value) in
        HANDLER (PState (section st) (strncpy0 name MAX_NAME) (lineno st) (error st) (user st))
          name value
      else set_error st
  | None => set_error st
  end.

(** src/utils/ini/ini.cpp:157-239, [ini_parse_stream]. One turn of the loop.
    [strchr] finds the terminating NUL too, so an empty line counts as a
    comment. *)
Definition process_line (st0 : pstate) (buf : str) : pstate :=
  let st := PState (section st0) (prev_name st0) (lineno st0 + 1) (error st0) (user st0) in
  let '(moved, start) := line_start (lineno st) (c_str buf) in
  match start with
  | [] => st
  | c :: start1 =>
      if in_set INI_START_COMMENT_PREFIXES c then st
      else if negb (bool_decide (prev_name st = [])) && moved then continuation st start
      else if decide (c = "["%char) then section_line st start1
      else pair_line st start
  end.

(** src/utils/ini/ini.cpp:136-246, [ini_parse_stream]. Every turn reads at
    least one char, so the length of the stream is enough fuel. *)
Fixpoint parse_loop (fuel : nat) (stream : str) (st : pstate) : pstate :=
  match fuel with
  | O => st
  | S fuel' =>
      match ini_reader_string INI_MAX_LINE stream with
      | None => st
      | Some (line, rest) => parse_loop fuel' rest (process_line st line)
      end
  end.

Definition ini_parse_stream (stream : str) (u : U) : Z * U :=
  let st := parse_loop (length stream) stream (initial u) in (error st, user st).

(** src/utils/ini/ini.cpp:256-267, [ini_parse]. [None]: the file cannot be
    opened. *)
Definition ini_parse (file : option str) (u : U) : Z * U :=
  match file with
  | None => (-1, u)
  | Some bytes => ini_parse_stream bytes u
  end.

(** src/utils/ini/ini.cpp:297-304, [ini_parse_string]. *)
Definition ini_parse_string (s : str) (u : U) : Z * U :=
  ini_parse_stream (c_str s) u.

End Parser.

Arguments pstate : clear implicits.

(** ** INIReader.cpp *)

(** src/utils/ini/INIReader.cpp:128-135, [INIReader::MakeKey]. *)
Definition MakeKey (section name : str) : str :=
  map tolower (section ++ $"=" ++ name).

(** src/utils/ini/INIReader.cpp:137-148, [INIReader::ValueHandler]. The parser
    never passes a null name or value with these options. *)
Definition ValueHandler (values : gmap str str) (section name value : str)
  : bool * gmap str str :=
  let key := MakeKey section name in
  let old := default [] (values !! key) in
  let old := match old with [] => [] | _ => old ++ [newline] end in
  (true, <[key := old ++ value]> values).

(** src/utils/ini/INIReader.cpp:20-23, [INIReader::INIReader]. [_error] and
    [_values]; the buffer constructor below. *)
Definition INIReader_file (file : option str) : Z * gmap str str :=
  ini_parse ValueHandler file ∅.
(** src/utils/ini/INIReader.cpp:25-29, [INIReader::INIReader]. *)
Definition INIReader_buffer (buffer : str) : Z * gmap str str :=
  ini_parse_string ValueHandler buffer ∅.

(** src/utils/ini/INIReader.cpp:36-41, [INIReader::Get]. *)
Definition Get (values : gmap str str) (section name default_value : str) : str :=
  match values !! MakeKey section name with
  | Some v => v
  | None => default_value
  end.

(** src/utils/ini/INIReader.cpp:43-47, [INIReader::GetString]. *)
Definition GetString (values : gmap str str) (section name default_value : str) : str :=
  match Get values section name [] with
  | [] => default_value
  | s => s
  end.

(** src/utils/ini/INIReader.cpp:98-110, [INIReader::GetBoolean]. *)
Definition GetBoolean (values : gmap str str) (section name : str) (default_value : bool) : bool :=
  let valstr := map tolower (Get values section name []) in
  if bool_decide (valstr ∈ [$"true"; $"yes"; $"on"; $"1"]) then true
  else if bool_decide (valstr ∈ [$"false"; $"no"; $"off"; $"0"]) then false
  else default_value.

(** src/utils/ini/INIReader.cpp:122-126, [INIReader::HasValue]. *)
Definition HasValue (values : gmap str str) (section name : str) : bool :=
  bool_decide (is_Some (values !! MakeKey section name)).

(** The order of [std::map<std::string, _>]: chars compare as unsigned. *)
Fixpoint str_leb (a b : str) : bool :=
  match a, b with
  | [], _ => true
  | _ :: _, [] => false
  | c :: a', d :: b' =>
      match N.compare (N_of_ascii c) (N_of_ascii d) with
      | Lt => true
      | Gt => false
      | Eq => str_leb a' b'
      end
  end.

(** [_values.lower_bound(key)]: the least key not below [key]. *)
Definition lower_bound (values : gmap str str) (key : str) : option str :=
  foldr (fun k best =>
           if str_leb key k then
             match best with
             | None => Some k
             | Some b => if str_leb k b then Some k else Some b
             end
           else best) None (map fst (map_to_list values)).

(** src/utils/ini/INIReader.cpp:112-120, [INIReader::HasSection]. *)
Definition HasSection (values : gmap str str) (section : str) : bool :=
  let key := MakeKey section [] in
  match lower_bound values key with
  | None => false
  | Some pos => prefixb key pos
  end.

(** ** [strtol(value, &end, 0)] *)

Definition digit (c : ascii) : option Z :=
  let n := Z.of_N (N_of_ascii c) in
  if (48 <=? n) && (n <=? 57) then Some (n - 48)
  else if (97 <=? n) && (n <=? 122) then Some (n - 87)
  else if (65 <=? n) && (n <=? 90) then Some (n - 55)
  else None.

Fixpoint digits (base : Z) (s : str) (acc : Z) (any : bool) : Z * bool :=
  match s with
  | [] => (acc, any)
  | c :: s' => match digit c with
               | Some d => if d <? base then digits base s' (acc * base + d) true
                           else (acc, any)
               | None => (acc, any)
               end
  end.

(** The number and whether [end > value]; the sign, base 16 after "0x" and a
    hexadecimal digit, base 8 after "0". *)
Definition strto (s : str) : bool * Z * bool :=
  let s := lskip (c_str s) in
  let '(neg, s) := match s with
                   | c :: s' => if decide (c = "-"%char) then (true, s')
                                else if decide (c = "+"%char) then (false, s')
                                else (false, s)
                   | [] => (false, s)
                   end in
  let '(n, any) :=
    match s with
    | c :: s' =>
        if decide (c = "0"%char) then
          match s' with
          | x :: h :: _ =>
              if bool_decide (x ∈ $"xX") && (match digit h with Some d => d <? 16 | None => false end)
              then digits 16 (tail s') 0 false
              else digits 8 s 0 false
          | _ => digits 8 s 0 false
          end
        else digits 10 s 0 false
    | [] => (0, false)
    end in
  (neg, n, any).

(** Saturation on overflow, in 64 bits. *)
Definition strtol (s : str) : Z * bool :=
  let '(neg, n, any) := strto s in
  let v := if neg : bool then - n else n in
  (Z.max (- 2 ^ 63) (Z.min (2 ^ 63 - 1) v), any).

Definition strtoul (s : str) : Z * bool :=
  let '(neg, n, any) := strto s in
  (if 2 ^ 64 <=? n then 2 ^ 64 - 1 else if neg : bool then uwrap 64 (- n) else n, any).

(** src/utils/ini/INIReader.cpp:49-57, [INIReader::GetInteger]. *)
Definition GetInteger (values : gmap str str) (section name : str) (default_value : Z) : Z :=
  let '(n, moved) := strtol (Get values section name []) in
  if moved then n else default_value.

(** src/utils/ini/INIReader.cpp:59-67, [INIReader::GetInteger64]. *)
Definition GetInteger64 (values : gmap str str) (section name : str) (default_value : Z) : Z :=
  let '(n, moved) := strtol (Get values section name []) in
  if moved then n else default_value.

(** src/utils/ini/INIReader.cpp:69-77, [INIReader::GetUnsigned]. *)
Definition GetUnsigned (values : gmap str str) (section name : str) (default_value : Z) : Z :=
  let '(n, moved) := strtoul (Get values section name []) in
  if moved then n else default_value.

(** src/utils/ini/INIReader.cpp:79-87, [INIReader::GetUnsigned64]. *)
Definition GetUnsigned64 (values : gmap str str) (section name : str) (default_value : Z) : Z :=
  let '(n, moved) := strtoul (Get values section name []) in
  if moved then n else default_value.

(** ** What a configuration prints as *)

(** A char of a section or option name: not white space, and with no meaning
    to the parser. *)
Definition name_char (c : ascii) : bool :=
  negb (isspace c) && negb (in_set $"=:;#[]" c) && negb (bool_decide (c = NUL)).
Definition value_char (c : ascii) : bool :=
  negb (bool_decide (c = newline)) && negb (bool_decide (c = ";"%char)) &&
  negb (bool_decide (c = NUL)).
Definition no_outer_space (s : str) : bool :=
  match head s with Some c => negb (isspace c) | None => true end &&
  match last s with Some c => negb (isspace c) | None => true end.

Definition pair_ok (kv : str * str) : bool :=
  negb (bool_decide (kv.1 = [])) && forallb name_char kv.1 &&
  forallb value_char kv.2 && no_outer_space kv.2 &&
  (length kv.1 + length kv.2 <=? 197)%nat.
Definition section_ok (s : str * list (str * str)) : bool :=
  forallb name_char s.1 && (length s.1 <=? 49)%nat && forallb pair_ok s.2.

Definition print_pair (kv : str * str) : str := kv.1 ++ $"=" ++ kv.2.
Definition print_header (sec : str) : str := $"[" ++ sec ++ $"]".
Definition config_lines (s : str * list (str * str)) : list str :=
  print_header s.1 :: map print_pair s.2.
Definition print_lines (ls : list str) : str :=
  concat (map (fun l => l ++ [newline]) ls).
Definition print_config (cfg : list (str * list (str * str))) : str :=
  print_lines (concat (map config_lines cfg)).

(** The (section, name, value) triples of a configuration, in order. *)
Definition triples (cfg : list (str * list (str * str))) : list (str * str * str) :=
  concat (map (fun s => map (fun kv => (s.1, kv.1, kv.2)) s.2) cfg).

(** ** Lemmas *)

Lemma rstrip_snoc_space s c : isspace c = true -> rstrip (s ++ [c]) = rstrip s.
Proof.
  intros Hc. induction s as [|d s IH]; simpl; [by rewrite Hc|]. by rewrite IH.
Qed.

Lemma rstrip_id s : match last s with Some c => isspace c = false | None => True end ->
  rstrip s = s.
Proof.
  induction s as [|c s IH]; simpl; [done|]. destruct s as [|d s]; simpl in *.
  - by intros ->.
  - intros H. by rewrite IH.
Qed.

Lemma lskip_id s : match head s with Some c => isspace c = false | None => True end ->
  lskip s = s.
Proof. destruct s as [|c s]; simpl; [done|]. by intros ->. Qed.

Lemma find_coc_none ws s :
  forallb (fun c => negb (bool_decide (c = ";"%char))) s = true ->
  find_chars_or_comment ws None s = length s.
Proof.
  revert ws. induction s as [|c s IH]; intros ws; simpl; [done|].
  rewrite andb_true_iff, negb_true_iff, bool_decide_eq_false. intros [Hc Hs].
  rewrite IH by done. unfold in_set, INI_INLINE_COMMENT_PREFIXES.
  rewrite (bool_decide_false (c ∈ _)) by (simpl; rewrite list_elem_of_singleton; done).
  by rewrite andb_false_r.
Qed.

Lemma find_coc_at ws chars a c b :
  in_set chars c = true ->
  forallb (fun d => negb (in_set chars d) && negb (bool_decide (d = ";"%char))) a = true ->
  find_chars_or_comment ws (Some chars) (a ++ c :: b) = length a.
Proof.
  intros Hc. revert ws. induction a as [|d a IH]; intros ws; simpl; [by rewrite Hc|].
  rewrite !andb_true_iff, !negb_true_iff, bool_decide_eq_false. intros [[Hd Hs] Ha].
  rewrite IH by done. rewrite Hd. unfold in_set, INI_INLINE_COMMENT_PREFIXES.
  rewrite (bool_decide_false (d ∈ _)) by (simpl; rewrite list_elem_of_singleton; done).
  by rewrite andb_false_r.
Qed.

Lemma read_chars_line n l rest :
  newline ∉ l -> (length l < n)%nat ->
  read_chars n (l ++ newline :: rest) = (l ++ [newline], rest).
Proof.
  revert n. induction l as [|c l IH]; intros [|n] Hl Hn; simpl in *; try lia; [done|].
  apply not_elem_of_cons in Hl as [Hc Hl].
  rewrite decide_False by done. by rewrite IH by (done || lia).
Qed.

Lemma read_chars_app n s line rest :
  read_chars n s = (line, rest) -> s = line ++ rest /\ (length line <= n)%nat.
Proof.
  revert s line rest. induction n as [|n IH]; intros s line rest; simpl.
  - intros; simplify_eq/=. done.
  - destruct s as [|c s]; [intros; simplify_eq/=; split; [done|lia]|].
    destruct (decide (c = newline)); [intros; simplify_eq/=; split; [done|lia]|].
    destruct (read_chars n s) as [l r] eqn:E. intros; simplify_eq/=.
    destruct (IH _ _ _ E) as [-> ?]. split; [done|lia].
Qed.

Lemma read_chars_short n s line rest :
  read_chars n s = (line, rest) -> (length line < n)%nat ->
  last line = Some newline \/ rest = [].
Proof.
  revert s line rest. induction n as [|n IH]; intros s line rest; simpl; [lia|].
  destruct s as [|c s]; [intros; simplify_eq/=; by right|].
  destruct (decide (c = newline)) as [->|]; [intros; simplify_eq/=; by left|].
  destruct (read_chars n s) as [l r] eqn:E. intros; simplify_eq/=.
  destruct (IH _ _ _ E) as [H|H]; [lia| |by right].
  left. rewrite last_cons. by rewrite H.
Qed.

Lemma read_chars_shorter n c s line rest :
  read_chars (S n) (c :: s) = (line, rest) -> (length rest < length (c :: s))%nat.
Proof.
  simpl. destruct (decide (c = newline)); [intros; simplify_eq/=; lia|].
  destruct (read_chars n s) as [l r] eqn:E. intros; simplify_eq/=.
  apply read_chars_app in E as [-> _]. rewrite length_app. lia.
Qed.

Lemma c_str_id s : NUL ∉ s -> c_str s = s.
Proof.
  induction s as [|c s IH]; simpl; [done|]. intros H.
  apply not_elem_of_cons in H as [Hc Hs]. rewrite decide_False by done.
  by rewrite IH.
Qed.

Lemma forallb_not_elem (f : ascii -> bool) c s :
  forallb f s = true -> f c = false -> c ∉ s.
Proof.
  rewrite forallb_forall. intros H Hc Hin. apply list_elem_of_In in Hin.
  rewrite (H _ Hin) in Hc. done.
Qed.

Lemma forallb_weaken (f g : ascii -> bool) s :
  (forall c, f c = true -> g c = true) -> forallb f s = true -> forallb g s = true.
Proof. rewrite !forallb_forall. eauto. Qed.

Lemma name_char_props c :
  name_char c = true ->
  isspace c = false /\ in_set $"=:;#[]" c = false /\ c <> NUL.
Proof.
  unfold name_char. rewrite !andb_true_iff, !negb_true_iff, bool_decide_eq_false. tauto.
Qed.

Lemma in_set_sub (a b : str) c :
  (forall d, d ∈ a -> d ∈ b) -> in_set b c = false -> in_set a c = false.
Proof.
  unfold in_set. rewrite !bool_decide_eq_false. eauto.
Qed.

Lemma name_char_not c a :
  (forall d, d ∈ a -> d ∈ $"=:;#[]") -> name_char c = true -> in_set a c = false.
Proof. intros Ha Hc. apply name_char_props in Hc as (_ & Hc & _). by eapply in_set_sub. Qed.

Ltac not_in :=
  simpl; repeat first
    [ assumption | apply not_elem_of_nil
    | apply not_elem_of_cons; split; [discriminate|]
    | apply not_elem_of_app; split ].

(** A line of text whose ends are not white space is seen as it is. *)
Lemma line_start_plain n l :
  l <> [] -> match head l with Some c => isspace c = false | None => True end ->
  match last l with Some c => isspace c = false | None => True end ->
  n <> 1 \/ head l <> Some (ascii_of_N 239) ->
  line_start n (l ++ [newline]) = (false, l).
Proof.
  intros Hne Hh Ht Hbom. unfold line_start.
  assert (match l ++ [newline] with
          | a :: b :: c :: rest =>
              if (n =? 1) && (N_of_ascii a =? 239)%N && (N_of_ascii b =? 187)%N
                 && (N_of_ascii c =? 191)%N then rest else l ++ [newline]
          | _ => l ++ [newline]
          end = l ++ [newline]) as ->.
  { destruct l as [|a l]; [done|]. simpl. destruct (l ++ [newline]) as [|b [|c r]]; try done.
    destruct Hbom as [Hn|Hb].
    - by apply Z.eqb_neq in Hn as ->.
    - destruct (N.eqb_spec (N_of_ascii a) 239) as [E|]; [|by rewrite andb_false_r].
      exfalso. apply Hb. cbn [head]. by rewrite <- (ascii_N_embedding a), E. }
  rewrite rstrip_snoc_space, rstrip_id, lskip_id by done.
  by rewrite !Nat.eqb_refl.
Qed.

Section Lines.
Context {U : Type} (handler : U -> str -> str -> str -> bool * U).

Lemma process_header st sec :
  forallb name_char sec = true -> (length sec <= 49)%nat ->
  process_line handler st (print_header sec ++ [newline]) =
  PState sec [] (lineno st + 1) (error st) (user st).
Proof.
  intros Hs Hl. unfold process_line, print_header.
  rewrite c_str_id.
  2:{ pose proof (forallb_not_elem name_char NUL _ Hs eq_refl). not_in. }
  rewrite line_start_plain; [|done|done| |by right].
  2:{ by rewrite !last_app. }
  simpl. rewrite andb_false_r. unfold section_line.
  rewrite find_coc_at; [|done|].
  2:{ eapply forallb_weaken; [|exact Hs]. intros c Hc.
      assert (c <> ";"%char) by (intros ->; done).
      rewrite (name_char_not c $"]") by (set_solver || done).
      by rewrite bool_decide_false. }
  rewrite lookup_app_r, Nat.sub_diag by lia. simpl.
  rewrite take_app_length. unfold strncpy0, MAX_SECTION. rewrite take_ge by lia. done.
Qed.

Lemma pair_line_spec st k v :
  forallb name_char k = true -> forallb value_char v = true ->
  match head v with Some c => negb (isspace c) | None => true end = true ->
  match last v with Some c => negb (isspace c) | None => true end = true ->
  pair_line handler st (k ++ $"=" ++ v) =
  HANDLER handler (PState (section st) (strncpy0 k MAX_NAME) (lineno st) (error st) (user st)) k v.
Proof.
  intros Hk Hv Hvh Hvl. unfold pair_line. change ($"=" ++ v) with ("="%char :: v).
  rewrite find_coc_at; [|done|].
  2:{ eapply forallb_weaken; [|exact Hk]. intros d Hd.
      assert (d <> ";"%char) by (intros ->; done).
      rewrite (name_char_not d $"=:") by (set_solver || done).
      by rewrite bool_decide_false. }
  rewrite lookup_app_r, Nat.sub_diag by lia. simpl.
  rewrite take_app_length.
  replace (drop (S (length k)) (k ++ "="%char :: v)) with v
    by by rewrite cons_middle, app_assoc, drop_app_length'
         by (rewrite length_app; simpl; lia).
  rewrite (find_coc_none false v).
  2:{ eapply forallb_weaken; [|exact Hv]. intros d. unfold value_char.
      rewrite !andb_true_iff. tauto. }
  rewrite (take_ge v) by done.
  rewrite (lskip_id v) by (destruct (head v); [by apply negb_true_iff|done]).
  rewrite (rstrip_id v) by (destruct (last v); [by apply negb_true_iff|done]).
  rewrite (rstrip_id k); [done|].
  rewrite last_lookup. destruct (k !! _) eqn:El; [|done].
  rewrite forallb_forall in Hk. apply (name_char_props a), Hk.
  apply list_elem_of_In. by eapply list_elem_of_lookup_2.
Qed.

Lemma process_pair st kv :
  pair_ok kv = true -> 0 < lineno st ->
  process_line handler st (print_pair kv ++ [newline]) =
  HANDLER handler (PState (section st) (strncpy0 kv.1 MAX_NAME) (lineno st + 1)
                     (error st) (user st)) kv.1 kv.2.
Proof.
  destruct kv as [k v]. unfold pair_ok, print_pair, no_outer_space. simpl.
  rewrite !andb_true_iff, negb_true_iff, bool_decide_eq_false, Nat.leb_le.
  intros [[[[Hk0 Hk] Hv] [Hvh Hvl]] Hlen] Hln.
  assert (head_k : exists c k', k = c :: k' /\ name_char c = true).
  { destruct k as [|c k]; [done|]. apply andb_true_iff in Hk as [? ?]. by exists c, k. }
  destruct head_k as (c & k' & Ek & Hc).
  unfold process_line.
  rewrite c_str_id.
  2:{ pose proof (forallb_not_elem name_char NUL _ Hk eq_refl).
      pose proof (forallb_not_elem value_char NUL _ Hv eq_refl). not_in. }
  apply name_char_props in Hc as (Hcs & Hcset & _).
  rewrite line_start_plain; [|by rewrite Ek|by rewrite Ek| |left; simpl; lia].
  2:{ rewrite last_app, last_cons.
      destruct (last v) as [x|]; simpl in *; [by apply negb_true_iff|done]. }
  assert (Hpair := fun st' => pair_line_spec st' k v Hk Hv Hvh Hvl).
  change ($"=" ++ v) with ("="%char :: v) in *.
  destruct (k ++ "="%char :: v) as [|x rest] eqn:E; [by subst|].
  assert (x = c) as -> by (subst; simpl in E; congruence).
  assert (in_set INI_START_COMMENT_PREFIXES c = false) as ->.
  { eapply (in_set_sub _ $"=:;#[]"); [|done]. intros d.
    unfold INI_START_COMMENT_PREFIXES. set_solver. }
  rewrite andb_false_r, decide_False; [apply Hpair|].
  intros ->. done.
Qed.

(** The length of the stream is enough fuel, and more changes nothing. *)
Lemma parse_loop_fuel f1 f2 s st :
  (length s <= f1)%nat -> (length s <= f2)%nat ->
  parse_loop handler f1 s st = parse_loop handler f2 s st.
Proof.
  revert f2 s st. induction f1 as [|f1 IH]; intros f2 s st H1 H2.
  - destruct s; simpl in *; [|lia]. by destruct f2.
  - destruct s as [|c s]; [by destruct f2|]. destruct f2 as [|f2]; [simpl in *; lia|].
    cbn [parse_loop]. unfold ini_reader_string.
    change (INI_MAX_LINE <? 2)%nat with false. cbn iota.
    destruct (read_chars _ _) as [line rest] eqn:E.
    apply read_chars_shorter in E. simpl in *. apply IH; lia.
Qed.

Definition parse (s : str) (st : pstate U) : pstate U := parse_loop handler (length s) s st.

(** The lines of a stream are processed one after the other. *)
Lemma parse_line l rest st :
  newline ∉ l -> (length l <= 198)%nat ->
  parse ((l ++ [newline]) ++ rest) st = parse rest (process_line handler st (l ++ [newline])).
Proof.
  intros Hl Hn. unfold parse.
  rewrite <- app_assoc. cbn [app].
  assert (exists c s, l ++ newline :: rest = c :: s) as (c & s & E)
    by (destruct l; eauto).
  rewrite E. cbn [length parse_loop]. unfold ini_reader_string.
  change (INI_MAX_LINE <? 2)%nat with false. cbn iota.
  rewrite <- E, read_chars_line by (done || (simpl; lia)).
  apply parse_loop_fuel; [|done].
  apply (f_equal length) in E. rewrite length_app in E. simpl in E. lia.
Qed.

Hypothesis handler_ok : forall u s n v, (handler u s n v).1 = true.

Definition call (u : U) (t : str * str * str) : U := (handler u t.1.1 t.1.2 t.2).2.

Lemma HANDLER_ok st n v :
  HANDLER handler st n v =
  PState (section st) (prev_name st) (lineno st) (error st) (call (user st) (section st, n, v)).
Proof.
  unfold HANDLER, call. pose proof (handler_ok (user st) (section st) n v) as H.
  simpl. by destruct (handler _ _ _ _) as [ok u]; simpl in *; subst.
Qed.

Lemma parse_pairs kvs rest st :
  forallb pair_ok kvs = true -> 0 < lineno st ->
  exists pn,
    parse (print_lines (map print_pair kvs) ++ rest) st =
    parse rest
      (PState (section st) pn (lineno st + Z.of_nat (length kvs)) (error st)
         (foldl call (user st) (map (fun kv => (section st, kv.1, kv.2)) kvs))).
Proof.
  revert st. induction kvs as [|kv kvs IH]; intros st Hok Hln.
  - exists (prev_name st). simpl. rewrite Z.add_0_r. by destruct st.
  - simpl in Hok. apply andb_true_iff in Hok as [Hkv Hok].
    change (print_lines (map print_pair (kv :: kvs)))
      with ((print_pair kv ++ [newline]) ++ print_lines (map print_pair kvs)).
    rewrite <- (app_assoc (_ ++ _)), parse_line.
    + rewrite process_pair, HANDLER_ok by done. simpl.
      edestruct (IH (PState (section st) (strncpy0 kv.1 MAX_NAME) (lineno st + 1) (error st)
        (call (user st) (section st, kv.1, kv.2)))) as [pn ->]; [done|simpl; lia|].
      exists pn. simpl. do 2 f_equal. lia.
    + destruct kv as [k v]. unfold pair_ok in Hkv. simpl in Hkv.
      rewrite !andb_true_iff in Hkv. destruct Hkv as [[[[_ Hk] Hv] _] _].
      pose proof (forallb_not_elem name_char newline _ Hk eq_refl).
      pose proof (forallb_not_elem value_char newline _ Hv eq_refl).
      unfold print_pair. not_in.
    + unfold pair_ok in Hkv. rewrite !andb_true_iff, Nat.leb_le in Hkv.
      unfold print_pair. rewrite !length_app. simpl. lia.
Qed.

Lemma parse_config cfg rest st :
  forallb section_ok cfg = true -> 0 <= lineno st ->
  exists sec pn n,
    parse (print_config cfg ++ rest) st =
    parse rest (PState sec pn n (error st) (foldl call (user st) (triples cfg))).
Proof.
  revert st. induction cfg as [|[sec kvs] cfg IH]; intros st Hok Hln.
  - exists (section st), (prev_name st), (lineno st). simpl. by destruct st.
  - simpl in Hok. apply andb_true_iff in Hok as [Hsec Hok].
    unfold section_ok in Hsec. simpl in Hsec.
    rewrite !andb_true_iff, Nat.leb_le in Hsec. destruct Hsec as [[Hs Hl] Hkvs].
    assert (print_config ((sec, kvs) :: cfg) ++ rest =
      (print_header sec ++ [newline]) ++
      (print_lines (map print_pair kvs) ++ (print_config cfg ++ rest))) as ->.
    { unfold print_config, print_lines. simpl.
      by rewrite map_app, concat_app, <- !app_assoc. }
    rewrite parse_line, process_header by
      (done || (unfold print_header; rewrite !length_app; simpl; lia)
       || (pose proof (forallb_not_elem name_char newline _ Hs eq_refl);
           unfold print_header; not_in)).
    edestruct (parse_pairs kvs (print_config cfg ++ rest)
      (PState sec [] (lineno st + 1) (error st) (user st))) as [pn ->]; [done|simpl; lia|].
    edestruct (IH (PState sec pn (lineno st + 1 + Z.of_nat (length kvs)) (error st)
      (foldl call (user st) (map (fun kv => (sec, kv.1, kv.2)) kvs))))
      as (sec' & pn' & n' & E); [done|simpl; lia|].
    simpl in *. rewrite E. exists sec', pn', n'.
    unfold triples. simpl. by rewrite foldl_app.
Qed.

End Lines.

Definition tkey (t : str * str * str) : str := MakeKey t.1.1 t.1.2.

Lemma values_other ts m k :
  k ∉ map tkey ts -> foldl (call ValueHandler) m ts !! k = m !! k.
Proof.
  revert m. induction ts as [|t ts IH]; intros m Hk; [done|].
  simpl in *. apply not_elem_of_cons in Hk as [Hk Hts].
  rewrite IH by done. unfold call, ValueHandler; simpl.
  by rewrite lookup_insert_ne by (unfold tkey in *; congruence).
Qed.

(** A key met once holds its value. *)
Lemma values_fresh ts m t :
  NoDup (map tkey ts) -> t ∈ ts -> m !! tkey t = None ->
  foldl (call ValueHandler) m ts !! tkey t = Some t.2.
Proof.
  revert m. induction ts as [|t' ts IH]; intros m Hnd Hin Hm.
  - by apply elem_of_nil in Hin.
  - simpl in *. apply NoDup_cons in Hnd as [Hfresh Hnd].
    apply elem_of_cons in Hin as [->|Hin].
    + rewrite values_other by done. unfold call, ValueHandler; simpl.
      unfold tkey in *. rewrite Hm. simpl. by rewrite lookup_insert_eq.
    + apply IH; [done..|]. unfold call, ValueHandler; simpl.
      rewrite lookup_insert_ne; [done|]. intros E. apply Hfresh.
      unfold tkey in *. rewrite E. by apply (list_elem_of_fmap_2 tkey ts t).
Qed.

Lemma str_leb_refl a : str_leb a a = true.
Proof. induction a as [|c a IH]; simpl; [done|]. by rewrite N.compare_refl. Qed.

Lemma str_leb_prefix p r : str_leb p (p ++ r) = true.
Proof. induction p as [|c p IH]; simpl; [done|]. by rewrite N.compare_refl. Qed.

Lemma str_leb_total a b : str_leb a b = false -> str_leb b a = true.
Proof.
  revert b. induction a as [|c a IH]; intros [|d b]; simpl; try done.
  rewrite (N.compare_antisym (N_of_ascii c)). destruct (N.compare _ _); simpl; eauto; done.
Qed.

Lemma str_leb_trans a b c :
  str_leb a b = true -> str_leb b c = true -> str_leb a c = true.
Proof.
  revert b c. induction a as [|x a IH]; intros [|y b] [|z c]; simpl; try done.
  destruct (N.compare_spec (N_of_ascii x) (N_of_ascii y)),
           (N.compare_spec (N_of_ascii y) (N_of_ascii z)),
           (N.compare_spec (N_of_ascii x) (N_of_ascii z)); try done; try lia; eauto.
Qed.

(** A string between a prefix and one of its extensions has the prefix. *)
Lemma str_leb_squeeze p r b :
  str_leb p b = true -> str_leb b (p ++ r) = true -> prefixb p b = true.
Proof.
  revert b. induction p as [|c p IH]; intros [|d b]; simpl; try done.
  destruct (N.compare_spec (N_of_ascii c) (N_of_ascii d)) as [E|E|E];
    destruct (N.compare_spec (N_of_ascii d) (N_of_ascii c)) as [E'|E'|E'];
    try done; try lia.
  intros H1 H2. assert (c = d) as ->.
  { by rewrite <- (ascii_N_embedding c), E, ascii_N_embedding. }
  rewrite decide_True by done. eauto.
Qed.

Definition pick (key k : str) (best : option str) : option str :=
  if str_leb key k then
    match best with
    | None => Some k
    | Some b => if str_leb k b then Some k else Some b
    end
  else best.

Lemma pick_spec key ks :
  match foldr (pick key) None ks with
  | Some b => b ∈ ks /\ str_leb key b = true /\
              forall k, k ∈ ks -> str_leb key k = true -> str_leb b k = true
  | None => forall k, k ∈ ks -> str_leb key k = false
  end.
Proof.
  induction ks as [|k ks IH]; simpl.
  - intros k H. by apply elem_of_nil in H.
  - unfold pick at 1. destruct (str_leb key k) eqn:Ek; simpl.
    + destruct (foldr _ None ks) as [b|].
      * destruct IH as (Hb & Hkb & Hmin). destruct (str_leb k b) eqn:Ekb.
        -- split; [constructor|]. split; [done|]. intros k' [->|Hk']%elem_of_cons Hle.
           ++ apply str_leb_refl.
           ++ by eapply str_leb_trans; [exact Ekb|apply Hmin].
        -- split; [by constructor|]. split; [done|]. intros k' [->|Hk']%elem_of_cons Hle.
           ++ by apply str_leb_total.
           ++ by apply Hmin.
      * split; [constructor|]. split; [done|]. intros k' [->|Hk']%elem_of_cons Hle.
        -- apply str_leb_refl.
        -- by rewrite IH in Hle.
    + destruct (foldr _ None ks) as [b|].
      * destruct IH as (Hb & Hkb & Hmin).
        split; [by constructor|]. split; [done|]. intros k' [->|Hk']%elem_of_cons Hle.
        -- congruence.
        -- by apply Hmin.
      * intros k' [->|Hk']%elem_of_cons; [done|by apply IH].
Qed.

Lemma lower_bound_spec values key :
  match lower_bound values key with
  | Some b => is_Some (values !! b) /\ str_leb key b = true /\
              forall k, is_Some (values !! k) -> str_leb key k = true -> str_leb b k = true
  | None => forall k, is_Some (values !! k) -> str_leb key k = false
  end.
Proof.
  assert (Hdom : forall k, is_Some (values !! k) <-> k ∈ map fst (map_to_list values)).
  { intros k. rewrite list_elem_of_fmap. split.
    - intros [v Hv]. exists (k, v). by rewrite elem_of_map_to_list.
    - intros ([k' v] & -> & H%elem_of_map_to_list). by exists v. }
  change (lower_bound values key) with (foldr (pick key) None (map fst (map_to_list values))).
  pose proof (pick_spec key (map fst (map_to_list values))) as H.
  destruct (foldr _ _ _) as [b|].
  - destruct H as (Hb & Hle & Hmin). split; [by apply Hdom|]. split; [done|].
    intros k Hk. apply Hmin. by apply Hdom.
  - intros k Hk. apply H. by apply Hdom.
Qed.

(** ** Properties *)

(** C28. Reading back what was printed: a file that lists the sections and
    pairs of a configuration, one to a line, parses without error, and every
    pair is found under its section and name (in any mixture of cases), when
    no two pairs share a key; every other key gives the default. The names of
    sections, of at most 49 chars, and of pairs, not empty, have no white space,
    none of [=], [:], [;], [#] and the square brackets, and no NUL; a value has no
    newline, no [;] and no NUL and does not begin or end with white space; a name
    and its value have at most 197 chars together. *)
Theorem reader_roundtrip cfg :
  forallb section_ok cfg = true -> NoDup (map tkey (triples cfg)) ->
  let '(err, values) := INIReader_file (Some (print_config cfg)) in
  err = 0 /\
  (forall sec name value sec' name' d,
     (sec, name, value) ∈ triples cfg -> MakeKey sec' name' = MakeKey sec name ->
     Get values sec' name' d = value) /\
  (forall sec name d,
     MakeKey sec name ∉ map tkey (triples cfg) -> Get values sec name d = d).
Proof.
  intros Hok Hnd.
  assert (INIReader_file (Some (print_config cfg)) =
    (0, foldl (call ValueHandler) ∅ (triples cfg))) as ->.
  { unfold INIReader_file, ini_parse, ini_parse_stream.
    destruct (parse_config ValueHandler ltac:(done) cfg [] (initial ∅) Hok ltac:(done))
      as (sec & pn & n & E).
    unfold parse in E. rewrite app_nil_r in E. by rewrite E. }
  split; [done|]. split.
  - intros sec name value sec' name' d Hin Hk. unfold Get. rewrite Hk.
    by rewrite (values_fresh _ _ (sec, name, value)).
  - intros sec name d Hk. unfold Get. by rewrite values_other.
Qed.

Definition node_cfg : list (str * list (str * str)) :=
  [($"Node", [($"node_id", $"17"); ($"name", $"edge one")]); ($"Log", [($"level", [])])].

Lemma reader_roundtrip_witness :
  Get (INIReader_file (Some (print_config node_cfg))).2 $"NODE" $"Name" [] = $"edge one".
Proof.
  pose proof (reader_roundtrip node_cfg) as H.
  destruct (INIReader_file (Some (print_config node_cfg))) as [e v].
  destruct H as (_ & H & _); [reflexivity| |].
  - by_decision.
  - apply (H $"Node" $"name"); [|reflexivity].
    by_decision.
Defined.

(** [HasSection], which looks at the least key not below "section=", says
    whether any key of the map starts with "section=". *)
Theorem HasSection_spec values sec :
  HasSection values sec = true <->
  exists k, is_Some (values !! k) /\ prefixb (MakeKey sec []) k = true.
Proof.
  unfold HasSection. pose proof (lower_bound_spec values (MakeKey sec [])) as H.
  destruct (lower_bound values (MakeKey sec [])) as [b|].
  - destruct H as (Hb & Hle & Hmin). split; [eauto|].
    intros (k & Hk & Hp). apply prefixb_spec in Hp as [r ->].
    eapply str_leb_squeeze; [done|]. apply Hmin; [done|]. apply str_leb_prefix.
  - split; [done|]. intros (k & Hk & Hp). apply prefixb_spec in Hp as [r ->].
    specialize (H _ Hk). by rewrite str_leb_prefix in H.
Qed.

(** Nothing of the stream is lost or read twice, and the line buffer
    never overflows: each read takes the next chars of the stream, at least
    one and at most [INI_MAX_LINE - 1], and stops short of that only behind a
    newline or at the end. A line longer than the buffer is so cut into
    several, each parsed as a line of its own. *)
Theorem ini_reader_chunks s line rest :
  ini_reader_string INI_MAX_LINE s = Some (line, rest) ->
  s = line ++ rest /\ (0 < length line <= INI_MAX_LINE - 1)%nat /\
  ((length line < INI_MAX_LINE - 1)%nat -> last line = Some newline \/ rest = []).
Proof.
  unfold ini_reader_string. destruct s as [|c s]; [done|].
  change (INI_MAX_LINE <? 2)%nat with false. cbn iota.
  intros H. apply (inj Some) in H.
  pose proof (read_chars_app _ _ _ _ H) as [Hs Hl].
  pose proof (read_chars_short _ _ _ _ H) as Hshort.
  change (INI_MAX_LINE - 1)%nat with (S 198) in H. apply read_chars_shorter in H.
  split; [done|]. split; [|done]. split; [|done].
  apply (f_equal length) in Hs. rewrite length_app in Hs. lia.
Qed.

Lemma ini_reader_chunks_witness :
  let line := replicate 199 "x"%char in
  $"xx" ++ replicate 198 "x"%char = line ++ $"x" /\ (0 < length line <= INI_MAX_LINE - 1)%nat /\
  ((length line < INI_MAX_LINE - 1)%nat -> last line = Some newline \/ $"x" = []).
Proof. apply ini_reader_chunks. vm_compute. reflexivity. Defined.

End Ini.
