(* ===== verification/ConfigMap.v ===== *)
(** * The configuration maps ([src/utils/config/ConfigMap.cpp],
      [src/utils/parseJson.h])

    [MapWrapper] is a mutex around a [std::map]; a call is one critical
    section. The group file is parsed by RapidJSON: its document is given as a
    value of the type [json] below. *)

From S2P Require Import Prelude StrUtil.
Import StrUtil.

Module ConfigMap.

(** src/utils/config/ConfigMap.cpp:5-8, [MapWrapper::addElement]. *)
Definition addElement (m : gmap str str) (key value : str) : gmap str str :=
  <[key := value]> m.

(** src/utils/config/ConfigMap.cpp:10-13, [MapWrapper::removeElement]. *)
Definition removeElement (m : gmap str str) (key : str) : gmap str str := delete key m.

(** src/utils/config/ConfigMap.cpp:15-22, [MapWrapper::findElement]. *)
Definition findElement (m : gmap str str) (key : str) : str := default [] (m !! key).

(** src/utils/config/ConfigMap.cpp:24-32, [MapWrapper::modifyElement]. *)
Definition modifyElement (m : gmap str str) (key value : str) : bool * gmap str str :=
  match m !! key with
  | Some _ => (true, <[key := value]> m)
  | None => (false, m)
  end.

(** src/utils/config/ConfigMap.cpp:41-59, [MapWrapper::getNodePartitions]. One
    turn of the loop on [des]. *)
Definition add_partition (configMap : gmap str str) (des key : str) : str :=
  let nodePartition := findElement configMap key in
  if bool_decide (nodePartition = []) then des
  else if bool_decide (des = []) then nodePartition
  else des ++ $"," ++ nodePartition.

(** src/utils/config/ConfigMap.cpp:35-65, [MapWrapper::getNodePartitions]. The
    value left in [des]. *)
Definition getNodePartitions (src : str) (configMap : gmap str str) (des : str) : str :=
  if bool_decide (src = []) then src
  else foldl (add_partition configMap) des (split src ","%char).

(** src/utils/config/ConfigMap.cpp:68-98, [MapWrapper::getNodeReplayPartition].
    The value left in [dec]. *)
Definition getNodeReplayPartition (src group : str) (configMap : gmap str str) (dec : str) : str :=
  if bool_decide (group = $"mgr") then src
  else foldl (add_partition configMap) dec (split src ","%char).

(** ** The group file *)

(** What the code asks of a parsed document. *)
Inductive json :=
  | JString (s : str)
  | JArray (l : list json)
  | JObject (fields : list (str * json))
  | JOther.

Definition member (v : json) (name : str) : option json :=
  match v with
  | JObject fs => (fun p => p.2.2) <$> list_find (fun f => f.1 = name) fs
  | _ => None
  end.

(** src/utils/parseJson.h:40-47, [parseJsonToMap]. The strings of
    ["group_member"]. *)
Definition member_list (group : json) : list str :=
  match member group $"group_member" with
  | Some (JArray l) => omap (fun m => match m with JString s => Some s | _ => None end) l
  | _ => []
  end.

(** src/utils/parseJson.h:34-52, [parseJsonToMap]. One turn of the loop. *)
Definition add_group (groupMap : gmap str (list str)) (group : json) : gmap str (list str) :=
  match member group $"group_name" with
  | Some (JString groupName) => <[groupName := member_list group]> groupMap
  | _ => groupMap
  end.

(** src/utils/parseJson.h:11-56, [parseJsonToMap]. [None] is an exception: the
    file cannot be opened, or is not JSON ([doc] is [None]). *)
Definition parseJsonToMap (doc : option json) : option (gmap str (list str)) :=
  doc ← doc;
  Some (match member doc $"groups" with
        | Some (JArray groups) => foldl add_group ∅ groups
        | _ => ∅
        end).

(** src/utils/parseJson.h:60-71, [getGroupVec]. The value left in
    [outputVector]. *)
Definition getGroupVec (inputMap : gmap str (list str)) (keys : list str)
    (outputVector : list str) : list str :=
  foldl (fun out key => match inputMap !! key with
                        | Some l => out ++ l
                        | None => out
                        end) outputVector keys.

(** ** Specification: the comma-separated list of the values found. *)

Fixpoint comma_join (l : list str) : str :=
  match l with
  | [] => []
  | [x] => x
  | x :: l' => x ++ $"," ++ comma_join l'
  end.

Definition found (configMap : gmap str str) (keys : list str) : list str :=
  filter (fun v => v <> []) (map (findElement configMap) keys).

(** ** Lemmas *)

Lemma comma_join_snoc l x :
  l <> [] -> comma_join (l ++ [x]) = comma_join l ++ $"," ++ x.
Proof.
  induction l as [|y l IH]; [done|]. intros _. destruct l as [|z l]; [done|].
  change (comma_join ((y :: z :: l) ++ [x])) with (y ++ $"," ++ comma_join ((z :: l) ++ [x])).
  rewrite IH by done. change (comma_join (y :: z :: l)) with (y ++ $"," ++ comma_join (z :: l)).
  by rewrite <- !app_assoc.
Qed.

Lemma comma_join_nonempty l : Forall (fun v => v <> []) l -> l <> [] -> comma_join l <> [].
Proof.
  intros Hl Hne. destruct Hl as [|x l Hx _]; [done|].
  destruct l; simpl; [done|]. destruct x; done.
Qed.

Lemma add_partitions_join configMap keys l :
  Forall (fun v => v <> []) l ->
  foldl (add_partition configMap) (comma_join l) keys =
  comma_join (l ++ found configMap keys).
Proof.
  revert l. induction keys as [|k keys IH]; intros l Hl; cbn [foldl].
  - unfold found; simpl. by rewrite app_nil_r.
  - unfold found. cbn [map]. rewrite filter_cons. unfold add_partition at 2.
    case_decide as Hk; cbv zeta.
    + rewrite bool_decide_false by done.
      assert (comma_join (l ++ [findElement configMap k]) =
        if bool_decide (comma_join l = []) then findElement configMap k
        else comma_join l ++ $"," ++ findElement configMap k) as E.
      { destruct (decide (l = [])) as [->|Hne]; [done|].
        rewrite comma_join_snoc by done.
        by rewrite bool_decide_false by (by apply comma_join_nonempty). }
      rewrite <- E, IH.
      * by rewrite <- app_assoc.
      * apply Forall_app. by split; [|constructor].
    + rewrite bool_decide_true; [by apply IH|].
      by destruct (findElement configMap k); [|destruct Hk].
Qed.

Lemma getGroupVec_app m keys out : getGroupVec m keys out = out ++ getGroupVec m keys [].
Proof.
  revert out. induction keys as [|k keys IH]; intros out; simpl.
  - by rewrite app_nil_r.
  - destruct (m !! k) as [l|]; [|apply IH].
    rewrite IH. rewrite (IH l). by rewrite app_assoc.
Qed.

(** ** Properties *)

(** The partition string of a node is the comma-separated list of the
    non-empty values of its keys, in the order of the keys, with no stray
    comma. *)
Theorem getNodePartitions_join configMap keys :
  Forall (fun k => ","%char ∉ k) keys -> keys <> [] ->
  getNodePartitions (unsplit ","%char keys) configMap [] =
  comma_join (found configMap keys).
Proof.
  intros Hk Hne. unfold getNodePartitions.
  rewrite bool_decide_false by (destruct keys as [|[|] ?]; done).
  rewrite split_unsplit_segments by done.
  apply (add_partitions_join configMap keys []). constructor.
Qed.

Definition partitions3 : gmap str str := {[ $"a" := $"p1"; $"c" := $"p3" ]}.

Lemma getNodePartitions_join_witness :
  getNodePartitions (unsplit ","%char [$"a"; $"b"; $"c"]) partitions3 [] = $"p1,p3".
Proof.
  rewrite getNodePartitions_join; [vm_compute; reflexivity| |discriminate].
  by_decision.
Defined.

End ConfigMap.
