(* ===== verification/Topics.v ===== *)
(** * Topics: the key expressions of the data bus
      ([src/dds/zenoh_topic_manager.cpp]) *)

From S2P Require Import Prelude StrUtil.
Import StrUtil.

Module Topics.

(** src/dds/zenoh_topic_manager.h:11-18, [ZenohTopicManager::Domain]. *)
Inductive Domain := DEFAULT | MEMORY | TIMES | S3 | DDS | FILE.
(** src/dds/zenoh_topic_manager.h:20-24, [ZenohTopicManager::Direction]. *)
Inductive Direction := UP | DOWN | BOTH.

#[export] Instance Domain_eq_dec : EqDecision Domain.
Proof. solve_decision. Defined.
#[export] Instance Direction_eq_dec : EqDecision Direction.
Proof. solve_decision. Defined.

(** src/dds/zenoh_topic_manager.h:26-42, [ZenohTopicManager::Topic]. *)
Record Topic := mkTopic {
  domain : Domain;
  project : str;
  business : str;
  region : str;
  nodeId : str;
  module : str;
  function : str;
  direction : Direction;
}.

(** src/dds/zenoh_topic_manager.cpp:20-39, [ZenohTopicManager::createTopic]. *)
Definition createTopic (domain : Domain) (project business region nodeId module function : str)
    (direction : Direction) : Topic :=
  mkTopic domain project business region nodeId module function direction.

(** src/dds/zenoh_topic_manager.cpp:41-59, [ZenohTopicManager::createFileTopic]. *)
Definition createFileTopic (project business region nodeId module function : str)
    (direction : Direction) : Topic :=
  mkTopic FILE project business region nodeId module function direction.

(** src/dds/zenoh_topic_manager.cpp:61-63, [ZenohTopicManager::addTopic]. *)
Definition addTopic (topics : list Topic) (topic : Topic) : list Topic := topics ++ [topic].

(** src/dds/zenoh_topic_manager.cpp:83-93, [ZenohTopicManager::getDomainString]. *)
Definition getDomainString (d : Domain) : str :=
  match d with
  | DEFAULT => $"default"
  | MEMORY => $"memory"
  | TIMES => $"times"
  | S3 => $"s3"
  | DDS => $"dds"
  | FILE => $"file"
  end.

(** src/dds/zenoh_topic_manager.cpp:95-102, [ZenohTopicManager::getDirectionString]. *)
Definition getDirectionString (d : Direction) : str :=
  match d with UP => $"up" | DOWN => $"down" | BOTH => $"up/down" end.

(** src/dds/zenoh_topic_manager.cpp:65-77, [ZenohTopicManager::buildKeyExpr]. *)
Definition buildKeyExpr (t : Topic) : str :=
  getDomainString (domain t) ++ $"/" ++ project t ++ $"/" ++ business t ++ $"/" ++
  region t ++ $"/" ++ nodeId t ++ $"/" ++ module t ++ $"/" ++ function t ++ $"/" ++
  getDirectionString (direction t).

(** src/dds/zenoh_topic_manager.cpp:79-81, [ZenohTopicManager::getWildcardExpr]. *)
Definition getWildcardExpr (t : Topic) : str := buildKeyExpr t ++ $"/**".

(** src/dds/zenoh_topic_manager.cpp:104-111, [ZenohTopicManager::getDomainEnum]. *)
Definition getDomainEnum (s : str) : Domain :=
  if bool_decide (s = $"memory") then MEMORY
  else if bool_decide (s = $"times") then TIMES
  else if bool_decide (s = $"s3") then S3
  else if bool_decide (s = $"dds") then DDS
  else if bool_decide (s = $"file") then FILE
  else DEFAULT.

(** src/dds/zenoh_topic_manager.cpp:113-117, [ZenohTopicManager::getDirectionEnum]. *)
Definition getDirectionEnum (s : str) : Direction :=
  if bool_decide (s = $"up") then UP
  else if bool_decide (s = $"down") then DOWN
  else BOTH.

(** A field that cannot be confused with the structure of a key expression. *)
Definition plain (s : str) : Prop := "/"%char ∉ s /\ "*"%char ∉ s.

Definition plain_topic (t : Topic) : Prop :=
  plain (project t) /\ plain (business t) /\ plain (region t) /\ plain (nodeId t) /\
  plain (module t) /\ plain (function t).

(** The topic of one node made from a template whose node is "*". *)
Definition with_node (t : Topic) (n : str) : Topic :=
  mkTopic (domain t) (project t) (business t) (region t) n (module t) (function t) (direction t).

(** ** Lemmas *)

Lemma split_cons seg rest :
  "/"%char ∉ seg -> split (seg ++ $"/" ++ rest) "/"%char = seg :: split rest "/"%char.
Proof.
  intros H. apply split_step; [by destruct seg|]. by apply until_app.
Qed.

Lemma domain_no_slash d : "/"%char ∉ getDomainString d.
Proof. apply (bool_decide_unpack _). by destruct d. Qed.

Lemma split_key t :
  "/"%char ∉ project t -> "/"%char ∉ business t -> "/"%char ∉ region t ->
  "/"%char ∉ nodeId t -> "/"%char ∉ module t -> "/"%char ∉ function t ->
  split (buildKeyExpr t) "/"%char =
  [getDomainString (domain t); project t; business t; region t; nodeId t; module t; function t]
    ++ split (getDirectionString (direction t)) "/"%char.
Proof.
  intros. unfold buildKeyExpr.
  rewrite !split_cons by (done || apply domain_no_slash). done.
Qed.

Lemma getDomainEnum_string d : getDomainEnum (getDomainString d) = d.
Proof. by destruct d. Qed.

Lemma getDirectionEnum_string d : getDirectionEnum (getDirectionString d) = d.
Proof. by destruct d. Qed.

Lemma getDirectionString_split_inj d d' :
  split (getDirectionString d) "/"%char = split (getDirectionString d') "/"%char -> d = d'.
Proof. by destruct d, d'. Qed.

Lemma buildKeyExpr_inj_aux t t' :
  plain_topic t -> plain_topic t' -> buildKeyExpr t = buildKeyExpr t' -> t = t'.
Proof.
  intros ([? _] & [? _] & [? _] & [? _] & [? _] & [? _])
         ([? _] & [? _] & [? _] & [? _] & [? _] & [? _]) E.
  apply (f_equal (fun s => split s "/"%char)) in E.
  rewrite !split_key in E by done. simpl in E.
  destruct t, t'; simpl in *. injection E as Ed -> -> -> -> -> -> Edir.
  apply (f_equal getDomainEnum) in Ed. rewrite !getDomainEnum_string in Ed.
  apply getDirectionString_split_inj in Edir. by subst.
Qed.

Lemma sfind_star a b : "*"%char ∉ a -> sfind ["*"%char] (a ++ "*"%char :: b) = Some (length a).
Proof.
  induction a as [|c a IH]; intros H; [done|].
  apply not_elem_of_cons in H as [Hc H].
  cbn [app sfind prefixb].
  rewrite decide_False by done. by rewrite IH.
Qed.

Lemma replace_star a b r :
  "*"%char ∉ a -> replaceFirstString (a ++ $"*" ++ b) $"*" r = a ++ r ++ b.
Proof.
  intros H. unfold replaceFirstString. change $"*" with ["*"%char]. cbn [app length].
  rewrite (sfind_star a b H). unfold sreplace.
  rewrite take_app_length. do 2 f_equal.
  rewrite cons_middle, app_assoc.
  rewrite drop_app_length'; [done|]. rewrite length_app. simpl. lia.
Qed.

(** Filling in the template of a plain topic gives the key of the node's
    topic. *)
Lemma replaceFirst_with_node t n :
  plain (project t) -> plain (business t) -> plain (region t) -> nodeId t = $"*" ->
  replaceFirstString (buildKeyExpr t) $"*" n = buildKeyExpr (with_node t n).
Proof.
  intros [_ Hp] [_ Hb] [_ Hr] Hn.
  assert (forall m, buildKeyExpr (with_node t m) =
    (getDomainString (domain t) ++ $"/" ++ project t ++ $"/" ++ business t ++ $"/" ++
      region t ++ $"/") ++ m ++
    ($"/" ++ module t ++ $"/" ++ function t ++ $"/" ++ getDirectionString (direction t))) as E.
  { intros m. unfold buildKeyExpr. by rewrite <- !app_assoc. }
  assert (t = with_node t $"*") as Ht by (destruct t; simpl in *; by subst).
  rewrite Ht at 1. rewrite !E. apply replace_star.
  assert ("*"%char ∉ getDomainString (domain t)) by (apply (bool_decide_unpack _); by destruct (domain t)).
  simpl. repeat first [ done | apply not_elem_of_nil
    | apply not_elem_of_cons; split; [discriminate|] | apply not_elem_of_app; split ].
Qed.

(** ** Properties *)

(** A key expression determines its topic: topics whose fields hold no
    "/" (nor "*") and that have the same key are the same in every field,
    domain and direction included, although the direction "up/down" is two
    segments long. *)
Theorem buildKeyExpr_injective t t' :
  plain_topic t -> plain_topic t' -> buildKeyExpr t = buildKeyExpr t' <-> t = t'.
Proof.
  intros H H'. split; [by apply buildKeyExpr_inj_aux|]. by intros ->.
Qed.

Definition cmd_topic (n : str) (d : Direction) : Topic :=
  createTopic TIMES $"platform" $"mgr" $"cloud" n $"nodeCmd" $"cmd" d.

Lemma cmd_topic_plain n d : plain n -> plain_topic (cmd_topic n d).
Proof.
  intros H. repeat split; try apply H; by_decision.
Qed.

Lemma buildKeyExpr_injective_witness :
  buildKeyExpr (cmd_topic $"0001" BOTH) = buildKeyExpr (cmd_topic $"0001" UP) <->
  cmd_topic $"0001" BOTH = cmd_topic $"0001" UP.
Proof.
  apply buildKeyExpr_injective; apply cmd_topic_plain; split;
    by_decision.
Defined.

End Topics.
