(* ===== verification/Wiring.v ===== *)
(** * How [main] wires a node ([src/node/src/main.cpp])

    From the values of the INI file and the groups of the group file to the
    publishers and subscribers the node opens: the configuration with its
    defaults, the topics, and one endpoint for each [start_writer] and
    [start_reader] call. [NodeStart] has [main] as a whole, with the objects
    behind the end points. *)

From S2P Require Import Prelude StrUtil Ini ConfigMap Topics.
Import StrUtil Ini ConfigMap Topics.

Module Wiring.

(** The six settings a message's topic is made of. *)
Record route := mkRoute {
  r_project : str;
  r_bussDomain : str;
  r_domain : str;
  r_group : str;
  r_buss : str;
  r_func : str;
}.

Section Config.
Context (values : gmap str str).

Definition get_route (k d : str) : str := GetString values $"route" k d.

(** src/node/src/main.cpp:229-236, [main]. The domain and direction settings
    are read and not used. *)
Definition nodeMsg_route : route := mkRoute
  (get_route $"node_msg_project" $"platform")
  (get_route $"node_msg_buss_domain" $"mgr")
  (get_route $"node_msg_domain" $"cloud")
  (get_route $"node_msg_group" [])
  (get_route $"node_msg_buss" $"node")
  (get_route $"node_msg_func" $"mgmt").

(** src/node/src/main.cpp:238-245, [main]. *)
Definition nodePing_route : route := mkRoute
  (get_route $"node_ping_project" $"platform")
  (get_route $"node_ping_buss_domain" $"mgr")
  (get_route $"node_ping_domain" $"cloud")
  (get_route $"node_ping_group" [])
  (get_route $"node_ping_buss" $"nodePing")
  (get_route $"node_ping_func" $"ping").

(** src/node/src/main.cpp:247-252, [main]. *)
Definition nodeMstate_route : route := mkRoute
  (get_route $"node_mstate_project" $"platform")
  (get_route $"node_mstate_buss_domain" $"mgr")
  (get_route $"node_mstate_domain" $"cloud")
  (get_route $"node_mstate_group" [])
  (get_route $"node_mstate_buss" $"nodeMachState")
  (get_route $"node_mstate_func" $"machstate").

(** src/node/src/main.cpp:254-259, [main]. *)
Definition nodeCmd_route : route := mkRoute
  (get_route $"node_cmd_project" $"platform")
  (get_route $"node_cmd_buss_domain" $"mgr")
  (get_route $"node_cmd_domain" $"cloud")
  (get_route $"node_cmd_group" [])
  (get_route $"node_cmd_buss" $"nodeCmd")
  (get_route $"node_cmd_func" $"cmd").

(** src/node/src/main.cpp:261-266, [main]. *)
Definition fileDown_route : route := mkRoute
  (get_route $"file_down_project" $"platform")
  (get_route $"file_down_buss_domain" $"mgr")
  (get_route $"file_down_domain" $"cloud")
  (get_route $"file_down_group" [])
  (get_route $"file_down_buss" $"file")
  (get_route $"file_down_func" $"down").

(** src/node/src/main.cpp:268-273, [main]. *)
Definition fileUp_route : route := mkRoute
  (get_route $"file_up_project" $"platform")
  (get_route $"file_up_buss_domain" $"mgr")
  (get_route $"file_up_domain" $"cloud")
  (get_route $"file_up_group" [])
  (get_route $"file_up_buss" $"file")
  (get_route $"file_ip_func" $"up").

(** src/node/src/main.cpp:277-282, [main]. *)
Definition mon_route : route := mkRoute
  (get_route $"mon_project" $"platform")
  (get_route $"mon_buss_domain" $"mon")
  (get_route $"mon_domain" $"cloud")
  (get_route $"mon_group" $"mgr_x86_linux")
  (get_route $"mon_buss" $"monitor")
  (get_route $"mon_func" $"mon").

(** src/dds/NodeInfo.h:24-98, [NodeInfo]. The fields [main] sets. *)
Record NodeInfo := mkNodeInfo {
  domain_ : Z;
  nodeId_ : str;
  nodeName_ : str;
  group_ : str;
  location_ : str;
  version_ : str;
  archType_ : str;
  osType_ : str;
  fileMaxReTry_ : Z;
  fileBlockTimeout_ : Z;
  fileBlockLastTimeout_ : Z;
  fileSplitSize_ : Z;
  endpointOverride : str;
  accessKey : str;
  secretKey : str;
  programName_ : str;
}.

(** An [int] variable that takes a [long]. *)
Definition to_int (z : Z) : Z := swrap 32 z.

(** src/node/src/main.cpp:207-223, [main]. With the assignments at 603-618. *)
Definition load_nodeInfo : NodeInfo := mkNodeInfo
  (to_int (GetInteger values $"base" $"domain" 10))
  (GetString values $"base" $"node_id" [])
  (GetString values $"base" $"name" [])
  (GetString values $"base" $"group" [])
  (GetString values $"base" $"location" [])
  (GetString values $"base" $"version" [])
  (GetString values $"base" $"arch_type" [])
  (GetString values $"base" $"os_type" [])
  (to_int (GetInteger values $"route" $"file_max_retry" 100))
  (to_int (GetInteger values $"route" $"file_block_timeout" 5000))
  (to_int (GetInteger values $"route" $"file_block_last_timeout" 30000))
  (to_int (GetInteger values $"route" $"file_block_size" 62))
  (GetString values $"s3" $"endpoint_url" $"10.4.1.241:31239")
  (GetString values $"s3" $"access_key" $"xNTUsotTZMMepl3N")
  (GetString values $"s3" $"secret_key" $"m4rS20T2RRbuZ1DVb45N1ahWv0Smi89e")
  (GetString values $"base" $"program_name" $"node").

(** src/dds/NodeInfo.h:15-23, [S3WATCH]. *)
Record S3WATCH := mkS3Watch {
  bucket : str; directory : str; sleep : Z; keepFile : bool; zipFlag : bool; watchSubDir : bool;
}.

(** src/node/src/main.cpp:559-573, [main]. One turn of the loop. *)
Definition load_s3watch (i : N) : S3WATCH := mkS3Watch
  (GetString values $"s3watch" ($"bucket_" ++ to_str i) [])
  (GetString values $"s3watch" ($"directory_" ++ to_str i) [])
  (to_int (GetInteger values $"s3watch" ($"sleep_" ++ to_str i) 30))
  (GetBoolean values $"s3watch" ($"keep_file_" ++ to_str i) true)
  (GetBoolean values $"s3watch" ($"zip_flag_" ++ to_str i) true)
  (GetBoolean values $"s3watch" ($"watch_sub_dir_" ++ to_str i) true).

(** src/dds/NodeInfo.h:5-13, [PROCESS]. *)
Record PROCESS := mkProcess {
  state : Z; path : str; paras : str; add_paras1 : str; add_paras2 : str; keep_live : bool;
}.

(** src/node/src/main.cpp:580-594, [main]. *)
Definition load_process (i : N) : PROCESS := mkProcess
  (to_int (GetInteger values $"process" ($"state_" ++ to_str i) 0))
  (GetString values $"process" ($"path_name_" ++ to_str i) [])
  (GetString values $"process" ($"paras_" ++ to_str i) [])
  (GetString values $"process" ($"paras1_" ++ to_str i) [])
  (GetString values $"process" ($"paras2_" ++ to_str i) [])
  (GetBoolean values $"process" ($"keep_alive_" ++ to_str i) true).

(** src/node/src/main.cpp:556-574, [main]. *)
Definition s3WatchVec_ : list S3WATCH :=
  map (fun i => load_s3watch (N.of_nat i))
    (seq 0 (Z.to_nat (to_int (GetInteger values $"s3watch" $"count" 0)))).

(** src/node/src/main.cpp:576-601, [main]. Entries without a path are skipped. *)
Definition processVec_ : list PROCESS :=
  filter (fun p => path p <> [])
    (map (fun i => load_process (N.of_nat i))
      (seq 0 (Z.to_nat (to_int (GetInteger values $"process" $"count" 0))))).

(** ** The nodes of the groups and the topics *)

Context (groupMap : gmap str (list str)).

(** src/node/src/main.cpp:286-333, [main]. *)
Definition group_ids (r : route) : list str :=
  getGroupVec groupMap (split (r_group r) ","%char) [].

Definition route_topic (d : Domain) (r : route) (n : str) (dir : Direction) : Topic :=
  createTopic d (r_project r) (r_bussDomain r) (r_domain r) n (r_buss r) (r_func r) dir.

(** src/node/src/main.cpp:361-383, [main]. [None]: element 0 of an empty
    vector, which C++ leaves undefined. *)
Definition nodeCmdTopic (dir : Direction) : option Topic :=
  (fun n => route_topic TIMES nodeCmd_route n dir) <$> head (group_ids nodeCmd_route).
(** src/node/src/main.cpp:409-419, [main]. *)
Definition nodePingTopic : option Topic :=
  (fun n => route_topic TIMES nodePing_route n UP) <$> head (group_ids nodePing_route).
(** src/node/src/main.cpp:421-431, [main]. *)
Definition nodeMstateTopic : option Topic :=
  (fun n => route_topic TIMES nodeMstate_route n UP) <$> head (group_ids nodeMstate_route).
(** src/node/src/main.cpp:481-490, [main]. *)
Definition monStatsTopic : option Topic :=
  (fun n => route_topic TIMES mon_route n UP) <$> head (group_ids mon_route).
(** src/node/src/main.cpp:385-407, [main]. *)
Definition nodeMsgBaseTopic (dir : Direction) : Topic := route_topic TIMES nodeMsg_route $"*" dir.
(** src/node/src/main.cpp:433-455, [main]. *)
Definition fileDownBaseTopic (dir : Direction) : Topic :=
  route_topic DEFAULT fileDown_route $"*" dir.
(** src/node/src/main.cpp:457-479, [main]. *)
Definition fileUpBaseTopic (dir : Direction) : Topic :=
  route_topic DEFAULT fileUp_route $"*" dir.

(** ** Endpoints *)

Inductive role := Writer | Reader.

(** A topic object with [start_writer] or [start_reader] called: a writer
    publishes on [topic_] and subscribes to [topicReply_], a reader the other
    way round. *)
Record endpoint := mkEndpoint {
  e_role : role;
  topic_ : str;
  topicReply_ : str;
  partition_ : str;
}.

Definition is_mgr (group : str) : bool := bool_decide (group = $"mgr").

Definition fill (t : Topic) (n : str) : str := replaceFirstString (buildKeyExpr t) $"*" n.

(** src/node/src/main.cpp:692-733, [main]. *)
Definition nodeMsg_endpoints (group nodeId : str) : list endpoint :=
  let ep r n := mkEndpoint r (fill (nodeMsgBaseTopic DOWN) n) (fill (nodeMsgBaseTopic UP) n) n in
  if is_mgr group then
    flat_map (fun n => ep Writer n :: if decide (n = nodeId) then [ep Reader n] else [])
      (group_ids nodeMsg_route)
  else [ep Reader nodeId].

Definition down_ep (r : role) (n : str) : endpoint :=
  mkEndpoint r (fill (fileDownBaseTopic DOWN) n) (fill (fileDownBaseTopic UP) n) n.
Definition up_ep (r : role) (n : str) : endpoint :=
  mkEndpoint r (fill (fileUpBaseTopic UP) n) (fill (fileUpBaseTopic DOWN) n) n.

(** src/node/src/main.cpp:765-859, [main]. *)
Definition file_endpoints (group nodeId : str) : list endpoint :=
  if is_mgr group then
    flat_map (fun n => [down_ep Writer n; up_ep Reader n]) (group_ids fileDown_route)
  else [up_ep Writer nodeId; down_ep Reader nodeId].

(** src/node/src/main.cpp:863-882, [main]. *)
Definition cmd_endpoints (group : str) : option (list endpoint) :=
  down ← nodeCmdTopic DOWN;
  up ← nodeCmdTopic UP;
  let ep r := mkEndpoint r (buildKeyExpr down) (buildKeyExpr up) [] in
  Some (if is_mgr group then [ep Writer; ep Reader] else [ep Reader]).

(** src/node/src/main.cpp:646-688, [main]. *)
Definition state_endpoints (group nodeId : str) : option (list endpoint) :=
  ping ← nodePingTopic;
  mstate ← nodeMstateTopic;
  let pe r := mkEndpoint r (buildKeyExpr ping) [] nodeId in
  let me r := mkEndpoint r (buildKeyExpr mstate) [] [] in
  Some ((if is_mgr group then [pe Reader] else []) ++ [pe Writer] ++
        (if is_mgr group then [me Reader] else []) ++ [me Writer]).

(** ** Lemmas *)

Definition plain_route (r : route) : Prop :=
  plain (r_project r) /\ plain (r_bussDomain r) /\ plain (r_domain r) /\
  plain (r_buss r) /\ plain (r_func r).

Lemma fill_route d r dir n :
  plain_route r ->
  fill (route_topic d r $"*" dir) n = buildKeyExpr (route_topic d r n dir).
Proof.
  intros (Hp & Hb & Hr & _). unfold fill. by rewrite replaceFirst_with_node.
Qed.

Lemma route_topic_plain d r n dir :
  plain_route r -> plain n -> plain_topic (route_topic d r n dir).
Proof. intros (? & ? & ? & ? & ?) ?. by split_and!. Qed.

Lemma fill_inj d d' r r' dir dir' n n' :
  plain_route r -> plain_route r' -> plain n -> plain n' ->
  fill (route_topic d r $"*" dir) n = fill (route_topic d' r' $"*" dir') n' ->
  d = d' /\ n = n' /\ dir = dir' /\ r_func r = r_func r'.
Proof.
  intros Hr Hr' Hn Hn'. rewrite !fill_route by done. intros E.
  apply buildKeyExpr_inj_aux in E; [|by apply route_topic_plain..].
  by injection E.
Qed.

(** The key an endpoint subscribes to. *)
Definition subscription (e : endpoint) : str :=
  match e_role e with Reader => topic_ e | Writer => topicReply_ e end.

Definition subscribers (k : str) (l : list endpoint) : list endpoint :=
  filter (fun e => subscription e = k) l.

Section Paired.
Context (Hdown : plain_route fileDown_route) (Hup : plain_route fileUp_route).
Context (Hfunc : r_func fileDown_route <> r_func fileUp_route).

Lemma sub_up n n' : plain n -> plain n' ->
  subscription (up_ep Reader n) = topic_ (up_ep Writer n') <-> n = n'.
Proof.
  intros Hn Hn'. split; [|by intros ->]. intros E.
  apply fill_inj in E; [|done..]. tauto.
Qed.

Lemma sub_down_reply n n' : plain n -> plain n' ->
  subscription (down_ep Writer n) <> topic_ (up_ep Writer n').
Proof.
  intros Hn Hn' E. apply fill_inj in E; [|done..]. tauto.
Qed.

Lemma sub_down n n' : plain n -> plain n' ->
  subscription (down_ep Reader n) = topic_ (down_ep Writer n') <-> n = n'.
Proof.
  intros Hn Hn'. split; [|by intros ->]. intros E.
  apply fill_inj in E; [|done..]. tauto.
Qed.

Lemma sub_up_reply n n' : plain n -> plain n' ->
  subscription (up_ep Writer n) <> topic_ (down_ep Writer n').
Proof. intros Hn Hn' E. apply fill_inj in E; [|done..]. firstorder congruence. Qed.

Lemma sub_mgr_down n n' r : plain n -> plain n' ->
  subscription (down_ep Writer n) <> topic_ (down_ep r n') /\
  subscription (up_ep Reader n) <> topic_ (down_ep r n').
Proof.
  intros Hn Hn'. split; intros E; (apply fill_inj in E; [|done..]); firstorder congruence.
Qed.

Lemma mgr_up_subscribers ids n :
  Forall plain ids -> plain n -> NoDup ids ->
  subscribers (topic_ (up_ep Writer n)) (flat_map (fun n => [down_ep Writer n; up_ep Reader n]) ids)
  = if decide (n ∈ ids) then [up_ep Reader n] else [].
Proof.
  intros Hids Hn. unfold subscribers. induction Hids as [|x ids Hx Hids IH]; intros Hnd.
  - rewrite decide_False; [done|]. apply not_elem_of_nil.
  - apply NoDup_cons in Hnd as [Hfresh Hnd]. specialize (IH Hnd).
    cbn [flat_map app]. rewrite filter_cons_False by by apply sub_down_reply.
    destruct (decide (x = n)) as [->|Hne].
    + rewrite filter_cons_True by by apply sub_up.
      rewrite IH. rewrite decide_False by done. rewrite decide_True by constructor. done.
    + rewrite filter_cons_False by by rewrite sub_up.
      rewrite IH. apply decide_ext. rewrite elem_of_cons. naive_solver.
Qed.

Lemma mgr_down_subscribers ids n :
  Forall plain ids -> plain n ->
  subscribers (topic_ (down_ep Writer n)) (flat_map (fun n => [down_ep Writer n; up_ep Reader n]) ids)
  = [].
Proof.
  intros Hids Hn. unfold subscribers. induction Hids as [|x ids Hx Hids IH]; [done|].
  cbn [flat_map app]. rewrite !filter_cons_False by by apply sub_mgr_down. done.
Qed.

End Paired.

(** ** Properties *)

(** File channels pair up one to one. A file an edge node publishes
    reaches exactly one endpoint of the manager, the reader made for that node
    (when the node is in the download groups); a file the manager publishes
    for a node reaches that node's reader and no reader of another node; and
    it never reaches the manager itself, whatever the groups say. *)
Theorem file_channels_paired n n' m group :
  plain_route fileDown_route -> plain_route fileUp_route ->
  r_func fileDown_route <> r_func fileUp_route ->
  Forall plain (group_ids fileDown_route) -> NoDup (group_ids fileDown_route) ->
  plain n -> plain n' -> group <> $"mgr" ->
  subscribers (topic_ (up_ep Writer n)) (file_endpoints $"mgr" m) =
    (if decide (n ∈ group_ids fileDown_route) then [up_ep Reader n] else []) /\
  subscribers (topic_ (down_ep Writer n')) (file_endpoints group n) =
    (if decide (n = n') then [down_ep Reader n] else []) /\
  subscribers (topic_ (down_ep Writer n')) (file_endpoints $"mgr" m) = [].
Proof.
  intros Hd Hu Hf Hids Hnd Hn Hn' Hg. unfold file_endpoints, is_mgr.
  rewrite bool_decide_true, bool_decide_false by done. split_and!.
  - by apply mgr_up_subscribers.
  - unfold subscribers. rewrite filter_cons_False by by apply sub_up_reply.
    case_decide as E.
    + rewrite filter_cons_True by by apply sub_down. done.
    + rewrite filter_cons_False by by rewrite sub_down. done.
  - by apply mgr_down_subscribers.
Qed.

End Config.

Definition cfg_values : gmap str str :=
  list_to_map [(MakeKey $"route" $"file_down_group", $"edge");
               (MakeKey $"route" $"file_up_func", $"send")].
Definition cfg_groups : gmap str (list str) := {[ $"edge" := [$"0001"; $"0002"] ]}.

Lemma plain_dec s : bool_decide ("/"%char ∉ s) && bool_decide ("*"%char ∉ s) = true -> plain s.
Proof. rewrite andb_true_iff, !bool_decide_eq_true. done. Qed.

Lemma file_channels_paired_witness :
  subscribers (topic_ (up_ep cfg_values Writer $"0002")) (file_endpoints cfg_values cfg_groups $"mgr" [])
  = [up_ep cfg_values Reader $"0002"].
Proof.
  apply (file_channels_paired cfg_values cfg_groups $"0002" $"0001" [] $"edge");
    try (apply plain_dec; vm_compute; reflexivity); try (vm_compute; discriminate).
  - split_and!; apply plain_dec; vm_compute; reflexivity.
  - split_and!; apply plain_dec; vm_compute; reflexivity.
  - repeat constructor; by_decision.
  - by_decision.
Defined.

(** The setting [file_up_func], which the shipped configuration files
    carry, changes nothing: whatever it holds, the routes, and so the topics
    and endpoints, are those of the configuration without it ([main] reads
    [file_ip_func] instead). *)
Theorem file_up_func_unread values v :
  let values' := <[MakeKey $"route" $"file_up_func" := v]> values in
  fileUp_route values' = fileUp_route values /\
  fileDown_route values' = fileDown_route values /\
  (forall groups group n,
     file_endpoints values' groups group n = file_endpoints values groups group n).
Proof.
  assert (forall k d, MakeKey $"route" k <> MakeKey $"route" $"file_up_func" ->
    get_route (<[MakeKey $"route" $"file_up_func" := v]> values) k d = get_route values k d) as H.
  { intros k d Hk. unfold get_route, GetString, Get. by rewrite lookup_insert_ne. }
  assert (fileUp_route (<[MakeKey $"route" $"file_up_func" := v]> values) = fileUp_route values) as Eu
    by (unfold fileUp_route; rewrite !H by (vm_compute; discriminate); done).
  assert (fileDown_route (<[MakeKey $"route" $"file_up_func" := v]> values) = fileDown_route values) as Ed
    by (unfold fileDown_route; rewrite !H by (vm_compute; discriminate); done).
  split_and!; [done..|]. intros groups group n.
  unfold file_endpoints, down_ep, up_ep, fileDownBaseTopic, fileUpBaseTopic, group_ids.
  by rewrite Eu, Ed.
Qed.

End Wiring.
