(* ===== verification/FileSys.v ===== *)
(** * The file system the program runs on

    Not the repository's code: what POSIX and [std::filesystem] document of the
    calls the sources make, on a tree of directories and regular files. Paths
    are resolved against the working directory; "." and empty segments are
    dropped and ".." goes up. Permissions, symbolic links and failing disks are
    not modelled: a file opens for writing when its directory exists and the
    path is not a directory. *)

From S2P Require Import Prelude.

Module FileSys.

Abbreviation path := (list str).
Abbreviation bytes := (list ascii).

Record t := mk {
  files : gmap path bytes;
  dirs : gset path;
  cwd : path;
}.

(** The segments of a path, split at every "/". *)
Fixpoint segments (s : str) : list str :=
  match s with
  | [] => [[]]
  | c :: s' =>
      if decide (c = "/"%char) then [] :: segments s'
      else match segments s' with
           | [] => [[c]]
           | seg :: l => (c :: seg) :: l
           end
  end.

Definition enter (p : path) (seg : str) : path :=
  if bool_decide (seg = []) || bool_decide (seg = $".") then p
  else if bool_decide (seg = $"..") then removelast p
  else p ++ [seg].

Definition absolute (s : str) : bool := prefixb $"/" s.

Definition resolve (fs : t) (s : str) : path :=
  foldl enter (if absolute s then [] else cwd fs) (segments s).

Definition is_dirp (fs : t) (p : path) : bool := bool_decide (p = []) || bool_decide (p ∈ dirs fs).
Definition is_directory (fs : t) (s : str) : bool := is_dirp fs (resolve fs s).
Definition is_file (fs : t) (s : str) : bool := bool_decide (is_Some (files fs !! resolve fs s)).
Definition exists_ (fs : t) (s : str) : bool := is_directory fs s || is_file fs s.

(** The bytes a stream opened for reading yields; [None]: it does not open. *)
Definition read (fs : t) (s : str) : option bytes := files fs !! resolve fs s.

(** A stream opened for writing, which truncates, and left with [b];
    [None]: it does not open. *)
Definition writep (fs : t) (p : path) (b : bytes) : option t :=
  if is_dirp fs p || negb (is_dirp fs (removelast p)) then None
  else Some (mk (<[p := b]> (files fs)) (dirs fs) (cwd fs)).
Definition write (fs : t) (s : str) (b : bytes) : option t := writep fs (resolve fs s) b.

(** [remove]: a file, or an empty directory. *)
Definition empty_dir (fs : t) (p : path) : bool :=
  forallb (fun q => negb (bool_decide (removelast q = p)))
    (filter (fun q => q <> []) (elements (dom (files fs)) ++ elements (dirs fs))).
Definition remove (fs : t) (s : str) : bool * t :=
  let p := resolve fs s in
  if bool_decide (is_Some (files fs !! p)) then
    (true, mk (delete p (files fs)) (dirs fs) (cwd fs))
  else if bool_decide (p ∈ dirs fs) && empty_dir fs p then
    (true, mk (files fs) (dirs fs ∖ {[p]}) (cwd fs))
  else (false, fs).

(** [remove_all]: the path and everything below it. *)
Definition below (p q : path) : Prop := p `prefix_of` q.
#[export] Instance below_dec p q : Decision (below p q).
Proof. unfold below. apply _. Defined.

Definition remove_all (fs : t) (s : str) : t :=
  let p := resolve fs s in
  mk (filter (fun kv => ~ below p kv.1) (files fs))
     (filter (fun q => ~ below p q) (dirs fs)) (cwd fs).

(** [create_directories]; [None] is the exception thrown when a component is
    a regular file. *)
Fixpoint prefixes (done todo : path) : list path :=
  match todo with
  | [] => []
  | c :: todo' => (done ++ [c]) :: prefixes (done ++ [c]) todo'
  end.
Definition create_directories (fs : t) (s : str) : option t :=
  let ps := prefixes [] (resolve fs s) in
  if existsb (fun p => bool_decide (is_Some (files fs !! p))) ps then None
  else Some (mk (files fs) (list_to_set ps ∪ dirs fs) (cwd fs)).

(** The entries of a directory, as the paths of its members. *)
Definition entries (fs : t) (p : path) : list (path * bool) :=
  map (fun q => (q, false))
    (filter (fun q => q <> [] /\ removelast q = p) (elements (dom (files fs)))) ++
  map (fun q => (q, true))
    (filter (fun q => q <> [] /\ removelast q = p) (elements (dirs fs))).

(** ** Lemmas *)

Lemma segments_nonempty s : segments s <> [].
Proof.
  destruct s as [|c s]; simpl; [done|].
  destruct (decide (c = "/"%char)); [done|]. by destruct (segments s).
Qed.

Lemma segments_app a b : segments (a ++ "/"%char :: b) = segments a ++ segments b.
Proof.
  induction a as [|c a IH]; cbn [app segments].
  - by rewrite decide_True.
  - rewrite IH. destruct (decide (c = "/"%char)); [done|].
    pose proof (segments_nonempty a). by destruct (segments a).
Qed.

Lemma segments_plain s : "/"%char ∉ s -> segments s = [s].
Proof.
  induction s as [|c s IH]; intros H; simpl; [done|].
  apply not_elem_of_cons in H as [Hc H]. rewrite decide_False by done.
  by rewrite IH.
Qed.

Lemma absolute_app a b : a <> [] -> absolute (a ++ b) = absolute a.
Proof. destruct a; [done|]. intros _. unfold absolute. simpl. by case_decide. Qed.

(** A proper name: one segment, neither "." nor "..". *)
Definition name (s : str) : Prop :=
  "/"%char ∉ s /\ s <> [] /\ s <> $"." /\ s <> $"..".

Lemma enter_name p s : name s -> enter p s = p ++ [s].
Proof.
  intros (_ & H1 & H2 & H3). unfold enter.
  by rewrite !bool_decide_false by done.
Qed.

(** The path of a member of a directory. *)
Lemma resolve_member fs d s :
  d <> [] -> name s -> resolve fs (d ++ $"/" ++ s) = resolve fs d ++ [s].
Proof.
  intros Hd Hs. unfold resolve. rewrite absolute_app by done.
  change ($"/" ++ s) with ("/"%char :: s). rewrite segments_app, foldl_app.
  rewrite (segments_plain s) by apply Hs. simpl. by apply enter_name.
Qed.

Lemma resolve_slash fs d : d <> [] -> resolve fs (d ++ $"/") = resolve fs d.
Proof.
  intros Hd. unfold resolve. rewrite absolute_app by done.
  change $"/" with (["/"%char]). rewrite (segments_app d []), foldl_app. done.
Qed.

(** The decimal digits of a number make a name. *)
Lemma pretty_N_digits n c : c ∈ to_str n -> exists x, pretty_N_char x = c.
Proof.
  unfold to_str. intros H.
  assert (forall m s, c ∈ list_ascii_of_string (pretty_N_go m s) ->
            (exists x, pretty_N_char x = c) \/ c ∈ list_ascii_of_string s) as Hgo.
  { intros m. induction (N.lt_wf_0 m) as [m _ IH]; intros s.
    destruct (decide (m = 0%N)) as [->|Hm].
    - rewrite pretty_N_go_0. by right.
    - rewrite pretty_N_go_step by lia. intros Hin.
      apply IH in Hin; [|apply N.div_lt; lia].
      destruct Hin as [?|Hin]; [by left|]. simpl in Hin.
      apply elem_of_cons in Hin as [->|?]; [left; eauto|by right]. }
  unfold pretty, pretty_N in H. case_decide.
  - simpl in H. apply list_elem_of_singleton in H as ->. by exists 0%N.
  - apply Hgo in H as [?|H]; [done|]. by apply elem_of_nil in H.
Qed.

Lemma to_str_nonempty n : to_str n <> [].
Proof.
  assert (forall m s, s <> EmptyString -> pretty_N_go m s <> EmptyString) as H'.
  { intros m. induction (N.lt_wf_0 m) as [m _ IH]; intros s Hs.
    destruct (decide (m = 0%N)) as [->|Hm]; [by rewrite pretty_N_go_0|].
    rewrite pretty_N_go_step by lia. apply IH; [apply N.div_lt; lia|done]. }
  unfold to_str, pretty, pretty_N. case_decide; [done|].
  rewrite pretty_N_go_step by lia.
  pose proof (H' (n `div` 10)%N (String (pretty_N_char (n `mod` 10)) "") ltac:(done)) as H1.
  destruct (pretty_N_go _ _); [done|discriminate].
Qed.

Lemma pretty_N_char_digit x : pretty_N_char x <> "/"%char /\ pretty_N_char x <> "."%char.
Proof. unfold pretty_N_char. by repeat case_match. Qed.

Lemma to_str_name n : name (to_str n).
Proof.
  assert (forall c, c ∈ to_str n -> c <> "/"%char /\ c <> "."%char) as H.
  { intros c Hc. apply pretty_N_digits in Hc as [x <-]. apply pretty_N_char_digit. }
  split_and!.
  - intros Hin. by apply H in Hin as [? _].
  - apply to_str_nonempty.
  - intros E. destruct (H "."%char) as [_ ?]; [|done]. rewrite E. constructor.
  - intros E. destruct (H "."%char) as [_ ?]; [|done]. rewrite E. constructor.
Qed.

Lemma removelast_snoc {A} (l : list A) x : removelast (l ++ [x]) = l.
Proof. induction l as [|y l IH]; simpl; [done|]. rewrite IH. by destruct l. Qed.

(** Writing a member of an existing directory. *)
Lemma writep_member fs p s b :
  is_dirp fs p = true -> p ++ [s] ∉ dirs fs ->
  writep fs (p ++ [s]) b = Some (mk (<[p ++ [s] := b]> (files fs)) (dirs fs) (cwd fs)).
Proof.
  intros Hd Hn. unfold writep. rewrite removelast_snoc, Hd.
  unfold is_dirp. rewrite !bool_decide_false; [done|done|by destruct p].
Qed.

Lemma resolve_cwd fs fs' s : cwd fs = cwd fs' -> resolve fs s = resolve fs' s.
Proof. intros H. unfold resolve. by rewrite H. Qed.

Lemma is_dirp_dirs fs fs' p : dirs fs = dirs fs' -> is_dirp fs p = is_dirp fs' p.
Proof. intros H. unfold is_dirp. by rewrite H. Qed.

End FileSys.
