(* ===== verification/FileSplit.v ===== *)
(** * Splitting a file into blocks and merging them
      ([src/utils/FileSplit.h])

    A stream open for reading is the bytes it has left to yield, which is right as
    long as nobody truncates the file. The two loops of [split] run on one fuel;
    [None] is "still looping". *)

From S2P Require Import Prelude FileSys.
Import FileSys.

Module FileSplit.

(** src/utils/FileSplit.h:35-53, [utility::file::GetFileLength]. *)
Definition GetFileLength (fs : FileSys.t) (filepath : str) : Z :=
  match read fs filepath with
  | Some b => Z.of_nat (length b)
  | None => -1
  end.

(** src/utils/FileSplit.h:68-75, [utility::file::mkdir]. [None] is an
    exception. *)
Definition mkdir (fs : FileSys.t) (p : str) : option FileSys.t := create_directories fs p.

(** src/utils/FileSplit.h:125-133, [utility::file::split]. Copies one part,
    1024 bytes at a time. *)
Fixpoint fill_part (fuel : nat) (blockSize ori_size thisTimesRead read_count : Z)
    (ins out : bytes) : option (Z * bytes * bytes) :=
  match fuel with
  | O => None
  | S fuel' =>
      if (thisTimesRead <? blockSize) && (read_count <? ori_size) then
        let buff := take 1024 ins in
        let cur_count := Z.of_nat (length buff) in
        fill_part fuel' blockSize ori_size (thisTimesRead + cur_count)
          (read_count + cur_count) (drop 1024 ins) (out ++ buff)
      else Some (read_count, ins, out)
  end.

(** What becomes of a [split]: it returns, or its result is not determined. *)
Inductive splitting := Split (fs : FileSys.t) | Undetermined.

(** src/utils/FileSplit.h:110-135, [utility::file::split]. The loop over the
    parts, from part [i] on, of the file at [source]. A part that is that file is
    opened and so truncates what is being read: whether the loop ends is then up to
    what the stream has buffered. The number of the part is an [int]. *)
Fixpoint split_parts (fuel : nat) (blockSize ori_size : Z) (source : path) (tmppath : str)
    (i : nat) (read_count : Z) (ins : bytes) (fs : FileSys.t) : option splitting :=
  match fuel with
  | O => None
  | S fuel' =>
      if read_count <? ori_size then
        match write fs (tmppath ++ to_str (N.of_nat i)) [] with
        | None => Some (Split fs)
        | Some _ =>
            if bool_decide (resolve fs (tmppath ++ to_str (N.of_nat i)) = source)
            then Some Undetermined
            else
            '(read_count', ins', out) ← fill_part fuel' blockSize ori_size 0 read_count ins [];
            match write fs (tmppath ++ to_str (N.of_nat i)) out with
            | None => Some (Split fs)
            | Some fs' =>
                if Z.of_nat i =? 2 ^ 31 - 1 then Some Undetermined
                else split_parts fuel' blockSize ori_size source tmppath (S i) read_count' ins' fs'
            end
        end
      else Some (Split fs)
  end.

(** A [long long]. *)
Definition in_long (z : Z) : bool := (- 2 ^ 63 <=? z) && (z <? 2 ^ 63).

(** src/utils/FileSplit.h:88-139, [utility::file::split]. [blockSize] is in
    KB; the product is of [long long]s. *)
Definition split (fuel : nat) (fs : FileSys.t) (filepath : str) (blockSize : Z)
    (tmppath : str) : option splitting :=
  let ori_size := GetFileLength fs filepath in
  let blockSize := blockSize * 1024 in
  if negb (in_long blockSize) then Some Undetermined
  else if ori_size =? -1 then Some (Split fs)
  else match read fs filepath with
       | None => Some (Split fs)
       | Some ins => split_parts fuel blockSize ori_size (resolve fs filepath) tmppath 0 0 ins fs
       end.

(** src/utils/FileSplit.h:177-185, [utility::file::merge]. Copies one block. *)
Fixpoint copy_block (fuel : nat) (curlen thisTimesRead : Z) (ins out : bytes) : option bytes :=
  match fuel with
  | O => None
  | S fuel' =>
      if thisTimesRead <? curlen then
        let buffer := take 1024 ins in
        copy_block fuel' curlen (thisTimesRead + Z.of_nat (length buffer))
          (drop 1024 ins) (out ++ buffer)
      else Some out
  end.

(** src/utils/FileSplit.h:160-188, [utility::file::merge]. [inl i]: block [i]
    does not open; both carry what was written to merge.out. *)
Fixpoint merge_blocks (fuel : nat) (blockNum : Z) (fs : FileSys.t) (dir : str)
    (i : nat) (out : bytes) : option ((Z * bytes) + bytes) :=
  match fuel with
  | O => None
  | S fuel' =>
      if Z.of_nat i =? blockNum then Some (inr out)
      else
        let curlen := GetFileLength fs (dir ++ to_str (N.of_nat i)) in
        match read fs (dir ++ to_str (N.of_nat i)) with
        | None => Some (inl (Z.of_nat i, out))
        | Some ins =>
            out' ← copy_block (S (length ins)) curlen 0 ins out;
            merge_blocks fuel' blockNum fs dir (S i) out'
        end
  end.

Definition merge_out (dir : str) : str := dir ++ $"/merge.out".

(** src/utils/FileSplit.h:141-198, [utility::file::merge]. *)
Definition merge (fuel : nat) (fs : FileSys.t) (dir : str) (blockNum : Z)
    : option (Z * FileSys.t) :=
  if negb (is_directory fs dir) then Some (-1, fs)
  else match write fs (merge_out dir) [] with
       | None => Some (-1, fs)
       | Some fs1 =>
           r ← merge_blocks fuel blockNum fs1 (dir ++ $"/") 0 [];
           match r with
           | inl (i, out) => Some (i, default fs1 (write fs1 (merge_out dir) out))
           | inr out =>
               let fs2 := default fs1 (write fs1 (merge_out dir) out) in
               Some (if (Z.of_nat (length out) =? 0) then -1 else 0, fs2)
           end
       end.

(** src/utils/FileSplit.h:200-230, [utility::file::write_file]. A failure is
    only logged. *)
Definition write_file (fs : FileSys.t) (filename : str) (buff : bytes) : FileSys.t :=
  default fs (write fs filename buff).

(** src/utils/FileSplit.h:232-247, [utility::file::move]. The destination is
    opened, and so truncated, first; when it does not open the bytes go
    nowhere and the source is removed all the same. *)
Definition move (fs : FileSys.t) (src dst : str) : bool * FileSys.t :=
  match read fs src with
  | None => (false, write_file fs dst [])
  | Some b =>
      let b := if bool_decide (resolve fs src = resolve fs dst) then [] else b in
      let fs1 := write_file fs dst b in
      (true, snd (remove fs1 src))
  end.

(** src/utils/FileSplit.h:249-258, [utility::file::remove_all_files]. *)
Definition remove_all_files (fs : FileSys.t) (dir : str) : FileSys.t :=
  if is_directory fs dir then remove_all fs dir else fs.

(** src/utils/FileSplit.h:260-266, [utility::file::del]. *)
Definition del (fs : FileSys.t) (dir : str) : bool * FileSys.t :=
  if negb (is_directory fs dir) then (true, snd (remove fs dir)) else (false, fs).

(** src/utils/FileSplit.h:28-32, [utility::file::FileInfo]. *)
Record FileInfo := mkFileInfo { filePathName : path; isDir : bool; fileSize : option Z }.

(** src/utils/FileSplit.h:268-284, [utility::file::ls_all_files]. [fileSize] is
    not set. *)
Definition ls_all_files (fs : FileSys.t) (dir : str) : list FileInfo :=
  if is_directory fs dir then
    map (fun e => mkFileInfo e.1 e.2 None) (entries fs (resolve fs dir))
  else [].

(** src/utils/FileSplit.h:286-301, [utility::file::getFilePathNames]. [None]:
    the iterator throws. *)
Definition getFilePathNames (fs : FileSys.t) (dir : str) : option (list FileInfo) :=
  if is_directory fs dir then
    Some (map (fun e => mkFileInfo e.1 e.2
                 (Some (if e.2 : bool then -1
                        else match files fs !! e.1 with
                             | Some b => Z.of_nat (length b)
                             | None => -1
                             end))) (entries fs (resolve fs dir)))
  else None.

(** ** Specification: the blocks of a byte string. *)

Fixpoint chunks_fuel (fuel k : nat) (l : bytes) : list bytes :=
  match fuel with
  | O => []
  | S fuel' => match l with
               | [] => []
               | _ => take k l :: chunks_fuel fuel' k (drop k l)
               end
  end.
Definition chunks (k : nat) (l : bytes) : list bytes := chunks_fuel (length l) k l.

(** The members [i], [i+1], ... of a directory, written one by one. *)
Fixpoint put_parts (p : path) (i : nat) (parts : list bytes) (fs : FileSys.t) : FileSys.t :=
  match parts with
  | [] => fs
  | b :: parts' =>
      put_parts p (S i) parts'
        (FileSys.mk (<[p ++ [to_str (N.of_nat i)] := b]> (files fs)) (dirs fs) (cwd fs))
  end.

(** Block [i] of the directory [p]. *)
Definition block (fs : FileSys.t) (p : path) (i : nat) : option bytes :=
  files fs !! (p ++ [to_str (N.of_nat i)]).

(** ** Lemmas: chunks *)

Lemma chunks_fuel_enough f1 f2 k l :
  (0 < k)%nat -> (length l <= f1)%nat -> (length l <= f2)%nat ->
  chunks_fuel f1 k l = chunks_fuel f2 k l.
Proof.
  intros Hk. revert f2 l. induction f1 as [|f1 IH]; intros f2 l H1 H2.
  - destruct l; simpl in *; [by destruct f2|lia].
  - destruct l as [|c l]; [by destruct f2|]. destruct f2 as [|f2]; [simpl in *; lia|].
    simpl. f_equal. apply IH; rewrite length_drop; simpl in *; lia.
Qed.

Lemma chunks_step k l :
  (0 < k)%nat -> l <> [] -> chunks k l = take k l :: chunks k (drop k l).
Proof.
  intros Hk Hl. unfold chunks. destruct l as [|c l]; [done|].
  cbn [length chunks_fuel]. f_equal.
  apply chunks_fuel_enough; [done| |done]. rewrite length_drop. simpl. lia.
Qed.

Lemma chunks_ind (P : bytes -> Prop) k :
  (0 < k)%nat -> P [] -> (forall l, l <> [] -> P (drop k l) -> P l) -> forall l, P l.
Proof.
  intros Hk H0 HS l. remember (length l) as n eqn:Hn. revert l Hn.
  induction n as [n IH] using lt_wf_ind; intros l ->.
  destruct (decide (l = [])) as [->|Hne]; [done|].
  apply HS; [done|]. eapply IH; [|done].
  rewrite length_drop. destruct l; simpl in *; [done|lia].
Qed.

Ltac by_chunks l k Hk :=
  pattern l; apply (chunks_ind _ k Hk); clear l; [|intros l Hl IH].

Lemma concat_chunks k l : (0 < k)%nat -> concat (chunks k l) = l.
Proof.
  intros Hk. by_chunks l k Hk; [done|].
  rewrite chunks_step by done. simpl. rewrite IH. apply take_drop.
Qed.

Lemma length_chunks k l :
  (0 < k)%nat ->
  Z.of_nat (length (chunks k l)) =
  Z.of_nat (length l) `div` Z.of_nat k +
  (if 0 <? Z.of_nat (length l) `mod` Z.of_nat k then 1 else 0).
Proof.
  intros Hk. by_chunks l k Hk; [by destruct k|].
  rewrite chunks_step by done. cbn [length]. rewrite Nat2Z.inj_succ, IH, length_drop.
  assert (0 < length l)%nat by (destruct l; simpl; [done|lia]).
  set (n := Z.of_nat (length l)). destruct (decide (k <= length l)%nat) as [H1|H1].
  - replace (Z.of_nat (length l - k)) with (n + (-1) * Z.of_nat k) by lia.
    rewrite Z.div_add, Z.mod_add by lia. lia.
  - replace (Z.of_nat (length l - k)) with 0 by lia.
    rewrite Z.div_0_l, Z.mod_0_l, (Z.div_small n), (Z.mod_small n) by lia.
    destruct (Z.ltb_spec 0 n); simpl; lia.
Qed.

Lemma chunks_length_le k l : (0 < k)%nat -> (length (chunks k l) <= length l)%nat.
Proof.
  intros Hk. by_chunks l k Hk; [done|].
  rewrite chunks_step by done. cbn [length]. rewrite length_drop in IH.
  assert (0 < length l)%nat by (destruct l; simpl; [done|lia]). lia.
Qed.

Lemma lookup_chunks k l i :
  (0 < k)%nat -> (i * k < length l)%nat ->
  chunks k l !! i = Some (take k (drop (i * k) l)).
Proof.
  intros Hk. revert l. induction i as [|i IH]; intros l Hi.
  - rewrite chunks_step; [done|done|by destruct l; simpl in *; [lia|]].
  - rewrite chunks_step; [|done|by destruct l; simpl in *; [lia|]].
    simpl. rewrite IH by (rewrite length_drop; simpl in *; lia).
    by rewrite drop_drop.
Qed.

(** Every block but the last is full. *)
Lemma chunks_full k l i b :
  (0 < k)%nat -> chunks k l !! i = Some b -> (i * k < length l)%nat.
Proof.
  intros Hk. revert i. pattern l. apply (chunks_ind _ k Hk); [done|]. clear l.
  intros l Hl IH i. rewrite chunks_step by done.
  assert (0 < length l)%nat by (destruct l; simpl; [done|lia]).
  destruct i as [|i]; [lia|]. intros Hi. apply IH in Hi.
  rewrite length_drop in Hi. simpl. lia.
Qed.

Lemma chunks_nonempty k l : (0 < k)%nat -> Forall (fun b => b <> []) (chunks k l).
Proof.
  intros Hk. by_chunks l k Hk; [constructor|].
  rewrite chunks_step by done. constructor; [|done].
  by destruct l, k; simpl; [..|lia|].
Qed.

(** ** Lemmas: the copying loops *)

Lemma fill_part_spec r ins out fuel ori this rc :
  rc + Z.of_nat (length ins) = ori -> (r < fuel)%nat ->
  fill_part fuel (this + 1024 * Z.of_nat r) ori this rc ins out =
  Some (rc + Z.of_nat (length (take (1024 * r) ins)), drop (1024 * r) ins,
        out ++ take (1024 * r) ins).
Proof.
  revert ins out fuel this rc. induction r as [|r IH]; intros ins out fuel this rc Hrc Hf.
  - destruct fuel as [|fuel]; [lia|]. cbn [fill_part].
    destruct (Z.ltb_spec this (this + 1024 * Z.of_nat 0)); [lia|]. simpl.
    by rewrite Z.add_0_r, app_nil_r.
  - destruct fuel as [|fuel]; [lia|]. cbn [fill_part].
    destruct (Z.ltb_spec this (this + 1024 * Z.of_nat (S r))); [|lia].
    destruct (Z.ltb_spec rc ori) as [Hlt|Hge]; simpl andb; cbn iota.
    + destruct (decide (1024 <= length ins)%nat) as [Hlen|Hlen].
      * replace (Z.of_nat (length (take 1024 ins))) with 1024
          by (rewrite length_take; lia).
        replace (this + 1024 * Z.of_nat (S r)) with (this + 1024 + 1024 * Z.of_nat r) by lia.
        rewrite IH by (rewrite ?length_drop; lia).
        rewrite drop_drop, <- app_assoc, take_take_drop.
        replace (1024 + 1024 * r)%nat with (1024 * S r)%nat by lia.
        do 3 f_equal. rewrite !length_take, length_drop. lia.
      * rewrite !(take_ge ins), !(drop_ge ins) by lia.
        destruct fuel as [|fuel]; [lia|]. cbn [fill_part].
        destruct (Z.ltb_spec (rc + Z.of_nat (length ins)) ori); [lia|].
        by rewrite andb_false_r.
    + destruct ins as [|c ins]; simpl in Hrc; [|lia].
      rewrite take_nil, drop_nil, app_nil_r. simpl. by rewrite Z.add_0_r.
Qed.

Lemma copy_block_spec fuel curlen this ins out :
  this + Z.of_nat (length ins) = curlen -> (length ins < fuel)%nat ->
  copy_block fuel curlen this ins out = Some (out ++ ins).
Proof.
  revert this ins out. induction fuel as [|fuel IH]; intros this ins out Hl Hf; [lia|].
  cbn [copy_block]. destruct (Z.ltb_spec this curlen).
  - rewrite IH.
    + by rewrite <- app_assoc, take_drop.
    + rewrite length_take, length_drop. lia.
    + rewrite length_drop. lia.
  - destruct ins; simpl in *; [|lia]. by rewrite app_nil_r.
Qed.

(** ** Lemmas: blocks in a directory *)

Lemma block_path fs d i : d <> [] ->
  resolve fs ((d ++ $"/") ++ to_str i) = resolve fs d ++ [to_str i].
Proof. intros Hd. rewrite <- app_assoc. apply resolve_member; [done|apply to_str_name]. Qed.

(** A directory in which blocks can be written. *)
Definition block_dir (fs : FileSys.t) (d : str) : Prop :=
  d <> [] /\ is_directory fs d = true /\
  (forall s, name s -> resolve fs d ++ [s] ∉ dirs fs).

Lemma block_dir_same fs fs' d :
  dirs fs = dirs fs' -> cwd fs = cwd fs' -> block_dir fs d -> block_dir fs' d.
Proof.
  intros Hd Hc (H1 & H2 & H3). unfold block_dir, is_directory in *.
  rewrite <- (resolve_cwd fs fs') by done. rewrite <- (is_dirp_dirs fs fs'), <- Hd by done.
  done.
Qed.

Lemma write_block fs d s b :
  block_dir fs d -> name s ->
  write fs (d ++ $"/" ++ s) b =
  Some (FileSys.mk (<[resolve fs d ++ [s] := b]> (files fs)) (dirs fs) (cwd fs)).
Proof.
  intros (H1 & H2 & H3) Hs. unfold write. rewrite resolve_member by done.
  apply writep_member; [done|]. by apply H3.
Qed.

Lemma put_parts_same p i parts fs :
  dirs (put_parts p i parts fs) = dirs fs /\ cwd (put_parts p i parts fs) = cwd fs.
Proof. revert i fs. induction parts as [|b parts IH]; intros i fs; [done|].
  cbn [put_parts]. edestruct IH as [-> ->]. done.
Qed.

Lemma block_name_inj i j : to_str (N.of_nat i) = to_str (N.of_nat j) -> i = j.
Proof. intros H. apply (inj to_str) in H. lia. Qed.

Lemma put_parts_other p i parts fs q :
  (forall j, (i <= j < i + length parts)%nat -> q <> p ++ [to_str (N.of_nat j)]) ->
  files (put_parts p i parts fs) !! q = files fs !! q.
Proof.
  revert i fs. induction parts as [|b parts IH]; intros i fs H; [done|].
  cbn [put_parts length] in *. rewrite IH by (intros; apply H; lia). simpl.
  apply lookup_insert_ne. intros E. by apply (H i); [lia|].
Qed.

Lemma put_parts_block p i parts fs j :
  (j < length parts)%nat -> block (put_parts p i parts fs) p (i + j) = parts !! j.
Proof.
  revert i j fs. induction parts as [|b parts IH]; intros i j fs Hj; simpl in *; [lia|].
  destruct j as [|j].
  - rewrite Nat.add_0_r. unfold block. rewrite put_parts_other.
    + simpl. by rewrite lookup_insert_eq.
    + intros j' Hj' E. apply app_inj_2 in E as [_ E]; [|done].
      injection E as E. apply block_name_inj in E. lia.
  - replace (i + S j)%nat with (S i + j)%nat by lia. apply IH. lia.
Qed.

(** The path of a part. *)
Lemma part_path fs d i : d <> [] ->
  resolve fs ((d ++ $"/") ++ to_str (N.of_nat i)) = resolve fs d ++ [to_str (N.of_nat i)].
Proof. intros Hd. rewrite <- app_assoc. apply resolve_member; [done|apply to_str_name]. Qed.

Lemma split_parts_spec source m d ins fuel ori i rc fs :
  (0 < m)%nat -> block_dir fs d -> (forall j, source <> resolve fs d ++ [to_str j]) ->
  rc + Z.of_nat (length ins) = ori -> Z.of_nat (i + length (chunks (1024 * m) ins)) < 2 ^ 31 ->
  (m + length (chunks (1024 * m) ins) + 1 < fuel)%nat ->
  split_parts fuel (1024 * Z.of_nat m) ori source (d ++ $"/") i rc ins fs =
  Some (Split (put_parts (resolve fs d) i (chunks (1024 * m) ins) fs)).
Proof.
  intros Hm. assert (0 < 1024 * m)%nat as Hk by lia.
  revert fuel i rc fs. by_chunks ins (1024 * m)%nat Hk; intros fuel i rc fs Hd Hs Hrc Hn Hf.
  - destruct fuel as [|fuel]; [simpl in *; lia|]. cbn [split_parts].
    destruct (Z.ltb_spec rc ori); [simpl in *; lia|]. done.
  - destruct fuel as [|fuel]; [simpl in *; lia|]. cbn [split_parts].
    assert (0 < length ins)%nat by (destruct ins; simpl; [done|lia]).
    destruct (Z.ltb_spec rc ori); [|lia].
    rewrite chunks_step in Hf, Hn |- * by done. cbn [length put_parts] in Hf, Hn |- *.
    rewrite bool_decide_false by (rewrite part_path by apply Hd; intros E; by eapply Hs).
    rewrite <- app_assoc.
    rewrite !write_block by (done || apply to_str_name).
    pose proof (fill_part_spec m ins [] fuel ori 0 rc Hrc ltac:(lia)) as E.
    rewrite Z.add_0_l in E. rewrite E. cbn [mbind option_bind app].
    rewrite !write_block by (done || apply to_str_name).
    destruct (Z.eqb_spec (Z.of_nat i) (2 ^ 31 - 1)); [lia|].
    rewrite IH; [done| |exact Hs| | |].
    + by eapply block_dir_same; [..|exact Hd].
    + rewrite length_take, length_drop. lia.
    + lia.
    + lia.
Qed.

Lemma merge_blocks_app parts fuel n fs d i out :
  d <> [] ->
  (forall j b, parts !! j = Some b -> block fs (resolve fs d) (i + j) = Some b) ->
  Z.of_nat (i + length parts) <= n \/ n < Z.of_nat i ->
  merge_blocks (length parts + fuel) n fs (d ++ $"/") i out =
  merge_blocks fuel n fs (d ++ $"/") (i + length parts) (out ++ concat parts).
Proof.
  intros Hd. revert i out. induction parts as [|b parts IH]; intros i out Hb Hn.
  - simpl. by rewrite Nat.add_0_r, app_nil_r.
  - cbn [length Nat.add merge_blocks]. simpl in Hn.
    destruct (Z.eqb_spec (Z.of_nat i) n); [lia|].
    pose proof (Hb 0%nat b eq_refl) as H0. rewrite Nat.add_0_r in H0. unfold block in H0.
    unfold GetFileLength, read. rewrite block_path, H0 by done.
    rewrite copy_block_spec by lia. cbn [mbind option_bind].
    rewrite IH.
    + simpl. rewrite app_assoc. f_equal. lia.
    + intros j b' Hj. replace (S i + j)%nat with (i + S j)%nat by lia. by apply Hb.
    + lia.
Qed.

Definition with_merge (fs : FileSys.t) (p : path) (out : bytes) : FileSys.t :=
  FileSys.mk (<[p ++ [$"merge.out"] := out]> (files fs)) (dirs fs) (cwd fs).

Lemma merge_name : name $"merge.out".
Proof. split_and!; try done. by_decision. Qed.

Lemma merge_name_not_block i : $"merge.out" <> to_str i.
Proof.
  intros E. assert ("m"%char ∈ to_str i) as H by (rewrite <- E; constructor).
  apply pretty_N_digits in H as [x Hx]. unfold pretty_N_char in Hx.
  by repeat case_match.
Qed.

Lemma block_with_merge fs p q out i :
  block (with_merge fs p out) q i = block fs q i.
Proof.
  unfold block, with_merge; simpl. apply lookup_insert_ne. intros E.
  apply app_inj_2 in E as [_ E]; [|done]. injection E as E. by apply merge_name_not_block in E.
Qed.

Lemma with_merge_twice fs p a b : with_merge (with_merge fs p a) p b = with_merge fs p b.
Proof. unfold with_merge. simpl. by rewrite insert_insert_eq. Qed.

Lemma write_merge fs d b :
  block_dir fs d -> write fs (merge_out d) b = Some (with_merge fs (resolve fs d) b).
Proof. intros Hd. unfold merge_out. apply (write_block fs d _ b Hd merge_name). Qed.

(** [merge] with the blocks 0, 1, ... of [parts] there. *)
Lemma merge_spec parts fuel n fs d :
  block_dir fs d -> (length parts < fuel)%nat ->
  (forall j b, parts !! j = Some b -> block fs (resolve fs d) j = Some b) ->
  Z.of_nat (length parts) = n \/
    (Z.of_nat (length parts) < n \/ n < 0) /\ block fs (resolve fs d) (length parts) = None ->
  merge fuel fs d n =
  Some (if decide (Z.of_nat (length parts) = n)
        then (if decide (concat parts = []) then -1 else 0) else Z.of_nat (length parts),
        with_merge fs (resolve fs d) (concat parts)).
Proof.
  intros Hd Hf Hb Hn. pose proof Hd as (Hd1 & Hd2 & _).
  unfold merge. rewrite Hd2. simpl negb. cbn iota.
  rewrite write_merge by done. cbn beta iota.
  set (fs1 := with_merge fs (resolve fs d) []).
  assert (block_dir fs1 d) as Hd' by by eapply block_dir_same; [..|exact Hd].
  assert (resolve fs1 d = resolve fs d) as Hr by done.
  replace fuel with (length parts + (fuel - length parts))%nat by lia.
  rewrite (merge_blocks_app parts _ n fs1 d 0 []); [|done| |lia].
  2:{ intros j b Hj. rewrite Hr. simpl. unfold fs1. rewrite block_with_merge. by apply Hb. }
  destruct (fuel - length parts)%nat as [|f] eqn:Ef; [lia|]. simpl app.
  cbn [merge_blocks Nat.add].
  destruct (Z.eqb_spec (Z.of_nat (length parts)) n) as [E|E].
  - rewrite decide_True by done. cbn [mbind option_bind].
    rewrite write_merge by done. cbn [default]. unfold fs1. rewrite with_merge_twice.
    destruct (concat parts); simpl; [done|]. done.
  - rewrite decide_False by done. destruct Hn as [|[_ Hnone]]; [done|].
    unfold read. rewrite block_path by done. unfold block in Hnone.
    assert (files fs1 !! (resolve fs1 d ++ [to_str (N.of_nat (length parts))]) = None) as ->.
    { rewrite Hr. rewrite <- Hnone. apply (block_with_merge fs _ (resolve fs d)). }
    cbn [mbind option_bind]. rewrite write_merge by done. cbn [default].
    unfold fs1. by rewrite with_merge_twice.
Qed.

(** The file at [f] is not one of the parts in [d]. *)
Definition apart (fs : FileSys.t) (f d : str) : Prop :=
  forall j, resolve fs f <> resolve fs d ++ [to_str j].

Lemma split_spec fs f content m d fuel :
  read fs f = Some content -> (0 < m)%nat -> Z.of_nat m * 1024 < 2 ^ 63 ->
  block_dir fs d -> apart fs f d -> Z.of_nat (length (chunks (1024 * m) content)) < 2 ^ 31 ->
  (m + length (chunks (1024 * m) content) + 1 < fuel)%nat ->
  split fuel fs f (Z.of_nat m) (d ++ $"/") =
  Some (Split (put_parts (resolve fs d) 0 (chunks (1024 * m) content) fs)).
Proof.
  intros Hf Hm Hm2 Hd Ha Hn Hfuel. unfold split, GetFileLength. rewrite Hf.
  replace (in_long (Z.of_nat m * 1024)) with true by (unfold in_long; symmetry; lia). cbn [negb].
  destruct (Z.eqb_spec (Z.of_nat (length content)) (-1)); [lia|].
  rewrite Z.mul_comm. by apply split_parts_spec.
Qed.

Lemma merge_after_split fs content m d fuel :
  (0 < m)%nat -> block_dir fs d -> content <> [] ->
  (length (chunks (1024 * m) content) < fuel)%nat ->
  let fs' := put_parts (resolve fs d) 0 (chunks (1024 * m) content) fs in
  merge fuel fs' d (Z.of_nat (length (chunks (1024 * m) content))) =
  Some (0, with_merge fs' (resolve fs d) content).
Proof.
  intros Hm Hd Hne Hf fs'.
  pose proof (put_parts_same (resolve fs d) 0 (chunks (1024 * m) content) fs) as [Hds Hcw].
  assert (resolve fs' d = resolve fs d) as Hr by by apply resolve_cwd.
  rewrite (merge_spec (chunks (1024 * m) content)).
  - rewrite decide_True by done. rewrite concat_chunks by lia.
    by rewrite decide_False, Hr.
  - by eapply block_dir_same; [..|exact Hd].
  - done.
  - intros j b Hj. rewrite Hr. unfold fs'.
    pose proof (put_parts_block (resolve fs d) 0 (chunks (1024 * m) content) fs j) as H.
    rewrite Nat.add_0_l in H. rewrite H, Hj; [done|]. by eapply lookup_lt_Some.
  - by left.
Qed.

(** ** Properties *)

(** C8. Splitting and merging are inverse: a non-empty file is split into blocks
    of a positive number of KB, in a directory that is there and in which no block's
    name is a directory, and merged again in the same directory. When the file is
    not itself one of the block files, when the size of a block in bytes fits in a
    [long long] and there are fewer than 2^31 blocks, this gives merge.out with the
    bytes of the file and the result 0; the number of blocks is the one
    [FileTopic::send_file] computes, each block is the corresponding slice of the
    file, and splitting changes no other file. *)
Theorem split_merge_roundtrip fs f content m d fuel :
  read fs f = Some content -> content <> [] -> (0 < m)%nat -> Z.of_nat m * 1024 < 2 ^ 63 ->
  block_dir fs d -> apart fs f d -> Z.of_nat (length (chunks (1024 * m) content)) < 2 ^ 31 ->
  (m + length content + 2 <= fuel)%nat ->
  exists fs' fs'' n,
    split fuel fs f (Z.of_nat m) (d ++ $"/") = Some (Split fs') /\
    Z.of_nat n = Z.of_nat (length content) `div` (Z.of_nat m * 1024) +
      (if 0 <? Z.of_nat (length content) `mod` (Z.of_nat m * 1024) then 1 else 0) /\
    (forall i, (i < n)%nat -> block fs' (resolve fs d) i =
       Some (take (1024 * m) (drop (i * (1024 * m)) content))) /\
    (forall q, (forall i, q <> resolve fs d ++ [to_str i]) -> files fs' !! q = files fs !! q) /\
    merge fuel fs' d (Z.of_nat n) = Some (0, fs'') /\
    read fs'' (merge_out d) = Some content.
Proof.
  intros Hf Hne Hm Hm2 Hd Ha Hn Hfuel.
  set (parts := chunks (1024 * m) content) in *.
  assert (length parts <= length content)%nat as Hlen by (apply chunks_length_le; lia).
  exists (put_parts (resolve fs d) 0 parts fs),
    (with_merge (put_parts (resolve fs d) 0 parts fs) (resolve fs d) content), (length parts).
  split_and!.
  - apply split_spec; [done..|]. fold parts. lia.
  - unfold parts. rewrite length_chunks by lia.
    by replace (Z.of_nat (1024 * m)) with (Z.of_nat m * 1024) by lia.
  - intros i Hi. pose proof (put_parts_block (resolve fs d) 0 parts fs i Hi) as H.
    rewrite Nat.add_0_l in H. rewrite H. unfold parts.
    assert (i * (1024 * m) < length content)%nat.
    { apply lookup_lt_is_Some in Hi as [b Hb]. eapply chunks_full; [lia|exact Hb]. }
    by rewrite lookup_chunks by lia.
  - intros q Hq. apply put_parts_other. auto.
  - apply merge_after_split; [done..|]. fold parts. lia.
  - unfold read, merge_out. destruct Hd as (Hd & _).
    change (d ++ $"/merge.out") with (d ++ $"/" ++ $"merge.out").
    rewrite resolve_member by (done || apply merge_name).
    pose proof (put_parts_same (resolve fs d) 0 parts fs) as [_ Hcw].
    rewrite (resolve_cwd _ fs) by done. simpl. by rewrite lookup_insert_eq.
Qed.

Definition root_fs (fs : gmap path bytes) : FileSys.t :=
  FileSys.mk fs {[ [$"tmp"] ]} [].

Lemma root_block_dir fs : block_dir (root_fs fs) $"tmp".
Proof.
  split_and!; [done|by vm_compute|]. intros s Hs Hin.
  change (resolve (root_fs fs) $"tmp") with [$"tmp"] in Hin. simpl in Hin.
  apply elem_of_singleton in Hin. done.
Qed.

Definition big_file : bytes := replicate 1025 "x"%char ++ $"end".

Lemma split_merge_roundtrip_witness :
  exists fs' fs'' n,
    split 2000 (root_fs {[ [$"f"] := big_file ]}) $"f" 1 $"tmp/" = Some (Split fs') /\
    Z.of_nat n = 2 /\ merge 2000 fs' $"tmp" (Z.of_nat n) = Some (0, fs'') /\
    read fs'' (merge_out $"tmp") = Some big_file.
Proof.
  destruct (split_merge_roundtrip (root_fs {[ [$"f"] := big_file ]}) $"f" big_file 1 $"tmp" 2000)
    as (fs' & fs'' & n & H1 & H2 & _ & _ & H3 & H4).
  - vm_compute. reflexivity.
  - discriminate.
  - lia.
  - lia.
  - apply root_block_dir.
  - discriminate.
  - vm_compute. reflexivity.
  - vm_compute. lia.
  - exists fs', fs'', n. split_and!; [exact H1| |exact H3|exact H4].
    rewrite H2. vm_compute. reflexivity.
Defined.

(** A merge that finds its blocks stops at the first missing one and
    returns its number, leaving in merge.out the blocks before it; so a
    missing block 0 gives the result 0, which is also the result of a complete
    merge, with an empty merge.out. *)
Theorem merge_first_missing fs d parts n fuel :
  block_dir fs d -> (length parts < fuel)%nat -> Z.of_nat (length parts) < n ->
  (forall j b, parts !! j = Some b -> block fs (resolve fs d) j = Some b) ->
  block fs (resolve fs d) (length parts) = None ->
  merge fuel fs d n =
    Some (Z.of_nat (length parts), with_merge fs (resolve fs d) (concat parts)).
Proof.
  intros Hd Hf Hn Hb Hnone. rewrite (merge_spec parts) by (done || (right; split; [by left|done])).
  by rewrite decide_False by lia.
Qed.

Lemma merge_first_missing_witness :
  let fs := root_fs {[ [$"tmp"; $"1"] := $"late" ]} in
  merge 9 fs $"tmp" 2 = Some (0, with_merge fs [$"tmp"] []).
Proof.
  apply (merge_first_missing (root_fs {[ [$"tmp"; $"1"] := $"late" ]}) $"tmp" [] 2 9).
  - apply root_block_dir.
  - simpl; lia.
  - simpl; lia.
  - discriminate.
  - vm_compute. reflexivity.
Defined.

(** With a block size of 0 KB or less, [split] never returns on a non-empty file
    that is not one of its parts: it goes on making empty parts until their number
    overflows. *)
Theorem split_diverges fs f content blockSize d fuel fs' :
  read fs f = Some content -> content <> [] -> blockSize <= 0 -> block_dir fs d ->
  split fuel fs f blockSize (d ++ $"/") <> Some (Split fs').
Proof.
  intros Hf Hne Hb Hd. unfold split, GetFileLength. rewrite Hf.
  destruct (in_long _); [|done]. cbn [negb].
  destruct (Z.eqb_spec (Z.of_nat (length content)) (-1)); [lia|].
  generalize (resolve fs f) as source. generalize 0%nat as i. clear Hf. revert fs Hd.
  induction fuel as [|fuel IH]; intros fs Hd i source; [done|]. cbn [split_parts].
  assert (0 < length content)%nat by (destruct content; simpl; [done|lia]).
  destruct (Z.ltb_spec 0 (Z.of_nat (length content))); [|lia].
  rewrite <- !app_assoc, !write_block by (done || apply to_str_name).
  case_bool_decide; [done|].
  destruct fuel as [|fuel]; [done|]. cbn [fill_part].
  destruct (Z.ltb_spec 0 (blockSize * 1024)); [lia|]. cbn [andb mbind option_bind].
  rewrite !write_block by (done || apply to_str_name).
  destruct (_ =? _); [done|].
  apply IH. by eapply block_dir_same; [..|exact Hd].
Qed.

Lemma split_diverges_witness fs' :
  split 50 (root_fs {[ [$"f"] := $"abc" ]}) $"f" 0 $"tmp/" <> Some (Split fs').
Proof.
  apply (split_diverges _ _ $"abc" _ $"tmp"); [vm_compute; reflexivity|discriminate|lia|].
  apply root_block_dir.
Defined.

(** A file that is one of its own parts: what comes of it is not determined. *)
Lemma split_own_part :
  split 50 (root_fs {[ [$"tmp"; $"0"] := $"abc" ]}) $"tmp/0" 1 $"tmp/" = Some Undetermined.
Proof. vm_compute. reflexivity. Qed.

End FileSplit.
