(* ===== verification/Messages.v ===== *)
(** * The messages of the data bus ([src/node/src/proto/])

    The fields of the generated classes that the modelled code sets or reads.
    A [uint64] or [int64] field is a [Z]; so is a command number, for a proto3
    enum keeps the numbers it does not know. [bytes] and [string] are char lists.
    Serialization is generated code and is not modelled: a message is received
    as it was sent. *)

From S2P Require Import Prelude.

Module Messages.

(** src/node/src/proto/node.proto:19-62, [CmdType]. *)
Inductive CmdType :=
  | CMDTYPE_UNKNOWN | REBOOT | RESTART | LS | MKDIR | DEL | DELDIR | SENDFILE | ADDAPP
  | REMOVEAPP | STARTAPP | STOPAPP | RESTARTAPP | LSAPP | ADDPLUGIN | REMOVEPLUGIN
  | STARTPLUGIN | STOPPLUGIN | RESTARTPLUGIN | LSPLUGIN | GETS3FILE | PUTS3FILE | LSS3DIR
  | LSS3BUCKETS | COPYS3FILE | DELS3FILE | ZIP | DZIP | ADDS3WATCH | RMS3WATCH
  | LSS3WATCH | STARTTRACELOG | STOPTRACELOG | LSTRACELOG | STARTEXEC | STOPEXEC | LSEXEC
  | RMEXEC | GETEXECRESULT | MKFILE | CPFILE | PODMANCMD.

(** src/node/src/proto/node.proto:71-111, [PodmanCmd]. *)
Inductive PodmanCmd :=
  | LIST_CONTAINERS | CREATE_CONTAINER | START_CONTAINER | STOP_CONTAINER
  | REMOVE_CONTAINER | INSPECT_CONTAINER | RESTART_CONTAINER | PAUSE_CONTAINER
  | UNPAUSE_CONTAINER | EXEC_IN_CONTAINER | LIST_IMAGES | PULL_IMAGE | REMOVE_IMAGE
  | INSPECT_IMAGE | TAG_IMAGE | LIST_NETWORKS | CREATE_NETWORK | REMOVE_NETWORK
  | INSPECT_NETWORK | LIST_VOLUMES | CREATE_VOLUME | REMOVE_VOLUME | INSPECT_VOLUME
  | LIST_STACKS | DEPLOY_STACK | REMOVE_STACK | INSPECT_STACK | UPDATE_STACK
  | START_STACK | STOP_STACK | RESTART_STACK | PAUSE_STACK | UNPAUSE_STACK | SCALE_STACK
  | GET_STACK_LOGS | LIST_REGISTRIES | ADD_REGISTRY | REMOVE_REGISTRY | LOGIN_REGISTRY.

(** src/node/src/proto/node.proto:113-119, [CommStatus]. *)
Inductive CommStatus := STATUS_UNKNOWN | DOING | SUCCESS | INVALID | OTHER.

#[export] Instance CmdType_eq_dec : EqDecision CmdType.
Proof. solve_decision. Defined.
#[export] Instance PodmanCmd_eq_dec : EqDecision PodmanCmd.
Proof. solve_decision. Defined.
#[export] Instance CommStatus_eq_dec : EqDecision CommStatus.
Proof. solve_decision. Defined.

(** src/node/src/proto/node.proto:19-62, [CmdType]. Its numbers. *)
Definition all_cmds : list CmdType :=
  [CMDTYPE_UNKNOWN; REBOOT; RESTART; LS; MKDIR; DEL; DELDIR; SENDFILE;
   ADDAPP; REMOVEAPP; STARTAPP; STOPAPP; RESTARTAPP; LSAPP; ADDPLUGIN; REMOVEPLUGIN;
   STARTPLUGIN; STOPPLUGIN; RESTARTPLUGIN; LSPLUGIN; GETS3FILE; PUTS3FILE; LSS3DIR; LSS3BUCKETS;
   COPYS3FILE; DELS3FILE; ZIP; DZIP; ADDS3WATCH; RMS3WATCH; LSS3WATCH; STARTTRACELOG;
   STOPTRACELOG; LSTRACELOG; STARTEXEC; STOPEXEC; LSEXEC; RMEXEC; GETEXECRESULT; MKFILE; CPFILE; PODMANCMD].
Definition cmd_of_Z (z : Z) : option CmdType :=
  if z <? 0 then None else all_cmds !! Z.to_nat z.
Definition Z_of_cmd (c : CmdType) : Z :=
  match list_find (eq c) all_cmds with Some (i, _) => Z.of_nat i | None => 0 end.

(** src/node/src/proto/node.proto:71-111, [PodmanCmd]. Its numbers. *)
Definition all_podman : list PodmanCmd :=
  [LIST_CONTAINERS; CREATE_CONTAINER; START_CONTAINER; STOP_CONTAINER; REMOVE_CONTAINER; INSPECT_CONTAINER; RESTART_CONTAINER;
   PAUSE_CONTAINER; UNPAUSE_CONTAINER; EXEC_IN_CONTAINER; LIST_IMAGES; PULL_IMAGE; REMOVE_IMAGE; INSPECT_IMAGE;
   TAG_IMAGE; LIST_NETWORKS; CREATE_NETWORK; REMOVE_NETWORK; INSPECT_NETWORK; LIST_VOLUMES; CREATE_VOLUME;
   REMOVE_VOLUME; INSPECT_VOLUME; LIST_STACKS; DEPLOY_STACK; REMOVE_STACK; INSPECT_STACK; UPDATE_STACK;
   START_STACK; STOP_STACK; RESTART_STACK; PAUSE_STACK; UNPAUSE_STACK; SCALE_STACK; GET_STACK_LOGS;
   LIST_REGISTRIES; ADD_REGISTRY; REMOVE_REGISTRY; LOGIN_REGISTRY].
Definition podman_of_Z (z : Z) : option PodmanCmd :=
  if z <? 0 then None else all_podman !! Z.to_nat z.
Definition Z_of_podman (c : PodmanCmd) : Z :=
  match list_find (eq c) all_podman with Some (i, _) => Z.of_nat i | None => 0 end.

(** src/node/src/proto/node.proto:113-119, [CommStatus]. Its numbers. *)
Definition Z_of_status (s : CommStatus) : Z :=
  match s with STATUS_UNKNOWN => 0 | DOING => 1 | SUCCESS => 2 | INVALID => 3 | OTHER => 4 end.

(** src/node/src/proto/file.proto:6-22, [FileData]. *)
Record FileData := mkFileData {
  fd_uuid : str;
  fd_src_node_id : str;
  fd_to_node_id : str;
  fd_file_name : str;
  fd_save_file_name : str;
  fd_sub_dir : str;
  fd_is_end : bool;
  fd_file_total_size : Z;
  fd_block_seq : Z;
  fd_total_block_num : Z;
  fd_block_content : list ascii;
}.

(** src/node/src/proto/file.proto:25-38, [FileDataReply]. *)
Record FileDataReply := mkFileDataReply {
  fr_uuid : str;
  fr_src_node_id : str;
  fr_to_node_id : str;
  fr_file_name : str;
  fr_reply_uuid : str;
  fr_sub_dir : str;
  fr_is_end : bool;
  fr_block_seq : Z;
  fr_total_block_num : Z;
  fr_file_total_size : Z;
  fr_state : Z;
}.

(** src/node/src/proto/node.proto:122-127, [File]. *)
Record File := mkFile {
  file_path_name : str;
  is_dir : bool;
  file_size : Z;
  timestamp : Z;
}.

(** src/node/src/proto/node.proto:274-288, [NodeCmd]. *)
Record NodeCmd := mkNodeCmd {
  c_uuid : str;
  c_src_node_id : str;
  c_src_node_name : str;
  c_to_node_id : str;
  c_to_group : str;
  c_cmd_type : Z;
  c_podman_cmd : Z;
  c_cmd : str;
  c_paras : str;
  c_paras_1 : str;
  c_paras_2 : str;
}.

(** src/node/src/proto/node.proto:290-304, [NodeCmdReply]. *)
Record NodeCmdReply := mkNodeCmdReply {
  r_uuid : str;
  r_src_node_id : str;
  r_src_node_name : str;
  r_to_node_id : str;
  r_to_node_name : str;
  r_cmd_reply_uuid : str;
  r_cmd_type : Z;
  r_status : CommStatus;
  r_desc : str;
  r_desc_str : str;
  r_result : list File;
}.

(** The setters of the reply. *)
Definition set_status (r : NodeCmdReply) (s : CommStatus) : NodeCmdReply :=
  mkNodeCmdReply (r_uuid r) (r_src_node_id r) (r_src_node_name r) (r_to_node_id r)
    (r_to_node_name r) (r_cmd_reply_uuid r) (r_cmd_type r) s (r_desc r) (r_desc_str r) (r_result r).
Definition set_desc (r : NodeCmdReply) (d : str) : NodeCmdReply :=
  mkNodeCmdReply (r_uuid r) (r_src_node_id r) (r_src_node_name r) (r_to_node_id r)
    (r_to_node_name r) (r_cmd_reply_uuid r) (r_cmd_type r) (r_status r) d (r_desc_str r) (r_result r).
Definition set_desc_str (r : NodeCmdReply) (d : str) : NodeCmdReply :=
  mkNodeCmdReply (r_uuid r) (r_src_node_id r) (r_src_node_name r) (r_to_node_id r)
    (r_to_node_name r) (r_cmd_reply_uuid r) (r_cmd_type r) (r_status r) (r_desc r) d (r_result r).
Definition add_results (r : NodeCmdReply) (fs : list File) : NodeCmdReply :=
  mkNodeCmdReply (r_uuid r) (r_src_node_id r) (r_src_node_name r) (r_to_node_id r)
    (r_to_node_name r) (r_cmd_reply_uuid r) (r_cmd_type r) (r_status r) (r_desc r) (r_desc_str r)
    (r_result r ++ fs).

(** ** Lemmas *)

Lemma cmd_of_Z_of_cmd c : cmd_of_Z (Z_of_cmd c) = Some c.
Proof. by destruct c. Qed.

Lemma Z_of_cmd_of_Z z c : cmd_of_Z z = Some c -> Z_of_cmd c = z.
Proof.
  unfold cmd_of_Z. destruct (Z.ltb_spec z 0); [done|]. intros Hz.
  rewrite <- (Z2Nat.id z) by done. generalize dependent (Z.to_nat z). clear.
  intros n Hn. do 42 (destruct n as [|n]; [by simplify_eq/=|]). done.
Qed.

End Messages.
