(* ===== verification/FileTransfer.v ===== *)
(** * Sending and receiving files ([src/node/src/FileTopic.cpp])

    The sender publishes one block at a time and repeats it until a reply
    carries the block's number. What the bus and the receiver do to a published
    block is an environment: a state and a function that says whether the
    publication succeeds, which replies are popped before the time-out, and the
    next state. The receiver of the same file is one such environment. *)

From S2P Require Import Prelude StrUtil FileSys FileSplit Messages.
Import FileSys FileSplit Messages.

Module FileTransfer.

(** The node settings the transfer reads ([utility::node::nodeInfo_]). *)
Record config := mkConfig {
  cfg_nodeId : str;
  cfg_monNodeId : str;
  fileMaxReTry_ : Z;
  fileSplitSize_ : Z;
}.

(** A call returns, throws, does not return, or has no defined result. *)
Inductive outcome (A : Type) := Ret (a : A) | Throw | Loop | Undefined.
Arguments Ret {A}. Arguments Throw {A}. Arguments Loop {A}. Arguments Undefined {A}.

(** [subreplace(s, "./", "")], which terminates. *)
Definition strip (s : str) : str :=
  default s (StrUtil.subreplace (length s) s $"./" []).

Section Sender.
Context {E : Type}.
(** One publication: did it go out, which replies are popped before the
    time-out, and what becomes of the world. *)
Context (net : E -> FileData -> bool * list FileDataReply * E).
Context (cfg : config).

(** src/node/src/FileTopic.cpp:1290-1319, [FileTopic::sendOneBlock]. A popped
    reply counts when it carries the block's number, whatever its state. *)
Definition received_valid_reply (nCount : Z) (popped : list FileDataReply) : bool :=
  existsb (fun reply => fr_block_seq reply =? nCount) popped.

(** src/node/src/FileTopic.cpp:1265-1329, [FileTopic::sendOneBlock]. [left] is
    how many turns the condition of the loop still allows; the results are
    [retFlag], the value returned and the number of publications. *)
Fixpoint retry_loop (left : nat) (msg : FileData) (e : E) : bool * bool * nat * E :=
  match left with
  | O => (true, false, O, e)
  | S left' =>
      let '(published, popped, e') := net e msg in
      if negb published then retry_loop left' msg e'
      else if received_valid_reply (fd_block_seq msg) popped then
        (fd_is_end msg, fd_is_end msg, 1%nat, e')
      else let '(retFlag, ret, n, e'') := retry_loop left' msg e' in
           (retFlag, ret, S n, e'')
  end.

Definition tries : nat := Z.to_nat (fileMaxReTry_ cfg + 1).

(** src/node/src/FileTopic.cpp:1204-1339, [FileTopic::sendOneBlock]. A block
    file that is missing has length [uint32_t(-1)] and does not open. *)
Definition sendOneBlock (fs : FileSys.t) (uuid toNodeId recvfile saveFileName sendfile_tmp : str)
    (nCount fileSize fileNum : Z) (subDir : str) (sendOne : bool) (e : E)
    : bool * bool * nat * E :=
  let tmp_fileName := sendfile_tmp ++ to_str (Z.to_N nCount) in
  let size := uwrap 32 (GetFileLength fs tmp_fileName) in
  if 0 <? size then
    match read fs tmp_fileName with
    | None => (false, false, O, e)
    | Some content =>
        retry_loop tries
          (mkFileData uuid (cfg_nodeId cfg) toNodeId recvfile saveFileName subDir
             (sendOne || (nCount =? fileNum - 1)) fileSize nCount fileNum
             (take (Z.to_nat size) content)) e
    end
  else (true, true, O, e).

(** src/node/src/FileTopic.cpp:1173-1181, [FileTopic::send_file]. [todo] blocks
    are left of [fileNum]. *)
Fixpoint send_blocks (todo : nat) (fs : FileSys.t)
    (uuid toNodeId recvfile saveFileName sendfile_tmp : str)
    (nCount fileSize fileNum : Z) (subDirs : str) (e : E) : bool * nat * E :=
  match todo with
  | O => (false, O, e)
  | S todo' =>
      let '(retFlag, retVal, n, e') :=
        sendOneBlock fs uuid toNodeId recvfile saveFileName sendfile_tmp
          nCount fileSize fileNum subDirs false e in
      if retFlag : bool then (retVal, n, e')
      else let '(r, n', e'') :=
             send_blocks todo' fs uuid toNodeId recvfile saveFileName sendfile_tmp
               (nCount + 1) fileSize fileNum subDirs e' in
           (r, (n + n')%nat, e'')
  end.

Definition send_dir (sendfile : str) : str :=
  $"send/" ++ cfg_nodeId cfg ++ $"/" ++ sendfile ++ $"_tmp".
Definition recv_file (srcNodeId toNodeId sendfile : str) : str :=
  $"recv/" ++ srcNodeId ++ $"/" ++ toNodeId ++ $"/" ++ sendfile.

(** An [int]. *)
Definition in_int (z : Z) : bool := (- 2 ^ 31 <=? z) && (z <? 2 ^ 31).

(** src/node/src/FileTopic.cpp:1165-1165, [FileTopic::send_file]. The setting is an
    [int] and so is its product with 1024; the length of the file is a [long long].
    [None]: the product overflows, or one divides by zero. *)
Definition file_num (fileSize splitSize : Z) : option Z :=
  let block := splitSize * 1024 in
  if negb (in_int block) || (block =? 0) then None
  else Some (uwrap 64 (Z.quot fileSize block + (if 0 <? Z.rem fileSize block then 1 else 0))).

(** src/node/src/FileTopic.cpp:1144-1182, [FileTopic::send_file]. [fuel] is
    [split]'s. The file system is the sender's. *)
Definition send_file (fuel : nat) (fs : FileSys.t)
    (fileName srcNodeId uuid toNodeId subDirs : str) (e : E)
    : outcome (bool * nat * FileSys.t * E) :=
  let sendfile := strip fileName in
  let subFileName := strip subDirs in
  let sendfile_tmp := send_dir sendfile ++ $"/" in
  let recvfile := recv_file srcNodeId toNodeId sendfile in
  let fileSize := GetFileLength fs sendfile in
  if fileSize <? 0 then Ret (false, O, fs, e)
  else match mkdir fs sendfile_tmp with
       | None => Throw
       | Some fs1 =>
           match split fuel fs1 sendfile (fileSplitSize_ cfg) sendfile_tmp with
           | None => Loop
           | Some Undetermined => Undefined
           | Some (Split fs2) =>
               match file_num fileSize (fileSplitSize_ cfg) with
               | None => Undefined
               | Some fileNum =>
                   let saveFileName := cfg_nodeId cfg ++ $"/" ++ subFileName in
                   let '(r, n, e') :=
                     send_blocks (Z.to_nat fileNum) fs2 uuid toNodeId recvfile saveFileName
                       sendfile_tmp 0 fileSize fileNum subDirs e in
                   Ret (r, n, fs2, e')
               end
           end
       end.

(** src/node/src/FileTopic.cpp:1185-1202, [FileTopic::sendOneFile]. *)
Definition sendOneFile (fs : FileSys.t) (fileName srcNodeId uuid toNodeId subDir : str)
    (blockNum totalNum fileTotalSize : Z) (e : E) : bool * E :=
  let sendfile := strip fileName in
  let '(_, retVal, _, e') :=
    sendOneBlock fs uuid toNodeId sendfile sendfile (sendfile ++ $"_tmp/") blockNum
      fileTotalSize totalNum subDir true e in
  (retVal, e').

End Sender.

(** ** The reply table of the data base *)

(** [sprintf] of a [%llu]. *)
Definition llu (z : Z) : str := to_str (Z.to_N z).
Definition quoted (s : str) : str := $"'" ++ s ++ $"'".

(** src/node/src/FileTopic.cpp:1576-1577, [FileTopic::file_data_reply_in]. The
    same text at 1630-1631. *)
Definition insert_reply_sql (r : FileDataReply) (cur : Z) (desc : str) : str :=
  $"insert into file_data_reply (`reply_uuid`,`file_name`,`to_node_id`,`src_node_id`,`sub_dir`,`current_block_num`,`total_block_num`,`status_description`,`file_data_status_id`) values("
  ++ quoted (fr_reply_uuid r) ++ $"," ++ quoted (fr_file_name r) ++ $","
  ++ quoted (fr_to_node_id r) ++ $"," ++ quoted (fr_src_node_id r) ++ $","
  ++ quoted (fr_sub_dir r) ++ $"," ++ llu cur ++ $"," ++ llu (fr_total_block_num r)
  ++ $"," ++ quoted desc ++ $"," ++ llu (fr_state r) ++ $")".

Definition where_reply (r : FileDataReply) : str :=
  $"  where reply_uuid=" ++ quoted (fr_reply_uuid r) ++ $" and src_node_id="
  ++ quoted (fr_src_node_id r).

(** src/node/src/FileTopic.cpp:1581-1581, [FileTopic::file_data_reply_in]. The
    same text at 1596. *)
Definition update_block_sql (r : FileDataReply) (cur : Z) : str :=
  $"update file_data_reply set current_block_num=" ++ llu cur
  ++ $",file_data_status_id=" ++ llu (fr_state r) ++ where_reply r.

(** src/node/src/FileTopic.cpp:1614-1614, [FileTopic::file_data_reply_in]. *)
Definition update_progress_sql (r : FileDataReply) (cur : Z) : str :=
  $"update file_data_reply set progress=" ++ quoted (llu cur) ++ $",comm_status_id=4"
  ++ where_reply r.

(** src/node/src/FileTopic.cpp:1641-1641, [FileTopic::file_data_reply_in]. *)
Definition update_done_sql (r : FileDataReply) (cur : Z) (desc : str) : str :=
  $"update file_data_reply set current_block_num=" ++ llu cur ++ $", status_description="
  ++ quoted desc ++ $",file_data_status_id=5" ++ where_reply r.

(** Statements run in order until one fails: the ones that ran, and whether all
    succeeded, [None] when the text of one, with its zero byte, does not fit in the
    buffer of 1024 bytes into which it is printed first. [db] is [None] where no data
    base is configured. *)
Fixpoint run_sqls (db : option (str -> Z)) (sqls : list str) : list str * option bool :=
  match sqls with
  | [] => ([], Some true)
  | s :: rest =>
      if (1024 <=? length s)%nat then ([], None)
      else match db with
      | None => run_sqls db rest
      | Some excuteSql =>
          if excuteSql s <? 0 then ([s], Some false)
          else let '(ran, ok) := run_sqls db rest in (s :: ran, ok)
      end
  end.

(** src/node/src/FileTopic.cpp:1552-1652, [FileTopic::file_data_reply_in]. The
    statements it would run for a reply. *)
Definition reply_sqls (r : FileDataReply) : list str :=
  let cur := uwrap 64 (fr_block_seq r + 1) in
  if fr_state r =? 1 then
    if cur =? 1
    then [insert_reply_sql r cur (fr_file_name r ++ $" " ++ llu cur ++ $" Send ...")]
    else [update_block_sql r cur]
  else if fr_state r =? 3 then [update_block_sql r cur]
  else if fr_state r =? 4 then [update_progress_sql r cur]
  else if fr_state r =? 5 then
    let desc := fr_file_name r ++ $" Send sucess!" in
    (if cur =? 1 then [insert_reply_sql r cur desc] else [])
    ++ [update_done_sql r cur desc]
  else [].

(** src/node/src/FileTopic.cpp:1552-1652, [FileTopic::file_data_reply_in]. [None]:
    undefined, because a buffer is overrun, or because the buffer that is logged
    when the statement for state 4 fails has never been written to. *)
Definition file_data_reply_in (db : option (str -> Z)) (r : FileDataReply)
    : list str * option bool :=
  let '(ran, ok) := run_sqls db (reply_sqls r) in
  (ran, match ok with
        | Some false => if fr_state r =? 4 then None else Some false
        | _ => ok
        end).

(** ** The receiver *)

Definition set_end (r : FileDataReply) (state : Z) : FileDataReply :=
  mkFileDataReply (fr_uuid r) (fr_src_node_id r) (fr_to_node_id r) (fr_file_name r)
    (fr_reply_uuid r) (fr_sub_dir r) true (fr_block_seq r) (fr_total_block_num r)
    (fr_file_total_size r) state.

Definition set_seq (r : FileDataReply) (seq : Z) : FileDataReply :=
  mkFileDataReply (fr_uuid r) (fr_src_node_id r) (fr_to_node_id r) (fr_file_name r)
    (fr_reply_uuid r) (fr_sub_dir r) (fr_is_end r) seq (fr_total_block_num r)
    (fr_file_total_size r) (fr_state r).

(** src/node/src/FileTopic.cpp:1521-1539, [FileTopic::move_clear_tmp]. The
    directory to make, if any, and the path to move the file to. *)
Definition save_paths (save_file_name sub_dir : str) : option str * str :=
  let paths := StrUtil.split save_file_name "/"%char in
  match paths with
  | [] => (None, sub_dir)
  | [p] => (None, p)
  | _ :: rest =>
      (Some (foldl (fun path s => path ++ $"/" ++ s) $"." (removelast rest)), sub_dir)
  end.

(** src/node/src/FileTopic.cpp:1513-1550, [FileTopic::move_clear_tmp]. The
    file system left and the reply that is queued, if any ([retFlag] is 2
    exactly then); the outer [None] is an exception. *)
Definition move_clear_tmp (fs : FileSys.t) (size : Z) (d : FileData)
    (mergeFileName tmpDir : str) (r : FileDataReply)
    : FileSys.t * option (option FileDataReply) :=
  if size =? fd_file_total_size d then
    if bool_decide (fd_save_file_name d = []) then (fs, Some (Some (set_end r 5)))
    else
      let '(dir, pathName) := save_paths (fd_save_file_name d) (fd_sub_dir d) in
      match match dir with None => Some fs | Some p => mkdir fs p end with
      | None => (fs, None)
      | Some fs1 =>
          (remove_all_files (snd (move fs1 mergeFileName pathName)) tmpDir,
           Some (Some (set_end r 5)))
      end
  else (fs, Some None).

(** src/node/src/FileTopic.cpp:354-364, [FileTopic::handle_file_data]. [uuid]
    is the one generated. *)
Definition data_reply (uuid : str) (d : FileData) (name : str) : FileDataReply :=
  mkFileDataReply uuid (fd_to_node_id d) (fd_src_node_id d) name (fd_uuid d) [] false
    (fd_block_seq d) (fd_total_block_num d) (fd_file_total_size d) 1.

(** src/node/src/FileTopic.cpp:368-427, [FileTopic::handle_file_data]. The
    last block: the file system left, the reply as it is then and the one
    queued; the inner [None] is an exception, the outer one [merge]'s fuel. *)
Definition handle_end (fuel : nat) (fs : FileSys.t) (d : FileData) (tmpDir : str)
    (r : FileDataReply) : option (FileSys.t * option (FileDataReply * option FileDataReply)) :=
  '(result, fs1) ← merge fuel fs tmpDir (swrap 32 (fd_total_block_num d));
  Some (if result =? 0 then
          let size := uwrap 64 (GetFileLength fs1 (merge_out tmpDir)) in
          let '(fs2, q) := move_clear_tmp fs1 size d (merge_out tmpDir) tmpDir r in
          (fs2, (fun q => (default r q, q)) <$> q)
        else if 0 <? result then (fs1, Some (set_end (set_seq r result) 3, None))
        else (fs1, Some (set_end r 4, Some (set_end r 4)))).

(** src/node/src/FileTopic.cpp:328-445, [FileTopic::handle_file_data]. The
    file system left, the reply queued for the sender, the SQL run, and whether the
    behaviour was defined so far. An exception is caught and logged, and leaves what
    was done before it. *)
Definition handle_file_data (fuel : nat) (cfg : config) (db : option (str -> Z))
    (uuid : str) (fs : FileSys.t) (d : FileData)
    : FileSys.t * option FileDataReply * (list str * bool) :=
  let tmpDir := fd_file_name d ++ $"_tmp" in
  match mkdir fs tmpDir with
  | None => (fs, None, ([], true))
  | Some fs1 =>
      let fs2 := write_file fs1 (tmpDir ++ $"/" ++ to_str (Z.to_N (fd_block_seq d)))
                   (fd_block_content d) in
      match last (StrUtil.split (fd_file_name d) "/"%char) with
      | None => (fs2, None, ([], true))
      | Some name =>
          let r := data_reply uuid d name in
          match (if fd_is_end d then handle_end fuel fs2 d tmpDir r
                 else Some (fs2, Some (r, Some r))) with
          | None => (fs2, None, ([], true))
          | Some (fs3, None) => (fs3, None, ([], true))
          | Some (fs3, Some (r', q)) =>
              (fs3, q, if bool_decide (fd_src_node_id d = cfg_monNodeId cfg) then ([], true)
                       else let '(ran, ok) := file_data_reply_in db r' in
                            (ran, bool_decide (is_Some ok)))
          end
      end
  end.

(** src/node/src/FileTopic.cpp:447-482, [FileTopic::handle_reply]. The SQL run, the
    sender's reply queue, and whether the behaviour was defined. *)
Definition handle_reply (group : str) (db : option (str -> Z)) (reply : FileDataReply)
    (reply_queue : list FileDataReply) : list str * list FileDataReply * bool :=
  if bool_decide (group = $"mgr") then
    match file_data_reply_in db reply with
    | (ran, None) => (ran, reply_queue, false)
    | (ran, Some _) => (ran, reply_queue ++ [reply], true)
    end
  else ([], reply_queue ++ [reply], true).

(** ** The closed system: one sender, one receiver and a lossy bus *)

(** What happens to a publication: it fails, its message is lost, the message
    arrives and its reply is lost, or both arrive. *)
Inductive fate := Failed | Lost | NoAck | Acked.

(** The receiver's files, what is to happen, and whether the behaviour of the two
    programs was defined so far. *)
Record world := mkWorld { w_fs : FileSys.t; w_fates : list fate; w_defined : bool }.

(** The bus in front of the receiver, with the handlers of receiver and sender;
    [group] and [sender_db] are the sender's. Once the fates are used up, messages
    are lost; once something was undefined, nothing more is said. *)
Definition bus (fuel : nat) (cfg : config) (group : str) (sender_db db : option (str -> Z))
    (uuid : str) (w : world) (d : FileData) : bool * list FileDataReply * world :=
  let '(f, fates) := match w_fates w with [] => (Lost, []) | f :: l => (f, l) end in
  if negb (w_defined w) then (true, [], w)
  else match f with
  | Failed => (false, [], mkWorld (w_fs w) fates true)
  | Lost => (true, [], mkWorld (w_fs w) fates true)
  | NoAck => let '(fs', _, (_, ok)) := handle_file_data fuel cfg db uuid (w_fs w) d in
             (true, [], mkWorld fs' fates ok)
  | Acked =>
      match handle_file_data fuel cfg db uuid (w_fs w) d with
      | (fs', Some r, (_, true)) =>
          let '(_, popped, ok) := handle_reply group sender_db r [] in
          (true, popped, mkWorld fs' fates ok)
      | (fs', _, (_, ok)) => (true, [], mkWorld fs' fates ok)
      end
  end.

End FileTransfer.
