(* ===== verification/TransferCorrect.v ===== *)
(** * Correctness of the file transfer

    What the sender's answer means: first for any environment, then for the
    closed system of one sender, one receiver and a lossy bus. *)

From S2P Require Import Prelude Printf StrUtil FileSys FileSplit Messages FileTransfer.
Import FileSys FileSplit Messages FileTransfer.

Module TransferCorrect.

(** ** The sender against any environment *)

Section AnyNet.
Context {E : Type} (net : E -> FileData -> bool * list FileDataReply * E) (cfg : config).

(** One of the next [left] publications is answered in time. *)
Fixpoint acked (left : nat) (msg : FileData) (e : E) : bool :=
  match left with
  | O => false
  | S left' =>
      let '(published, popped, e') := net e msg in
      (published && received_valid_reply (fd_block_seq msg) popped) || acked left' msg e'
  end.

Lemma retry_loop_outcome left msg e :
  exists n e', (n <= left)%nat /\
    retry_loop net left msg e =
    (if acked left msg e then (fd_is_end msg, fd_is_end msg, n, e') else (true, false, n, e')).
Proof.
  revert e. induction left as [|left IH]; intros e; simpl.
  - by exists O, e.
  - destruct (net e msg) as [[published popped] e'].
    destruct (IH e') as (n & e2 & Hn & E2).
    destruct published; simpl.
    + destruct (received_valid_reply _ _); simpl.
      * exists 1%nat, e'. split; [lia|done].
      * rewrite E2. exists (S n), e2. split; [lia|]. by destruct (acked left msg e').
    + exists n, e2. split; [lia|done].
Qed.

(** An invariant [I] of the publications of a message, kept when the loop gives up,
    and what holds, [J], once one of them is answered. *)
Lemma retry_loop_inv (I J : E -> Prop) msg :
  (forall e p r e', I e -> net e msg = (p, r, e') ->
     I e' /\ (p = true -> received_valid_reply (fd_block_seq msg) r = true -> J e')) ->
  forall left e flag ret n e',
    I e -> retry_loop net left msg e = (flag, ret, n, e') ->
    (flag = fd_is_end msg /\ ret = fd_is_end msg /\ J e') \/ (flag = true /\ ret = false /\ I e').
Proof.
  intros Hnet left. induction left as [|left IH]; intros e flag ret n e' HI; simpl.
  - intros; simplify_eq. by right.
  - destruct (net e msg) as [[p r] e1] eqn:En. destruct (Hnet _ _ _ _ HI En) as [HI1 HJ].
    destruct p; simpl; [|by eauto].
    destruct (received_valid_reply _ _) eqn:Hv.
    + intros; simplify_eq. left. auto.
    + destruct (retry_loop net left msg e1) as [[[f r'] n'] e2] eqn:El.
      intros; simplify_eq. by eapply IH.
Qed.

(** A block file that is there. *)
Lemma sendOneBlock_there fs uuid toNodeId recvfile save d nCount fileSize fileNum sub one e content :
  d <> [] -> 0 <= nCount ->
  block fs (resolve fs d) (Z.to_nat nCount) = Some content ->
  0 < Z.of_nat (length content) < 2 ^ 32 ->
  sendOneBlock net cfg fs uuid toNodeId recvfile save (d ++ $"/") nCount fileSize fileNum sub one e =
  retry_loop net (tries cfg)
    (mkFileData uuid (cfg_nodeId cfg) toNodeId recvfile save sub
       (one || (nCount =? fileNum - 1)) fileSize nCount fileNum content) e.
Proof.
  intros Hd Hn Hb Hlen. unfold sendOneBlock, GetFileLength, read.
  replace (Z.to_N nCount) with (N.of_nat (Z.to_nat nCount)) by lia.
  rewrite block_path by done. unfold block in Hb. rewrite Hb.
  rewrite (uwrap_small 32) by lia.
  destruct (Z.ltb_spec 0 (Z.of_nat (length content))); [|lia].
  by rewrite (take_ge content) by lia.
Qed.

End AnyNet.

(** C31. For any bus and any receiver, sending a block makes at most
    [fileMaxReTry_ + 1] publications and returns; it reports the transfer done
    exactly when the block is the last one and a publication was answered in
    time, lets the transfer go on exactly when another block was answered, and
    gives up exactly when none of the publications was answered. *)
Theorem sendOneBlock_outcome {E} (net : E -> FileData -> bool * list FileDataReply * E) cfg
    fs uuid toNodeId recvfile save d nCount fileSize fileNum sub one e content :
  d <> [] -> 0 <= nCount ->
  block fs (resolve fs d) (Z.to_nat nCount) = Some content ->
  0 < Z.of_nat (length content) < 2 ^ 32 ->
  let is_end := one || (nCount =? fileNum - 1) in
  let msg := mkFileData uuid (cfg_nodeId cfg) toNodeId recvfile save sub is_end
               fileSize nCount fileNum content in
  exists n e',
    Z.of_nat n <= Z.max 0 (fileMaxReTry_ cfg + 1) /\
    sendOneBlock net cfg fs uuid toNodeId recvfile save (d ++ $"/") nCount fileSize fileNum
      sub one e =
    (if acked net (tries cfg) msg e then (is_end, is_end, n, e') else (true, false, n, e')).
Proof.
  intros Hd Hn Hb Hlen is_end msg.
  rewrite (sendOneBlock_there net cfg _ _ _ _ _ _ _ _ _ _ _ _ content) by done.
  destruct (retry_loop_outcome net (tries cfg) msg e) as (n & e' & Hle & Eq).
  exists n, e'. split; [unfold tries in Hle; lia|]. exact Eq.
Qed.

Definition blocks_fs : FileSys.t := root_fs {[ [$"tmp"; $"0"] := $"abc" ]}.
Definition cfg3 : config := mkConfig $"0001" $"0000" 2 1.
(** A bus whose third publication is answered. *)
Definition third (e : nat) (d : FileData) : bool * list FileDataReply * nat :=
  (true, if bool_decide (e = 2%nat)
         then [mkFileDataReply [] [] [] [] [] [] false (fd_block_seq d) 1 3 4] else [], S e).

Lemma sendOneBlock_outcome_witness :
  exists n e',
    Z.of_nat n <= Z.max 0 (fileMaxReTry_ cfg3 + 1) /\
    sendOneBlock third cfg3 blocks_fs [] [] [] [] $"tmp/" 0 3 1 [] false O = (true, true, n, e').
Proof.
  destruct (sendOneBlock_outcome third cfg3 blocks_fs [] [] [] [] $"tmp" 0 3 1 [] false O $"abc")
    as (n & e' & H1 & H2).
  - discriminate.
  - lia.
  - vm_compute. reflexivity.
  - vm_compute. split; reflexivity.
  - exists n, e'. split; [exact H1|]. exact H2.
Defined.

(** The sender takes any reply with the number of the last block for the
    end of the transfer, whatever the reply says: also state 4, "the file must
    be sent again", with which a receiver answers when it could not merge the
    blocks. *)
Theorem failure_reply_taken_for_success {E} (net : E -> FileData -> bool * list FileDataReply * E)
    cfg fs uuid toNodeId recvfile save d nCount fileSize sub e content :
  d <> [] -> 0 <= nCount -> 0 <= fileMaxReTry_ cfg ->
  block fs (resolve fs d) (Z.to_nat nCount) = Some content ->
  0 < Z.of_nat (length content) < 2 ^ 32 ->
  (forall e0 msg, exists r e1, fr_state r = 4 /\ fr_block_seq r = fd_block_seq msg /\
     net e0 msg = (true, [r], e1)) ->
  exists e', sendOneBlock net cfg fs uuid toNodeId recvfile save (d ++ $"/") nCount fileSize
    (nCount + 1) sub false e = (true, true, 1%nat, e').
Proof.
  intros Hd Hn Hmax Hb Hlen Hnet.
  rewrite (sendOneBlock_there net cfg _ _ _ _ _ _ _ _ _ _ _ _ content) by done.
  unfold tries. destruct (Z.to_nat (fileMaxReTry_ cfg + 1)) as [|left] eqn:El; [lia|].
  cbn [retry_loop]. edestruct Hnet as (r & e1 & _ & Hs & ->). exists e1. simpl in *.
  rewrite Hs, Z.eqb_refl. simpl. by replace (nCount =? nCount + 1 - 1) with true by lia.
Qed.

(** A receiver that can never merge. *)
Definition always4 (e : nat) (d : FileData) : bool * list FileDataReply * nat :=
  (true, [mkFileDataReply [] [] [] [] [] [] true (fd_block_seq d) 1 3 4], S e).

Lemma failure_reply_taken_for_success_witness :
  exists e', sendOneBlock always4 cfg3 blocks_fs [] [] [] [] $"tmp/" 0 3 1 [] false O
    = (true, true, 1%nat, e').
Proof.
  apply (failure_reply_taken_for_success always4 cfg3 blocks_fs [] [] [] [] $"tmp" 0 3 [] O $"abc").
  - discriminate.
  - lia.
  - vm_compute. discriminate.
  - vm_compute. reflexivity.
  - vm_compute. split; reflexivity.
  - intros e0 msg. exists (mkFileDataReply [] [] [] [] [] [] true (fd_block_seq msg) 1 3 4), (S e0).
    split_and!; reflexivity.
Defined.

(** ** The statements for a reply *)

Lemma length_llu z : 0 <= z < 2 ^ 64 -> (length (llu z) <= 20)%nat.
Proof.
  intros Hz. unfold llu. apply Printf.length_to_str; [|lia]. change (10 ^ N.of_nat 20)%N with 100000000000000000000%N.
  lia.
Qed.

(** The texts of a reply leave room in the buffers. *)
Definition fits (r : FileDataReply) : Prop :=
  (2 * length (fr_file_name r) + length (fr_reply_uuid r) + length (fr_to_node_id r)
   + length (fr_src_node_id r) + length (fr_sub_dir r) <= 700)%nat /\
  0 <= fr_total_block_num r < 2 ^ 64 /\ 0 <= fr_state r < 2 ^ 64.

Lemma length_quoted s : length (quoted s) = (length s + 2)%nat.
Proof. unfold quoted. rewrite !length_app. simpl. lia. Qed.

Lemma reply_sqls_fit r : fits r -> Forall (fun s => (length s < 1024)%nat) (reply_sqls r).
Proof.
  intros (H & Ht & Hs). pose proof (uwrap_range 64 (fr_block_seq r + 1) ltac:(lia)) as Hc.
  apply length_llu in Ht, Hs, Hc. unfold reply_sqls.
  repeat case_match; repeat apply Forall_cons_2; try apply Forall_nil_2;
    unfold insert_reply_sql, update_block_sql, update_progress_sql, update_done_sql, where_reply;
    repeat rewrite ?length_app, ?length_quoted; cbn [length list_ascii_of_string]; lia.
Qed.

Lemma run_sqls_fit db l : Forall (fun s => (length s < 1024)%nat) l -> is_Some (run_sqls db l).2.
Proof.
  induction 1 as [|s l Hs _ IH]; [done|]. cbn [run_sqls].
  destruct (Nat.leb_spec 1024 (length s)); [lia|].
  destruct db as [f|]; [|done]. destruct (_ <? _); [done|].
  by destruct (run_sqls _ l).
Qed.

Lemma reply_defined db r : fits r -> fr_state r <> 4 -> is_Some (file_data_reply_in db r).2.
Proof.
  intros Hf H4. unfold file_data_reply_in.
  pose proof (run_sqls_fit db _ (reply_sqls_fit r Hf)) as [b E].
  destruct (run_sqls db (reply_sqls r)) as [ran ok]. cbn in E |- *. subst ok.
  destruct b; [done|]. by destruct (Z.eqb_spec (fr_state r) 4).
Qed.

(** ** The file systems of the closed system *)

Lemma prefixes_length done todo p :
  p ∈ prefixes done todo -> (length done < length p <= length done + length todo)%nat.
Proof.
  revert done. induction todo as [|c todo IH]; intros done H; simpl in *.
  - by apply elem_of_nil in H.
  - apply elem_of_cons in H as [->|H]; [rewrite length_app; simpl; lia|].
    apply IH in H. rewrite length_app in H. simpl in H. lia.
Qed.

Lemma prefixes_member p s : p ++ [s] ∉ prefixes [] p.
Proof. intros H. apply prefixes_length in H. rewrite length_app in H. simpl in H. lia. Qed.

Lemma prefixes_self pre todo : todo <> [] -> pre ++ todo ∈ prefixes pre todo.
Proof.
  revert pre. induction todo as [|c todo IH]; intros pre H; [done|]. simpl.
  destruct todo as [|c' todo]; [constructor|].
  right. rewrite cons_middle, app_assoc. by apply IH.
Qed.

Definition with_dirs (fs : FileSys.t) (ps : list path) : FileSys.t :=
  FileSys.mk (files fs) (list_to_set ps ∪ dirs fs) (cwd fs).

Lemma mkdir_ok fs s :
  (forall p, p ∈ prefixes [] (resolve fs s) -> files fs !! p = None) ->
  mkdir fs s = Some (with_dirs fs (prefixes [] (resolve fs s))).
Proof.
  intros H. unfold mkdir, create_directories.
  destruct (existsb _ _) eqn:E; [|done].
  apply existsb_exists in E as (p & Hp & Hf). apply list_elem_of_In in Hp.
  apply bool_decide_eq_true in Hf as [b Hb]. by rewrite (H p Hp) in Hb.
Qed.

Lemma mkdir_some fs s fs' :
  mkdir fs s = Some fs' -> fs' = with_dirs fs (prefixes [] (resolve fs s)).
Proof. unfold mkdir, create_directories. case_match; by intros [= <-]. Qed.

(** Where the receiver keeps the blocks: a directory it can make, of which no
    member is a directory. *)
Definition tmp_ready (R : FileSys.t) (d : str) : Prop :=
  d <> [] /\
  (forall p, p ∈ prefixes [] (resolve R d) -> files R !! p = None) /\
  (forall s, name s -> resolve R d ++ [s] ∉ dirs R).

Lemma tmp_ready_block_dir R d :
  tmp_ready R d -> block_dir (with_dirs R (prefixes [] (resolve R d))) d.
Proof.
  intros (H1 & H2 & H3). split_and!; [done| |].
  - unfold is_directory, is_dirp, with_dirs.
    change (resolve _ d) with (resolve R d). simpl.
    destruct (decide (resolve R d = [])) as [->|Hne]; [done|].
    apply orb_true_iff. right. apply bool_decide_eq_true.
    apply elem_of_union. left. apply elem_of_list_to_set.
    apply (prefixes_self [] (resolve R d) Hne).
  - intros s Hs. change (resolve _ d) with (resolve R d). simpl.
    rewrite not_elem_of_union, elem_of_list_to_set. split; [|by apply H3].
    apply prefixes_member.
Qed.

(** Where the file is to go: a path whose directory is there, that is neither
    a directory nor made one, and that is not among the blocks. *)
Definition dest_ready (R : FileSys.t) (d save sub : str) : Prop :=
  let q := resolve R (save_paths save sub).2 in
  q <> [] /\ is_dirp R (removelast q) = true /\ q ∉ dirs R /\
  q ∉ prefixes [] (resolve R d) /\
  (forall p, (save_paths save sub).1 = Some p ->
     q ∉ prefixes [] (resolve R p) /\ ~ below (resolve R d) (resolve R p)) /\
  ~ below (resolve R d) q.

Lemma prefixes_below pre todo p : p ∈ prefixes pre todo -> p `prefix_of` pre ++ todo.
Proof.
  revert pre. induction todo as [|c todo IH]; intros pre H; simpl in *.
  - by apply elem_of_nil in H.
  - rewrite cons_middle, app_assoc. apply elem_of_cons in H as [->|H]; [by eexists|].
    by apply IH.
Qed.

Lemma below_snoc p s : below p (p ++ [s]).
Proof. by eexists. Qed.

Lemma below_removelast p q : q <> [] -> below p (removelast q) -> below p q.
Proof.
  intros Hq [r Hr]. destruct (last_snoc_cases q) as [->|(l & x & ->)]; [done|].
  rewrite removelast_snoc in Hr. subst. exists (r ++ [x]). by rewrite app_assoc.
Qed.

(** A change of the file system that keeps [tmp_ready] and [dest_ready]: the
    working directory stays, new files avoid the paths of the directories, and
    directories come only from the paths made and go only with the blocks. *)
Definition changes (d save sub : str) (R R' : FileSys.t) : Prop :=
  cwd R' = cwd R /\
  (forall p, p ∈ prefixes [] (resolve R d) -> files R !! p = None -> files R' !! p = None) /\
  (forall p, p ∈ dirs R' -> p ∈ dirs R \/ p ∈ prefixes [] (resolve R d) \/
     exists s, (save_paths save sub).1 = Some s /\ p ∈ prefixes [] (resolve R s)) /\
  (forall p, p ∈ dirs R -> ~ below (resolve R d) p -> p ∈ dirs R').

Lemma changes_ready d save sub R R' :
  changes d save sub R R' ->
  tmp_ready R d -> dest_ready R d save sub -> tmp_ready R' d /\ dest_ready R' d save sub.
Proof.
  intros (Hc & Hf & Hd1 & Hd2) (T1 & T2 & T3) (Q1 & Q2 & Q3 & Q4 & Q5 & Q6).
  assert (forall s, resolve R' s = resolve R s) as Hr by (intros; by apply resolve_cwd).
  split.
  - unfold tmp_ready. rewrite Hr. split_and!; [done| |].
    + intros p Hp. apply Hf; [done|by apply T2].
    + intros s Hs Hin. apply Hd1 in Hin as [Hin|[Hin|(p & Hp & Hin)]].
      * by apply (T3 s).
      * by apply prefixes_member in Hin.
      * destruct (Q5 p Hp) as [_ Hnb]. apply Hnb. apply prefixes_below in Hin. simpl in Hin.
        unfold below. etrans; [|exact Hin]. by eexists.
  - unfold dest_ready. rewrite !Hr. split_and!; try done.
    + unfold is_dirp in *. apply orb_true_iff in Q2. apply orb_true_iff.
      destruct Q2 as [?|Q2]; [by left|right]. apply bool_decide_eq_true in Q2.
      apply bool_decide_eq_true. apply Hd2; [done|]. intros Hb. apply Q6.
      by apply below_removelast.
    + intros Hin. apply Hd1 in Hin as [Hin|[Hin|(p & Hp & Hin)]]; [done..|].
      by destruct (Q5 p Hp).
    + intros p Hp. rewrite Hr. by apply Q5.
Qed.

Definition tmp_of (d : FileData) : str := fd_file_name d ++ $"_tmp".

(** The file system after a block is written. *)
Definition put_data (d : FileData) (R : FileSys.t) : FileSys.t :=
  let R1 := with_dirs R (prefixes [] (resolve R (tmp_of d))) in
  FileSys.mk (<[resolve R (tmp_of d) ++ [to_str (Z.to_N (fd_block_seq d))]
                := fd_block_content d]> (files R)) (dirs R1) (cwd R).

(** What the handler does up to the reply. *)
Lemma handle_data fuel cfg db ruuid d R :
  fd_file_name d <> [] -> tmp_ready R (tmp_of d) ->
  exists name, last (StrUtil.split (fd_file_name d) "/"%char) = Some name /\
    handle_file_data fuel cfg db ruuid R d =
    match (if fd_is_end d
           then handle_end fuel (put_data d R) d (tmp_of d) (data_reply ruuid d name)
           else Some (put_data d R, Some (data_reply ruuid d name, Some (data_reply ruuid d name))))
    with
    | None => (put_data d R, None, ([], true))
    | Some (fs3, None) => (fs3, None, ([], true))
    | Some (fs3, Some (r', q)) =>
        (fs3, q, if bool_decide (fd_src_node_id d = cfg_monNodeId cfg) then ([], true)
                 else let '(ran, ok) := file_data_reply_in db r' in
                      (ran, bool_decide (is_Some ok)))
    end.
Proof.
  intros Hn HR. pose proof (tmp_ready_block_dir _ _ HR) as Hbd.
  unfold handle_file_data. fold (tmp_of d).
  rewrite mkdir_ok by apply HR. unfold write_file.
  rewrite (write_block _ _ _ _ Hbd) by apply to_str_name. cbn [default].
  destruct (last (StrUtil.split (fd_file_name d) "/"%char)) as [name|] eqn:El.
  - exists name. done.
  - exfalso. apply last_None in El. destruct (fd_file_name d) as [|c s]; [done|].
    destruct (StrUtil.until "/"%char (c :: s)) as [seg rest] eqn:Eu.
    by rewrite (StrUtil.split_step "/"%char (c :: s) seg rest ltac:(discriminate) Eu) in El.
Qed.

Lemma put_data_dir d R : tmp_ready R (tmp_of d) -> block_dir (put_data d R) (tmp_of d).
Proof. intros H. eapply block_dir_same; [..|by apply tmp_ready_block_dir]; done. Qed.

Lemma merge_out_length d X out :
  d <> [] -> GetFileLength (with_merge X (resolve X d) out) (merge_out d) = Z.of_nat (length out).
Proof.
  intros Hd. unfold GetFileLength, read, merge_out.
  change $"/merge.out" with ($"/" ++ $"merge.out").
  rewrite resolve_member by (done || apply merge_name).
  change (resolve (with_merge X (resolve X d) out) d) with (resolve X d).
  simpl. by rewrite lookup_insert_eq.
Qed.

Section Closed.
Context (fuel : nat) (cfg : config) (group : str) (sdb db : option (str -> Z)) (ruuid : str).
(** The file as the sender announces it: its bytes in [parts], and the names
    under which it travels. *)
Context (uuid toNodeId recvfile save sub : str) (content : bytes) (parts : list bytes).
Context (Hconcat : concat parts = content) (Hne : content <> []).
Context (Hsize : Z.of_nat (length content) < 2 ^ 64) (Hnum : Z.of_nat (length parts) < 2 ^ 31).
Context (Hfuel : (length parts < fuel)%nat) (Hrecv : recvfile <> []) (Hsave : save <> []).

(** The texts of its replies fit in their buffers. *)
Context (Hshort : forall name, last (StrUtil.split recvfile "/"%char) = Some name ->
  (2 * length name + length uuid + length (cfg_nodeId cfg) + length toNodeId <= 700)%nat).

Notation total := (Z.of_nat (length parts)).
Notation tmpDir := (recvfile ++ $"_tmp").

Definition msg (i : nat) : FileData :=
  mkFileData uuid (cfg_nodeId cfg) toNodeId recvfile save sub
    (false || (Z.of_nat i =? total - 1)) (Z.of_nat (length content)) (Z.of_nat i) total
    (default [] (parts !! i)).

(** The receiver with the blocks below [i]. *)
Definition has_blocks (i : nat) (R : FileSys.t) : Prop :=
  tmp_ready R tmpDir /\ dest_ready R tmpDir save sub /\
  forall j b, (j < i)%nat -> parts !! j = Some b -> block R (resolve R tmpDir) j = Some b.

(** The receiver once it has the file, with block 0 gone. *)
Definition has_file (R : FileSys.t) : Prop := read R (save_paths save sub).2 = Some content.
Definition finished (R : FileSys.t) : Prop :=
  tmp_ready R tmpDir /\ dest_ready R tmpDir save sub /\ has_file R /\
  block R (resolve R tmpDir) 0 = None.

(** The file system after the block of [msg i] is written. *)
Definition put_block (i : nat) (R : FileSys.t) : FileSys.t :=
  let R1 := with_dirs R (prefixes [] (resolve R tmpDir)) in
  FileSys.mk (<[resolve R tmpDir ++ [to_str (N.of_nat i)] := default [] (parts !! i)]> (files R))
    (dirs R1) (cwd R).

Lemma tmpDir_nonempty : tmpDir <> [].
Proof. by destruct recvfile. Qed.

Lemma put_data_block i R : put_data (msg i) R = put_block i R.
Proof.
  unfold put_data, put_block, tmp_of. cbn [fd_file_name fd_block_seq fd_block_content msg].
  by replace (Z.to_N (Z.of_nat i)) with (N.of_nat i) by lia.
Qed.

Lemma handle_put i R :
  tmp_ready R tmpDir ->
  exists name, fits (data_reply ruuid (msg i) name) /\
    handle_file_data fuel cfg db ruuid R (msg i) =
    match (if fd_is_end (msg i)
           then handle_end fuel (put_block i R) (msg i) tmpDir (data_reply ruuid (msg i) name)
           else Some (put_block i R, Some (data_reply ruuid (msg i) name,
                                           Some (data_reply ruuid (msg i) name)))) with
    | None => (put_block i R, None, ([], true))
    | Some (fs3, None) => (fs3, None, ([], true))
    | Some (fs3, Some (r', q)) =>
        (fs3, q, if bool_decide (cfg_nodeId cfg = cfg_monNodeId cfg) then ([], true)
                 else let '(ran, ok) := file_data_reply_in db r' in
                      (ran, bool_decide (is_Some ok)))
    end.
Proof.
  intros HR. rewrite <- put_data_block.
  destruct (handle_data fuel cfg db ruuid (msg i) R) as (name & Hn & E); [done..|].
  exists name. split; [|exact E]. specialize (Hshort name Hn).
  unfold fits. cbn. split; [lia|]. lia.
Qed.

(** The statements of a reply that does not ask for the file again are defined. *)
Lemma sql_defined (c : bool) r :
  fits r -> fr_state r <> 4 ->
  (if c then ([], true)
   else let '(ran, ok) := file_data_reply_in db r in (ran, bool_decide (is_Some ok))).2 = true.
Proof.
  intros Hf H4. destruct c; [done|]. pose proof (reply_defined db r Hf H4) as Hd.
  destruct (file_data_reply_in db r) as [ran ok]. cbn in *. by apply bool_decide_eq_true.
Qed.

(** What the handler left is defined, and its reply too, where the sender enters
    it in its data base. *)
Definition good_reply (res : FileSys.t * option FileDataReply * (list str * bool)) : Prop :=
  res.2.2 = true /\ forall r, res.1.2 = Some r -> fits r /\ fr_state r <> 4.

Lemma put_block_changes i R : changes tmpDir save sub R (put_block i R).
Proof.
  unfold put_block. split_and!; simpl; [done|..].
  - intros p Hp Hn. rewrite lookup_insert_ne; [done|].
    intros <-. by apply prefixes_member in Hp.
  - intros p. rewrite elem_of_union, elem_of_list_to_set. tauto.
  - intros p. rewrite elem_of_union. tauto.
Qed.

Lemma put_block_ready i R :
  tmp_ready R tmpDir -> dest_ready R tmpDir save sub ->
  tmp_ready (put_block i R) tmpDir /\ dest_ready (put_block i R) tmpDir save sub.
Proof. apply changes_ready, put_block_changes. Qed.

Lemma put_block_blocks i R :
  (i < length parts)%nat -> has_blocks i R -> has_blocks (S i) (put_block i R).
Proof.
  intros Hi (H1 & H2 & H3). destruct (put_block_ready i R H1 H2) as [H1' H2'].
  split_and!; [done..|]. intros j b Hj Hb.
  change (resolve (put_block i R) tmpDir) with (resolve R tmpDir).
  unfold block, put_block. simpl. destruct (decide (j = i)) as [->|Hij].
  - rewrite lookup_insert_eq, Hb. done.
  - rewrite lookup_insert_ne; [apply H3; [lia|done]|].
    intros E. apply app_inj_2 in E as [_ E]; [|done]. injection E as E.
    apply block_name_inj in E. lia.
Qed.

Lemma has_blocks_weaken i j R : (j <= i)%nat -> has_blocks i R -> has_blocks j R.
Proof. intros Hj (H1 & H2 & H3). split_and!; [done..|]. intros. apply H3; [lia|done]. Qed.

Lemma put_block_dir i R : tmp_ready R tmpDir -> block_dir (put_block i R) tmpDir.
Proof. intros H. eapply block_dir_same; [..|by apply tmp_ready_block_dir]; done. Qed.

(** A block that is not the last: it is stored and acknowledged. *)
Lemma handle_middle i R :
  (S i < length parts)%nat -> has_blocks i R ->
  has_blocks (S i) (handle_file_data fuel cfg db ruuid R (msg i)).1.1 /\
  good_reply (handle_file_data fuel cfg db ruuid R (msg i)).
Proof.
  intros Hi H. destruct (handle_put i R (proj1 H)) as (name & Hfit & ->).
  assert (fd_is_end (msg i) = false) as -> by (cbn [msg fd_is_end orb]; lia).
  split; [simpl; apply put_block_blocks; [lia|done]|].
  split; [by apply sql_defined|]. cbn [fst snd]. by intros ? [= <-].
Qed.

(** ** The last block *)

Notation P R := (resolve R tmpDir).
Notation q R := (resolve R (save_paths save sub).2).

Lemma with_merge_changes R out : changes tmpDir save sub R (with_merge R (P R) out).
Proof.
  split_and!; simpl; [done|..|by left|done].
  intros p Hp Hn. rewrite lookup_insert_ne; [done|].
  intros <-. by apply prefixes_member in Hp.
Qed.

Lemma parts_nonempty : (0 < length parts)%nat.
Proof. destruct parts; simpl in *; [by subst|lia]. Qed.

(** The file system after the file is moved to its place. *)
Definition moved (X : FileSys.t) : FileSys.t :=
  let X1 := match (save_paths save sub).1 with
            | None => X
            | Some p => with_dirs X (prefixes [] (resolve X p))
            end in
  FileSys.mk (filter (fun kv => ~ below (P X) kv.1)
                (delete (P X ++ [$"merge.out"]) (<[q X := content]> (files X))))
             (filter (fun p => ~ below (P X) p) (dirs X1)) (cwd X).

Lemma moved_changes X : dest_ready X tmpDir save sub -> changes tmpDir save sub X (moved X).
Proof.
  intros (Q1 & Q2 & Q3 & Q4 & Q5 & Q6). split_and!; simpl; [done|..].
  - intros p Hp Hn. apply map_lookup_filter_None. left.
    rewrite lookup_delete_ne by (intros <-; by apply prefixes_member in Hp).
    rewrite lookup_insert_ne by (by intros <-). done.
  - intros p Hin. apply elem_of_filter in Hin as [_ Hin].
    destruct (save_paths save sub).1 as [s|] eqn:Es; [|by left].
    simpl in Hin. apply elem_of_union in Hin as [Hin|Hin]; [|by left].
    rewrite elem_of_list_to_set in Hin. right; right. by exists s.
  - intros p Hin Hb. apply elem_of_filter. split; [done|].
    destruct (save_paths save sub).1; simpl; [|done]. apply elem_of_union. by right.
Qed.

Lemma moved_file X : dest_ready X tmpDir save sub -> has_file (moved X).
Proof.
  intros (Q1 & Q2 & Q3 & Q4 & Q5 & Q6). unfold has_file, read.
  change (resolve (moved X) _) with (q X). simpl.
  apply map_lookup_filter_Some. split; [|done].
  rewrite lookup_delete_ne; [by rewrite lookup_insert_eq|].
  intros E. apply Q6. rewrite <- E. apply below_snoc.
Qed.

Lemma moved_finished X :
  tmp_ready X tmpDir -> dest_ready X tmpDir save sub -> finished (moved X).
Proof.
  intros H1 H2. destruct (changes_ready _ _ _ _ _ (moved_changes X H2) H1 H2) as [H1' H2'].
  split_and!; [done..|by apply moved_file|].
  unfold block. change (resolve (moved X) tmpDir) with (P X). simpl.
  apply map_lookup_filter_None. right. intros b _ Hn. apply Hn, below_snoc.
Qed.

(** The move itself, when the directory of the destination can be made. *)
Lemma move_and_clear X X1 :
  dest_ready X tmpDir save sub ->
  files X !! (P X ++ [$"merge.out"]) = Some content ->
  cwd X1 = cwd X -> files X1 = files X ->
  is_dirp X1 (removelast (q X)) = true -> q X ∉ dirs X1 -> is_directory X1 tmpDir = true ->
  remove_all_files (move X1 (merge_out tmpDir) (save_paths save sub).2).2 tmpDir =
  FileSys.mk (filter (fun kv => ~ below (P X) kv.1)
               (delete (P X ++ [$"merge.out"]) (<[q X := content]> (files X))))
    (filter (fun p => ~ below (P X) p) (dirs X1)) (cwd X).
Proof.
  intros HQ Hm Hc Hf Hpar Hq Hd1. destruct HQ as (Q1 & Q2 & Q3 & Q4 & Q5 & Q6).
  assert (Hr : forall s, resolve X1 s = resolve X s) by (intros; by apply resolve_cwd).
  assert (Hmo : resolve X (merge_out tmpDir) = P X ++ [$"merge.out"]).
  { unfold merge_out. change $"/merge.out" with ($"/" ++ $"merge.out").
    apply resolve_member; [apply tmpDir_nonempty|apply merge_name]. }
  unfold move, read, write_file, write, writep. rewrite !Hr. rewrite Hmo, Hf, Hm.
  rewrite bool_decide_false by (intros E; apply Q6; rewrite <- E; apply below_snoc).
  rewrite Hpar. unfold is_dirp at 1. rewrite !bool_decide_false by done.
  cbn [orb negb default from_option id snd]. unfold id, remove.
  rewrite (resolve_cwd _ X) by done. rewrite Hmo. cbn [files].
  rewrite bool_decide_true.
  2:{ rewrite lookup_insert_ne; [by rewrite Hm|].
      intros E. apply Q6. rewrite E. apply below_snoc. }
  cbn [snd].
  match goal with |- remove_all_files ?Y _ = _ =>
    assert (resolve Y tmpDir = P X) as HY by by apply resolve_cwd end.
  unfold remove_all_files, is_directory, remove_all. rewrite HY.
  unfold is_directory in Hd1. rewrite Hr in Hd1.
  rewrite (is_dirp_dirs _ X1) by done. rewrite Hd1. cbn [files dirs cwd]. by rewrite Hc.
Qed.

Lemma move_clear_spec X d r :
  tmp_ready X tmpDir -> dest_ready X tmpDir save sub -> is_directory X tmpDir = true ->
  files X !! (P X ++ [$"merge.out"]) = Some content ->
  fd_save_file_name d = save -> fd_sub_dir d = sub ->
  fd_file_total_size d = Z.of_nat (length content) ->
  move_clear_tmp X (Z.of_nat (length content)) d (merge_out tmpDir) tmpDir r =
  match (save_paths save sub).1 with
  | Some p => match mkdir X p with
              | None => (X, None)
              | Some _ => (moved X, Some (Some (set_end r 5)))
              end
  | None => (moved X, Some (Some (set_end r 5)))
  end.
Proof.
  intros HT HQ Hdir Hm Es Esub Esz. unfold move_clear_tmp. rewrite Esz, Z.eqb_refl, Es, Esub.
  rewrite bool_decide_false by done.
  destruct (save_paths save sub) as [dir pathName] eqn:Ep.
  assert (Hmove := fun X1 => move_and_clear X X1 HQ Hm).
  destruct HQ as (Q1 & Q2 & Q3 & Q4 & Q5 & Q6).
  unfold moved. rewrite Ep in *. cbn [fst snd] in *.
  destruct dir as [p|].
  - destruct (mkdir X p) as [X1|] eqn:Em; [|done]. apply mkdir_some in Em as ->.
    f_equal. destruct (Q5 p eq_refl) as [Q5a _]. rewrite Hmove; try done.
    + unfold is_dirp, with_dirs in *. simpl. apply orb_true_iff in Q2. apply orb_true_iff.
      destruct Q2 as [?|Q2]; [by left|right]. apply bool_decide_eq_true in Q2.
      apply bool_decide_eq_true. set_solver.
    + simpl. rewrite not_elem_of_union, elem_of_list_to_set. done.
    + unfold is_directory, is_dirp, with_dirs in *. change (resolve _ tmpDir) with (P X). simpl.
      apply orb_true_iff in Hdir. apply orb_true_iff.
      destruct Hdir as [?|Hd]; [by left|right]. apply bool_decide_eq_true in Hd.
      apply bool_decide_eq_true. set_solver.
  - f_equal. by apply Hmove.
Qed.

Notation lst := (length parts - 1)%nat.

Lemma last_is_end : fd_is_end (msg lst) = true.
Proof. pose proof parts_nonempty. cbn [msg fd_is_end orb]. apply Z.eqb_eq. lia. Qed.

(** What the file system is after the merge of the last block. *)
Definition merged (R : FileSys.t) (out : bytes) : FileSys.t :=
  with_merge (put_block lst R) (P R) out.

Lemma merged_ready R out :
  tmp_ready R tmpDir -> dest_ready R tmpDir save sub ->
  tmp_ready (merged R out) tmpDir /\ dest_ready (merged R out) tmpDir save sub.
Proof.
  intros H1 H2. destruct (put_block_ready lst R H1 H2) as [H1' H2'].
  apply (changes_ready _ _ _ (put_block lst R)); [|done..].
  apply (with_merge_changes (put_block lst R)).
Qed.

Lemma merged_length R out :
  uwrap 64 (GetFileLength (merged R out) (merge_out tmpDir)) = uwrap 64 (Z.of_nat (length out)).
Proof.
  f_equal. apply (merge_out_length tmpDir (put_block lst R)). apply tmpDir_nonempty.
Qed.

Lemma total_int : swrap 32 total = total.
Proof. apply swrap_small; lia. Qed.

Lemma merge_full R :
  has_blocks lst R ->
  merge fuel (put_block lst R) tmpDir total = Some (0, merged R content).
Proof.
  intros H. pose proof parts_nonempty.
  pose proof (put_block_blocks lst R ltac:(lia) H) as (H1 & H2 & H3).
  rewrite (merge_spec parts); [|by apply put_block_dir, H|lia| |by left].
  - rewrite decide_True by done. rewrite Hconcat, decide_False by done. done.
  - intros j b Hj. apply H3; [|done]. apply lookup_lt_Some in Hj. lia.
Qed.

Lemma handle_last_full R fs' qu sqls :
  has_blocks lst R ->
  handle_file_data fuel cfg db ruuid R (msg lst) = (fs', qu, sqls) ->
  ((qu = None /\ has_blocks lst fs') \/
   (exists r, qu = Some r /\ fr_block_seq r = Z.of_nat lst /\ fr_state r = 5 /\ finished fs')) /\
  good_reply (fs', qu, sqls).
Proof.
  intros H. destruct (handle_put lst R (proj1 H)) as (name & Hfit & ->). rewrite last_is_end.
  unfold handle_end. cbn [fd_total_block_num msg]. rewrite total_int, merge_full by done.
  cbn [mbind option_bind]. simpl (0 =? 0). cbn iota. rewrite merged_length, uwrap_small by lia.
  pose proof H as (H1 & H2 & H3).
  destruct (merged_ready R content H1 H2) as [M1 M2].
  rewrite move_clear_spec; try done.
  2:{ by apply (put_block_dir lst R). }
  2:{ simpl. by rewrite lookup_insert_eq. }
  assert (has_blocks lst (merged R content)) as Hb.
  { split_and!; [done..|]. intros j b Hj Hp. change (P (merged R content)) with (P R).
    unfold merged. rewrite block_with_merge.
    apply (put_block_blocks lst R); [pose proof parts_nonempty; lia|done|lia|done]. }
  assert (finished (moved (merged R content))) as Hf by by apply moved_finished.
  assert (good_reply (moved (merged R content), Some (set_end (data_reply ruuid (msg lst) name) 5),
    if bool_decide (cfg_nodeId cfg = cfg_monNodeId cfg) then ([], true)
    else let '(ran, ok) := file_data_reply_in db (set_end (data_reply ruuid (msg lst) name) 5) in
         (ran, bool_decide (is_Some ok)))) as Hg.
  { assert (fits (set_end (data_reply ruuid (msg lst) name) 5)) as Hfit5
      by (destruct Hfit as (? & ? & ?); split; [done|]; split; [done|]; cbn; lia).
    split; [by apply sql_defined|]. cbn [fst snd]. by intros ? [= <-]. }
  destruct (save_paths save sub).1 as [p|]; [destruct (mkdir _ p)|];
    cbn [fmap option_fmap option_map default from_option]; intros E; injection E as <- <- <-.
  - split; [|exact Hg]. right. eexists. split_and!; [done..|exact Hf].
  - split; [by left|]. split; [done|]. done.
  - split; [|exact Hg]. right. eexists. split_and!; [done..|exact Hf].
Qed.

Lemma handle_last_finished R fs' qu sqls :
  (2 <= length parts)%nat -> finished R ->
  handle_file_data fuel cfg db ruuid R (msg lst) = (fs', qu, sqls) ->
  qu = None /\ finished fs' /\ good_reply (fs', qu, sqls).
Proof.
  intros Hn (H1 & H2 & H3 & H4). destruct (handle_put lst R H1) as (name & Hfit & ->).
  rewrite last_is_end. unfold handle_end. cbn [fd_total_block_num msg].
  rewrite total_int.
  rewrite (merge_spec [] fuel total (put_block lst R) tmpDir);
    [|by apply put_block_dir|simpl; lia|done|].
  2:{ right. split; [left; simpl; lia|]. change (P (put_block lst R)) with (P R).
      unfold block, put_block. simpl. rewrite lookup_insert_ne; [done|].
      intros E. apply app_inj_2 in E as [_ E]; [|done]. injection E as E.
      apply (block_name_inj _ 0) in E. lia. }
  rewrite decide_False by (simpl; lia). cbn [mbind option_bind length concat].
  simpl (Z.of_nat 0 =? 0). cbn iota.
  change (with_merge (put_block lst R) (P (put_block lst R)) []) with (merged R []).
  rewrite merged_length, uwrap_small by (simpl; lia).
  unfold move_clear_tmp. cbn [fd_file_total_size msg length].
  assert (0 < length content)%nat by (destruct content; simpl; [done|lia]).
  destruct (Z.eqb_spec (Z.of_nat 0) (Z.of_nat (length content))); [lia|].
  cbn [fmap option_fmap option_map default from_option]. intros E; injection E as <- <- <-.
  destruct (merged_ready R [] H1 H2) as [M1 M2].
  split; [done|]. split; [|by split; [apply sql_defined|]]. split_and!; [done..| |].
  - unfold has_file, read. change (q (merged R [])) with (q R).
    destruct H2 as (Q1 & Q2 & Q3 & Q4 & Q5 & Q6).
    unfold merged, with_merge, put_block. simpl.
    rewrite !lookup_insert_ne; [exact H3|..];
      intros E; apply Q6; rewrite <- E; apply below_snoc.
  - change (P (merged R [])) with (P R). unfold merged. rewrite block_with_merge.
    unfold block, put_block. simpl. rewrite lookup_insert_ne; [done|].
    intros E. apply app_inj_2 in E as [_ E]; [|done]. injection E as E.
    apply (block_name_inj _ 0) in E. lia.
Qed.

(** ** Sender, bus and receiver together *)

Notation net := (bus fuel cfg group sdb db ruuid).

Lemma handle_reply_defined r :
  fits r -> fr_state r <> 4 -> (handle_reply group sdb r []).1.2 = [r] /\ (handle_reply group sdb r []).2 = true.
Proof.
  intros Hf H4. unfold handle_reply. case_bool_decide; [|done].
  pose proof (reply_defined sdb r Hf H4) as [b E].
  destruct (file_data_reply_in sdb r) as [ran ok]. cbn in E. by subst ok.
Qed.

(** A publication: nothing reaches the receiver, or its handler runs; and with a
    good reply both programs stay defined. *)
Lemma bus_fs w d p r w' :
  w_defined w = true -> net w d = (p, r, w') ->
  (w_fs w' = w_fs w /\ r = [] /\ w_defined w' = true) \/
  (exists qu sqls, handle_file_data fuel cfg db ruuid (w_fs w) d = (w_fs w', qu, sqls) /\
     (good_reply (w_fs w', qu, sqls) -> w_defined w' = true /\ (r = [] \/ r = option_list qu))).
Proof.
  intros Hw. unfold bus. rewrite Hw. cbn [negb].
  destruct (w_fates w) as [|f l]; [intros; simplify_eq; by left|].
  destruct f; [intros; simplify_eq; by left|intros; simplify_eq; by left|..];
    destruct (handle_file_data _ _ _ _ _ _) as [[fs' qu] [sqls ok]] eqn:E.
  - intros; simplify_eq. right. exists qu, (sqls, ok). split; [done|].
    intros [Hg _]. cbn in Hg |- *. subst ok. split; [done|by left].
  - intros E2. right. exists qu, (sqls, ok).
    assert (w_fs w' = fs') as Hfs.
    { destruct qu as [q0|]; [destruct ok|]; simplify_eq; try done.
      destruct (handle_reply group sdb q0 []) as [[? ?] ?]. by simplify_eq. }
    rewrite Hfs. split; [done|]. intros [Hg Hq]. cbn in Hg, Hq. subst ok.
    destruct qu as [q0|]; [|injection E2 as <- <- <-; split; [reflexivity|by left]].
    destruct (Hq q0 eq_refl) as [Hf0 H40]. pose proof (handle_reply_defined q0 Hf0 H40) as [E3 E4].
    destruct (handle_reply group sdb q0 []) as [[? popped] ok]. cbn in E3, E4. subst ok popped.
    injection E2 as <- <- <-. split; [reflexivity|by right].
Qed.

Lemma bus_middle i w p r w' :
  (S i < length parts)%nat -> w_defined w = true /\ has_blocks i (w_fs w) -> net w (msg i) = (p, r, w') ->
  (w_defined w' = true /\ has_blocks i (w_fs w')) /\
  (p = true -> received_valid_reply (Z.of_nat i) r = true ->
   w_defined w' = true /\ has_blocks (S i) (w_fs w')).
Proof.
  intros Hi [Hw H] E. apply bus_fs in E as [(-> & -> & ->)|(qu & sqls & E & Hr)]; [|  |done]. { split; [done|]. intros _ Hv. done. }
  pose proof (handle_middle i (w_fs w) Hi H) as [H' Hg]. rewrite E in H', Hg. simpl in H'.
  destruct (Hr Hg) as [Hw' _]. split; [|done]. split; [done|].
  eapply has_blocks_weaken; [|exact H']. lia.
Qed.

Definition at_last (w : world) : Prop :=
  w_defined w = true /\
  (has_blocks lst (w_fs w) \/ ((2 <= length parts)%nat /\ finished (w_fs w))).

Lemma bus_last w p r w' :
  at_last w -> net w (msg lst) = (p, r, w') ->
  at_last w' /\
  (p = true -> received_valid_reply (Z.of_nat lst) r = true ->
   w_defined w' = true /\ has_file (w_fs w')).
Proof.
  intros [Hw H] E. unfold at_last.
  apply bus_fs in E as [(-> & -> & ->)|(qu & sqls & E & Hr)]; [|  |done]. { split; [done|]. intros _ Hv. done. }
  destruct H as [H|[Hn H]].
  - apply handle_last_full in E as [Hcase Hg]; [|done]. destruct (Hr Hg) as [Hw' Hrr].
    destruct Hcase as [[-> Hb]|(rp & -> & _ & _ & Hf)].
    + split; [by split; [|left]|]. destruct Hrr as [->| ->]; done.
    + split; [|intros; split; [done|apply Hf]]. split; [done|].
      destruct (decide (2 <= length parts)%nat) as [Hn|Hn]; [by right|left].
      destruct Hf as (F1 & F2 & _). split_and!; [done..|]. intros; lia.
  - apply handle_last_finished in E as (-> & Hf & Hg); [|done..]. destruct (Hr Hg) as [Hw' Hrr].
    split; [by split; [|right]|]. destruct Hrr as [->| ->]; done.
Qed.

Context (fs : FileSys.t) (d : str) (Hd : d <> []).
Context (Hparts : forall j b, parts !! j = Some b ->
           block fs (resolve fs d) j = Some b /\ 0 < Z.of_nat (length b) < 2 ^ 32).

Lemma send_blocks_deliver todo i w r k w' :
  (i + todo)%nat = length parts -> w_defined w = true -> has_blocks i (w_fs w) ->
  send_blocks net cfg todo fs uuid toNodeId recvfile save (d ++ $"/") (Z.of_nat i)
    (Z.of_nat (length content)) total sub w = (r, k, w') ->
  w_defined w' = true /\ (r = true -> has_file (w_fs w')).
Proof.
  revert i w r k. induction todo as [|todo IH]; intros i w r k Hi Hw Hb; cbn [send_blocks].
  - by intros; simplify_eq.
  - destruct (lookup_lt_is_Some_2 parts i) as [b Hp]; [lia|].
    destruct (Hparts i b Hp) as [Hblk Hlen].
    rewrite (sendOneBlock_there net cfg _ _ _ _ _ _ _ _ _ _ _ _ b); [|done|lia| |done].
    2:{ by rewrite Nat2Z.id. }
    assert (mkFileData uuid (cfg_nodeId cfg) toNodeId recvfile save sub
      (false || (Z.of_nat i =? total - 1)) (Z.of_nat (length content)) (Z.of_nat i) total b
      = msg i) as -> by (unfold msg; by rewrite Hp).
    destruct (retry_loop net (tries cfg) (msg i) w) as [[[flag ret] n] w1] eqn:Er.
    destruct (decide (todo = 0%nat)) as [->|Ht].
    + replace i with lst in * by lia.
      pose proof (retry_loop_inv net at_last
        (fun w => w_defined w = true /\ has_file (w_fs w)) (msg lst)) as HL.
      destruct (HL (fun e p r e' H E => bus_last e p r e' H E) (tries cfg) w flag ret n w1) as
        [(-> & -> & HJ & HF)|(-> & -> & HI & _)]; [by split; [|left]|done|..].
      * rewrite last_is_end. intros; simplify_eq. done.
      * by intros; simplify_eq.
    + pose proof (retry_loop_inv net (fun w => w_defined w = true /\ has_blocks i (w_fs w))
        (fun w => w_defined w = true /\ has_blocks (S i) (w_fs w)) (msg i)) as HL.
      destruct (HL (fun e p r e' H E => bus_middle i e p r e' ltac:(lia) H E)
        (tries cfg) w flag ret n w1) as [(-> & -> & HJ1 & HJ)|(-> & -> & HI & _)]; [done|done|..].
      * assert (fd_is_end (msg i) = false) as -> by (cbn [msg fd_is_end orb]; lia).
        destruct (send_blocks net cfg todo fs uuid toNodeId recvfile save (d ++ $"/")
          (Z.of_nat i + 1) (Z.of_nat (length content)) total sub w1) as [[r2 k2] w2] eqn:E2.
        replace (Z.of_nat i + 1) with (Z.of_nat (S i)) in E2 by lia.
        intros; simplify_eq. eapply (IH (S i)); [lia|done|done|exact E2].
      * by intros; simplify_eq.
Qed.

End Closed.

(** What [split] leaves, as [send_blocks] needs it. *)
Lemma split_ready fs f content m d fuel :
  read fs f = Some content -> (0 < m)%nat -> 1024 * Z.of_nat m < 2 ^ 31 ->
  tmp_ready fs d -> apart fs f d -> Z.of_nat (length (chunks (1024 * m) content)) < 2 ^ 31 ->
  (m + length (chunks (1024 * m) content) + 1 < fuel)%nat ->
  exists fs1 fs2,
    mkdir fs (d ++ $"/") = Some fs1 /\
    split fuel fs1 f (Z.of_nat m) (d ++ $"/") = Some (Split fs2) /\
    forall j b, chunks (1024 * m) content !! j = Some b ->
      block fs2 (resolve fs2 d) j = Some b /\ 0 < Z.of_nat (length b) < 2 ^ 32.
Proof.
  intros Hf Hm Hm2 HT Ha Hn Hfuel. pose proof HT as (T1 & T2 & T3).
  pose proof (tmp_ready_block_dir _ _ HT) as Hbd.
  set (W := with_dirs fs (prefixes [] (resolve fs d))) in *.
  set (S := put_parts (resolve fs d) 0 (chunks (1024 * m) content) W).
  assert (resolve S d = resolve fs d) as HS.
  { apply resolve_cwd. by destruct (put_parts_same (resolve fs d) 0 (chunks (1024 * m) content) W). }
  exists W, S. split_and!.
  - rewrite mkdir_ok; rewrite resolve_slash by done; done.
  - exact (split_spec W f content m d fuel Hf Hm ltac:(lia) Hbd Ha Hn Hfuel).
  - intros j b Hj. rewrite HS.
    pose proof (put_parts_block (resolve fs d) 0 (chunks (1024 * m) content) W j
      ltac:(by eapply lookup_lt_Some)) as Hp.
    rewrite Nat.add_0_l in Hp. unfold S. rewrite Hp. split; [done|].
    pose proof (chunks_nonempty (1024 * m) content ltac:(lia)) as Hne.
    rewrite Forall_lookup in Hne. specialize (Hne _ _ Hj). split; [destruct b; simpl; [done|lia]|].
    assert (0 < 1024 * m)%nat as Hk by lia.
    pose proof (chunks_full _ _ _ _ Hk Hj) as Hi.
    rewrite lookup_chunks in Hj by (done || lia). injection Hj as <-. rewrite length_take. lia.
Qed.

(** The number of blocks the sender computes is the number [split] makes. *)
Lemma file_num_parts m (content : bytes) :
  (0 < m)%nat -> 1024 * Z.of_nat m < 2 ^ 31 -> Z.of_nat (length content) < 2 ^ 63 ->
  file_num (Z.of_nat (length content)) (Z.of_nat m)
  = Some (Z.of_nat (length (chunks (1024 * m) content))).
Proof.
  intros Hm Hm2 Hl. unfold file_num, in_int.
  replace (negb _ || _) with false by (symmetry; lia).
  rewrite Z.quot_div_nonneg, Z.rem_mod_nonneg by lia. f_equal.
  assert (length (chunks (1024 * m) content) <= length content)%nat by (apply chunks_length_le; lia).
  pose proof (length_chunks (1024 * m) content ltac:(lia)) as E.
  replace (Z.of_nat (1024 * m)) with (Z.of_nat m * 1024) in E by lia.
  rewrite <- E. apply uwrap_small. lia.
Qed.

(** The texts of the replies to a transfer fit in their buffers. *)
Definition short_texts (cfg : config) (recv uuid toNodeId : str) : Prop :=
  forall name, last (StrUtil.split recv "/"%char) = Some name ->
    (2 * length name + length uuid + length (cfg_nodeId cfg) + length toNodeId <= 700)%nat.

(** C1. What a successful transfer means. The file is there and not empty, has less
    than 2^31 bytes and is not one of its own blocks; the size of a block is a
    positive number of KB and fits in an [int]; sender and receiver can make the
    directories for the blocks, in which no block's name is a directory
    ([tmp_ready]); the path the file is to go to is in a directory that is there, is
    not itself a directory and lies outside the receiver's blocks ([dest_ready]); and
    the names are short enough for the statements about the replies. Then, over a bus
    that loses messages and replies in any pattern and fails publications at will,
    [send_file] always returns, nothing was undefined, and when it returns true the
    receiver has, at the path the sender named, a file with exactly the bytes of the
    sender's file; also when the reply to the last block was lost, after which the
    receiver has cleared its blocks. *)
Theorem send_file_delivers fuel cfg group sdb db ruuid fs R fates fileName srcNodeId uuid toNodeId
    subDirs content m :
  let sendfile := strip fileName in
  let recv := recv_file srcNodeId toNodeId sendfile in
  let save := cfg_nodeId cfg ++ $"/" ++ strip subDirs in
  read fs sendfile = Some content -> content <> [] ->
  Z.of_nat (length content) < 2 ^ 31 ->
  fileSplitSize_ cfg = Z.of_nat m -> (0 < m)%nat -> 1024 * Z.of_nat m < 2 ^ 31 ->
  tmp_ready fs (send_dir cfg sendfile) -> apart fs sendfile (send_dir cfg sendfile) ->
  tmp_ready R (recv ++ $"_tmp") -> dest_ready R (recv ++ $"_tmp") save subDirs ->
  short_texts cfg recv uuid toNodeId ->
  (m + length content + 2 <= fuel)%nat ->
  exists r k fs' w',
    send_file (bus fuel cfg group sdb db ruuid) cfg fuel fs fileName srcNodeId uuid toNodeId subDirs
      (mkWorld R fates true) = Ret (r, k, fs', w') /\ w_defined w' = true /\
    (r = true -> read (w_fs w') (save_paths save subDirs).2 = Some content).
Proof.
  intros sendfile recv save Hf Hne Hlen Hcfg Hm Hm2 HTs Ha HTr HQ Hsh Hfuel.
  set (parts := chunks (1024 * m) content).
  assert (length parts <= length content)%nat as Hpl by (apply chunks_length_le; lia).
  destruct (split_ready fs sendfile content m (send_dir cfg sendfile) fuel Hf Hm Hm2 HTs Ha)
    as (fs1 & fs2 & E1 & E2 & Hblk); [fold parts; lia|fold parts; lia|].
  unfold send_file. fold sendfile. fold recv. fold save.
  assert (GetFileLength fs sendfile = Z.of_nat (length content)) as ->
    by (unfold GetFileLength; by rewrite Hf).
  destruct (Z.ltb_spec (Z.of_nat (length content)) 0); [lia|].
  rewrite E1, Hcfg, E2, file_num_parts by (done || lia). fold parts.
  rewrite Nat2Z.id.
  destruct (send_blocks _ _ _ _ _ _ _ _ _ _ _ _ _ _) as [[r k] w'] eqn:E.
  exists r, k, fs2, w'. split; [done|].
  eapply (send_blocks_deliver fuel cfg group sdb db ruuid uuid toNodeId recv save subDirs content parts
    ltac:(by apply concat_chunks; lia) Hne ltac:(lia) ltac:(lia) ltac:(lia) ltac:(done)
    ltac:(by destruct (cfg_nodeId cfg)) Hsh fs2 (send_dir cfg sendfile) ltac:(done) Hblk
    (length parts) 0 (mkWorld R fates true)); [lia|done| |exact E].
  split_and!; [done..|]. intros; lia.
Qed.

(** Decidable forms of the conditions, for trees with no directory but the
    root. *)
Lemma tmp_ready_dec fs d :
  d <> [] -> dirs fs = ∅ ->
  forallb (fun p => negb (bool_decide (is_Some (files fs !! p)))) (prefixes [] (resolve fs d)) = true ->
  tmp_ready fs d.
Proof.
  intros Hd He H. split_and!; [done| |].
  - intros p Hp. rewrite forallb_forall in H. apply list_elem_of_In in Hp.
    specialize (H p Hp). apply negb_true_iff, bool_decide_eq_false in H.
    by apply eq_None_not_Some.
  - intros s _. rewrite He. apply not_elem_of_empty.
Qed.

Definition two_blocks : bytes := replicate 1025 "x"%char ++ $"end".
Definition sender_fs : FileSys.t := FileSys.mk {[ [$"f"] := two_blocks ]} ∅ [].
Definition receiver_fs : FileSys.t := FileSys.mk ∅ ∅ [].

Definition demo_run : outcome (bool * nat * FileSys.t * world) :=
  send_file (bus 2000 cfg3 $"edge" None None $"u") cfg3 2000 sender_fs $"./f" $"0001" $"t" $"0002" $"g"
    (mkWorld receiver_fs [Lost; NoAck; Acked; Failed; Lost; Acked] true).

Lemma send_file_delivers_witness :
  exists k fs' w', demo_run = Ret (true, k, fs', w') /\ read (w_fs w') $"g" = Some two_blocks.
Proof.
  destruct (send_file_delivers 2000 cfg3 $"edge" None None $"u" sender_fs receiver_fs
    [Lost; NoAck; Acked; Failed; Lost; Acked] $"./f" $"0001" $"t" $"0002" $"g" two_blocks 1)
    as (r & k & fs' & w' & E & _ & H).
  - vm_compute. reflexivity.
  - discriminate.
  - vm_compute. reflexivity.
  - reflexivity.
  - lia.
  - vm_compute. reflexivity.
  - apply tmp_ready_dec; [discriminate|reflexivity|vm_compute; reflexivity].
  - intros j Hj. vm_compute in Hj. discriminate.
  - apply tmp_ready_dec; [discriminate|reflexivity|vm_compute; reflexivity].
  - split_and!; try (by_decision); try reflexivity.
    intros p Hp. vm_compute in Hp. injection Hp as <-.
    split; by_decision.
  - intros name Hn. vm_compute in Hn. injection Hn as <-. apply Nat.leb_le. vm_compute. reflexivity.
  - apply Nat.leb_le. vm_compute. reflexivity.
  - assert (match demo_run with Ret (r, _, _, _) => r | _ => false end = true) as Hr
      by (vm_compute; reflexivity).
    unfold demo_run in *. rewrite E in Hr. subst r. exists k, fs', w'. split; [exact E|].
    exact (H eq_refl).
Defined.

(** A receiver that gets the last block while an earlier one is missing
    never answers: no reply is queued, so the sender cannot learn which block
    to send again and repeats the last one until it gives up. When block 0 is
    the missing one this is because the merge's answer 0 is read as success
    and the size then disagrees. *)
Theorem missing_block_unanswered fuel cfg db ruuid R d parts :
  let p := resolve R (tmp_of d) in
  let k := length parts in
  fd_file_name d <> [] -> tmp_ready R (tmp_of d) ->
  fd_is_end d = true -> fd_block_seq d = fd_total_block_num d - 1 ->
  Z.of_nat k < fd_block_seq d -> fd_total_block_num d < 2 ^ 31 -> 0 < fd_file_total_size d ->
  (k < fuel)%nat ->
  (forall j b, parts !! j = Some b -> block R p j = Some b) -> block R p k = None ->
  (handle_file_data fuel cfg db ruuid R d).1.2 = None.
Proof.
  intros p k Hname HT Hend Hseq Hk Hnum Hsz Hfuel Hb Hnone.
  destruct (handle_data fuel cfg db ruuid d R Hname HT) as (name & _ & ->). rewrite Hend.
  assert (Hother : forall j, Z.of_nat j <> fd_block_seq d ->
            block (put_data d R) (resolve (put_data d R) (tmp_of d)) j = block R p j).
  { intros j Hj. change (resolve (put_data d R) (tmp_of d)) with p.
    unfold block, put_data. simpl. apply lookup_insert_ne. intros E.
    apply app_inj_2 in E as [_ E]; [|done]. injection E as E. apply (inj to_str) in E. lia. }
  unfold handle_end. rewrite swrap_small by lia.
  rewrite (merge_spec parts); [|by apply put_data_dir|done| |].
  - fold k. rewrite decide_False by lia. cbn [mbind option_bind].
    destruct (Z.eqb_spec (Z.of_nat k) 0) as [E|E].
    + assert (parts = []) as -> by (apply nil_length_inv; unfold k in E; lia).
      unfold move_clear_tmp. rewrite (merge_out_length _ (put_data d R)) by apply HT.
      simpl length. rewrite uwrap_small by (simpl; lia).
      destruct (Z.eqb_spec (Z.of_nat 0) (fd_file_total_size d)); [lia|]. done.
    + destruct (Z.ltb_spec 0 (Z.of_nat k)); [done|lia].
  - intros j b Hj. rewrite Hother; [by apply Hb|]. apply lookup_lt_Some in Hj. fold k in Hj. lia.
  - right. fold k. split; [lia|]. rewrite Hother by lia. done.
Qed.

Definition late_block : FileData :=
  mkFileData $"t" $"0001" $"0002" $"r/f" $"0001/g" $"g" true 1028 1 2 $"end".

Lemma missing_block_unanswered_witness :
  (handle_file_data 10 cfg3 None $"u" receiver_fs late_block).1.2 = None.
Proof.
  apply (missing_block_unanswered 10 cfg3 None $"u" receiver_fs late_block []);
    try reflexivity; try discriminate; try (vm_compute; reflexivity).
  - apply tmp_ready_dec; [discriminate|reflexivity|vm_compute; reflexivity].
  - apply Nat.ltb_lt. reflexivity.
Defined.

(** A file sent to a directory is lost and acknowledged. When the path to
    move the merged file to is a directory, as "." is, the value the sender
    takes for a missing [sub_dir], the file does not open, the merged bytes are
    dropped and the blocks removed, and the reply says that the receiver has
    the file. *)
Theorem directory_destination_loses_file fs d r tmpDir content :
  tmpDir <> [] -> is_directory fs tmpDir = true ->
  read fs (merge_out tmpDir) = Some content ->
  Z.of_nat (length content) = fd_file_total_size d ->
  fd_save_file_name d <> [] ->
  (forall p, (save_paths (fd_save_file_name d) (fd_sub_dir d)).1 = Some p -> mkdir fs p <> None) ->
  is_directory fs (save_paths (fd_save_file_name d) (fd_sub_dir d)).2 = true ->
  exists fs',
    move_clear_tmp fs (Z.of_nat (length content)) d (merge_out tmpDir) tmpDir r =
      (fs', Some (Some (set_end r 5))) /\
    (forall q b, files fs' !! q = Some b ->
       files fs !! q = Some b /\ ~ below (resolve fs tmpDir) q).
Proof.
  intros Ht Hdir Hm Hsz Hs Hmk Hdest. unfold move_clear_tmp.
  rewrite Hsz, Z.eqb_refl, bool_decide_false by done.
  destruct (save_paths _ _) as [dir pathName]. simpl in *.
  assert (exists X, match dir with Some p => mkdir fs p | None => Some fs end = Some X /\
            cwd X = cwd fs /\ files X = files fs /\ dirs fs ⊆ dirs X) as (X & -> & Hc & Hf & Hds).
  { destruct dir as [p|]; [|by exists fs].
    destruct (mkdir fs p) as [X|] eqn:E; [|by destruct (Hmk p)].
    apply mkdir_some in E as ->. eexists. split_and!; [done..|]. simpl. set_solver. }
  eexists. split; [done|].
  assert (Hr : forall s, resolve X s = resolve fs s) by (intros; by apply resolve_cwd).
  assert (Hsub : forall p, is_dirp fs p = true -> is_dirp X p = true).
  { unfold is_dirp. intros p. rewrite !orb_true_iff, !bool_decide_eq_true. set_solver. }
  unfold is_directory in *. apply Hsub in Hdir, Hdest.
  unfold move. unfold read in *. rewrite Hr, Hf, Hm, Hr.
  unfold write_file, write, writep. rewrite Hr, Hdest. cbn [orb default snd].
  intros q b Hq. unfold remove_all_files, is_directory in Hq.
  match type of Hq with context [if ?c then _ else _] => assert (c = true) as Hc' end.
  { unfold remove. rewrite Hr, Hf, Hm. rewrite bool_decide_true by by eexists.
    cbn [snd]. match goal with |- is_dirp ?Y (resolve ?Y' _) = _ =>
      rewrite (resolve_cwd Y' X) by done; rewrite (is_dirp_dirs Y X) by done end.
    by rewrite Hr. }
  rewrite Hc' in Hq. unfold remove_all in Hq. cbn [files] in Hq.
  apply map_lookup_filter_Some in Hq as [Hq Hnb].
  unfold remove in Hq, Hnb. rewrite Hr, Hf, Hm in Hq, Hnb.
  rewrite bool_decide_true in Hq, Hnb by by eexists. cbn [snd files] in Hq, Hnb.
  apply lookup_delete_Some in Hq as [_ Hq].
  split; [done|].
  match type of Hnb with ~ below (resolve ?Y _) _ => by rewrite (resolve_cwd Y fs) in Hnb end.
Qed.

Definition merged_fs : FileSys.t :=
  FileSys.mk {[ [$"r"; $"f_tmp"; $"merge.out"] := $"end" ]} {[ [$"r"]; [$"r"; $"f_tmp"] ]} [].
Definition nowhere : FileData :=
  mkFileData $"t" $"0001" $"0002" $"r/f" $"0001/." $"." true 3 0 1 $"end".

Lemma directory_destination_loses_file_witness :
  exists fs', move_clear_tmp merged_fs 3 nowhere $"r/f_tmp/merge.out" $"r/f_tmp"
                (data_reply $"u" nowhere $"f") =
    (fs', Some (Some (set_end (data_reply $"u" nowhere $"f") 5))) /\
    forall q b, files fs' !! q = Some b ->
      files merged_fs !! q = Some b /\ ~ below (resolve merged_fs $"r/f_tmp") q.
Proof.
  apply (directory_destination_loses_file merged_fs nowhere (data_reply $"u" nowhere $"f")
           $"r/f_tmp" $"end"); try reflexivity; try discriminate; try (vm_compute; reflexivity).
  intros p Hp. vm_compute in Hp. injection Hp as <-. vm_compute. discriminate.
Defined.

End TransferCorrect.
