(* ===== verification/ProcessManager.v ===== *)
(** * The process manager ([src/node/src/ProcessManager.cpp])

    The operating system is an interface, [Os]: spawning a command, whether a
    child runs, time passing while one waits, and signals. The manager is the
    vector [m_instances]. An operation whose result is [None] is undefined from
    there on: the state is the one in which it becomes so. CPU and memory usage,
    read from /proc, are in [ProcStat]. *)

From S2P Require Import Prelude StrUtil.

(** What the manager asks of the operating system. *)
Class Os (O : Type) := {
  spawn : O -> str -> str -> option (Z * O);  (* command, directory; [None] throws *)
  alive : O -> Z -> bool;                     (* [child::running] *)
  wait_for : O -> Z -> Z -> O;                (* wait for a child, at most so many seconds *)
  sigterm : O -> Z -> O;                      (* [child::terminate] *)
  sigkill : O -> Z -> O;                      (* [kill(pid, SIGKILL)] *)
}.

Module ProcessManager.
Section Manager.
Context {O : Type} `{Os O}.

(** src/node/src/ProcessManager.h:45-58, [ProcessAttribute]. [instance] is
    [None] before a child is launched; the environment is always the parent's. *)
Record ProcessAttribute := mkProc {
  except_runnig : bool;
  exception_flag : bool;
  latest_start_time : Z;
  latest_stop_time : Z;
  launch_cmd : str;
  uuid : str;
  work_path : str;
  reboot_count : Z;
  instance : option Z;
}.

Definition running (o : O) (p : ProcessAttribute) : bool :=
  match instance p with Some pid => alive o pid | None => false end.

Definition set_instance (p : ProcessAttribute) (pid : Z) : ProcessAttribute :=
  mkProc (except_runnig p) (exception_flag p) (latest_start_time p) (latest_stop_time p)
    (launch_cmd p) (uuid p) (work_path p) (reboot_count p) (Some pid).
Definition set_except (p : ProcessAttribute) (b : bool) : ProcessAttribute :=
  mkProc b (exception_flag p) (latest_start_time p) (latest_stop_time p)
    (launch_cmd p) (uuid p) (work_path p) (reboot_count p) (instance p).
Definition set_exception (p : ProcessAttribute) (b : bool) : ProcessAttribute :=
  mkProc (except_runnig p) b (latest_start_time p) (latest_stop_time p)
    (launch_cmd p) (uuid p) (work_path p) (reboot_count p) (instance p).
Definition set_start (p : ProcessAttribute) (t : Z) : ProcessAttribute :=
  mkProc (except_runnig p) (exception_flag p) t (latest_stop_time p)
    (launch_cmd p) (uuid p) (work_path p) (reboot_count p) (instance p).
Definition set_stop (p : ProcessAttribute) (t : Z) : ProcessAttribute :=
  mkProc (except_runnig p) (exception_flag p) (latest_start_time p) t
    (launch_cmd p) (uuid p) (work_path p) (reboot_count p) (instance p).
Definition rebooted (p : ProcessAttribute) : ProcessAttribute :=
  mkProc (except_runnig p) (exception_flag p) (latest_start_time p) (latest_stop_time p)
    (launch_cmd p) (uuid p) (work_path p) (uwrap 32 (reboot_count p + 1)) (instance p).

Abbreviation procs := (list ProcessAttribute).

(** src/node/src/ProcessManager.cpp:45-93, [ProcessManager::add_process]. The
    [chmod] of the file is not modelled. *)
Definition add_process (ps : procs) (id runPath runFile : str) (keepAlive : bool) : bool * procs :=
  if existsb (fun p => bool_decide (uuid p = id)) ps then (true, ps)
  else (true, ps ++ [mkProc keepAlive false 0 0 runFile id runPath 0 None]).

(** src/node/src/ProcessManager.cpp:346-387, [ProcessManager::kill_process].
    Terminate, wait 15 s, kill if it still runs, wait 5 s. *)
Definition stop_child (o : O) (p : ProcessAttribute) : O :=
  match instance p with
  | None => o
  | Some pid =>
      let o1 := wait_for (sigterm o pid) pid 15 in
      let o2 := if alive o1 pid then sigkill o1 pid else o1 in
      wait_for o2 pid 5
  end.

(** src/node/src/ProcessManager.cpp:341-406, [ProcessManager::kill_process]. The
    [erase] is inside a range-for over the same vector: with an instance found, the
    loop goes on with invalid iterators, which is undefined. By then the child
    has been stopped and the instance erased. *)
Definition kill_process (o : O) (ps : procs) (id : str) : option bool * O * procs :=
  match list_find (fun p => uuid p = id) ps with
  | None => (Some true, o, ps)
  | Some (_, p) => (None, stop_child o p, filter (fun p => uuid p <> id) ps)
  end.

(** src/node/src/ProcessManager.cpp:107-127, [ProcessManager::remove_process]. *)
Definition remove_process (o : O) (ps : procs) (id : str) : option bool * O * procs :=
  match kill_process o ps id with
  | (Some _, o', ps') => (Some true, o', filter (fun p => uuid p <> id) ps')
  | (None, o', ps') => (None, o', ps')
  end.

(** src/node/src/ProcessManager.cpp:145-158, [ProcessManager::start_all_process].
    An exception ends the loop. *)
Fixpoint start_all_process (o : O) (ps : procs) : O * procs :=
  match ps with
  | [] => (o, [])
  | p :: ps' =>
      match spawn o (launch_cmd p) (work_path p) with
      | None => (o, p :: ps')
      | Some (pid, o1) =>
          let '(o2, ps2) := start_all_process o1 ps' in (o2, set_instance p pid :: ps2)
      end
  end.

(** src/node/src/ProcessManager.cpp:176-218, [ProcessManager::start_process].
    The first instance with the id that does not run is launched; an exception
    leaves only its start time changed. *)
Fixpoint start_process (now : Z) (o : O) (ps : procs) (id : str) : bool * O * procs :=
  match ps with
  | [] => (false, o, [])
  | p :: ps' =>
      if bool_decide (uuid p = id) && negb (running o p) then
        match spawn o (launch_cmd p) (work_path p) with
        | None => (false, o, set_start p now :: ps')
        | Some (pid, o1) =>
            (true, wait_for o1 pid 10, set_except (set_instance (set_start p now) pid) true :: ps')
        end
      else let '(r, o', ps2) := start_process now o ps' id in (r, o', p :: ps2)
  end.

(** src/node/src/ProcessManager.cpp:231-274, [ProcessManager::reboot_all_process]. *)
Fixpoint reboot_all_process (o : O) (ps : procs) : bool * O * procs :=
  match ps with
  | [] => (true, o, [])
  | p :: ps' =>
      if exception_flag p then
        match spawn o (launch_cmd p) (work_path p) with
        | None => (false, o, p :: ps')
        | Some (pid, o1) =>
            let '(r, o2, ps2) := reboot_all_process (wait_for o1 pid 10) ps' in
            (r, o2, rebooted (set_exception (set_instance p pid) false) :: ps2)
        end
      else let '(r, o2, ps2) := reboot_all_process o ps' in (r, o2, p :: ps2)
  end.

(** src/node/src/ProcessManager.cpp:287-328, [ProcessManager::reboot_process]. *)
Fixpoint reboot_process (o : O) (ps : procs) (id : str) : bool * O * procs :=
  match ps with
  | [] => (true, o, [])
  | p :: ps' =>
      if bool_decide (uuid p = id) && exception_flag p then
        match spawn o (launch_cmd p) (work_path p) with
        | None => (false, o, p :: ps')
        | Some (pid, o1) =>
            let '(r, o2, ps2) := reboot_process (wait_for o1 pid 10) ps' id in
            (r, o2, rebooted (set_instance p pid) :: ps2)
        end
      else let '(r, o2, ps2) := reboot_process o ps' id in (r, o2, p :: ps2)
  end.

(** src/node/src/ProcessManager.cpp:419-481, [ProcessManager::kill_all_process]. *)
Definition kill_all_process (o : O) (ps : procs) : bool * O * procs :=
  (true, foldl stop_child o ps, []).

(** src/node/src/ProcessManager.cpp:501-524, [ProcessManager::listener]. One
    turn: instance [i] is looked at, and [exception] overwritten. *)
Definition listen_one (now : Z) (st : bool * O * procs) (i : nat) : bool * O * procs :=
  let '(_, o, ps) := st in
  match ps !! i with
  | None => st
  | Some p =>
      if negb (running o p) && except_runnig p then
        let ps1 := <[i := set_exception p true]> ps in
        let '(_, o', ps2) := start_process now o ps1 (uuid p) in
        (true, o', alter rebooted i ps2)
      else (false, o, <[i := set_stop (set_exception p false) now]> ps)
  end.

(** src/node/src/ProcessManager.cpp:494-527, [ProcessManager::listener]. *)
Definition listener (now : Z) (o : O) (ps : procs) : bool * O * procs :=
  foldl (listen_one now) (false, o, ps) (seq 0 (length ps)).

(** src/node/src/ProcessManager.cpp:540-544, [ProcessManager::ls_process]. *)
Definition ls_process (now : Z) (o : O) (ps : procs) : bool * O * procs := listener now o ps.

(** ** The manager as a transition system *)

Inductive op :=
  | Add (id runPath runFile : str) (keepAlive : bool)
  | Remove (id : str) | Start (id : str) | StartAll | Kill (id : str) | KillAll
  | Reboot (id : str) | RebootAll | Listen.

Definition apply_op (now : Z) (st : O * procs) (e : op) : option bool * O * procs :=
  let '(o, ps) := st in
  let defined (x : bool * O * procs) := let '(r, o', ps') := x in (Some r, o', ps') in
  match e with
  | Add id d f k => let '(r, ps') := add_process ps id d f k in (Some r, o, ps')
  | Remove id => remove_process o ps id
  | Start id => defined (start_process now o ps id)
  | StartAll => let '(o', ps') := start_all_process o ps in (Some true, o', ps')
  | Kill id => kill_process o ps id
  | KillAll => defined (kill_all_process o ps)
  | Reboot id => defined (reboot_process o ps id)
  | RebootAll => defined (reboot_all_process o ps)
  | Listen => defined (listener now o ps)
  end.

(** [false]: an operation has been undefined. *)
Fixpoint run_ops (now : Z) (o : O) (ps : procs) (es : list op) : bool * O * procs :=
  match es with
  | [] => (true, o, ps)
  | e :: es' =>
      match apply_op now (o, ps) e with
      | (Some _, o', ps') => run_ops now o' ps' es'
      | (None, o', ps') => (false, o', ps')
      end
  end.

Definition ids (ps : procs) : list str := uuid <$> ps.

(** ** Lemmas *)

Lemma ids_filter id ps : ids (filter (fun p => uuid p <> id) ps) = filter (fun x => x <> id) (ids ps).
Proof.
  unfold ids. induction ps as [|p ps IH]; [done|]. rewrite fmap_cons, !filter_cons.
  repeat case_decide; try done. rewrite fmap_cons. by f_equal.
Qed.

Lemma start_process_ids now o ps id : ids (start_process now o ps id).2 = ids ps.
Proof.
  induction ps as [|p ps IH]; simpl; [done|].
  destruct (_ && _); [by destruct (spawn _ _ _) as [[??]|]|].
  destruct (start_process now o ps id) as [[??]?]; simpl in *. by rewrite IH.
Qed.

Lemma start_all_ids o ps : ids (start_all_process o ps).2 = ids ps.
Proof.
  revert o. induction ps as [|p ps IH]; intros o; simpl; [done|].
  destruct (spawn _ _ _) as [[??]|]; [|done].
  specialize (IH o0). destruct (start_all_process o0 ps); simpl in *. by rewrite IH.
Qed.

Lemma reboot_ids o ps id : ids (reboot_process o ps id).2 = ids ps.
Proof.
  revert o. induction ps as [|p ps IH]; intros o; simpl; [done|].
  destruct (_ && _); [destruct (spawn _ _ _) as [[pid o1]|]; [|done]|].
  - specialize (IH (wait_for o1 pid 10)). destruct (reboot_process _ ps id) as [[??]?]; simpl in *.
    by rewrite IH.
  - specialize (IH o). destruct (reboot_process o ps id) as [[??]?]; simpl in *. by rewrite IH.
Qed.

Lemma reboot_all_ids o ps : ids (reboot_all_process o ps).2 = ids ps.
Proof.
  revert o. induction ps as [|p ps IH]; intros o; simpl; [done|].
  destruct (exception_flag p); [destruct (spawn _ _ _) as [[pid o1]|]; [|done]|].
  - specialize (IH (wait_for o1 pid 10)). destruct (reboot_all_process _ ps) as [[??]?]; simpl in *.
    by rewrite IH.
  - specialize (IH o). destruct (reboot_all_process o ps) as [[??]?]; simpl in *. by rewrite IH.
Qed.

Lemma ids_insert ps i p q : ps !! i = Some p -> uuid q = uuid p -> ids (<[i := q]> ps) = ids ps.
Proof.
  intros Hp Hq. unfold ids. rewrite list_fmap_insert, Hq.
  apply list_insert_id. by rewrite list_lookup_fmap, Hp.
Qed.

Lemma ids_alter ps i f : (forall p, uuid (f p) = uuid p) -> ids (alter f i ps) = ids ps.
Proof.
  intros Hf. unfold ids. apply list_eq. intros j.
  rewrite !list_lookup_fmap. destruct (decide (i = j)) as [->|Hne].
  - rewrite list_lookup_alter_eq. destruct (ps !! j); simpl; [by rewrite Hf|done].
  - by rewrite list_lookup_alter_ne.
Qed.

Lemma listen_one_ids now st i : ids (listen_one now st i).2 = ids st.2.
Proof.
  destruct st as [[b o] ps]. unfold listen_one. destruct (ps !! i) as [p|] eqn:E; [|done].
  destruct (_ && _).
  - pose proof (start_process_ids now o (<[i:=set_exception p true]> ps) (uuid p)) as Hs.
    destruct (start_process _ _ _ _) as [[??] ps2]. simpl in *.
    rewrite ids_alter by done. rewrite Hs. by eapply ids_insert.
  - simpl. by eapply ids_insert.
Qed.

Lemma listener_ids now o ps : ids (listener now o ps).2 = ids ps.
Proof.
  unfold listener. generalize (seq 0 (length ps)) as l. intros l.
  change ps with ((false, o, ps).2) at 2. generalize (false, o, ps) as st.
  induction l as [|i l IH]; intros st; simpl; [done|].
  rewrite IH. apply listen_one_ids.
Qed.

Lemma existsb_ids id ps : existsb (fun p => bool_decide (uuid p = id)) ps = false <-> id ∉ ids ps.
Proof.
  induction ps as [|p ps IH]; simpl; [split; [intros _; apply not_elem_of_nil|done]|].
  rewrite orb_false_iff, IH, bool_decide_eq_false, not_elem_of_cons. naive_solver.
Qed.

Lemma filter_other id ps : id ∉ ids ps -> filter (fun p => uuid p <> id) ps = ps.
Proof.
  induction ps as [|p ps IH]; intros Hn; [done|]. simpl in Hn.
  apply not_elem_of_cons in Hn as [Hne Hn]. rewrite filter_cons_True by congruence.
  by rewrite IH.
Qed.

Lemma kill_process_left o ps id :
  (kill_process o ps id).2 = filter (fun p => uuid p <> id) ps.
Proof.
  unfold kill_process. destruct (list_find _ ps) as [[i p]|] eqn:E; [done|]. simpl.
  apply list_find_None in E. symmetry. apply filter_other.
  unfold ids. intros (p & -> & Hp)%list_elem_of_fmap.
  rewrite Forall_forall in E. by apply (E p Hp).
Qed.

Lemma start_process_absent now o ps id :
  id ∉ ids ps -> start_process now o ps id = (false, o, ps).
Proof.
  induction ps as [|p ps IH]; intros Hn; [done|]. simpl in Hn.
  apply not_elem_of_cons in Hn as [Hne Hn]. simpl.
  rewrite bool_decide_false by congruence. simpl. by rewrite IH.
Qed.

Lemma start_process_snoc now o ps p id :
  uuid p <> id ->
  start_process now o (ps ++ [p]) id =
  let '(r, o', ps') := start_process now o ps id in (r, o', ps' ++ [p]).
Proof.
  intros Hp. induction ps as [|x ps IH]; simpl.
  - by rewrite bool_decide_false.
  - destruct (_ && _); [by destruct (spawn _ _ _) as [[??]|]|].
    rewrite IH. by destruct (start_process now o ps id) as [[??]?].
Qed.

Lemma start_process_skip now o ps q id :
  id ∉ ids ps ->
  start_process now o (ps ++ [q]) id =
  let '(r, o', qs) := start_process now o [q] id in (r, o', ps ++ qs).
Proof.
  intros Hn. destruct (start_process now o [q] id) as [[r o'] qs] eqn:E.
  induction ps as [|p ps IH]; [done|].
  unfold ids in Hn. simpl in Hn. apply not_elem_of_cons in Hn as [Hne Hn].
  simpl. rewrite bool_decide_false by congruence. simpl.
  by rewrite IH.
Qed.

Lemma start_process_length now o ps id : length (start_process now o ps id).2 = length ps.
Proof.
  pose proof (start_process_ids now o ps id) as E. apply (f_equal length) in E.
  unfold ids in E. by rewrite !length_fmap in E.
Qed.

Lemma listen_one_snoc now b o ps p i :
  uuid p ∉ ids ps -> (i < length ps)%nat ->
  listen_one now (b, o, ps ++ [p]) i =
  let '(b', o', ps') := listen_one now (b, o, ps) i in (b', o', ps' ++ [p]).
Proof.
  intros Hp Hi. unfold listen_one. rewrite lookup_app_l by done.
  destruct (ps !! i) as [x|] eqn:Hx; [|done].
  assert (uuid p <> uuid x) as Hne.
  { intros E. apply Hp. rewrite E. unfold ids. apply list_elem_of_fmap_2.
    by eapply list_elem_of_lookup_2. }
  rewrite !insert_app_l by done. destruct (_ && _); [|done].
  rewrite start_process_snoc by done.
  pose proof (start_process_length now o (<[i:=set_exception x true]> ps) (uuid x)) as Hl.
  destruct (start_process now o (<[i:=set_exception x true]> ps) (uuid x)) as [[r o'] ps2].
  simpl in Hl. rewrite length_insert in Hl. rewrite alter_app_l by lia. done.
Qed.

Lemma listen_one_length now st i : length (listen_one now st i).2 = length st.2.
Proof.
  pose proof (listen_one_ids now st i) as E. apply (f_equal length) in E.
  unfold ids in E. by rewrite !length_fmap in E.
Qed.

Lemma listen_fold_snoc now l b o ps p :
  uuid p ∉ ids ps -> Forall (fun i => (i < length ps)%nat) l ->
  foldl (listen_one now) (b, o, ps ++ [p]) l =
  let '(b', o', ps') := foldl (listen_one now) (b, o, ps) l in (b', o', ps' ++ [p]).
Proof.
  intros Hp Hl. revert b o ps Hp Hl. induction l as [|i l IH]; intros b o ps Hp Hl; [done|].
  apply Forall_cons in Hl as [Hi Hl]. cbn [foldl].
  rewrite listen_one_snoc by done.
  pose proof (listen_one_ids now (b, o, ps) i) as Hids.
  pose proof (listen_one_length now (b, o, ps) i) as Hlen.
  destruct (listen_one now (b, o, ps) i) as [[b1 o1] ps1]. simpl in Hids, Hlen.
  rewrite IH; [done|by rewrite Hids|]. by rewrite Hlen.
Qed.

(** The last instance under the listener, the others being done. *)
Lemma listener_snoc now o ps p :
  uuid p ∉ ids ps ->
  listener now o (ps ++ [p]) =
  let '(_, o1, ps1) := listener now o ps in
  if negb (running o1 p) && except_runnig p then
    match spawn o1 (launch_cmd p) (work_path p) with
    | Some (pid, o2) =>
        (true, wait_for o2 pid 10,
         ps1 ++ [rebooted (set_except (set_instance (set_start (set_exception p true) now) pid) true)])
    | None => (true, o1, ps1 ++ [rebooted (set_start (set_exception p true) now)])
    end
  else (false, o1, ps1 ++ [set_stop (set_exception p false) now]).
Proof.
  intros Hp. pose proof (listener_ids now o ps) as Hids. unfold listener in *.
  rewrite length_app, seq_app, foldl_app. simpl length.
  rewrite listen_fold_snoc; [|done|].
  2:{ apply Forall_seq. lia. }
  destruct (foldl (listen_one now) (false, o, ps) (seq 0 (length ps))) as [[b o1] ps1].
  simpl in Hids. pose proof (f_equal length Hids) as Hlen. unfold ids in Hlen.
  rewrite !length_fmap in Hlen. simpl. rewrite <- Hlen.
  rewrite lookup_app_r, Nat.sub_diag by done. simpl.
  destruct (negb (running o1 p) && except_runnig p) eqn:Hdown.
  - replace (<[length ps1:=set_exception p true]> (ps1 ++ [p]))
      with (ps1 ++ [set_exception p true])
      by (rewrite insert_app_r_alt, Nat.sub_diag by done; done).
    rewrite start_process_skip by (by rewrite Hids).
    cbn [start_process]. change (uuid (set_exception p true)) with (uuid p).
    change (running o1 (set_exception p true)) with (running o1 p).
    apply andb_true_iff in Hdown as [Hr He]. rewrite Hr, bool_decide_true by done. cbn [andb].
    change (launch_cmd (set_exception p true)) with (launch_cmd p).
    change (work_path (set_exception p true)) with (work_path p).
    destruct (spawn _ _ _) as [[pid o2]|]; rewrite alter_app_r_alt by done;
      by rewrite Nat.sub_diag.
  - rewrite insert_app_r_alt, Nat.sub_diag by done. done.
Qed.

Lemma add_process_ids ps id d f k :
  ids (add_process ps id d f k).2 = if decide (id ∈ ids ps) then ids ps else ids ps ++ [id].
Proof.
  unfold add_process. destruct (existsb _ ps) eqn:E.
  - apply not_false_iff_true in E. rewrite existsb_ids in E.
    case_decide; [done|tauto].
  - apply existsb_ids in E. rewrite decide_False by done. cbn [snd]. unfold ids. by rewrite fmap_app.
Qed.

Lemma kill_process_defined o ps id :
  (kill_process o ps id).1.1 = if decide (id ∈ ids ps) then None else Some true.
Proof.
  unfold kill_process, ids. destruct (list_find _ ps) as [[i p]|] eqn:E.
  - apply list_find_Some in E as (Hp & <- & _). rewrite decide_True; [done|].
    apply list_elem_of_fmap_2. by eapply list_elem_of_lookup_2.
  - apply list_find_None in E. rewrite decide_False; [done|].
    intros (p & -> & Hp)%list_elem_of_fmap. rewrite Forall_forall in E. by apply (E p Hp).
Qed.

Lemma remove_process_left o ps id :
  (remove_process o ps id).2 = filter (fun p => uuid p <> id) ps.
Proof.
  unfold remove_process. pose proof (kill_process_left o ps id) as E.
  destruct (kill_process o ps id) as [[[] o'] ps']; simpl in *; subst; [|done].
  rewrite list_filter_filter. apply list_filter_iff. tauto.
Qed.

(** What an operation does to the uuids. *)
Lemma step_ids now o ps e :
  ids (apply_op now (o, ps) e).2 =
  match e with
  | Add id _ _ _ => if decide (id ∈ ids ps) then ids ps else ids ps ++ [id]
  | Remove id | Kill id => filter (fun x => x <> id) (ids ps)
  | KillAll => []
  | _ => ids ps
  end.
Proof.
  destruct e; simpl.
  - pose proof (add_process_ids ps id runPath runFile keepAlive) as E. by destruct (add_process _ _ _ _ _).
  - by rewrite remove_process_left, ids_filter.
  - rewrite <- (start_process_ids now o ps id). by destruct (start_process now o ps id) as [[??]?].
  - rewrite <- (start_all_ids o ps). by destruct (start_all_process o ps).
  - by rewrite kill_process_left, ids_filter.
  - done.
  - rewrite <- (reboot_ids o ps id). by destruct (reboot_process o ps id) as [[??]?].
  - rewrite <- (reboot_all_ids o ps). by destruct (reboot_all_process o ps) as [[??]?].
  - rewrite <- (listener_ids now o ps). by destruct (listener now o ps) as [[??]?].
Qed.

(** The operations that are undefined. *)
Definition undefined_op (ps : procs) (e : op) : Prop :=
  match e with Remove id | Kill id => id ∈ ids ps | _ => False end.

Lemma step_undefined now o ps e : (apply_op now (o, ps) e).1.1 = None <-> undefined_op ps e.
Proof.
  destruct e; simpl.
  - by destruct (add_process _ _ _ _ _).
  - unfold remove_process. pose proof (kill_process_defined o ps id) as E.
    destruct (kill_process o ps id) as [[[] o'] ps']; simpl in *; by case_decide.
  - by destruct (start_process now o ps id) as [[??]?].
  - by destruct (start_all_process o ps).
  - rewrite kill_process_defined. by case_decide.
  - done.
  - by destruct (reboot_process o ps id) as [[??]?].
  - by destruct (reboot_all_process o ps) as [[??]?].
  - by destruct (listener now o ps) as [[??]?].
Qed.

Lemma step_unique now o ps e :
  NoDup (ids ps) -> NoDup (ids (apply_op now (o, ps) e).2).
Proof.
  intros Hnd. rewrite step_ids. destruct e; try done; try (by apply NoDup_filter); [|constructor].
  case_decide; [done|]. apply NoDup_app. split_and!; [done| |apply NoDup_singleton].
  intros x Hx ->%list_elem_of_singleton. done.
Qed.

Lemma run_ops_unique now es : forall o ps,
  NoDup (ids ps) -> NoDup (ids (run_ops now o ps es).2).
Proof.
  induction es as [|e es IH]; intros o ps Hnd; [done|].
  cbn [run_ops]. pose proof (step_unique now o ps e Hnd) as Hs.
  destruct (apply_op now (o, ps) e) as [[[] o'] ps']; [by apply IH|done].
Qed.

(** A run becomes undefined with the first operation that is. *)
Lemma run_ops_snoc now es e : forall o ps,
  run_ops now o ps (es ++ [e]) =
  match run_ops now o ps es with
  | (true, o', ps') => let '(r, o2, ps2) := apply_op now (o', ps') e in
                       (match r with Some _ => true | None => false end, o2, ps2)
  | stopped => stopped
  end.
Proof.
  induction es as [|x es IH]; intros o ps; cbn [run_ops app].
  - by destruct (apply_op now (o, ps) e) as [[[] ?] ?].
  - destruct (apply_op now (o, ps) x) as [[[] o'] ps']; [apply IH|done].
Qed.

End Manager.

(** A concrete system for the examples: children are numbered, the ones in the
    list run, "false" exits at once, and signals always work. *)
Record toy := mkToy { next_pid : Z; children : list Z }.
#[export] Instance toy_os : Os toy := {
  spawn o cmd dir :=
    if bool_decide (cmd = $"missing") then None
    else Some (next_pid o, mkToy (next_pid o + 1)
                (if bool_decide (cmd = $"false") then children o else next_pid o :: children o));
  alive o pid := bool_decide (pid ∈ children o);
  wait_for o pid secs := o;
  sigterm o pid := mkToy (next_pid o) (filter (fun q => q <> pid) (children o));
  sigkill o pid := mkToy (next_pid o) (filter (fun q => q <> pid) (children o));
}.

(** ** Properties *)


(** The answer of [listener] is about the last instance alone: whether the
    instances before it crashed and were restarted does not count. The
    instances before the last are treated as if it were not there; it is
    restarted, and [true] returned, exactly when it should run and does not. *)
Theorem listener_last {O} `{Os O} now (o : O) ps p :
  uuid p ∉ ids ps ->
  let '(_, o1, ps1) := listener now o ps in
  let down := negb (running o1 p) && except_runnig p in
  exists o2 p2,
    listener now o (ps ++ [p]) = (down, o2, ps1 ++ [p2]) /\
    exception_flag p2 = down /\
    reboot_count p2 = (if down then uwrap 32 (reboot_count p + 1) else reboot_count p).
Proof.
  intros Hp. rewrite listener_snoc by done.
  destruct (listener now o ps) as [[b o1] ps1].
  destruct (negb (running o1 p) && except_runnig p).
  - destruct (spawn _ _ _) as [[pid o2]|]; by eexists _, _.
  - by eexists _, _.
Qed.

Definition crashed : ProcessAttribute := mkProc true false 0 0 $"sleep 9" $"a" $"." 0 (Some 1).
Definition healthy : ProcessAttribute := mkProc true false 0 0 $"sleep 9" $"b" $"." 0 (Some 2).

Lemma listener_last_witness :
  exists o2 p2,
    listener 100 (mkToy 3 [2]) [crashed; healthy] =
    (false, o2, (listener 100 (mkToy 3 [2]) [crashed]).2 ++ [p2]) /\
    exception_flag p2 = false /\ reboot_count p2 = 0.
Proof.
  assert (uuid healthy ∉ ids [crashed]) as Hn
    by (by_decision).
  pose proof (listener_last 100 (mkToy 3 [2]) [crashed] healthy Hn) as H.
  vm_compute in H |- *. exact H.
Defined.

(** [keep_alive = false] does not survive a start: once [start_process] has
    launched an instance, the instance is expected to run, however it was
    added, so [listener] restarts it when it exits. *)
Theorem keep_alive_forgotten {O} `{Os O} now (o : O) ps id dir file o' ps' :
  id ∉ ids ps ->
  start_process now o (add_process ps id dir file false).2 id = (true, o', ps') ->
  exists p, last ps' = Some p /\ uuid p = id /\ except_runnig p = true /\
    (running o' p = false -> spawn o' file dir <> None ->
     (listener now o' [p]).1.1 = true /\
     exists p2, (listener now o' [p]).2 = [p2] /\ reboot_count p2 = 1 /\ instance p2 <> None).
Proof.
  intros Hn. unfold add_process.
  destruct (existsb _ ps) eqn:E.
  - apply not_false_iff_true in E. rewrite existsb_ids in E. tauto.
  - simpl. rewrite start_process_skip by done. simpl.
    rewrite bool_decide_true by done. simpl.
    destruct (spawn o file dir) as [[pid o1]|] eqn:Es; [|done].
    intros; simplify_eq. eexists. rewrite last_snoc. split_and!; [done..|].
    intros Hr Hsp. unfold listener. cbn [length seq foldl listen_one].
    cbn [lookup list_lookup]. rewrite Hr. cbn [negb andb except_runnig set_except].
    simpl. rewrite bool_decide_true by done.
    unfold running in *. simpl in *. rewrite Hr. simpl.
    destruct (spawn (wait_for o1 pid 10) file dir) as [[pid2 o2]|] eqn:Es2; [|done].
    split; [done|]. eexists. split_and!; done.
Qed.

Lemma keep_alive_forgotten_witness :
  exists p, last [mkProc true false 7 0 $"false" $"a" $"." 0 (Some 1)] = Some p /\
    uuid p = $"a" /\ except_runnig p = true /\
    (running (mkToy 2 []) p = false -> spawn (mkToy 2 []) $"false" $"." <> None ->
     (listener 7 (mkToy 2 []) [p]).1.1 = true /\
     exists p2, (listener 7 (mkToy 2 []) [p]).2 = [p2] /\ reboot_count p2 = 1 /\
       instance p2 <> None).
Proof.
  apply (keep_alive_forgotten 7 (mkToy 1 []) [] $"a" $"." $"false").
  - by_decision.
  - vm_compute. reflexivity.
Defined.

End ProcessManager.
