(* ===== verification/ProcStat.v ===== *)
(** * Figures of a running program

    [getCpuUsage] and [getMemoryUsage] of [src/node/src/ProcessManager.cpp], as
    they are compiled on Linux: both read [/proc/PID/stat], whose content is an
    argument, and so is the number of clock ticks per second. Doubles are those
    of [SpecFloat]. *)

From Stdlib Require Import SpecFloat.
From S2P Require Import Prelude Ini.
Import Ini.

Module ProcStat.

(** What the two functions come to: a double, an exception, or the value of a
    variable that was never set or has overflown. *)
Inductive usage := Usage (d : spec_float) | Throws | Undefined.

(** ** Numbers *)

Definition of_Z (z : Z) : spec_float := binary_normalize 53 1024 z 0 false.
Definition is_long (z : Z) : bool := (- 2 ^ 63 <=? z) && (z <? 2 ^ 63).

(** A sign and what follows it. *)
Definition sign (s : str) : bool * str :=
  match s with
  | c :: s' => if decide (c = "-"%char) then (true, s')
               else if decide (c = "+"%char) then (false, s') else (false, s)
  | [] => (false, [])
  end.

(** The number in base 10 at the start of [s]; [None]: there is no digit. *)
Definition number (s : str) : option Z :=
  let '(neg, s) := sign s in
  let '(n, any) := digits 10 s 0 false in
  if any then Some (if neg : bool then - n else n) else None.

(** [std::stol]; [None]: it throws [invalid_argument] or [out_of_range]. *)
Definition stol (s : str) : option Z :=
  n ← number (lskip s); if is_long n then Some n else None.

(** ** Streams *)

(** The chars up to the first space, and what follows. *)
Fixpoint word (s : str) : str * str :=
  match s with
  | c :: s' => if isspace c then ([], s) else let '(w, r) := word s' in (c :: w, r)
  | [] => ([], [])
  end.

(** [in >> value] for a string, [n] times; [None]: the stream has failed. *)
Fixpoint skip_words (n : nat) (s : str) : option str :=
  match n with
  | O => Some s
  | S n' => match word (lskip s) with
            | ([], _) => None
            | (_, r) => skip_words n' r
            end
  end.

(** What [in >> x] does to a [long]: nothing, when there are only spaces left or
    the stream has failed; otherwise it sets it, and the stream goes on from
    [rest] unless it has failed. *)
Inductive extracted := Unset | Set_ (z : Z) (rest : option str).

(** The chars after the number. *)
Fixpoint after_digits (s : str) : str :=
  match s with
  | c :: s' => match digit c with
               | Some d => if d <? 10 then after_digits s' else s
               | None => s
               end
  | [] => []
  end.

Definition extract_long (stream : option str) : extracted :=
  match lskip <$> stream with
  | None | Some [] => Unset
  | Some s =>
      match number s with
      | None => Set_ 0 None
      | Some n => if is_long n then Set_ n (Some (after_digits (sign s).2))
                  else Set_ (if n <? 0 then - 2 ^ 63 else 2 ^ 63 - 1) None
      end
  end.

(** ** The two functions *)

Section Functions.
Context (ticks_per_second : Z).

(** src/node/src/ProcessManager.cpp:566-576, [ProcessManager::getCpuUsage].
    [None]: the file cannot be opened. *)
Definition getCpuUsage (proc_stat : option str) : usage :=
  match proc_stat with
  | None => Usage (S754_zero false)
  | Some s =>
      match extract_long (skip_words 13 s) with
      | Unset => Undefined
      | Set_ utime rest =>
          match extract_long rest with
          | Unset => Undefined
          | Set_ stime _ =>
              if is_long (utime + stime)
              then Usage (SFdiv 53 1024 (of_Z (utime + stime)) (of_Z ticks_per_second))
              else Undefined
          end
      end
  end.

(** [getline(in, line)] on a stream just opened; [None]: it fails. *)
Definition first_line (s : str) : option str :=
  match s with
  | [] => None
  | _ => Some (take (default (length s) (find_first_of [newline] s)) s)
  end.

(** src/node/src/ProcessManager.cpp:598-609, [ProcessManager::getMemoryUsage]. *)
Definition getMemoryUsage (stat_file : option str) : usage :=
  match s ← stat_file; first_line s with
  | None => Usage (S754_zero false)
  | Some line =>
      match find_last_of $" " line with
      | None => Usage (S754_zero false)
      | Some pos =>
          match stol (take pos line), stol (drop (pos + 1) line) with
          | Some utime, Some stime =>
              if is_long (utime + stime)
              then Usage (SFmul 53 1024
                     (SFdiv 53 1024 (of_Z (utime + stime)) (of_Z ticks_per_second)) (of_Z 100))
              else Undefined
          | _, _ => Throws
          end
      end
  end.

End Functions.

(** ** Lemmas *)

(** A word, and a number without a sign. *)
Definition is_word (w : str) : Prop := w <> [] /\ Forall (fun c => isspace c = false) w.
Definition is_number (w : str) : Prop := is_word w /\ is_Some (stol w) /\ after_digits (sign w).2 = [].

#[export] Instance is_word_dec w : Decision (is_word w).
Proof. unfold is_word. apply _. Defined.
#[export] Instance is_number_dec w : Decision (is_number w).
Proof. unfold is_number. apply _. Defined.

Lemma space_no_digit c : isspace c = true -> digit c = None.
Proof. destruct c as [[] [] [] [] [] [] [] []]; vm_compute; congruence. Qed.

Lemma space_no_sign c : isspace c = true -> c <> "-"%char /\ c <> "+"%char.
Proof. by destruct c as [[] [] [] [] [] [] [] []]. Qed.

Lemma lskip_word w r : is_word w -> lskip (w ++ r) = w ++ r.
Proof. intros [Hne Hw]. destruct w as [|c w]; [done|]. apply Forall_cons in Hw as [Hc _]. simpl. by rewrite Hc. Qed.

Lemma lskip_space w r : is_word w -> lskip (" "%char :: w ++ r) = w ++ r.
Proof. intros Hw. change (lskip (" "%char :: w ++ r)) with (lskip (w ++ r)). by apply lskip_word. Qed.

Lemma word_app w c r :
  Forall (fun c => isspace c = false) w -> isspace c = true -> word (w ++ c :: r) = (w, c :: r).
Proof. intros Hw Hc. induction Hw as [|d w Hd Hw IH]; simpl; [by rewrite Hc|]. by rewrite Hd, IH. Qed.

Lemma digits_app base w c r acc any :
  isspace c = true -> digits base (w ++ c :: r) acc any = digits base w acc any.
Proof.
  intros Hc. revert acc any. induction w as [|d w IH]; intros acc any; simpl;
    [by rewrite (space_no_digit _ Hc)|]. destruct (digit d) as [x|]; [|done]. by destruct (x <? base).
Qed.

Lemma sign_app w c r : isspace c = true -> sign (w ++ c :: r) = ((sign w).1, (sign w).2 ++ c :: r).
Proof.
  intros [H1 H2]%space_no_sign. destruct w as [|d w]; simpl; [by rewrite !decide_False by done|].
  by repeat case_decide.
Qed.

Lemma number_app w c r : isspace c = true -> number (w ++ c :: r) = number w.
Proof.
  intros Hc. unfold number. rewrite sign_app by done. destruct (sign w) as [neg s]. simpl.
  by rewrite digits_app.
Qed.

Lemma after_digits_app w c r :
  isspace c = true -> after_digits (w ++ c :: r) = after_digits w ++ c :: r.
Proof.
  intros Hc. induction w as [|d w IH]; simpl; [by rewrite (space_no_digit _ Hc)|].
  destruct (digit d) as [x|]; [|done]. by destruct (x <? 10).
Qed.

Lemma stol_word w r : is_word w -> stol (w ++ " "%char :: r) = stol w.
Proof.
  intros Hw. unfold stol. rewrite lskip_word, number_app by done.
  by rewrite <- (app_nil_r w) at 2; rewrite lskip_word, app_nil_r by done.
Qed.

(** Words with a space before each. *)
Definition spaced (ws : list str) : str := concat (map (fun w => " "%char :: w) ws).

Lemma spaced_cons w ws : spaced (w :: ws) = " "%char :: w ++ spaced ws.
Proof. done. Qed.

(** Words from the first on, and a space after the last. *)
Lemma skip_words_spaced ws r n :
  length ws = n -> Forall is_word ws -> skip_words n (spaced ws ++ " "%char :: r) = Some (" "%char :: r).
Proof.
  intros <- Hws. induction Hws as [|w ws Hw Hws IH]; [done|]. cbn [length skip_words].
  rewrite spaced_cons. rewrite <- app_comm_cons, <- app_assoc, lskip_space by done.
  assert (exists s, spaced ws ++ " "%char :: r = " "%char :: s) as [s Hs].
  { destruct ws as [|x ws]; [by exists r|]. rewrite spaced_cons. by eexists. }
  rewrite Hs, word_app by (done || apply Hw). destruct w; [by destruct Hw|]. by rewrite <- Hs.
Qed.

Lemma extract_number w r a :
  is_number w -> stol w = Some a ->
  extract_long (Some (" "%char :: w ++ " "%char :: r)) = Set_ a (Some (" "%char :: r)).
Proof.
  intros (Hw & _ & Hd) Ha. unfold extract_long. cbn [fmap option_fmap option_map].
  rewrite lskip_space, number_app, sign_app by done. cbn [snd]. rewrite after_digits_app, Hd by done.
  unfold stol in Ha. rewrite <- (app_nil_r w) in Ha at 1. rewrite lskip_word, app_nil_r in Ha by done.
  destruct (number w) as [n|]; simpl in Ha; [|done].
  destruct (is_long n) eqn:E; simplify_eq. by destruct w; [destruct Hw|].
Qed.

Lemma skip_words_first n pid w ws r :
  is_word pid ->
  skip_words (S n) (pid ++ spaced (w :: ws) ++ r) = skip_words n (spaced (w :: ws) ++ r).
Proof.
  intros Hp. cbn [skip_words]. rewrite lskip_word by done. rewrite spaced_cons, <- app_comm_cons.
  rewrite word_app by (done || apply Hp). by destruct pid; [destruct Hp|].
Qed.

(** ** What the figures are *)

(** The cpu usage of a program is no share: it is the number of seconds of cpu
    time it has used since it started, when the numbers are the 14th and 15th
    words of the file. *)
Theorem cpu_usage_is_time ticks pid before u s rest a b :
  is_word pid -> Forall is_word before -> length before = 12%nat ->
  is_number u -> is_number s -> stol u = Some a -> stol s = Some b -> is_long (a + b) = true ->
  getCpuUsage ticks (Some (pid ++ spaced (before ++ [u; s]) ++ " "%char :: rest))
  = Usage (SFdiv 53 1024 (of_Z (a + b)) (of_Z ticks)).
Proof.
  intros Hp Hb Hlen Hu Hs Ha Hbb Hl. unfold getCpuUsage.
  assert (spaced (before ++ [u; s]) ++ " "%char :: rest
    = spaced before ++ " "%char :: u ++ " "%char :: s ++ " "%char :: rest) as ->.
  { unfold spaced. rewrite map_app, concat_app. cbn [map concat]. rewrite app_nil_r. simpl.
    by rewrite <- !app_assoc; simpl; rewrite <- !app_assoc. }
  set (r := u ++ " "%char :: s ++ " "%char :: rest).
  assert (skip_words 13 (pid ++ spaced before ++ " "%char :: r) = Some (" "%char :: r)) as ->.
  { destruct before as [|w before]; [done|]. rewrite (skip_words_first 12) by done.
    by apply skip_words_spaced. }
  unfold r. rewrite (extract_number u _ a), (extract_number s _ b) by done. by rewrite Hl.
Qed.

Lemma find_last_of_space a b : " "%char ∉ b -> find_last_of $" " (a ++ " "%char :: b) = Some (length a).
Proof.
  intros Hb. rewrite (find_last_of_app_some _ _ _ 0); [by rewrite Nat.add_0_r|].
  cbn [find_last_of]. assert (find_last_of $" " b = None) as ->; [|done].
  apply find_last_of_none, Forall_forall. intros c Hc. unfold in_set. apply bool_decide_eq_false_2.
  intros ->%list_elem_of_singleton. done.
Qed.

Lemma first_line_app l r : newline ∉ l -> l <> [] -> first_line (l ++ newline :: r) = Some l.
Proof.
  intros Hl Hne. unfold first_line.
  assert (find_first_of [newline] (l ++ newline :: r) = Some (length l)) as ->.
  { clear Hne. induction l as [|c l IH]; [done|]. apply not_elem_of_cons in Hl as [Hc Hl].
    cbn [app find_first_of length]. unfold in_set. rewrite bool_decide_eq_false_2.
    - by rewrite IH.
    - by intros ->%list_elem_of_singleton. }
  destruct l; [done|]. cbn [app default]. f_equal. apply (take_app_length (a :: l)).
Qed.

(** The memory usage of a program says nothing about its memory: whatever is
    between the first word of the file, the id of the program, and its last, the
    exit code, it is the sum of the two in units of a hundredth of a tick. *)
Theorem memory_usage_is_pid ticks pid middle code rest a b :
  is_word pid -> newline ∉ middle -> is_word code -> stol pid = Some a -> stol code = Some b ->
  is_long (a + b) = true ->
  getMemoryUsage ticks (Some (pid ++ " "%char :: middle ++ " "%char :: code ++ newline :: rest))
  = Usage (SFmul 53 1024 (SFdiv 53 1024 (of_Z (a + b)) (of_Z ticks)) (of_Z 100)).
Proof.
  intros Hp Hm Hc Ha Hb Hl. unfold getMemoryUsage. cbn [mbind option_bind].
  replace (pid ++ " "%char :: middle ++ " "%char :: code ++ newline :: rest)
    with (((pid ++ " "%char :: middle) ++ " "%char :: code) ++ newline :: rest)
    by by rewrite <- !app_assoc.
  assert (forall w c, is_word w -> isspace c = true -> c ∉ w) as Hword.
  { intros w c [_ Hw] Hs Hin. rewrite Forall_forall in Hw. by rewrite (Hw c Hin) in Hs. }
  rewrite first_line_app.
  - rewrite find_last_of_space by by apply Hword.
    rewrite take_app_length. rewrite drop_app_ge by (rewrite length_app; lia).
    replace (_ - _)%nat with 1%nat by lia. cbn [drop]. by rewrite stol_word, Ha, drop_0, Hb, Hl.
  - rewrite !elem_of_app, !elem_of_cons.
    pose proof (Hword pid newline Hp eq_refl). pose proof (Hword code newline Hc eq_refl). intuition done.
  - destruct pid; [by destruct Hp|done].
Qed.

(** A file of the system: program 1234, 300 ticks of its own and 200 in the
    system, exit code 0. *)
Definition stat_words : list str :=
  [$"(app)"; $"S"; $"1"; $"1234"; $"1234"; $"0"; $"-1"; $"4194560"; $"99"; $"0"; $"7"; $"0"].

Lemma cpu_usage_is_time_witness :
  getCpuUsage 100 (Some ($"1234" ++ spaced (stat_words ++ [$"300"; $"200"]) ++ $" 0 0 20" ))
  = Usage (SFdiv 53 1024 (of_Z (300 + 200)) (of_Z 100)).
Proof.
  apply (cpu_usage_is_time 100 $"1234" stat_words $"300" $"200" $"0 0 20");
    try reflexivity; by_decision.
Defined.

(** A space in the name of the program shifts the words: what is added up are
    the page faults of the children and the time in user mode. *)
Example name_shifts_figures :
  getCpuUsage 100 (Some ($"1234 (my app)" ++ spaced (tail stat_words ++ [$"300"; $"200"]) ++ $" 0 0 20" ))
  = Usage (of_Z 3).
Proof. vm_compute. reflexivity. Qed.

Lemma memory_usage_is_pid_witness :
  getMemoryUsage 100 (Some ($"1234" ++ $" " ++ $"(app) S 1" ++ $" " ++ $"0" ++ [newline]))
  = Usage (SFmul 53 1024 (SFdiv 53 1024 (of_Z (1234 + 0)) (of_Z 100)) (of_Z 100)).
Proof.
  apply (memory_usage_is_pid 100 $"1234" $"(app) S 1" $"0" []); try reflexivity;
    by_decision.
Defined.

End ProcStat.
