(* ===== verification/HwText.v ===== *)
(** * Text helpers of the hardware library
    ([src/node/src/include/hwinfo/utils/stringutils.h])

    Namespace [hwinfo::utils]. A function may throw, run for ever or read
    outside of its string; all of these are faults. Numbers are read as the C
    library does it. *)

From S2P Require Import Prelude Ini ProcStat.
Import Ini ProcStat.

(** Why a function of the library does not return. *)
Inductive fault := Undefined | InvalidArgument | OutOfRange | LengthError | Endless.
#[export] Instance fault_eq_dec : EqDecision fault.
Proof. solve_decision. Defined.

Definition res (A : Type) : Type := A + fault.
#[export] Instance res_ret : MRet res := fun A a => inl a.
#[export] Instance res_bind : MBind res := fun A B f m =>
  match m with inl a => f a | inr e => inr e end.

Definition fail {A} (e : fault) : res A := inr e.

(** [None] is a fault. *)
Definition get_some {A} (e : fault) (o : option A) : res A :=
  match o with Some a => inl a | None => inr e end.

(** A list of calls, in order, until one faults. *)
Fixpoint each {A B} (f : A -> res B) (l : list A) : res (list B) :=
  match l with
  | [] => mret []
  | x :: l' => y ← f x; ys ← each f l'; mret (y :: ys)
  end.

(** A loop with a state, until a turn faults. *)
Fixpoint loop {A S} (f : S -> A -> res S) (l : list A) (s : S) : res S :=
  match l with
  | [] => mret s
  | x :: l' => s' ← f s x; loop f l' s'
  end.

Lemma loop_app {A S} (f : S -> A -> res S) l l' s : loop f (l ++ l') s = (s' ← loop f l s; loop f l' s').
Proof. revert s. induction l as [|x l IH]; intros s; [done|]. simpl. destruct (f s x); simpl; [apply IH|done]. Qed.

Module HwText.

(** ** Numbers *)

(** [std::stoi], [std::stoll] and [std::stol], for [w] bits. *)
Definition sto (w : Z) (s : str) : res Z :=
  match number (lskip s) with
  | None => fail InvalidArgument
  | Some n => if (- 2 ^ (w - 1) <=? n) && (n <? 2 ^ (w - 1)) then mret n else fail OutOfRange
  end.
Definition stoi : str -> res Z := sto 32.
Definition stoll : str -> res Z := sto 64.

(** The result of signed arithmetic in [w] bits. *)
Definition fits_in (w z : Z) : res Z :=
  if (- 2 ^ (w - 1) <=? z) && (z <? 2 ^ (w - 1)) then mret z else fail Undefined.

(** ** Lines *)

(** [getline(stream, line)] on a stream just opened: the line, empty when there
    is nothing to read. *)
Definition line_of (s : str) : str := default [] (first_line s).

Lemma line_of_line l r : newline ∉ l -> l <> [] -> line_of (l ++ newline :: r) = l.
Proof. intros H1 H2. unfold line_of. by rewrite first_line_app. Qed.

(** ** Strings *)

(** src/node/src/include/hwinfo/utils/stringutils.h:24-32, [replaceOnce]. *)
Definition replaceOnce (input from to : str) : bool * str :=
  match sfind from input with
  | None => (false, input)
  | Some start_pos => (true, sreplace start_pos (length from) to input)
  end.

(** src/node/src/include/hwinfo/utils/stringutils.h:41-43, [replaceAll]. *)
Definition replaceAll (input : str) (from to : ascii) : str :=
  map (fun c => if decide (c = from) then to else c) input.

Definition tab : ascii := ascii_of_nat 9.
Definition blank (c : ascii) : bool := bool_decide (c ∈ [" "%char; tab; newline]).

(** How many blanks a string starts with; the loop ends at the zero byte
    behind the string. *)
Fixpoint leading (s : str) : nat :=
  match s with
  | c :: s' => if blank c then S (leading s') else O
  | [] => O
  end.

(** The loop down from [i]; [None]: it goes on below the string. *)
Fixpoint down_from (s : str) (i : nat) : option nat :=
  match s !! i with
  | Some c => if blank c then match i with O => None | S i' => down_from s i' end else Some i
  | None => None
  end.

(** src/node/src/include/hwinfo/utils/stringutils.h:50-84, [strip]. *)
Definition strip (input : str) : res str :=
  match input with
  | [] => mret []
  | [c] => mret (if blank c then [] else input)
  | _ =>
      let start_index := leading input in
      end_index ← get_some Undefined (down_from input (length input - 1));
      mret (if (end_index <? start_index)%nat then []
            else take (end_index + 1 - start_index) (drop start_index input))
  end.

(** src/node/src/include/hwinfo/utils/stringutils.h:92-100, [count_substring].
    [input] is what is left of the string. *)
Fixpoint count_from (fuel : nat) (input substring : str) : res Z :=
  match sfind substring input with
  | None => mret 0
  | Some i =>
      match fuel with
      | O => fail Endless
      | S fuel' => n ← count_from fuel' (drop (i + length substring) input) substring; mret (n + 1)
      end
  end.
Definition count_substring (input substring : str) : res Z := count_from (length input) input substring.

(** src/node/src/include/hwinfo/utils/stringutils.h:108-120, [split]. By a
    string. *)
Fixpoint split_from (fuel : nat) (input delimiter : str) : res (list str) :=
  match sfind delimiter input with
  | None => mret [input]
  | Some i =>
      match fuel with
      | O => fail Endless
      | S fuel' =>
          r ← split_from fuel' (drop (i + length delimiter) input) delimiter;
          mret (take i input :: r)
      end
  end.
Definition split (input delimiter : str) : res (list str) := split_from (length input) input delimiter.

(** src/node/src/include/hwinfo/utils/stringutils.h:128-140, [split]. By a char:
    what is behind the last one is left out. *)
Fixpoint split_char_from (fuel : nat) (input : str) (delimiter : ascii) : list str :=
  match fuel with
  | O => []
  | S fuel' =>
      match sfind [delimiter] input with
      | None => []
      | Some i => take i input :: split_char_from fuel' (drop (i + 1) input) delimiter
      end
  end.
Definition split_char (input : str) (delimiter : ascii) : list str :=
  split_char_from (length input) input delimiter.

(** src/node/src/include/hwinfo/utils/stringutils.h:152-170, [split_get_index].
    The loop to the segment. *)
Fixpoint seek (index : nat) (input delimiter : str) : res str :=
  match index with
  | O => mret input
  | S index' =>
      match sfind delimiter input with
      | Some i => seek index' (drop (i + length delimiter) input) delimiter
      | None => fail Undefined
      end
  end.
Definition split_get_index (input delimiter : str) (index : Z) : res str :=
  occ ← count_substring input delimiter;
  let occ := occ + 1 in
  let index := if index <? 0 then occ + index else index in
  if occ <=? index then mret []
  else if index <? 0 then fail Endless
  else
    rest ← seek (Z.to_nat index) input delimiter;
    mret (take (default (length rest) (sfind delimiter rest)) rest).

(** src/node/src/include/hwinfo/utils/stringutils.h:219-226, [starts_with]. *)
Definition starts_with (s prefix : str) : bool := prefixb prefix s.

(** ** Lemmas: numbers *)

Lemma digit_pretty d : (d < 10)%N -> digit (pretty_N_char d) = Some (Z.of_N d).
Proof.
  intros H. assert (d = 0 \/ d = 1 \/ d = 2 \/ d = 3 \/ d = 4 \/ d = 5 \/ d = 6 \/ d = 7 \/ d = 8 \/ d = 9)%N
    as Hd by lia. by repeat destruct Hd as [->|Hd]; [..|rewrite Hd].
Qed.

Lemma digits_go r x : forall s, (0 < x)%N ->
  digits 10 (list_ascii_of_string (pretty_N_go x s) ++ r) 0 false
  = digits 10 (list_ascii_of_string s ++ r) (Z.of_N x) true.
Proof.
  induction (N.lt_wf_0 x) as [x _ IH]. intros s Hx. rewrite pretty_N_go_step by lia.
  assert (x mod 10 < 10)%N as Hm by (apply N.mod_lt; lia).
  destruct (decide (x / 10 = 0)%N) as [E|E].
  - rewrite E, pretty_N_go_0. cbn [list_ascii_of_string app digits]. rewrite digit_pretty by done.
    destruct (Z.ltb_spec (Z.of_N (x mod 10)) 10); [|lia]. f_equal.
    pose proof (N.div_mod x 10). lia.
  - rewrite IH; [|by apply N.div_lt|by apply N.neq_0_lt_0]. cbn [list_ascii_of_string app digits].
    rewrite digit_pretty by done. destruct (Z.ltb_spec (Z.of_N (x mod 10)) 10); [|lia]. f_equal.
    pose proof (N.div_mod x 10). lia.
Qed.

(** A text goes on behind a number with something else. *)
Definition no_digit (r : str) : bool :=
  match r with c :: _ => match digit c with Some d => negb (d <? 10) | None => true end | [] => true end.

Lemma digits_stop r n : no_digit r = true -> digits 10 r n true = (n, true).
Proof.
  destruct r as [|c r]; [done|]. simpl. destruct (digit c) as [d|]; [|done].
  intros ->%negb_true_iff. done.
Qed.

Lemma digits_pretty n r : no_digit r = true ->
  digits 10 (list_ascii_of_string (pretty n) ++ r) 0 false = (Z.of_N n, true).
Proof.
  intros Hr. unfold pretty, pretty_N. case_decide as E; [subst n; simpl; by apply digits_stop|].
  rewrite digits_go by lia. by apply digits_stop.
Qed.

Lemma pretty_start (n : N) : exists d s, (d < 10)%N /\ list_ascii_of_string (pretty n) = pretty_N_char d :: s.
Proof.
  unfold pretty, pretty_N. case_decide; [by exists 0%N, []|].
  assert (forall x s, (0 < x)%N -> exists d s', (d < 10)%N
    /\ list_ascii_of_string (pretty_N_go x s) = pretty_N_char d :: s') as H'; [|apply H'; lia].
  intros x. induction (N.lt_wf_0 x) as [x _ IH]. intros s Hx. rewrite pretty_N_go_step by lia.
  destruct (decide (x / 10 = 0)%N) as [E|E].
  - rewrite E, pretty_N_go_0. eexists _, _. split; [|reflexivity]. apply N.mod_lt. lia.
  - apply IH; [by apply N.div_lt|by apply N.neq_0_lt_0].
Qed.

Lemma digit_plain d : (d < 10)%N ->
  pretty_N_char d <> "-"%char /\ pretty_N_char d <> "+"%char /\ isspace (pretty_N_char d) = false.
Proof.
  intros H. assert (d = 0 \/ d = 1 \/ d = 2 \/ d = 3 \/ d = 4 \/ d = 5 \/ d = 6 \/ d = 7 \/ d = 8 \/ d = 9)%N
    as Hd by lia. by repeat destruct Hd as [->|Hd]; [..|rewrite Hd].
Qed.

(** A number that was printed is read back. *)
Lemma sto_printed w z r :
  - 2 ^ (w - 1) <= z < 2 ^ (w - 1) -> no_digit r = true -> sto w (to_strz z ++ r) = inl z.
Proof.
  intros Hz Hr. assert (number (lskip (to_strz z ++ r)) = Some z) as H.
  { assert (forall n : N, sign (list_ascii_of_string (pretty n) ++ r) = (false, list_ascii_of_string (pretty n) ++ r))
      as Hs.
    { intros n. destruct (pretty_start n) as (d & s & Hd & ->). apply digit_plain in Hd as (H1 & H2 & _).
      simpl. by rewrite !decide_False. }
    destruct z as [|p|p].
    - change (to_strz 0) with (list_ascii_of_string (pretty 0%N)). simpl lskip.
      unfold number. pose proof (Hs 0%N) as H0. simpl in H0 |- *. by rewrite digits_stop.
    - change (to_strz (Z.pos p)) with (list_ascii_of_string (pretty (N.pos p))).
      assert (lskip (list_ascii_of_string (pretty (N.pos p)) ++ r) = list_ascii_of_string (pretty (N.pos p)) ++ r) as ->.
      { destruct (pretty_start (N.pos p)) as (d & s & Hd & ->). apply digit_plain in Hd as (_ & _ & H1).
        simpl. by rewrite H1. }
      unfold number. by rewrite Hs, digits_pretty.
    - change (to_strz (Z.neg p)) with ("-"%char :: list_ascii_of_string (pretty (N.pos p))).
      unfold number. simpl. by rewrite digits_pretty. }
  unfold sto. rewrite H. destruct (Z.leb_spec (- 2 ^ (w - 1)) z), (Z.ltb_spec z (2 ^ (w - 1))); try lia. done.
Qed.

Lemma to_strz_without c z : digit c = None -> c <> "-"%char -> c ∉ to_strz z.
Proof.
  intros Hc Hm. assert (forall d, (d < 10)%N -> c <> pretty_N_char d) as Hd.
  { intros d H%digit_pretty ->. by rewrite H in Hc. }
  assert (forall n : N, c ∉ list_ascii_of_string (pretty n)) as H.
  { assert (forall x s, c ∉ list_ascii_of_string s -> c ∉ list_ascii_of_string (pretty_N_go x s)) as Hgo.
    { intros x. induction (N.lt_wf_0 x) as [x _ IH]. intros s Hs.
      destruct (decide (0 < x)%N) as [Hx|Hx]; [|by replace x with 0%N by lia].
      rewrite pretty_N_go_step by done. apply IH; [by apply N.div_lt|].
      cbn [list_ascii_of_string]. rewrite not_elem_of_cons. split; [|done]. apply Hd, N.mod_lt. lia. }
    intros n. unfold pretty, pretty_N. case_decide; [|apply Hgo; apply not_elem_of_nil].
    apply not_elem_of_cons. split; [by apply (Hd 0%N)|apply not_elem_of_nil]. }
  destruct z as [|p|p]; [exact (H 0%N)|exact (H (N.pos p))|].
  change (to_strz (Z.neg p)) with ("-"%char :: list_ascii_of_string (pretty (N.pos p))).
  apply not_elem_of_cons. by split.
Qed.

Lemma to_strz_nonempty z : to_strz z <> [].
Proof.
  assert (forall n : N, list_ascii_of_string (pretty n) <> []) as H.
  { intros n. destruct (pretty_start n) as (d & s & _ & ->). done. }
  destruct z as [|p|p]; [exact (H 0%N)|exact (H (N.pos p))|done].
Qed.

(** ** Lemmas: finding *)

Lemma sfind_char c a b : c ∉ a -> sfind [c] (a ++ c :: b) = Some (length a).
Proof.
  induction a as [|d a IH]; intros Ha.
  - destruct b; simpl; by rewrite decide_True by done.
  - apply not_elem_of_cons in Ha as [Hd Ha]. simpl. rewrite decide_False by done. by rewrite IH.
Qed.

Lemma sfind_char_none c a : c ∉ a -> sfind [c] a = None.
Proof.
  induction a as [|d a IH]; intros Ha; [done|]. apply not_elem_of_cons in Ha as [Hd Ha].
  simpl. rewrite decide_False by done. by rewrite IH.
Qed.

(** No two [c] in a row. *)
Fixpoint no_pair (c : ascii) (s : str) : bool :=
  match s with
  | d :: s' => negb (bool_decide (d = c) && bool_decide (head s' = Some c)) && no_pair c s'
  | [] => true
  end.

Lemma no_pair_tail c d a : no_pair c (d :: a) = true -> no_pair c a = true.
Proof. simpl. by intros [_ H]%andb_true_iff. Qed.

Lemma prefix_pair c d a :
  no_pair c (d :: a) = true -> prefixb [c; c] (d :: a) = false.
Proof.
  intros H. destruct (prefixb [c; c] (d :: a)) eqn:E; [|done].
  apply prefixb_spec in E as [r [= -> ->]]. simpl in H. by rewrite !bool_decide_eq_true_2 in H.
Qed.

Lemma sfind_pair_none c a : no_pair c a = true -> sfind [c; c] a = None.
Proof.
  induction a as [|d a IH]; intros Ha; [done|]. cbn [sfind].
  rewrite prefix_pair by done. rewrite IH; [done|by eapply no_pair_tail].
Qed.

Lemma sfind_pair c a b : no_pair c (a ++ [c]) = true -> sfind [c; c] (a ++ c :: c :: b) = Some (length a).
Proof.
  induction a as [|d a IH]; intros Ha.
  - destruct b; simpl; by rewrite !decide_True by done.
  - cbn [app] in Ha |- *. cbn [sfind].
    assert (prefixb [c; c] (d :: a ++ c :: c :: b) = false) as ->.
    { apply prefix_pair in Ha. destruct a as [|e a]; [|exact Ha].
      cbn [app] in *. simpl in Ha |- *. by repeat case_decide. }
    rewrite IH; [done|by eapply no_pair_tail].
Qed.

(** ** Lemmas: splitting *)

Lemma drop_shorter d s i :
  d <> [] -> sfind d s = Some i -> (length (drop (i + length d) s) < length s)%nat.
Proof. intros Hd H%sfind_lt. rewrite length_drop. destruct d; [done|]. simpl in *. lia. Qed.

Lemma sfind_parts d s i : sfind d s = Some i -> s = take i s ++ d ++ drop (i + length d) s.
Proof.
  intros H. pose proof (sfind_lt _ _ _ H) as Hi. apply sfind_some in H as [[r Hr] _].
  assert (length (take i s) = i) as Ht by (rewrite length_take; lia).
  remember (take i s) as t eqn:E. clear E. subst s i. do 2 f_equal.
  rewrite app_assoc, <- length_app. by rewrite drop_app_length.
Qed.

Lemma sfind_before d s i : d <> [] -> sfind d s = Some i -> sfind d (take i s) = None.
Proof.
  intros Hd H. pose proof (sfind_lt _ _ _ H). apply sfind_some in H as [_ Hmin].
  apply sfind_none. intros a b E.
  assert (length a < i)%nat as Ha.
  { apply (f_equal length) in E. rewrite length_take, !length_app in E. destruct d; [done|]. simpl in E. lia. }
  specialize (Hmin _ Ha). rewrite <- (take_drop i s), E, <- app_assoc, drop_app_length in Hmin.
  by rewrite <- app_assoc, prefixb_app in Hmin.
Qed.

Lemma split_from_fuel d f1 : forall f2 s,
  d <> [] -> (length s <= f1)%nat -> (length s <= f2)%nat -> split_from f1 s d = split_from f2 s d.
Proof.
  induction f1 as [|f1 IH]; intros [|f2] s Hd H1 H2; simpl; [done|..];
    destruct (sfind d s) as [i|] eqn:E; try done; pose proof (drop_shorter d s i Hd E); try lia.
  by rewrite (IH f2) by (done || lia).
Qed.

Lemma cut_step d s i :
  d <> [] -> sfind d s = Some i ->
  split s d = (r ← split (drop (i + length d) s) d; mret (take i s :: r)).
Proof.
  intros Hd E. pose proof (drop_shorter d s i Hd E). unfold split at 1.
  destruct (length s) as [|n] eqn:En; [lia|]. cbn [split_from]. rewrite E.
  unfold split. by rewrite (split_from_fuel d n (length (drop (i + length d) s))) by (done || lia).
Qed.

Lemma cut_last d s : sfind d s = None -> split s d = mret [s].
Proof. intros E. unfold split. destruct (length s); simpl; by rewrite E. Qed.

(** A segment up to a delimiter, and what follows. *)
Lemma split_segment d a b :
  d <> [] -> sfind d (a ++ d ++ b) = Some (length a) ->
  split (a ++ d ++ b) d = (r ← split b d; mret (a :: r)).
Proof.
  intros Hd E. rewrite (cut_step _ _ _ Hd E), take_app_length.
  replace (drop (length a + length d) (a ++ d ++ b)) with b; [done|].
  by rewrite <- length_app, app_assoc, drop_app_length.
Qed.

(** The segments with delimiters between them. *)
Fixpoint intersperse (d : str) (l : list str) : str :=
  match l with
  | [] => []
  | [a] => a
  | a :: l' => a ++ d ++ intersperse d l'
  end.

Lemma intersperse_cons d a l : l <> [] -> intersperse d (a :: l) = a ++ d ++ intersperse d l.
Proof. by destruct l. Qed.

Lemma split_induction d (P : str -> list str -> Prop) :
  d <> [] ->
  (forall s, sfind d s = None -> P s [s]) ->
  (forall s i l, sfind d s = Some i -> split (drop (i + length d) s) d = inl l ->
     P (drop (i + length d) s) l -> P s (take i s :: l)) ->
  forall s, exists l, split s d = inl l /\ P s l.
Proof.
  intros Hd H0 HS s. induction s as [s IH] using (induction_ltof1 _ (@length ascii)).
  unfold ltof in IH. destruct (sfind d s) as [i|] eqn:E.
  - destruct (IH (drop (i + length d) s)) as (l & Hl & HP); [by apply drop_shorter|].
    exists (take i s :: l). rewrite (cut_step _ _ _ Hd E), Hl. split; [done|]. by apply HS.
  - exists [s]. rewrite cut_last by done. split; [done|]. by apply H0.
Qed.

(** ** Theorems *)

(** Splitting by a string that is not empty ends, and gives segments that do
    not contain it and make up the string again. *)
Theorem cut_segments (s d : str) :
  d <> [] ->
  exists l, split s d = inl l /\ l <> [] /\ intersperse d l = s
    /\ Forall (fun a => sfind d a = None) l.
Proof.
  intros Hd. apply (split_induction d (fun s l => l <> [] /\ intersperse d l = s
    /\ Forall (fun a => sfind d a = None) l)); [done|..].
  - intros t Ht. split_and!; [done|done|by repeat constructor].
  - intros t i l E _ (Hne & Hj & Hl). split_and!; [done| |].
    + by rewrite intersperse_cons, Hj, <- (sfind_parts _ _ _ E).
    + constructor; [by eapply sfind_before|done].
Qed.

Lemma cut_segments_witness :
  exists l, split $"a, b" $", " = inl l /\ l <> [] /\ intersperse $", " l = $"a, b"
    /\ Forall (fun a => sfind $", " a = None) l.
Proof. by apply cut_segments. Defined.

(** Splitting by a char gives the segments that end in it; what is behind the
    last one is lost. *)
Theorem split_char_loses_rest (c : ascii) (ls : list str) (rest : str) :
  Forall (fun l => c ∉ l) ls -> c ∉ rest ->
  split_char (concat (map (fun l => l ++ [c]) ls) ++ rest) c = ls.
Proof.
  intros Hls Hr. unfold split_char.
  assert (forall n, (length (concat (map (fun l => l ++ [c]) ls)) <= n)%nat ->
    split_char_from n (concat (map (fun l => l ++ [c]) ls) ++ rest) c = ls) as H;
    [|apply H; rewrite length_app; lia].
  induction Hls as [|l ls Hl Hls IH]; intros n Hn.
  - destruct n; simpl; [done|]. by rewrite sfind_char_none.
  - cbn [map concat] in *. rewrite !length_app in Hn. simpl in Hn.
    destruct n as [|n]; [lia|]. simpl. rewrite <- !app_assoc. simpl.
    rewrite sfind_char by done. rewrite take_app_length. f_equal.
    rewrite cons_middle, app_assoc, drop_app_ge by (rewrite length_app; simpl; lia).
    rewrite length_app. simpl. replace (_ - _)%nat with 0%nat by lia. rewrite drop_0. apply IH. lia.
Qed.

Lemma split_char_loses_rest_witness :
  split_char (concat (map (fun l => l ++ [newline]) [$"a"; $"b"]) ++ $"c") newline = [$"a"; $"b"].
Proof.
  apply split_char_loses_rest; [repeat constructor|]; by_decision.
Defined.

Lemma leading_app l t :
  Forall (fun c => blank c = true) l -> blank (default "x"%char (head t)) = false ->
  leading (l ++ t) = length l.
Proof.
  intros Hl Ht. induction Hl as [|c l Hc Hl IH]; simpl; [|by rewrite Hc, IH].
  destruct t as [|c t]; [done|]. simpl in *. by rewrite Ht.
Qed.

Lemma down_from_blank s i :
  (i < length s)%nat -> Forall (fun c => blank c = true) s -> down_from s i = None.
Proof.
  intros Hi Hs. rewrite Forall_lookup in Hs. revert Hi. induction i as [|i IH]; intros Hi; simpl.
  all: destruct (lookup_lt_is_Some_2 s _ Hi) as [c Hc]; rewrite Hc, (Hs _ _ Hc).
  - done.
  - apply IH. lia.
Qed.

Lemma down_from_app s r i : (i < length s)%nat -> down_from (s ++ r) i = down_from s i.
Proof.
  induction i as [|i IH]; intros Hi; simpl; rewrite lookup_app_l by done; [done|].
  rewrite IH by lia. done.
Qed.

Lemma down_from_last s c r :
  blank c = false -> Forall (fun c => blank c = true) r ->
  down_from (s ++ c :: r) (length s + length r) = Some (length s).
Proof.
  intros Hc Hr. induction r as [|d r IH] using rev_ind.
  - rewrite Nat.add_0_r. destruct (length s) eqn:E; simpl; rewrite <- E, list_lookup_middle by done;
      by rewrite Hc.
  - apply Forall_app in Hr as [Hr Hd]. apply Forall_cons in Hd as [Hd _]. rewrite length_app. simpl.
    rewrite Nat.add_1_r, Nat.add_succ_r. simpl. rewrite app_comm_cons, app_assoc.
    rewrite list_lookup_middle by (rewrite length_app; simpl; lia). rewrite Hd.
    rewrite down_from_app by (rewrite length_app; simpl; lia). by apply IH.
Qed.

(** Stripping takes away the blanks at both ends; but a string of two or more
    blanks and nothing else is read below its start. *)
Theorem strip_spec (l t r : str) :
  Forall (fun c => blank c = true) l -> Forall (fun c => blank c = true) r ->
  blank (default " "%char (head t)) = false -> blank (default " "%char (last t)) = false ->
  strip (l ++ t ++ r) = inl t.
Proof.
  intros Hl Hr Hh Ht. destruct (last t) as [c|] eqn:E; [|done]. simpl in Ht.
  apply last_Some in E as [t' ->]. destruct (decide (length (l ++ (t' ++ [c]) ++ r) = 1%nat)) as [H1|H1].
  - rewrite !length_app in H1. simpl in H1.
    destruct l, t', r; simpl in H1; try lia. simpl. by rewrite Ht.
  - unfold strip. destruct (l ++ (t' ++ [c]) ++ r) as [|x [|y s]] eqn:Es.
    { by destruct l, t'. } { done. }
    rewrite <- Es. clear H1 x y s Es. rewrite leading_app; [|done|].
    2: { destruct t'; simpl in *; [done|]. done. }
    rewrite <- app_assoc. simpl. rewrite (app_assoc l t').
    replace (length ((l ++ t') ++ c :: r) - 1)%nat with (length (l ++ t') + length r)%nat
      by (rewrite !length_app; simpl; lia).
    rewrite down_from_last by done. simpl.
    destruct (Nat.ltb_spec (length (l ++ t')) (length l)) as [Hlt|_]; [rewrite length_app in Hlt; lia|].
    rewrite <- app_assoc, drop_app_length, cons_middle, app_assoc.
    rewrite take_app_le by (rewrite !length_app; simpl; lia).
    rewrite take_ge; [done|rewrite !length_app; simpl; lia].
Qed.

Lemma strip_spec_witness : strip ([tab] ++ $"a b" ++ $" ") = inl $"a b".
Proof. apply strip_spec; [repeat constructor..|reflexivity|reflexivity]. Defined.

Theorem strip_blank (s : str) :
  (2 <= length s)%nat -> Forall (fun c => blank c = true) s -> strip s = inr Undefined.
Proof.
  intros Hn Hs. destruct s as [|x [|y s]]; simpl in Hn; [lia..|]. unfold strip.
  rewrite down_from_blank; [done|simpl; lia|done].
Qed.

Lemma strip_blank_witness : strip $"  " = inr Undefined.
Proof. apply strip_blank; [simpl; lia|repeat constructor]. Defined.

(** ** Counting, and one segment *)

Lemma count_from_split f1 : forall f2 s d l,
  d <> [] -> split_from f1 s d = inl l -> (length s <= f2)%nat ->
  count_from f2 s d = inl (Z.of_nat (length l) - 1).
Proof.
  induction f1 as [|f1 IH]; intros f2 s d l Hd Hl Hf; simpl in Hl.
  - destruct (sfind d s) eqn:E; [done|]. injection Hl as <-. by destruct f2; simpl; rewrite E.
  - destruct (sfind d s) as [i|] eqn:E; [|injection Hl as <-; by destruct f2; simpl; rewrite E].
    destruct (split_from f1 _ d) as [l'|] eqn:El; [|done]. injection Hl as <-.
    pose proof (drop_shorter d s i Hd E). destruct f2; [lia|]. simpl. rewrite E.
    rewrite (IH _ _ _ _ Hd El) by lia. simpl. f_equal. lia.
Qed.

Lemma seek_split f1 : forall s d l k a,
  split_from f1 s d = inl l -> l !! k = Some a ->
  exists t, seek k s d = inl t /\ take (default (length t) (sfind d t)) t = a.
Proof.
  induction f1 as [|f1 IH]; intros s d l k a Hl Hk; simpl in Hl.
  - destruct (sfind d s) eqn:E; [done|]. injection Hl as <-. destruct k; [|done]. injection Hk as <-.
    exists s. rewrite E. simpl. by rewrite take_ge.
  - destruct (sfind d s) as [i|] eqn:E.
    + destruct (split_from f1 _ d) as [l'|] eqn:El; [|done]. injection Hl as <-.
      destruct k as [|k]; simpl in Hk; [injection Hk as <-; exists s; by rewrite E|].
      simpl. rewrite E. by eapply IH.
    + injection Hl as <-. destruct k; [|done]. injection Hk as <-.
      exists s. rewrite E. simpl. by rewrite take_ge.
Qed.

(** The segment at an index is that of the list of segments; a negative index
    counts from the end, an index that is too large gives the empty string. *)
Theorem split_get_index_spec (s d : str) (l : list str) (index : Z) :
  d <> [] -> split s d = inl l -> - Z.of_nat (length l) <= index ->
  split_get_index s d index
  = inl (default [] (l !! Z.to_nat (if index <? 0 then Z.of_nat (length l) + index else index))).
Proof.
  intros Hd Hl Hi. unfold split_get_index, count_substring.
  rewrite (count_from_split _ _ _ _ _ Hd Hl) by done. simpl.
  replace (Z.of_nat (length l) - 1 + 1) with (Z.of_nat (length l)) by lia.
  set (k := if index <? 0 then _ else _). assert (0 <= k) as Hk by (subst k; destruct (Z.ltb_spec index 0); lia).
  destruct (Z.leb_spec (Z.of_nat (length l)) k).
  - rewrite lookup_ge_None_2 by lia. done.
  - destruct (Z.ltb_spec k 0); [lia|].
    destruct (lookup_lt_is_Some_2 l (Z.to_nat k)) as [a Ha]; [lia|]. rewrite Ha.
    destruct (seek_split _ _ _ _ _ _ Hl Ha) as (t & -> & Ht). simpl. by rewrite Ht.
Qed.

Lemma split_get_index_spec_witness : split_get_index $"a,b,c" $"," (-1) = inl $"c".
Proof. apply (split_get_index_spec $"a,b,c" $"," [$"a"; $"b"; $"c"]); [done|reflexivity|simpl; lia]. Defined.

End HwText.
