(* ===== verification/HwPci.v ===== *)
(** * The data base of PCI devices ([src/node/src/hwinfo/PCIMapper.cpp])

    The text of the data base is compiled in; vendors, devices and subsystems
    are lines with no, one and two tabs, an id and a name with two spaces
    between them. The parser keeps pointers to the vendor and the device it
    read last; a pointer is the key of what it points to. *)

From S2P Require Import Prelude Ini StrUtil HwText.
Import Ini HwText.

Module HwPci.

(** src/node/src/include/hwinfo/utils/PCIMapper.h:19-25, [PCIDevice]. *)
Record PCIDevice := mkDevice { device_id : str; device_name : str; subsystems : gmap str str }.

(** src/node/src/include/hwinfo/utils/PCIMapper.h:27-38, [PCIVendor]. *)
Record PCIVendor := mkVendor { vendor_id : str; vendor_name : str; devices : gmap str PCIDevice }.

Definition _invalid_device : PCIDevice := mkDevice $"0000" $"invalid" ∅.
Definition _invalid_vendor : PCIVendor := mkVendor $"0000" $"invalid" ∅.

(** [map.insert]: a key that is there keeps its value. *)
Definition insert_new {A} (k : str) (v : A) (m : gmap str A) : gmap str A :=
  match m !! k with Some _ => m | None => <[k := v]> m end.

(** An id without the prefix 0x. *)
Definition without_0x (id : str) : str := if starts_with id $"0x" then drop 2 id else id.

(** src/node/src/hwinfo/PCIMapper.cpp:28-35, [PCIVendor::operator[]]. *)
Definition device_from_id (v : PCIVendor) (device_id : str) : PCIDevice :=
  default _invalid_device (devices v !! without_0x device_id).

(** src/node/src/hwinfo/PCIMapper.cpp:85-92, [PCIMapper::vendor_from_id]. *)
Definition vendor_from_id (vendors : gmap str PCIVendor) (vendor_id : str) : PCIVendor :=
  default _invalid_vendor (vendors !! without_0x vendor_id).

(** ** The parser *)

Record parser := mkParser {
  _vendors : gmap str PCIVendor;
  current_vendor : option str;
  current_device : option (str * str);
}.

Definition add_device (d : PCIDevice) (v : PCIVendor) : PCIVendor :=
  mkVendor (vendor_id v) (vendor_name v) (insert_new (device_id d) d (devices v)).

Definition add_subsystem (k n : str) (d : PCIDevice) : PCIDevice :=
  mkDevice (device_id d) (device_name d) (insert_new k n (subsystems d)).

Definition alter_device (f : PCIDevice -> PCIDevice) (id : str) (v : PCIVendor) : PCIVendor :=
  mkVendor (vendor_id v) (vendor_name v) (alter f id (devices v)).

Definition two_tabs : str := [tab; tab].

(** src/node/src/hwinfo/PCIMapper.cpp:43-80, [PCIMapper::PCIMapper]. A turn of
    the loop, for a line. *)
Definition parse_line (p : parser) (line : str) : res parser :=
  if starts_with line $"#" || starts_with line [newline] || bool_decide (line = []) then mret p
  else if starts_with line two_tabs then
    line ← strip line;
    split_line ← split line $"  ";
    mret match split_line, current_device p with
         | [k; n], Some (v, d) =>
             mkParser (alter (alter_device (add_subsystem k n) d) v (_vendors p))
               (current_vendor p) (current_device p)
         | _, _ => p
         end
  else if starts_with line [tab] then
    line ← strip line;
    split_line ← split line $"  ";
    mret match split_line, current_vendor p with
         | [k; n], Some v =>
             mkParser (alter (add_device (mkDevice k n ∅)) v (_vendors p))
               (current_vendor p) (Some (v, k))
         | _, _ => p
         end
  else
    line ← strip line;
    split_line ← split line $"  ";
    mret match split_line with
         | [k; n] => mkParser (insert_new k (mkVendor k n ∅) (_vendors p)) (Some k) (current_device p)
         | _ => p
         end.

(** src/node/src/hwinfo/PCIMapper.cpp:38-82, [PCIMapper::PCIMapper]. *)
Definition PCIMapper (pci_ids : str) : res (gmap str PCIVendor) :=
  p ← loop parse_line (StrUtil.split pci_ids newline) (mkParser ∅ None None);
  mret (_vendors p).

(** src/node/src/hwinfo/PCIMapper.cpp:98-116, [PCI::getMapper]. [HOME] is read,
    and not used; a string is made of the null pointer when it is not set. *)
Definition getMapper (home : option str) (pci_ids : str) : res (gmap str PCIVendor) :=
  match home with
  | None => fail Undefined
  | Some _ => PCIMapper pci_ids
  end.

(** ** A data base and its text *)

Record device_entry := mkDeviceEntry { de_id : str; de_name : str; de_subs : list (str * str) }.
Record vendor_entry := mkVendorEntry { ve_id : str; ve_name : str; ve_devices : list device_entry }.

Definition entry_text (k n : str) : str := k ++ $"  " ++ n.
Definition device_lines (e : device_entry) : list str :=
  (tab :: entry_text (de_id e) (de_name e))
  :: map (fun kn => tab :: tab :: entry_text kn.1 kn.2) (de_subs e).
Definition vendor_lines (e : vendor_entry) : list str :=
  entry_text (ve_id e) (ve_name e) :: concat (map device_lines (ve_devices e)).
Definition database_text (db : list vendor_entry) : str :=
  StrUtil.unsplit newline (concat (map vendor_lines db)).

(** A text that can be an id or a name. *)
Definition clean (s : str) : Prop :=
  newline ∉ s /\ no_pair " "%char s = true
  /\ blank (default " "%char (head s)) = false /\ blank (default " "%char (last s)) = false.
#[export] Instance clean_dec s : Decision (clean s).
Proof. unfold clean. apply _. Defined.

Definition device_ok (e : device_entry) : Prop :=
  clean (de_id e) /\ clean (de_name e) /\ Forall (fun kn => clean kn.1 /\ clean kn.2) (de_subs e).
Definition vendor_ok (e : vendor_entry) : Prop :=
  clean (ve_id e) /\ starts_with (ve_id e) $"#" = false /\ clean (ve_name e)
  /\ Forall device_ok (ve_devices e) /\ NoDup (map de_id (ve_devices e)).
Definition database_ok (db : list vendor_entry) : Prop :=
  Forall vendor_ok db /\ NoDup (map ve_id db).
#[export] Instance device_ok_dec e : Decision (device_ok e).
Proof. unfold device_ok. apply _. Defined.
#[export] Instance vendor_ok_dec e : Decision (vendor_ok e).
Proof. unfold vendor_ok. apply _. Defined.
#[export] Instance database_ok_dec db : Decision (database_ok db).
Proof. unfold database_ok. apply _. Defined.

(** What the entries stand for. *)
Definition device_of (e : device_entry) : PCIDevice :=
  mkDevice (de_id e) (de_name e) (list_to_map (de_subs e)).
Definition vendor_of (e : vendor_entry) : PCIVendor :=
  mkVendor (ve_id e) (ve_name e)
    (list_to_map (map (fun d => (de_id d, device_of d)) (ve_devices e))).
Definition database_of (db : list vendor_entry) : gmap str PCIVendor :=
  list_to_map (map (fun v => (ve_id v, vendor_of v)) db).

(** ** Lemmas *)

Lemma clean_last k : clean k -> no_pair " "%char (k ++ $" ") = true.
Proof.
  intros (_ & Hp & _ & Hl). induction k as [|c k IH]; [done|].
  cbn [app no_pair] in *. apply andb_true_iff in Hp as [Hc Hp]. apply andb_true_iff. split.
  - destruct k as [|d k]; [|exact Hc]. simpl. destruct (decide (c = " "%char)) as [->|]; [done|].
    by rewrite bool_decide_eq_false_2.
  - destruct k; [done|]. by apply IH.
Qed.

Lemma clean_nonempty k : clean k -> k <> [].
Proof. by intros (_ & _ & H & _) ->. Qed.

Lemma split_entry k n : clean k -> clean n -> split (entry_text k n) $"  " = inl [k; n].
Proof.
  intros Hk Hn. unfold entry_text. rewrite split_segment; [|done|].
  - rewrite cut_last; [done|]. by apply (sfind_pair_none " "%char), Hn.
  - by apply (sfind_pair " "%char), clean_last.
Qed.

Lemma strip_entry l k n :
  Forall (fun c => blank c = true) l -> clean k -> clean n -> strip (l ++ entry_text k n) = inl (entry_text k n).
Proof.
  intros Hl Hk Hn. rewrite <- (app_nil_r (entry_text k n)) at 1. apply strip_spec; [done|done|..].
  - pose proof (clean_nonempty _ Hk). destruct Hk as (_ & _ & Hh & _). by destruct k.
  - pose proof (clean_nonempty _ Hn). destruct Hn as (_ & _ & _ & Ht). unfold entry_text.
    rewrite !last_app. by destruct (last n).
Qed.

Lemma entry_start k n : clean k -> exists c s, entry_text k n = c :: s /\ k = c :: tail k /\ blank c = false.
Proof.
  intros Hk. pose proof (clean_nonempty _ Hk). destruct Hk as (_ & _ & Hh & _).
  destruct k as [|c k]; [done|]. by exists c, (k ++ $"  " ++ n).
Qed.

Lemma parse_vendor_line p k n :
  clean k -> clean n -> starts_with k $"#" = false ->
  parse_line p (entry_text k n)
  = inl (mkParser (insert_new k (mkVendor k n ∅) (_vendors p)) (Some k) (current_device p)).
Proof.
  intros Hk Hn Hh. destruct (entry_start k n Hk) as (c & s & E & Ek & Hc).
  assert (starts_with (entry_text k n) $"#" = false) as H1.
  { rewrite E. rewrite Ek in Hh. unfold starts_with in *. simpl in *. by case_decide. }
  assert (forall d r, blank d = true -> starts_with (entry_text k n) (d :: r) = false) as H2.
  { intros d r Hd. rewrite E. unfold starts_with. simpl. case_decide; [by subst; rewrite Hd in Hc|done]. }
  assert (bool_decide (entry_text k n = []) = false) as H3 by (apply bool_decide_eq_false; by rewrite E).
  unfold parse_line, two_tabs. rewrite H1, H3, !H2 by done. cbn [orb].
  pose proof (strip_entry [] k n (Forall_nil_2 _) Hk Hn) as Hs. cbn [app] in Hs. rewrite Hs. cbv [mbind res_bind].
  by rewrite split_entry.
Qed.

Lemma parse_device_line vs v cd k n :
  clean k -> clean n ->
  parse_line (mkParser vs (Some v) cd) (tab :: entry_text k n)
  = inl (mkParser (alter (add_device (mkDevice k n ∅)) v vs) (Some v) (Some (v, k))).
Proof.
  intros Hk Hn. destruct (entry_start k n Hk) as (c & s & E & Ek & Hc).
  unfold parse_line, two_tabs.
  assert (starts_with (tab :: entry_text k n) [tab; tab] = false) as ->.
  { rewrite E. unfold starts_with. simpl. rewrite decide_False; [done|]. by intros <-. }
  change (tab :: entry_text k n) with ([tab] ++ entry_text k n).
  rewrite strip_entry by first [done|by repeat constructor]. cbv [mbind res_bind]. by rewrite split_entry.
Qed.

Lemma parse_subsystem_line vs cv v d k n :
  clean k -> clean n ->
  parse_line (mkParser vs cv (Some (v, d))) (tab :: tab :: entry_text k n)
  = inl (mkParser (alter (alter_device (add_subsystem k n) d) v vs) cv (Some (v, d))).
Proof.
  intros Hk Hn. unfold parse_line, two_tabs.
  change (tab :: tab :: entry_text k n) with ([tab; tab] ++ entry_text k n).
  rewrite strip_entry by first [done|by repeat constructor]. cbv [mbind res_bind]. by rewrite split_entry.
Qed.

(** Inserting one after another gives the map of the list. *)
Lemma insert_new_map {A} (l : list (str * A)) k x :
  insert_new k x (list_to_map l) = list_to_map (l ++ [(k, x)]).
Proof.
  unfold insert_new. destruct (list_to_map l !! k) as [y|] eqn:E.
  - symmetry. induction l as [|[k' y'] l IH]; [done|]. cbn [app list_to_map foldr] in *. simpl in *.
    destruct (decide (k' = k)) as [->|Hne].
    + clear IH E. induction l as [|[k2 y2] l IH]; simpl.
      * by rewrite insert_insert_eq.
      * destruct (decide (k2 = k)) as [->|]; [by rewrite !insert_insert_eq|].
        rewrite insert_insert_ne, IH by done. by rewrite insert_insert_ne.
    + rewrite lookup_insert_ne in E by done. by rewrite IH.
  - symmetry. apply list_to_map_snoc. by apply not_elem_of_list_to_map.
Qed.

Lemma alter_found {A} (f : A -> A) (m : gmap str A) k x : m !! k = Some x -> alter f k m = <[k := f x]> m.
Proof.
  intros H. apply map_eq. intros i. destruct (decide (k = i)) as [<-|Hne].
  - by rewrite lookup_alter_eq, H, lookup_insert_eq.
  - by rewrite lookup_alter_ne, lookup_insert_ne.
Qed.

Definition with_devices (V : PCIVendor) (ds : gmap str PCIDevice) : PCIVendor :=
  mkVendor (vendor_id V) (vendor_name V) ds.

Lemma alter_vendor (f : PCIVendor -> PCIVendor) (vs : gmap str PCIVendor) (v : str) V ds :
  alter f v (<[v := with_devices V ds]> vs) = <[v := f (with_devices V ds)]> vs.
Proof. rewrite (alter_found f _ v (with_devices V ds)); [by rewrite insert_insert_eq|by rewrite lookup_insert_eq]. Qed.

(** The subsystems of a device are added to it one by one. *)
Lemma parse_subsystems vs cv v V ds d n subs : forall done,
  Forall (fun kn => clean kn.1 /\ clean kn.2) subs ->
  loop parse_line (map (fun kn => tab :: tab :: entry_text kn.1 kn.2) subs)
    (mkParser (<[v := with_devices V (<[d := mkDevice d n (list_to_map done)]> ds)]> vs) cv (Some (v, d)))
  = inl (mkParser (<[v := with_devices V (<[d := mkDevice d n (list_to_map (done ++ subs))]> ds)]> vs)
      cv (Some (v, d))).
Proof.
  induction subs as [|[k x] subs IH]; intros done Hs; [by rewrite app_nil_r|].
  apply Forall_cons in Hs as [[Hk Hx] Hs]. cbn [map loop fst snd] in *.
  rewrite parse_subsystem_line by done. cbv [mbind res_bind]. rewrite alter_vendor. unfold alter_device.
  cbn [devices with_devices vendor_id vendor_name].
  rewrite (alter_found _ _ d (mkDevice d n (list_to_map done))) by by rewrite lookup_insert_eq.
  rewrite insert_insert_eq. unfold add_subsystem. cbn [device_id device_name subsystems].
  rewrite insert_new_map.
  change (mkVendor (vendor_id V) (vendor_name V) ?x) with (with_devices V x).
  by rewrite IH, <- app_assoc.
Qed.

Definition keyed (e : device_entry) : str * PCIDevice := (de_id e, device_of e).

Lemma keyed_fst l : (map keyed l).*1 = map de_id l.
Proof. induction l as [|e l IH]; [done|]. cbn [map]. rewrite fmap_cons. by rewrite IH. Qed.

Lemma insert_new_fresh {A} k (x : A) m : m !! k = None -> insert_new k x m = <[k := x]> m.
Proof. unfold insert_new. by intros ->. Qed.

Lemma parse_device vs v V cd e l :
  device_ok e -> de_id e ∉ map de_id l ->
  loop parse_line (device_lines e)
    (mkParser (<[v := with_devices V (list_to_map (map keyed l))]> vs) (Some v) cd)
  = inl (mkParser (<[v := with_devices V (list_to_map (map keyed (l ++ [e])))]> vs) (Some v) (Some (v, de_id e))).
Proof.
  intros (Hk & Hn & Hs) Hnew. rewrite <- keyed_fst in Hnew. unfold device_lines. cbn [loop].
  rewrite parse_device_line by done. cbv [mbind res_bind]. rewrite alter_vendor. unfold add_device.
  cbn [devices with_devices vendor_id vendor_name device_id].
  rewrite insert_new_fresh by by apply not_elem_of_list_to_map.
  change (mkVendor (vendor_id V) (vendor_name V) ?x) with (with_devices V x).
  rewrite (parse_subsystems vs (Some v) v V _ (de_id e) (de_name e) (de_subs e) []) by done.
  rewrite map_app. cbn [map]. change (keyed e) with (de_id e, device_of e). by rewrite list_to_map_snoc.
Qed.

Lemma parse_devices vs v V l : forall seen cd,
  Forall device_ok l -> NoDup (map de_id (seen ++ l)) ->
  exists cd', loop parse_line (concat (map device_lines l))
    (mkParser (<[v := with_devices V (list_to_map (map keyed seen))]> vs) (Some v) cd)
  = inl (mkParser (<[v := with_devices V (list_to_map (map keyed (seen ++ l)))]> vs) (Some v) cd').
Proof.
  induction l as [|e l IH]; intros seen cd Hl Hd; [exists cd; by rewrite app_nil_r|].
  apply Forall_cons in Hl as [He Hl]. cbn [map concat]. rewrite loop_app, parse_device; [|done|].
  - cbv [mbind res_bind]. rewrite (cons_middle e seen l), (app_assoc seen [e] l) in Hd |- *. by apply IH.
  - rewrite map_app in Hd. apply NoDup_app in Hd as (_ & Hd & _). intros H. apply (Hd _ H). by left.
Qed.

Definition vkeyed (e : vendor_entry) : str * PCIVendor := (ve_id e, vendor_of e).

Lemma vkeyed_fst l : (map vkeyed l).*1 = map ve_id l.
Proof. induction l as [|e l IH]; [done|]. cbn [map]. rewrite fmap_cons. by rewrite IH. Qed.

Lemma parse_vendors l : forall seen cv cd,
  Forall vendor_ok l -> NoDup (map ve_id (seen ++ l)) ->
  exists cv' cd', loop parse_line (concat (map vendor_lines l))
    (mkParser (list_to_map (map vkeyed seen)) cv cd)
  = inl (mkParser (list_to_map (map vkeyed (seen ++ l))) cv' cd').
Proof.
  induction l as [|e l IH]; intros seen cv cd Hl Hd; [exists cv, cd; by rewrite app_nil_r|].
  apply Forall_cons in Hl as [(Hk & Hh & Hn & Hds & Hdd) Hl].
  assert (ve_id e ∉ (map vkeyed seen).*1) as Hnew.
  { rewrite vkeyed_fst. rewrite map_app in Hd. apply NoDup_app in Hd as (_ & Hd & _).
    intros H. apply (Hd _ H). by left. }
  cbn [map concat]. rewrite loop_app.
  change (vendor_lines e) with (entry_text (ve_id e) (ve_name e) :: concat (map device_lines (ve_devices e))).
  cbn [loop].
  rewrite parse_vendor_line by done. cbv [mbind res_bind]. cbn [_vendors current_device].
  rewrite insert_new_fresh by by apply not_elem_of_list_to_map.
  destruct (parse_devices (list_to_map (map vkeyed seen)) (ve_id e) (mkVendor (ve_id e) (ve_name e) ∅)
    (ve_devices e) [] cd Hds Hdd) as [cd' Hp].
  unfold with_devices in Hp. cbn [map list_to_map foldr vendor_id vendor_name app] in Hp. rewrite Hp.
  change (mkVendor (ve_id e) (ve_name e) (list_to_map (map keyed (ve_devices e)))) with (vendor_of e).
  rewrite <- list_to_map_snoc by done.
  change (map vkeyed seen ++ [(ve_id e, vendor_of e)]) with (map vkeyed seen ++ map vkeyed [e]).
  rewrite <- map_app. rewrite (cons_middle e seen l), (app_assoc seen [e] l) in Hd |- *. by apply IH.
Qed.

(** No line of a text of the data base has a newline in it. *)
Lemma lines_whole db : Forall vendor_ok db -> Forall (fun l => newline ∉ l) (concat (map vendor_lines db)).
Proof.
  intros H. apply Forall_concat, Forall_map. eapply Forall_impl; [exact H|].
  intros v (Hk & _ & Hn & Hd & _). clear H.
  assert (forall k n, clean k -> clean n -> newline ∉ entry_text k n) as He.
  { intros k n (Hk' & _) (Hn' & _). unfold entry_text. rewrite !elem_of_app.
    intros [?|[H|?]]; [done| |done]. apply elem_of_cons in H as [?|H]; [done|].
    apply list_elem_of_singleton in H. done. }
  constructor; [by apply He|]. apply Forall_concat, Forall_map. eapply Forall_impl; [exact Hd|].
  intros d (Hdk & Hdn & Hs). constructor; [rewrite not_elem_of_cons; split; [done|by apply He]|].
  apply Forall_map. eapply Forall_impl; [exact Hs|]. intros [k n] [Hk' Hn']. simpl in *.
  rewrite !not_elem_of_cons. split_and!; [done|done|by apply He].
Qed.

Lemma database_parsed db : database_ok db -> PCIMapper (database_text db) = inl (database_of db).
Proof.
  intros [Hdb Hd]. unfold PCIMapper, database_text.
  rewrite StrUtil.split_unsplit_segments by by apply lines_whole.
  destruct (parse_vendors db [] None None Hdb Hd) as (cv & cd & Hp).
  cbn [map list_to_map foldr app] in Hp. by rewrite Hp.
Qed.

(** ** Theorems *)

(** C37. The parser reads back what a data base is written as: its vendors and
    their devices and subsystems, under their ids and with their names. No id and
    no name is empty, has a newline, two spaces in a row, or a blank as its first or
    last char; no id of a vendor begins with [#]; no two vendors have the same id,
    and no two devices of one. Not every line of the data base that is compiled in
    is so: of one with two spaces in its name see [subsystems_misfiled]. *)
Theorem database_roundtrip (db : list vendor_entry) :
  database_ok db -> PCIMapper (database_text db) = inl (database_of db).
Proof. apply database_parsed. Qed.

(** An excerpt of the data base. *)
Definition ilo : device_entry :=
  mkDeviceEntry $"b203" $"Integrated Lights Out Controller" [($"103c 3305", $"iLO2")].
Definition compaq : vendor_entry := mkVendorEntry $"0e11" $"Compaq Computer Corporation" [ilo].
Definition excerpt : list vendor_entry :=
  [compaq;
   mkVendorEntry $"0e55" $"HaSoTec GmbH" []].

Lemma database_roundtrip_witness :
  PCIMapper (database_text excerpt) = inl (database_of excerpt).
Proof. apply database_roundtrip. by_decision. Defined.

Example excerpt_lookup :
  device_name <$> ((fun m => device_from_id (vendor_from_id m $"0x0e11") $"0xb203")
    <$> (match PCIMapper (database_text excerpt) with inl m => Some m | inr _ => None end))
  = Some $"Integrated Lights Out Controller".
Proof. vm_compute. reflexivity. Qed.

(** What is found under an id: the vendor and the device of the data base, or
    the invalid ones. *)
Theorem lookup_vendor (db : list vendor_entry) (v : vendor_entry) (d : device_entry) (m : gmap str PCIVendor) :
  database_ok db -> PCIMapper (database_text db) = inl m -> v ∈ db -> d ∈ ve_devices v ->
  vendor_from_id m ($"0x" ++ ve_id v) = vendor_of v
  /\ device_from_id (vendor_of v) ($"0x" ++ de_id d) = device_of d.
Proof.
  intros Hok Hm Hv Hd. pose proof Hok as [Hdb Hn].
  rewrite database_parsed in Hm by done. injection Hm as <-.
  rewrite Forall_forall in Hdb. destruct (Hdb v Hv) as (_ & _ & _ & _ & Hnd). split.
  - unfold vendor_from_id, database_of, without_0x. cbn [app]. simpl starts_with. cbv iota. cbn [drop].
    rewrite (elem_of_list_to_map_1 _ (ve_id v) (vendor_of v)); [done| |].
    + change (map (fun v => (ve_id v, vendor_of v)) db) with (map vkeyed db). by rewrite vkeyed_fst.
    + by apply (list_elem_of_fmap_2 vkeyed).
  - unfold device_from_id, vendor_of, without_0x. simpl.
    rewrite (elem_of_list_to_map_1 _ (de_id d) (device_of d)); [done| |].
    + change (map (fun d => (de_id d, device_of d)) (ve_devices v)) with (map keyed (ve_devices v)).
      by rewrite keyed_fst.
    + by apply (list_elem_of_fmap_2 keyed).
Qed.

Lemma lookup_vendor_witness :
  vendor_name (vendor_from_id (database_of excerpt) ($"0x" ++ $"0e11")) = $"Compaq Computer Corporation".
Proof.
  destruct (lookup_vendor excerpt compaq ilo (database_of excerpt)) as [H _].
  - by_decision.
  - vm_compute. reflexivity.
  - by left.
  - by left.
  - exact (f_equal vendor_name H).
Defined.

(** A line that has two more spaces in its name is not understood: the device is
    missing, and the subsystems behind it are filed under the device before
    it. *)
Theorem subsystems_misfiled vs cv v V ds d n known k a b subs :
  clean k -> clean a -> clean b -> Forall (fun kn => clean kn.1 /\ clean kn.2) subs ->
  let at_ l := mkParser (<[v := with_devices V (<[d := mkDevice d n (list_to_map l)]> ds)]> vs) cv (Some (v, d)) in
  loop parse_line
    ((tab :: entry_text k (entry_text a b)) :: map (fun kn => tab :: tab :: entry_text kn.1 kn.2) subs)
    (at_ known)
  = inl (at_ (known ++ subs)).
Proof.
  intros Hk Ha Hb Hs at_. cbn [loop].
  assert (parse_line (at_ known) (tab :: entry_text k (entry_text a b)) = inl (at_ known)) as ->;
    [|by apply parse_subsystems].
  destruct (entry_start k (entry_text a b) Hk) as (c & s & E & Ek & Hc).
  unfold parse_line, two_tabs.
  assert (starts_with (tab :: entry_text k (entry_text a b)) [tab; tab] = false) as ->.
  { rewrite E. unfold starts_with. simpl. rewrite decide_False; [done|]. by intros <-. }
  assert (strip (tab :: entry_text k (entry_text a b)) = inl (entry_text k (entry_text a b))) as Hstrip.
  { rewrite <- (app_nil_r (entry_text k (entry_text a b))) at 1.
    apply (strip_spec [tab] _ []); [by repeat constructor|done|..].
    - rewrite E. simpl. by rewrite Hc.
    - pose proof (clean_nonempty _ Hb). destruct Hb as (_ & _ & _ & Ht). unfold entry_text.
      rewrite !last_app. by destruct (last b). }
  simpl starts_with. cbv iota. cbn [orb]. rewrite bool_decide_eq_false_2 by done. rewrite Hstrip.
  assert (split (entry_text k (entry_text a b)) $"  " = inl [k; a; b]) as Hsp; [|cbv [mbind res_bind]; by rewrite Hsp].
  unfold entry_text at 1. rewrite split_segment; [by rewrite split_entry|done|].
  by apply (sfind_pair " "%char), clean_last.
Qed.

Lemma subsystems_misfiled_witness :
  loop parse_line [tab :: entry_text $"b204" (entry_text $"Integrated Lights Out" $"Processor");
                   tab :: tab :: entry_text $"103c 3305" $"iLO2"]
    (mkParser (<[$"0e11" := with_devices (mkVendor $"0e11" $"Compaq" ∅)
       (<[$"b200" := mkDevice $"b200" $"Memory" (list_to_map [])]> ∅)]> ∅) (Some $"0e11") (Some ($"0e11", $"b200")))
  = inl (mkParser (<[$"0e11" := with_devices (mkVendor $"0e11" $"Compaq" ∅)
       (<[$"b200" := mkDevice $"b200" $"Memory" (list_to_map [($"103c 3305", $"iLO2")])]> ∅)]> ∅)
      (Some $"0e11") (Some ($"0e11", $"b200"))).
Proof.
  apply (subsystems_misfiled ∅ (Some $"0e11") $"0e11" (mkVendor $"0e11" $"Compaq" ∅) ∅ $"b200" $"Memory" []
    $"b204" $"Integrated Lights Out" $"Processor" [($"103c 3305", $"iLO2")]);
    by_decision.
Defined.

(** Two devices of the data base that is compiled in: the second line is not
    understood, and its subsystem is filed under the first. *)
Definition two_devices : list str :=
  [$"0e11  Compaq Computer Corporation"; tab :: $"b200  Memory Hot-Plug Controller";
   tab :: $"b204  Integrated Lights Out  Processor"; tab :: tab :: $"103c 3305  iLO2"].

Example ilo2_misfiled :
  (p ← loop parse_line two_devices (mkParser ∅ None None);
   let v := vendor_from_id (_vendors p) $"0e11" in
   mret (device_name (device_from_id v $"b204"), subsystems (device_from_id v $"b200") !! $"103c 3305"))
  = inl ($"invalid", Some $"iLO2").
Proof. vm_compute. reflexivity. Qed.

End HwPci.
