(* ===== verification/HwCpu.v ===== *)
(** * Processors ([src/node/src/hwinfo/linux/cpu.cpp],
    [src/node/src/hwinfo/linux/utils/filesystem.cpp])

    What the hardware library reads of the files of the system. [content] is
    what a path holds at the time of the call, [None] when it cannot be opened. *)

From Stdlib Require Import SpecFloat.
From S2P Require Import Prelude Ini StrUtil ProcStat HwText.
Import Ini ProcStat HwText.

Module HwCpu.

(** An [int64_t] as a part of a path. *)
Definition cpu_path (core_id : Z) (file : string) : str :=
  $"/sys/devices/system/cpu/cpu" ++ to_strz core_id ++ $"/cpufreq/" ++ $file.

(** src/node/src/include/hwinfo/cpu.h:15-28, [Jiffies]. *)
Record Jiffies := mkJiffies { all : Z; working : Z }.

(** src/node/src/include/hwinfo/cpu.h:61-71, [CPU]. *)
Record CPU := mkCPU {
  _id : Z;
  _modelName : str;
  _vendor : str;
  _numPhysicalCores : Z;
  _numLogicalCores : Z;
  _maxClockSpeed_MHz : Z;
  _regularClockSpeed_MHz : Z;
  _L1CacheSize_Bytes : Z;
  _L2CacheSize_Bytes : Z;
  _L3CacheSize_Bytes : Z;
  _flags : list str;
}.

Definition new_CPU : CPU := mkCPU (-1) [] [] (-1) (-1) (-1) (-1) (-1) (-1) (-1) [].

Section Files.
Context (content : str -> option str).

(** ** Numbers and counters *)

(** src/node/src/hwinfo/linux/utils/filesystem.cpp:43-59, [get_specs_by_file_path]. *)
Definition get_specs_by_file_path (path : str) : res Z :=
  match content path with
  | None => mret (-1)
  | Some s =>
      match stoll (line_of s) with
      | inr InvalidArgument => mret (-1)
      | r => r
      end
  end.

(** [stream.ignore(max, '\n')], [index] times: the rest of the stream. *)
Fixpoint skip_lines (index : nat) (s : str) : str :=
  match index with
  | O => s
  | S index' =>
      match find_first_of [newline] s with
      | Some i => skip_lines index' (drop (i + 1) s)
      | None => []
      end
  end.

(** The words of a line, as an [istream_iterator] reads them. *)
Fixpoint words (fuel : nat) (s : str) : list str :=
  match fuel with
  | O => []
  | S fuel' => match word (lskip s) with
               | ([], _) => []
               | (w, r) => w :: words fuel' r
               end
  end.

(** src/node/src/hwinfo/linux/utils/filesystem.cpp:61-94, [get_jiffies]. *)
Definition get_jiffies (index : nat) : res Jiffies :=
  match content $"/proc/stat" with
  | None => mret (mkJiffies (-1) (-1))
  | Some s =>
      let line := line_of (skip_lines index s) in
      let results := words (length line) line in
      js ← each (fun i => w ← get_some HwText.Undefined (results !! i); stoll w) (seq 1 10);
      a ← loop (fun sum j => fits_in 64 (sum + j)) js 0;
      w ← loop (fun sum j => fits_in 64 (sum + j)) (take 3 js) 0;
      mret (mkJiffies a w)
  end.

(** ** Clock speeds *)

(** src/node/src/hwinfo/linux/cpu.cpp:25-33, [getMaxClockSpeed_MHz]. *)
Definition getMaxClockSpeed_MHz (core_id : Z) : res Z :=
  Hz ← get_specs_by_file_path (cpu_path core_id "scaling_max_freq");
  mret (if -1 <? Hz then Z.quot Hz 1000 else -1).

(** src/node/src/hwinfo/linux/cpu.cpp:36-44, [getRegularClockSpeed_MHz]. *)
Definition getRegularClockSpeed_MHz (core_id : Z) : res Z :=
  Hz ← get_specs_by_file_path (cpu_path core_id "base_frequency");
  mret (if -1 <? Hz then Z.quot Hz 1000 else -1).

(** src/node/src/hwinfo/linux/cpu.cpp:47-55, [getMinClockSpeed_MHz]. *)
Definition getMinClockSpeed_MHz (core_id : Z) : res Z :=
  Hz ← get_specs_by_file_path (cpu_path core_id "scaling_min_freq");
  mret (if -1 <? Hz then Z.quot Hz 1000 else -1).

(** src/node/src/hwinfo/linux/cpu.cpp:61-68, [CPU::currentClockSpeed_MHz]. The
    loop, from [core_id] on. *)
Fixpoint clock_speeds (turns : nat) (core_id : Z) : res (list Z) :=
  match turns with
  | O => fail Endless
  | S turns' =>
      frequency_Hz ← get_specs_by_file_path (cpu_path core_id "scaling_cur_freq");
      if frequency_Hz =? -1 then mret []
      else r ← clock_speeds turns' (core_id + 1); mret (Z.quot frequency_Hz 1000 :: r)
  end.

(** src/node/src/hwinfo/linux/cpu.cpp:58-71, [CPU::currentClockSpeed_MHz]. Room
    for a negative number is room for more than there can be. *)
Definition currentClockSpeed_MHz (turns : nat) (numLogicalCores : Z) : res (list Z) :=
  if numLogicalCores <? 0 then fail LengthError else clock_speeds turns 0.

End Files.

(** The frequency of each core, from [k] on, is in its file, and there is no
    file for one core more. *)
Lemma clock_speeds_files content hz turns : forall k,
  (forall i f, hz !! i = Some f ->
     content (cpu_path (k + Z.of_nat i) "scaling_cur_freq") = Some (to_strz f ++ [newline]) /\ 0 <= f < 2 ^ 63) ->
  content (cpu_path (k + Z.of_nat (length hz)) "scaling_cur_freq") = None ->
  (length hz < turns)%nat ->
  clock_speeds content turns k = inl (map (fun f => Z.quot f 1000) hz).
Proof.
  revert turns. induction hz as [|f hz IH]; intros [|turns] k Hf Hn Hl; try (simpl in Hl; lia).
  - cbn [clock_speeds length map] in *. rewrite Z.add_0_r in Hn. unfold get_specs_by_file_path. by rewrite Hn.
  - destruct (Hf 0%nat f eq_refl) as [H0 Hr]. rewrite Z.add_0_r in H0. cbn [clock_speeds map].
    assert (get_specs_by_file_path content (cpu_path k "scaling_cur_freq") = inl f) as ->.
    { unfold get_specs_by_file_path. rewrite H0.
      rewrite line_of_line by (by apply to_strz_without || apply to_strz_nonempty).
      unfold stoll. rewrite <- (app_nil_r (to_strz f)), sto_printed; [done| |done]. simpl. lia. }
    cbv [mbind res_bind]. destruct (Z.eqb_spec f (-1)); [lia|]. rewrite (IH turns); [done|..].
    + intros i g Hg. pose proof (Hf (S i) g Hg) as H. by replace (k + 1 + Z.of_nat i) with (k + Z.of_nat (S i)) by lia.
    + replace (k + 1 + Z.of_nat (length hz)) with (k + Z.of_nat (length (f :: hz))) by (simpl; lia). done.
    + simpl in Hl. lia.
Qed.

(** The loop over the cores ends: every frequency up to the first core without
    a file is reported in MHz, for every socket those of the whole machine. *)
Theorem clock_speeds_end content hz turns n
  (Hf : forall i f, hz !! i = Some f ->
     content (cpu_path (Z.of_nat i) "scaling_cur_freq") = Some (to_strz f ++ [newline]) /\ 0 <= f < 2 ^ 63)
  (Hn : content (cpu_path (Z.of_nat (length hz)) "scaling_cur_freq") = None)
  (Hl : (length hz < turns)%nat) (Hc : 0 <= n) :
  currentClockSpeed_MHz content turns n = inl (map (fun f => Z.quot f 1000) hz).
Proof.
  unfold currentClockSpeed_MHz. destruct (Z.ltb_spec n 0); [lia|].
  by apply (clock_speeds_files content hz turns 0).
Qed.

(** ** Utilisation *)

Definition one : spec_float := of_Z 1.
Definition minus_one : spec_float := of_Z (-1).

(** A share of the time of all, unless it is none. *)
Definition share (limit : spec_float) (last current : Jiffies) : res spec_float :=
  total_over_period ← fits_in 64 (all current - all last);
  work_over_period ← fits_in 64 (working current - working last);
  let utilization := SFdiv 53 1024 (of_Z work_over_period) (of_Z total_over_period) in
  mret (if SFltb utilization (S754_zero false) || SFltb limit utilization
           || bool_decide (SFcompare utilization utilization = None)
        then minus_one else utilization).

(** src/node/src/hwinfo/linux/cpu.cpp:74-92, [CPU::currentUtilisation]. [last] is
    the static variable, at first the default; the result and its new value. *)
Definition currentUtilisation (content : str -> option str) (last : Jiffies) : res (spec_float * Jiffies) :=
  current ← get_jiffies content 0;
  utilization ← share one last current;
  mret (utilization, current).

(** src/node/src/hwinfo/linux/cpu.cpp:95-116, [CPU::threadUtilisation]. [last] is
    the static vector, sized for the first processor that was asked. *)
Definition threadUtilisation (content : str -> option str) (numLogicalCores : Z) (last : list Jiffies)
    (thread_index : nat) : res (spec_float * list Jiffies) :=
  let last := match last with
              | [] => replicate (Z.to_nat numLogicalCores) (mkJiffies (-1) (-1))
              | _ => last
              end in
  current ← get_jiffies content (thread_index + 1);
  before ← get_some HwText.Undefined (last !! thread_index);
  percentage ← share (of_Z 100) before current;
  mret (percentage, <[thread_index := current]> last).

(** src/node/src/hwinfo/linux/cpu.cpp:119-125, [CPU::threadsUtilisation]. *)
Definition threadsUtilisation (content : str -> option str) (numLogicalCores : Z) (last : list Jiffies) :
    res (list spec_float * list Jiffies) :=
  loop (fun '(us, last) i =>
      '(u, last) ← threadUtilisation content numLogicalCores last i; mret (us ++ [u], last))
    (seq 0 (Z.to_nat numLogicalCores)) ([], last).

(** ** [/proc/cpuinfo] *)

(** src/node/src/hwinfo/linux/cpu.cpp:209-228, [getAllCPUs]. What a name and its
    value set; the second component: the processor is to be added. *)
Definition set_field (physical_id : Z) (name value : str) (c : CPU * bool) : res (CPU * bool) :=
  let '(cpu, next_add) := c in
  let '(mkCPU id model vendor physical logical max regular l1 l2 l3 flags) := cpu in
  if decide (name = $"vendor_id") then
    mret (mkCPU id model value physical logical max regular l1 l2 l3 flags, next_add)
  else if decide (name = $"model name") then
    mret (mkCPU id value vendor physical logical max regular l1 l2 l3 flags, next_add)
  else if decide (name = $"cache size") then
    ws ← split value $" "; w ← get_some HwText.Undefined (head ws); n ← stoi w; b ← fits_in 32 (n * 1024);
    mret (mkCPU id model vendor physical logical max regular l1 l2 b flags, next_add)
  else if decide (name = $"siblings") then
    n ← stoi value; mret (mkCPU id model vendor physical n max regular l1 l2 l3 flags, next_add)
  else if decide (name = $"cpu cores") then
    n ← stoi value; mret (mkCPU id model vendor n logical max regular l1 l2 l3 flags, next_add)
  else if decide (name = $"flags") then
    ws ← split value $" "; mret (mkCPU id model vendor physical logical max regular l1 l2 l3 ws, next_add)
  else if decide (name = $"physical id") then
    tmp_phys_id ← stoi value;
    mret (if physical_id =? tmp_phys_id then (cpu, next_add)
          else (mkCPU tmp_phys_id model vendor physical logical max regular l1 l2 l3 flags, true))
  else mret (cpu, next_add).

(** src/node/src/hwinfo/linux/cpu.cpp:201-228, [getAllCPUs]. A line of a block. *)
Definition cpu_line (physical_id : Z) (c : CPU * bool) (line : str) : res (CPU * bool) :=
  line_pairs ← split line $":";
  match line_pairs with
  | name :: value :: _ =>
      name ← strip name; value ← strip value; set_field physical_id name value c
  | _ => mret c
  end.

(** src/node/src/hwinfo/linux/cpu.cpp:230-236, [getAllCPUs]. The end of a block:
    the processors so far and [physical_id]. *)
Definition add_cpu (content : str -> option str) (st : list CPU * Z) (c : CPU * bool) : res (list CPU * Z) :=
  let '(cpus, physical_id) := st in
  let '(cpu, next_add) := c in
  if next_add : bool then
    let '(mkCPU id model vendor physical logical _ _ l1 l2 l3 flags) := cpu in
    max ← getMaxClockSpeed_MHz content id;
    regular ← getRegularClockSpeed_MHz content id;
    mret (cpus ++ [mkCPU id model vendor physical logical max regular l1 l2 l3 flags], physical_id + 1)
  else mret st.

(** src/node/src/hwinfo/linux/cpu.cpp:198-236, [getAllCPUs]. A block. *)
Definition cpu_block (content : str -> option str) (st : list CPU * Z) (block : str) : res (list CPU * Z) :=
  c ← loop (cpu_line st.2) (split_char block newline) (new_CPU, false); add_cpu content st c.

(** src/node/src/hwinfo/linux/cpu.cpp:184-239, [getAllCPUs]. *)
Definition getAllCPUs (content : str -> option str) : res (list CPU) :=
  match content $"/proc/cpuinfo" with
  | None => mret []
  | Some file =>
      cpu_blocks_string ← split file [newline; newline];
      '(cpus, _) ← loop (cpu_block content) cpu_blocks_string ([], -1);
      mret cpus
  end.

(** ** The text of [/proc/cpuinfo] *)

(** A line: a name, tabs, a colon, and, if there is a value, a space and it. *)
Record field := mkField { f_name : str; f_tabs : nat; f_value : str }.

Definition spaced (v : str) : str := match v with [] => [] | _ => $" " ++ v end.
Definition field_line (f : field) : str := (f_name f ++ replicate (f_tabs f) tab) ++ $":" ++ spaced (f_value f).

(** The blocks of the processors, each with an empty line behind it. *)
Definition body (b : list field) : str := intersperse [newline] (map field_line b).
Definition cpuinfo_text (blocks : list (list field)) : str :=
  concat (map (fun b => body b ++ [newline; newline]) blocks).

Definition value_ok (v : str) : Prop :=
  ":"%char ∉ v /\ newline ∉ v
  /\ (v = [] \/ (blank (default " "%char (head v)) = false /\ blank (default " "%char (last v)) = false)).
Definition field_ok (f : field) : Prop := f_name f <> [] /\ value_ok (f_name f) /\ value_ok (f_value f).
#[export] Instance value_ok_dec v : Decision (value_ok v).
Proof. unfold value_ok. apply _. Defined.
#[export] Instance field_ok_dec f : Decision (field_ok f).
Proof. unfold field_ok. apply _. Defined.

Lemma cpu_line_field ph c f :
  field_ok f -> cpu_line ph c (field_line f) = set_field ph (f_name f) (f_value f) c.
Proof.
  intros (Hne & (Hc & _ & Hk) & (Hcv & _ & Hv)). unfold cpu_line, field_line.
  assert (":"%char ∉ f_name f ++ replicate (f_tabs f) tab) as Ha.
  { rewrite elem_of_app. intros [?|H]; [done|]. by apply elem_of_replicate in H as [? _]. }
  assert (":"%char ∉ spaced (f_value f)) as Hb.
  { destruct (f_value f); [by apply not_elem_of_nil|].
    intros [H|H]%elem_of_app; [by apply list_elem_of_singleton in H|done]. }
  rewrite split_segment; [|done|by apply (sfind_char ":"%char)].
  rewrite cut_last by by apply sfind_char_none. cbv [mbind res_bind mret res_ret].
  destruct Hk as [?|[Hh Ht]]; [done|].
  pose proof (strip_spec [] (f_name f) (replicate (f_tabs f) tab) (Forall_nil_2 _)) as Hs.
  cbn [app] in Hs. rewrite Hs by (done || by apply Forall_replicate).
  assert (strip (spaced (f_value f)) = inl (f_value f)) as ->; [|done].
  destruct (f_value f) as [|d v] eqn:Ev; [done|]. rewrite <- Ev in *. unfold spaced. rewrite Ev at 1.
  destruct Hv as [?|[Hh' Ht']]; [congruence|].
  rewrite <- (app_nil_r (f_value f)) at 1. by apply strip_spec; [repeat constructor|..].
Qed.

Lemma field_line_whole f : field_ok f -> newline ∉ field_line f /\ field_line f <> [].
Proof.
  intros (Hne & (_ & Hk & _) & (_ & Hv & _)). unfold field_line. split; [|by destruct (f_name f)].
  rewrite !elem_of_app. intros [[?|H]|[H|H]]; [done|..].
  - by apply elem_of_replicate in H as [? _].
  - by apply list_elem_of_singleton in H.
  - destruct (f_value f); [by apply elem_of_nil in H|].
    apply elem_of_app in H as [H|?]; [by apply list_elem_of_singleton in H|done].
Qed.

(** A newline behind every segment but the last. *)
Lemma intersperse_ends d (l : list str) a :
  intersperse d (l ++ [a]) = concat (map (fun x => x ++ d) l) ++ a.
Proof.
  induction l as [|x l IH]; [by simpl|]. cbn [app map concat].
  rewrite intersperse_cons by by destruct l. by rewrite IH, <- !app_assoc.
Qed.

Lemma split_char_body b :
  b <> [] -> Forall field_ok b -> split_char (body b) newline = map field_line (removelast b).
Proof.
  intros Hne Hb. destruct b as [|f b] using rev_ind; [done|]. clear IHb.
  apply Forall_app in Hb as [Hb Hf]. apply Forall_cons in Hf as [Hf _].
  unfold body. rewrite removelast_last, map_app. cbn [map]. rewrite intersperse_ends.
  apply split_char_loses_rest; [|by apply field_line_whole].
  apply Forall_map. eapply Forall_impl; [exact Hb|]. intros g Hg. by apply field_line_whole.
Qed.

Lemma no_pair_app c a b :
  no_pair c a = true -> no_pair c b = true -> last a <> Some c -> no_pair c (a ++ b) = true.
Proof.
  intros Ha Hb Hl. induction a as [|d a IH]; [done|]. cbn [app no_pair] in *.
  apply andb_true_iff in Ha as [Hd Ha]. destruct a as [|e a]; simpl in *.
  - rewrite bool_decide_eq_false_2 by congruence. by rewrite Hb.
  - by rewrite Hd, IH.
Qed.

Lemma no_pair_without c a : c ∉ a -> no_pair c a = true.
Proof.
  induction a as [|d a IH]; intros Hc; [done|]. apply not_elem_of_cons in Hc as [Hd Hc]. simpl.
  rewrite bool_decide_eq_false_2 by congruence. simpl. by apply IH.
Qed.

Lemma last_without (c : ascii) a : c ∉ a -> last a <> Some c.
Proof. intros H E. apply last_Some_elem_of in E. done. Qed.

Lemma body_no_pair b :
  b <> [] -> Forall field_ok b -> no_pair newline (body b ++ [newline]) = true.
Proof.
  intros Hne Hb. unfold body. induction Hb as [|f b Hf Hb IH]; [done|].
  destruct (field_line_whole f Hf) as [Hw Hn]. destruct b as [|g b].
  - cbn [map intersperse]. by apply no_pair_app; [apply no_pair_without| |apply last_without].
  - cbn [map] in IH |- *. rewrite intersperse_cons, <- !app_assoc by done.
    apply no_pair_app; [by apply no_pair_without| |by apply last_without].
    cbn [app no_pair]. rewrite IH, andb_true_r by done. apply Forall_cons in Hb as [Hg _].
    destruct (field_line_whole g Hg) as [Hgw Hgn]. destruct (field_line g) as [|c s]; [done|].
    apply not_elem_of_cons in Hgw as [Hc _].
    assert (head (intersperse [newline] ((c :: s) :: map field_line b) ++ [newline]) = Some c) as ->
      by by destruct b.
    rewrite (bool_decide_eq_false_2 (Some c = Some newline)) by congruence. by rewrite andb_false_r.
Qed.

Lemma split_blocks bs :
  Forall (fun b => b <> [] /\ Forall field_ok b) bs ->
  split (cpuinfo_text bs) [newline; newline] = inl (map body bs ++ [[]]).
Proof.
  intros H. unfold cpuinfo_text. induction H as [|b bs [Hne Hb] _ IH]; [done|].
  cbn [map concat app]. rewrite <- app_assoc.
  rewrite split_segment; [by rewrite IH|done|]. by apply (sfind_pair newline), body_no_pair.
Qed.

(** What a block sets. *)
Definition set_fields (content : str -> option str) (st : list CPU * Z) (b : list field) : res (list CPU * Z) :=
  c ← loop (fun c f => set_field st.2 (f_name f) (f_value f) c) b (new_CPU, false); add_cpu content st c.

Lemma loop_ext {A B S} (f : S -> A -> res S) (g : S -> B -> res S) (h : B -> A) l s :
  (forall s x, x ∈ l -> f s (h x) = g s x) -> loop f (map h l) s = loop g l s.
Proof.
  revert s. induction l as [|x l IH]; intros s H; [done|]. simpl. rewrite H by by left.
  destruct (g s x); simpl; [|done]. apply IH. intros; apply H. by right.
Qed.

Lemma elem_of_removelast {A} (x : A) l : x ∈ removelast l -> x ∈ l.
Proof.
  destruct l as [|a l] using rev_ind; [done|]. rewrite removelast_last, elem_of_app. by left.
Qed.

Lemma cpuinfo_fields content bs :
  content $"/proc/cpuinfo" = Some (cpuinfo_text bs) ->
  Forall (fun b => b <> [] /\ Forall field_ok b) bs ->
  getAllCPUs content = (st ← loop (set_fields content) (map (@removelast field) bs) ([], -1); mret st.1).
Proof.
  intros Hc Hbs. unfold getAllCPUs. rewrite Hc, split_blocks by done. cbv [mbind res_bind].
  rewrite loop_app.
  assert (forall st, loop (cpu_block content) (map body bs) st = loop (set_fields content) (map (@removelast field) bs) st)
    as ->.
  { intros st. rewrite (loop_ext (set_fields content) (fun st b => set_fields content st (removelast b)) (@removelast field))
      by done.
    apply loop_ext. intros s b Hb. rewrite Forall_forall in Hbs. destruct (Hbs b Hb) as [Hne Hok].
    unfold cpu_block, set_fields. rewrite split_char_body by done.
    erewrite loop_ext; [reflexivity|]. intros c f Hf. apply cpu_line_field.
    rewrite Forall_forall in Hok. by apply Hok, elem_of_removelast. }
  destruct (loop _ _ _) as [[cpus ph]|e]; [|done]. cbv [mbind res_bind]. simpl. by destruct cpus.
Qed.

(** ** Processors and sockets *)

(** A processor as the system lists it. *)
Record processor := mkProcessor {
  p_vendor : str;
  p_model : str;
  p_cache_KB : Z;
  p_socket : Z;
  p_siblings : Z;
  p_cores : Z;
  p_flags : list str;
}.

(** The lines that are read, and what they say of a processor. *)
Definition read_names : list str :=
  [$"vendor_id"; $"model name"; $"cache size"; $"physical id"; $"siblings"; $"cpu cores"; $"flags"].
Definition said (p : processor) : list (str * str) :=
  [($"vendor_id", p_vendor p); ($"model name", p_model p); ($"cache size", to_strz (p_cache_KB p) ++ $" KB");
   ($"physical id", to_strz (p_socket p)); ($"siblings", to_strz (p_siblings p));
   ($"cpu cores", to_strz (p_cores p)); ($"flags", intersperse $" " (p_flags p))].

(** The lines of a processor: among any others, of any names, those that are read
    are there once, in the order in which the system prints them. None of them is
    the last line, which is lost. *)
Definition lists (b : list field) (p : processor) : Prop :=
  Forall field_ok b
  /\ map (fun f => (f_name f, f_value f)) (filter (fun f => f_name f ∈ read_names) (removelast b)) = said p.
#[export] Instance lists_dec b p : Decision (lists b p).
Proof. unfold lists. apply _. Defined.

Definition in_int (z : Z) : bool := (- 2 ^ 31 <=? z) && (z <? 2 ^ 31).

Definition processor_ok (p : processor) : Prop :=
  p_flags p <> [] /\ Forall (fun f => " "%char ∉ f) (p_flags p)
  /\ in_int (p_cache_KB p * 1024) = true /\ in_int (p_socket p) = true
  /\ in_int (p_siblings p) = true /\ in_int (p_cores p) = true.
#[export] Instance processor_ok_dec p : Decision (processor_ok p).
Proof. unfold processor_ok. apply _. Defined.

(** What is reported of it. *)
Definition cpu_of (content : str -> option str) (p : processor) : res CPU :=
  max ← getMaxClockSpeed_MHz content (p_socket p);
  regular ← getRegularClockSpeed_MHz content (p_socket p);
  mret (mkCPU (p_socket p) (p_model p) (p_vendor p) (p_cores p) (p_siblings p) max regular (-1) (-1)
          (p_cache_KB p * 1024) (p_flags p)).

(** A processor is reported if its socket is not the number of the last one that
    was, counted from 0. *)
Definition report (content : str -> option str) (st : list CPU * Z) (p : processor) : res (list CPU * Z) :=
  if st.2 =? p_socket p then mret st
  else c ← cpu_of content p; mret (st.1 ++ [c], st.2 + 1).

Lemma in_int_sto z r : in_int z = true -> no_digit r = true -> stoi (to_strz z ++ r) = inl z.
Proof.
  unfold in_int. intros [H1%Z.leb_le H2%Z.ltb_lt]%andb_true_iff Hr.
  apply sto_printed; [|done]. split; [exact H1|exact H2].
Qed.

Lemma split_words (ws : list str) :
  ws <> [] -> Forall (fun w => " "%char ∉ w) ws -> split (intersperse $" " ws) $" " = inl ws.
Proof.
  intros Hne Hw. induction Hw as [|w ws Hw Hws IH]; [done|]. destruct ws as [|x ws].
  - simpl. by rewrite cut_last by by apply sfind_char_none.
  - rewrite intersperse_cons by done. rewrite split_segment; [|done|by apply (sfind_char " "%char)].
    by rewrite IH.
Qed.

Lemma in_int_stoi z : in_int z = true -> stoi (to_strz z) = inl z.
Proof. intros H. rewrite <- (app_nil_r (to_strz z)). by apply in_int_sto. Qed.

Lemma in_int_fits z : in_int z = true -> fits_in 32 z = inl z.
Proof. intros H. unfold fits_in. change (2 ^ (32 - 1)) with (2 ^ 31). unfold in_int in H. by rewrite H. Qed.

Lemma cache_words z : split (to_strz z ++ $" KB") $" " = inl [to_strz z; $"KB"].
Proof.
  apply (split_words [_; _]); [done|].
  repeat constructor; [by apply to_strz_without|by apply (bool_decide_unpack _)].
Qed.

(** The other lines set nothing. *)
Lemma set_field_other ph name value c : name ∉ read_names -> set_field ph name value c = mret c.
Proof.
  unfold read_names. rewrite !not_elem_of_cons. intros (? & ? & ? & ? & ? & ? & ? & _).
  unfold set_field. destruct c as [[] ?]. by rewrite !decide_False by done.
Qed.

Lemma loop_read ph b : forall c,
  loop (fun c f => set_field ph (f_name f) (f_value f) c) b c
  = loop (fun c nv => set_field ph nv.1 nv.2 c)
      (map (fun f => (f_name f, f_value f)) (filter (fun f => f_name f ∈ read_names) b)) c.
Proof.
  induction b as [|f b IH]; intros c; [done|]. cbn [loop]. destruct (decide (f_name f ∈ read_names)).
  - rewrite filter_cons_True by done. cbn [map loop fst snd]. destruct (set_field _ _ _ _); [|done]. apply IH.
  - rewrite filter_cons_False, set_field_other by done. apply IH.
Qed.

Lemma set_fields_processor content st b p :
  lists b p -> processor_ok p -> set_fields content st (removelast b) = report content st p.
Proof.
  intros [_ Hb] (Hne & Hf & Hk & Hs & Hsib & Hc). unfold set_fields. rewrite loop_read, Hb.
  unfold said. cbn [loop fst snd].
  assert (in_int (p_cache_KB p) = true) as Hk' by (unfold in_int in *; lia).
  apply in_int_stoi in Hs, Hsib, Hc, Hk'. apply in_int_fits in Hk.
  pose proof (cache_words (p_cache_KB p)) as Et. pose proof (split_words _ Hne Hf) as Ew. clear Hb.
  generalize dependent (to_strz (p_cache_KB p) ++ $" KB"). intros vc Et.
  generalize dependent (intersperse $" " (p_flags p)). intros vf Ew.
  unfold set_field, report. simpl in Et, Ew |- *.
  rewrite Et. simpl. rewrite Hk'. simpl. rewrite Hk. simpl. rewrite Hs. simpl.
  destruct (st.2 =? p_socket p); simpl; rewrite Hsib; simpl; rewrite Hc; simpl; rewrite Ew; simpl;
    destruct st as [cpus ph]; [done|]. simpl. unfold cpu_of.
  destruct (getMaxClockSpeed_MHz _ _); simpl; [|done]. by destruct (getRegularClockSpeed_MHz _ _).
Qed.

Lemma loop_forall2 {A B S} (R : B -> A -> Prop) (f : S -> B -> res S) (g : S -> A -> res S) bs xs :
  Forall2 R bs xs -> (forall s b x, R b x -> x ∈ xs -> f s b = g s x) -> forall s, loop f bs s = loop g xs s.
Proof.
  induction 1 as [|b x bs xs Hr _ IH]; intros H s; [done|]. cbn [loop]. rewrite (H s b x) by (done || by left).
  destruct (g s x); [|done]. apply IH. intros; apply H; [done|by right].
Qed.

(** [/proc/cpuinfo] lists the processors, in order. *)
Definition cpuinfo_lists (content : str -> option str) (ps : list processor) : Prop :=
  exists bs, content $"/proc/cpuinfo" = Some (cpuinfo_text bs) /\ Forall2 lists bs ps.

Lemma lists_nonempty b p : lists b p -> b <> [].
Proof. intros [_ H] ->. done. Qed.

Lemma cpuinfo_processors content ps :
  cpuinfo_lists content ps -> Forall processor_ok ps ->
  getAllCPUs content = (st ← loop (report content) ps ([], -1); mret st.1).
Proof.
  intros (bs & Hc & Hbs) Hps. rewrite (cpuinfo_fields content bs); [|done|].
  - f_equal. rewrite (loop_ext _ (fun st b => set_fields content st (removelast b)) (@removelast field)) by done.
    apply (loop_forall2 lists); [done|]. intros st b p Hb Hp. apply set_fields_processor; [done|].
    rewrite Forall_forall in Hps. by apply Hps.
  - clear Hc Hps. induction Hbs as [|b p bs ps Hb _ IH]; constructor; [|done].
    split; [by apply (lists_nonempty b p)|apply Hb].
Qed.

(** The processors of socket [k] and of those behind it. *)
Fixpoint by_socket (k : Z) (groups : list (processor * list processor)) : Prop :=
  match groups with
  | [] => True
  | (p, ps) :: groups' => Forall (fun q => p_socket q = k) (p :: ps) /\ by_socket (k + 1) groups'
  end.
#[export] Instance by_socket_dec groups : forall k, Decision (by_socket k groups).
Proof. induction groups as [|[p ps] groups IH]; intros k; simpl; apply _. Defined.

Definition processors (groups : list (processor * list processor)) : list processor :=
  concat (map (fun g => g.1 :: g.2) groups).

Lemma report_same content cpus k ps :
  Forall (fun q => p_socket q = k) ps -> loop (report content) ps (cpus, k) = inl (cpus, k).
Proof.
  induction 1 as [|q ps Hq _ IH]; [done|]. cbn [loop]. unfold report at 2. cbn [fst snd]. rewrite Hq, Z.eqb_refl.
  exact IH.
Qed.

Lemma report_groups content groups : forall k cpus,
  by_socket k groups ->
  (st ← loop (report content) (processors groups) (cpus, k - 1); mret st.1)
  = (cs ← each (cpu_of content) (map fst groups); mret (cpus ++ cs)).
Proof.
  induction groups as [|[p ps] groups IH]; intros k cpus H.
  - cbn. by rewrite app_nil_r.
  - destruct H as [[Hp Hps]%Forall_cons H]. unfold processors. cbn [map concat fst snd app loop each].
    unfold report at 2. cbn [fst snd]. rewrite Hp. destruct (Z.eqb_spec (k - 1) k); [lia|].
    destruct (cpu_of content p) as [c|e]; [|done]. cbv [mbind res_bind mret res_ret].
    rewrite loop_app. replace (k - 1 + 1) with k by lia. rewrite report_same by done.
    cbv [mbind res_bind mret res_ret]. specialize (IH (k + 1) (cpus ++ [c]) H).
    replace (k + 1 - 1) with k in IH by lia. cbv [mbind res_bind mret res_ret] in IH.
    unfold processors in IH. rewrite IH. destruct (each _ _); [|done]. by rewrite <- app_assoc.
Qed.

Lemma report_all content ps : forall k cpus,
  (forall i p, ps !! i = Some p -> p_socket p <> k + Z.of_nat i) ->
  (st ← loop (report content) ps (cpus, k); mret st.1)
  = (cs ← each (cpu_of content) ps; mret (cpus ++ cs)).
Proof.
  induction ps as [|p ps IH]; intros k cpus H.
  - cbn. by rewrite app_nil_r.
  - cbn [loop each]. unfold report at 2. cbn [fst snd]. pose proof (H 0%nat p eq_refl).
    destruct (Z.eqb_spec k (p_socket p)); [lia|].
    destruct (cpu_of content p) as [c|e]; [|done]. cbv [mbind res_bind mret res_ret].
    specialize (IH (k + 1) (cpus ++ [c])). cbv [mbind res_bind mret res_ret] in IH. rewrite IH.
    + destruct (each _ _); [|done]. by rewrite <- app_assoc.
    + intros i q Hq. pose proof (H (S i) q Hq). lia.
Qed.

Lemma sockets_reported content groups :
  cpuinfo_lists content (processors groups) -> Forall processor_ok (processors groups) ->
  by_socket 0 groups -> getAllCPUs content = each (cpu_of content) (map fst groups).
Proof.
  intros Hc Hok Hs. rewrite (cpuinfo_processors content _ Hc Hok). pose proof (report_groups content groups 0 [] Hs) as H.
  change (0 - 1) with (-1) in H. rewrite H. by destruct (each _ _).
Qed.

(** C36. On a machine whose [/proc/cpuinfo] lists the processors socket by socket,
    the sockets counted from 0, [getAllCPUs] reports one CPU for every socket: its
    number, the model, vendor, counts, cache and flags of the first processor of
    the socket, and the clock speeds the system gives for the processor with the
    number of the socket (or the exception in reading one). A processor is a block
    of lines of any names, a name, tabs, a colon and a value, without colons or
    outer blanks in the two; vendor_id, model name, cache size in KB, physical id,
    siblings, cpu cores and flags are among them once, in this order and before the
    last line; the numbers and the bytes of the cache fit an [int]. *)
Theorem one_cpu_per_socket content groups
  (Hc : cpuinfo_lists content (processors groups))
  (Hok : Forall processor_ok (processors groups)) (Hs : by_socket 0 groups) :
  getAllCPUs content = each (cpu_of content) (map fst groups).
Proof. by apply sockets_reported. Qed.

(** Where no processor's socket is the number of processors before it less one,
    as when two sockets alternate, every processor is reported as a CPU. *)
Theorem interleaved_sockets content ps
  (Hc : cpuinfo_lists content ps) (Hok : Forall processor_ok ps)
  (Hs : forall i p, ps !! i = Some p -> p_socket p <> Z.of_nat i - 1) :
  getAllCPUs content = each (cpu_of content) ps.
Proof.
  rewrite (cpuinfo_processors content _ Hc Hok). pose proof (report_all content ps (-1) []) as H.
  rewrite H; [by destruct (each _ _)|]. intros i p Hp. pose proof (Hs i p Hp). lia.
Qed.

(** Two processors with two threads each, and the lines a kernel prints for one. *)
Definition xeon (socket : Z) : processor :=
  mkProcessor $"GenuineIntel" $"Intel(R) Xeon(R) Gold 6226R CPU @ 2.90GHz" 22528 socket 2 1 [$"fpu"; $"sse2"].
Definition xeon_block (number : nat) (p : processor) : list field :=
  let n := to_strz (Z.of_nat number) in
  [mkField $"processor" 1 n; mkField $"vendor_id" 1 (p_vendor p); mkField $"cpu family" 1 $"6";
   mkField $"model" 2 $"85"; mkField $"model name" 1 (p_model p); mkField $"stepping" 1 $"7";
   mkField $"microcode" 1 $"0x5003006"; mkField $"cpu MHz" 2 $"2900.000";
   mkField $"cache size" 1 (to_strz (p_cache_KB p) ++ $" KB"); mkField $"physical id" 1 (to_strz (p_socket p));
   mkField $"siblings" 1 (to_strz (p_siblings p)); mkField $"core id" 2 $"0";
   mkField $"cpu cores" 1 (to_strz (p_cores p)); mkField $"apicid" 2 n; mkField $"initial apicid" 1 n;
   mkField $"fpu" 2 $"yes"; mkField $"fpu_exception" 1 $"yes"; mkField $"cpuid level" 1 $"22";
   mkField $"wp" 2 $"yes"; mkField $"flags" 2 (intersperse $" " (p_flags p));
   mkField $"bugs" 2 $"spectre_v1 spectre_v2"; mkField $"bogomips" 1 $"5800.00"; mkField $"clflush size" 1 $"64";
   mkField $"cache_alignment" 1 $"64"; mkField $"address sizes" 1 $"46 bits physical, 48 bits virtual";
   mkField $"power management" 0 []].
Definition xeon_text (ps : list processor) : str := cpuinfo_text (imap xeon_block ps).

Example xeon_text_printed : xeon_text [xeon 0] = $"processor	: 0
vendor_id	: GenuineIntel
cpu family	: 6
model		: 85
model name	: Intel(R) Xeon(R) Gold 6226R CPU @ 2.90GHz
stepping	: 7
microcode	: 0x5003006
cpu MHz		: 2900.000
cache size	: 22528 KB
physical id	: 0
siblings	: 2
core id		: 0
cpu cores	: 1
apicid		: 0
initial apicid	: 0
fpu		: yes
fpu_exception	: yes
cpuid level	: 22
wp		: yes
flags		: fpu sse2
bugs		: spectre_v1 spectre_v2
bogomips	: 5800.00
clflush size	: 64
cache_alignment	: 64
address sizes	: 46 bits physical, 48 bits virtual
power management:

".
Proof. vm_compute. reflexivity. Qed.

Definition xeon_files (ps : list processor) (path : str) : option str :=
  if decide (path = $"/proc/cpuinfo") then Some (xeon_text ps)
  else if decide (path = $"/sys/devices/system/cpu/cpu0/cpufreq/scaling_max_freq") then Some $"3900000
" else None.
Definition xeon_cpu (socket max : Z) : CPU :=
  mkCPU socket $"Intel(R) Xeon(R) Gold 6226R CPU @ 2.90GHz" $"GenuineIntel" 1 2 max (-1) (-1) (-1) 23068672
    [$"fpu"; $"sse2"].

Lemma one_cpu_per_socket_witness :
  getAllCPUs (xeon_files [xeon 0; xeon 0; xeon 1; xeon 1]) = inl [xeon_cpu 0 3900; xeon_cpu 1 (-1)].
Proof.
  rewrite (one_cpu_per_socket _ [(xeon 0, [xeon 0]); (xeon 1, [xeon 1])]).
  - vm_compute. reflexivity.
  - exists (imap xeon_block [xeon 0; xeon 0; xeon 1; xeon 1]). split; [reflexivity|by_decision].
  - by_decision.
  - by_decision.
Defined.

Lemma interleaved_sockets_witness :
  getAllCPUs (xeon_files [xeon 0; xeon 1; xeon 0; xeon 1])
  = inl [xeon_cpu 0 3900; xeon_cpu 1 (-1); xeon_cpu 0 3900; xeon_cpu 1 (-1)].
Proof.
  rewrite (interleaved_sockets _ [xeon 0; xeon 1; xeon 0; xeon 1]).
  - vm_compute. reflexivity.
  - exists (imap xeon_block [xeon 0; xeon 1; xeon 0; xeon 1]). split; [reflexivity|by_decision].
  - by_decision.
  - intros [|[|[|[|i]]]] p; intros [= <-]; done.
Defined.

Definition two_cores (path : str) : option str :=
  if decide (path = cpu_path 0 "scaling_cur_freq") then Some $"1200000
"
  else if decide (path = cpu_path 1 "scaling_cur_freq") then Some $"2900000
" else None.

Lemma clock_speeds_end_witness : currentClockSpeed_MHz two_cores 10 1 = inl [1200; 2900].
Proof.
  apply (clock_speeds_end _ [1200000; 2900000] 10 1).
  - intros [|[|i]] f; [intros [= <-]; split; [reflexivity|lia]..|done].
  - reflexivity.
  - simpl. lia.
  - lia.
Defined.

(** The first figure of the usage is that since the system was started, whatever
    happens in the second that is waited for it. *)
Example first_utilisation :
  let stat := fun path : str => if decide (path = $"/proc/stat") then Some $"cpu  300 0 99 600 0 0 0 0 0 0
" else None in
  currentUtilisation stat (mkJiffies (-1) (-1))
  = inl (SFdiv 53 1024 (of_Z 400) (of_Z 1000), mkJiffies 999 399).
Proof. vm_compute. reflexivity. Qed.

End HwCpu.
