(* ===== verification/HwDisk.v ===== *)
(** * Disks ([src/node/src/hwinfo/linux/disk.cpp])

    Which entries of [/sys/class/block] are disks, and what is reported of them.
    Partitions are told by a regular expression; [std::regex] is modelled as
    what its language is, by derivatives. *)

From S2P Require Import Prelude Ini StrUtil ProcStat HwText.
Import Ini ProcStat HwText.

Module HwDisk.

(** ** Regular expressions *)

Inductive regex :=
  | Void
  | Eps
  | Class (p : ascii -> bool)
  | Seq (r1 r2 : regex)
  | Alt (r1 r2 : regex)
  | Star (r : regex).

(** The strings of an expression. *)
Inductive Matches : regex -> str -> Prop :=
  | m_eps : Matches Eps []
  | m_class p c : p c = true -> Matches (Class p) [c]
  | m_seq r1 r2 a b : Matches r1 a -> Matches r2 b -> Matches (Seq r1 r2) (a ++ b)
  | m_left r1 r2 a : Matches r1 a -> Matches (Alt r1 r2) a
  | m_right r1 r2 a : Matches r2 a -> Matches (Alt r1 r2) a
  | m_done r : Matches (Star r) []
  | m_more r a b : Matches r a -> Matches (Star r) b -> Matches (Star r) (a ++ b).

Fixpoint nullable (r : regex) : bool :=
  match r with
  | Void | Class _ => false
  | Eps | Star _ => true
  | Seq r1 r2 => nullable r1 && nullable r2
  | Alt r1 r2 => nullable r1 || nullable r2
  end.

Fixpoint deriv (c : ascii) (r : regex) : regex :=
  match r with
  | Void | Eps => Void
  | Class p => if p c then Eps else Void
  | Seq r1 r2 => if nullable r1 then Alt (Seq (deriv c r1) r2) (deriv c r2) else Seq (deriv c r1) r2
  | Alt r1 r2 => Alt (deriv c r1) (deriv c r2)
  | Star r1 => Seq (deriv c r1) (Star r1)
  end.

Fixpoint matchb (r : regex) (s : str) : bool :=
  match s with
  | [] => nullable r
  | c :: s' => matchb (deriv c r) s'
  end.

(** [regex_search] of an expression that ends in [$]. *)
Fixpoint search_end (r : regex) (s : str) : bool :=
  matchb r s || match s with [] => false | _ :: s' => search_end r s' end.

Definition char (c : ascii) : regex := Class (fun d => bool_decide (d = c)).
Definition lit (s : string) : regex := foldr (fun c r => Seq (char c) r) Eps (list_ascii_of_string s).
Definition Plus (r : regex) : regex := Seq r (Star r).
Definition Opt (r : regex) : regex := Alt Eps r.

Definition is_digit (c : ascii) : bool := negb (no_digit [c]).
Definition is_lower (c : ascii) : bool := (97 <=? nat_of_ascii c)%nat && (nat_of_ascii c <=? 122)%nat.

(** ** What is a partition *)

(** src/node/src/hwinfo/linux/disk.cpp:19-19, [isPartition]. The expression. *)
Definition partitionRegex : regex :=
  Seq (Alt (Seq (lit "sd") (Class is_lower))
           (Seq (lit "nvme") (Seq (Plus (Class is_digit)) (Seq (lit "n") (Plus (Class is_digit))))))
    (Seq (Opt (char "p")) (Plus (Class is_digit))).

(** src/node/src/hwinfo/linux/disk.cpp:18-21, [isPartition]. *)
Definition isPartition (path : str) : bool := search_end partitionRegex path.

(** ** Disks *)

Definition unknown : str := $"<unknown>".

(** src/node/src/include/hwinfo/disk.h:17-37, [Disk]. *)
Record Disk := mkDisk { d_vendor : str; d_model : str; d_serial : str; d_size_Bytes : Z; d_id : Z }.

Section Files.
Context (content : str -> option str).

(** src/node/src/hwinfo/linux/disk.cpp:36-45, [getDiskVendor]. The first
    line of a file, without its blanks; the same for the model and the serial number. *)
Definition stripped_line (path : str) : res str :=
  match content path with
  | Some s => strip (line_of s)
  | None => mret unknown
  end.

(** src/node/src/hwinfo/linux/disk.cpp:24-46, [getDiskVendor]. *)
Definition getDiskVendor (path : str) : res str :=
  let vendor_path :=
    match sfind $"nvme" path with
    | Some nvme_pos =>
        let nvme_name := take 5 (drop nvme_pos path) in
        (if (nvme_pos <? 6)%nat then path else take (nvme_pos - 6) path) ++ $"nvme/" ++ nvme_name
    | None => path
    end in
  stripped_line (vendor_path ++ $"/device/vendor").

(** src/node/src/hwinfo/linux/disk.cpp:49-59, [getDiskModel]. *)
Definition getDiskModel (path : str) : res str := stripped_line (path ++ $"/device/model").

(** src/node/src/hwinfo/linux/disk.cpp:62-72, [getDiskSerialNumber]. *)
Definition getDiskSerialNumber (path : str) : res str := stripped_line (path ++ $"/device/serial").

(** src/node/src/include/hwinfo/disk.h:15-15, [block_size]. *)
Definition block_size : Z := 512.

(** src/node/src/hwinfo/linux/disk.cpp:75-84, [getDiskSize_Bytes]. *)
Definition getDiskSize_Bytes (path : str) : res Z :=
  match content (path ++ $"/size") with
  | Some s => match extract_long (Some s) with
              | Unset => fail HwText.Undefined
              | Set_ size _ => fits_in 64 (size * block_size)
              end
  | None => mret (-1)
  end.

Definition base_path : str := $"/sys/class/block/".

(** src/node/src/hwinfo/linux/disk.cpp:92-107, [getAllDisks]. An entry. *)
Definition disk_entry (exists_ : str -> bool) (disks : list Disk) (entry : str) : res (list Disk) :=
  let path := base_path ++ entry in
  if negb (exists_ path) then mret disks
  else if isPartition path then mret disks
  else
    vendor ← getDiskVendor path;
    model ← getDiskModel path;
    serialNumber ← getDiskSerialNumber path;
    if bool_decide (vendor = unknown) && bool_decide (model = unknown) && bool_decide (serialNumber = unknown)
    then mret disks
    else
      size_Bytes ← getDiskSize_Bytes path;
      mret (disks ++ [mkDisk vendor model serialNumber size_Bytes (-1)]).

(** src/node/src/hwinfo/linux/disk.cpp:88-110, [getAllDisks]. [entries] are those
    of the directory. *)
Definition getAllDisks (exists_ : str -> bool) (entries : list str) : res (list Disk) :=
  loop (disk_entry exists_) entries [].

End Files.

Example partitions :
  map (fun n => isPartition (base_path ++ n))
    [$"sda"; $"sda1"; $"sdaa"; $"sdaa1"; $"nvme0n1"; $"nvme0n1p2"; $"nvme0n12"; $"loop0"; $"mmcblk0p1"]
  = [false; true; false; false; false; true; true; false; false].
Proof. vm_compute. reflexivity. Qed.

(** ** The language of an expression *)

Lemma nullable_spec r : nullable r = true <-> Matches r [].
Proof.
  split.
  - induction r as [| |p|r1 IH1 r2 IH2|r1 IH1 r2 IH2|r IH]; simpl; intros H; try done; try (by constructor).
    + apply andb_true_iff in H as [H1 H2]. apply (m_seq _ _ [] []); auto.
    + apply orb_true_iff in H as [H|H]; [apply m_left|apply m_right]; auto.
  - intros H. remember [] as s eqn:E. induction H as [| |r1 r2 a b _ IH1 _ IH2|r1 r2 a _ IH|r1 r2 a _ IH| |];
      simpl; try done.
    + apply app_eq_nil in E as [-> ->]. by rewrite IH1, IH2.
    + by rewrite IH.
    + by rewrite IH, orb_true_r.
Qed.

Lemma star_cons r c s : Matches (Star r) (c :: s) -> exists a b, s = a ++ b /\ Matches r (c :: a) /\ Matches (Star r) b.
Proof.
  intros H. remember (Star r) as r' eqn:Er. remember (c :: s) as s' eqn:Es. revert s Es.
  induction H as [| | | | | |r' a b Ha _ Hb IH]; intros s Es; try discriminate.
  injection Er as ->. destruct a as [|d a].
  - by apply IH.
  - injection Es as -> <-. eauto.
Qed.

Lemma deriv_spec c r : forall s, Matches (deriv c r) s <-> Matches r (c :: s).
Proof.
  induction r as [| |p|r1 IH1 r2 IH2|r1 IH1 r2 IH2|r IH]; intros s; simpl.
  - split; inversion 1.
  - split; inversion 1.
  - destruct (p c) eqn:E; split; inversion 1; subst; try (by constructor); congruence.
  - assert (Matches (Seq (deriv c r1) r2) s <-> exists a b, s = a ++ b /\ Matches r1 (c :: a) /\ Matches r2 b) as Hs.
    { split; [inversion 1; subst; eexists _, _; rewrite <- IH1; eauto|].
      intros (a & b & -> & Ha%IH1 & Hb). by constructor. }
    assert (Matches (Seq r1 r2) (c :: s) <->
      (exists a b, s = a ++ b /\ Matches r1 (c :: a) /\ Matches r2 b) \/ (Matches r1 [] /\ Matches r2 (c :: s))) as Hc.
    { split.
      - inversion 1 as [| |? ? a b Ha Hb Er Es| | | |]; subst. destruct a as [|d a]; simpl in Es.
        + subst b. by right.
        + injection Es as -> <-. left. eauto.
      - intros [(a & b & -> & Ha & Hb)|[Ha Hb]]; [by apply (m_seq _ _ (c :: a) b)|by apply (m_seq _ _ [] (c :: s))]. }
    rewrite Hc. destruct (nullable r1) eqn:E.
    + apply nullable_spec in E. split.
      * inversion 1; subst; [left; by apply Hs|right; by rewrite <- IH2].
      * intros [H|[_ H]]; [by apply m_left, Hs|by apply m_right, IH2].
    + rewrite Hs. split; [by left|]. intros [H|[H _]]; [done|]. apply nullable_spec in H. congruence.
  - split; inversion 1; subst; constructor; (by apply IH1) || by apply IH2.
  - split.
    + inversion 1; subst. rewrite IH in *. by apply (m_more r (c :: a) b).
    + intros (a & b & -> & Ha%IH & Hb)%star_cons. by constructor.
Qed.

(** The matcher decides the language. *)
Lemma matchb_spec r s : matchb r s = true <-> Matches r s.
Proof.
  revert r. induction s as [|c s IH]; intros r; simpl; [apply nullable_spec|]. rewrite IH. apply deriv_spec.
Qed.

Lemma search_end_spec r s : search_end r s = true <-> exists a b, s = a ++ b /\ Matches r b.
Proof.
  induction s as [|c s IH]; simpl; rewrite orb_true_iff.
  - split.
    + intros [H%nullable_spec|]; [|done]. by exists [], [].
    + intros (a & b & E & H). symmetry in E. apply app_eq_nil in E as [-> ->]. left. by apply nullable_spec.
  - rewrite IH. split.
    + intros [H|(a & b & -> & H)]; [exists [], (c :: s)|exists (c :: a), b]; split; try done.
      by apply (matchb_spec r (c :: s)).
    + intros (a & b & E & H). destruct a as [|d a]; simpl in E.
      * subst b. left. by apply (matchb_spec r (c :: s)) in H.
      * injection E as <- ->. right. eauto.
Qed.

(** ** Partitions *)

Definition numeral (s : str) : Prop := s <> [] /\ Forall (fun c => is_digit c = true) s.
#[export] Instance numeral_dec s : Decision (numeral s).
Proof. unfold numeral. apply _. Defined.

Lemma match_class p s : Matches (Class p) s <-> exists c, s = [c] /\ p c = true.
Proof. split; [inversion 1; eauto|]. intros (c & -> & Hc). by constructor. Qed.

Lemma match_seq r1 r2 s : Matches (Seq r1 r2) s <-> exists a b, s = a ++ b /\ Matches r1 a /\ Matches r2 b.
Proof. split; [inversion 1; subst; eauto|]. intros (a & b & -> & Ha & Hb). by constructor. Qed.

Lemma match_alt r1 r2 s : Matches (Alt r1 r2) s <-> Matches r1 s \/ Matches r2 s.
Proof. split; [inversion 1; subst; eauto|]. intros [H|H]; by constructor. Qed.

Lemma match_eps s : Matches Eps s <-> s = [].
Proof. split; [by inversion 1|]. intros ->. constructor. Qed.

Lemma match_char c s : Matches (char c) s <-> s = [c].
Proof.
  unfold char. rewrite match_class. split.
  - intros (d & -> & H%bool_decide_eq_true). by subst.
  - intros ->. exists c. by rewrite bool_decide_eq_true_2.
Qed.

Lemma match_lit t s : Matches (lit t) s <-> s = list_ascii_of_string t.
Proof.
  unfold lit. revert s. induction (list_ascii_of_string t) as [|c l IH]; intros s; simpl; [apply match_eps|].
  rewrite match_seq. split.
  - intros (a & b & -> & ->%match_char & ->%IH). done.
  - intros ->. exists [c], l. by rewrite match_char, IH.
Qed.

Lemma match_star_class p s : Matches (Star (Class p)) s <-> Forall (fun c => p c = true) s.
Proof.
  split.
  - induction s as [|c s IH]; [constructor|]. intros (a & b & -> & H & Hb)%star_cons.
    apply match_class in H as (d & [= <- ->] & Hc). constructor; [done|]. by apply IH.
  - induction 1 as [|c s Hc _ IH]; [constructor|]. apply (m_more _ [c] s); [by constructor|done].
Qed.

Lemma match_numeral s : Matches (Plus (Class is_digit)) s <-> numeral s.
Proof.
  unfold Plus, numeral. rewrite match_seq. split.
  - intros (a & b & -> & (c & -> & Hc)%match_class & Hb%match_star_class). split; [done|by constructor].
  - intros [Hne Hs]. destruct Hs as [|c s Hc Hs]; [done|]. exists [c], s.
    rewrite match_class, match_star_class. eauto.
Qed.

(** The disk a partition is of. *)
Definition disk_name (b : str) : Prop :=
  (exists x, b = $"sd" ++ [x] /\ is_lower x = true)
  \/ (exists c k, b = $"nvme" ++ c ++ $"n" ++ k /\ numeral c /\ numeral k).

(** What [isPartition] takes for a partition: a path that ends in the name of a
    disk, a p perhaps, and a number. *)
Lemma isPartition_spec path :
  isPartition path = true
  <-> exists a b m d, path = a ++ b ++ m ++ d /\ disk_name b /\ (m = [] \/ m = $"p") /\ numeral d.
Proof.
  unfold isPartition, partitionRegex. rewrite search_end_spec. split.
  - intros (a & s & -> & (b & t & -> & Hb & (m & d & -> & Hm & Hd%match_numeral)%match_seq)%match_seq).
    exists a, b, m, d. split_and!; [done| | |done].
    + apply match_alt in Hb as [(u & v & -> & ->%match_lit & (x & -> & Hx)%match_class)%match_seq|Hb].
      * left. by exists x.
      * right. apply match_seq in Hb as (u & v & -> & ->%match_lit & Hb).
        apply match_seq in Hb as (c & w & -> & Hc%match_numeral & Hb).
        apply match_seq in Hb as (n & k & -> & ->%match_lit & Hk%match_numeral). by exists c, k.
    + apply match_alt in Hm as [->%match_eps| ->%match_char]; [by left|by right].
  - intros (a & b & m & d & -> & Hb & Hm & Hd). exists a, (b ++ m ++ d). split; [done|].
    apply m_seq; [|apply m_seq; [|by apply match_numeral]].
    + destruct Hb as [(x & -> & Hx)|(c & k & -> & Hc & Hk)].
      * apply m_left, m_seq; [by apply match_lit|by constructor].
      * apply m_right, m_seq; [by apply match_lit|].
        apply m_seq; [by apply match_numeral|]. apply m_seq; [by apply match_lit|by apply match_numeral].
    + destruct Hm as [->| ->]; [apply m_left; constructor|by apply m_right, match_char].
Qed.

Lemma numeral_last d : numeral d -> exists d' y, d = d' ++ [y] /\ is_digit y = true /\ Forall (fun c => is_digit c = true) d'.
Proof.
  intros [Hne Hd]. destruct d as [|y d' _] using rev_ind; [done|].
  apply Forall_app in Hd as [Hd [Hy _]%Forall_cons]. eauto.
Qed.

(** The last two chars of what is taken for a partition. *)
Lemma partition_tail t x y :
  isPartition (t ++ [x; y]) = true ->
  is_digit y = true /\ (is_digit x = true \/ x = "p"%char \/ (is_lower x = true /\ exists t', t = t' ++ $"sd")).
Proof.
  intros (a & b & m & d & E & Hb & Hm & Hd)%isPartition_spec.
  apply numeral_last in Hd as (d' & y' & -> & Hy & Hd').
  change [x; y] with ([x] ++ [y]) in E. rewrite !app_assoc in E. apply app_inj_tail in E as [E ->].
  split; [done|]. destruct d' as [|x' d' _] using rev_ind.
  - rewrite app_nil_r in E. destruct Hm as [->| ->].
    + rewrite app_nil_r in E. destruct Hb as [(x' & -> & Hx)|(c & k & -> & _ & Hk)].
      * rewrite app_assoc in E. apply app_inj_tail in E as [-> ->]. eauto.
      * apply numeral_last in Hk as (k' & x' & -> & Hx & _).
        rewrite !app_assoc in E. apply app_inj_tail in E as [_ ->]. by left.
    + change $"p" with ["p"%char] in E. apply app_inj_tail in E as [_ ->]. by right; left.
  - apply Forall_app in Hd' as [_ [Hx _]%Forall_cons].
    rewrite app_assoc in E. apply app_inj_tail in E as [_ ->]. by left.
Qed.

Lemma partition_last t y : isPartition (t ++ [y]) = true -> is_digit y = true.
Proof.
  intros (a & b & m & d & E & _ & _ & Hd)%isPartition_spec.
  apply numeral_last in Hd as (d' & y' & -> & Hy & _).
  rewrite !app_assoc in E. by apply app_inj_tail in E as [_ ->].
Qed.

(** ** The names of the kernel *)

Definition nvme_name (c k : str) : str := $"nvme" ++ c ++ $"n" ++ k.

(** A namespace is taken for a partition as soon as its number has two digits. *)
Theorem namespace_partition c k :
  numeral c -> numeral k -> isPartition (base_path ++ nvme_name c k) = (1 <? length k)%nat.
Proof.
  intros Hc Hk. destruct (Nat.ltb_spec 1 (length k)) as [Hl|Hl].
  - apply isPartition_spec. apply numeral_last in Hk as (k' & y & -> & Hy & Hk').
    exists base_path, (nvme_name c k'), [], [y]. split_and!.
    + unfold nvme_name. by rewrite <- !app_assoc.
    + right. exists c, k'. split_and!; [done|done|]. split; [|done].
      rewrite length_app in Hl. destruct k'; [simpl in Hl; lia|done].
    + by left.
    + split; [done|]. by constructor.
  - apply not_true_iff_false. intros H. destruct Hk as [Hne Hk]. destruct k as [|y [|]]; [done| |simpl in Hl; lia].
    apply numeral_last in Hc as (c' & z & -> & Hz & _).
    unfold nvme_name in H. change ($"n" ++ [y]) with ["n"%char; y] in H. rewrite !app_assoc in H.
    apply partition_tail in H as [_ [H|[H|[_ [t' H]]]]]; [done..|].
    change $"sd" with (["s"%char] ++ ["d"%char]) in H. rewrite app_assoc in H.
    apply app_inj_tail in H as [_ ->]. done.
Qed.

Lemma namespace_partition_witness :
  isPartition (base_path ++ nvme_name $"0" $"1") = false /\ isPartition (base_path ++ nvme_name $"0" $"10") = true.
Proof.
  split.
  - rewrite (namespace_partition $"0" $"1"); [reflexivity|..]; by_decision.
  - rewrite (namespace_partition $"0" $"10"); [reflexivity|..]; by_decision.
Defined.

Lemma nvme_partition c k n :
  numeral c -> numeral k -> numeral n -> isPartition (base_path ++ nvme_name c k ++ $"p" ++ n) = true.
Proof.
  intros Hc Hk Hn. apply isPartition_spec. exists base_path, (nvme_name c k), $"p", n.
  split_and!; [done| |by right|done]. right. by exists c, k.
Qed.

Lemma sd_disk x : is_lower x = true -> isPartition (base_path ++ $"sd" ++ [x]) = false.
Proof.
  intros Hx. apply not_true_iff_false. rewrite app_assoc. intros H%partition_last.
  destruct x as [[] [] [] [] [] [] [] []]; vm_compute in H, Hx; congruence.
Qed.

Lemma sd_partition x n : is_lower x = true -> numeral n -> isPartition (base_path ++ $"sd" ++ x :: n) = true.
Proof.
  intros Hx Hn. apply isPartition_spec. exists base_path, ($"sd" ++ [x]), [], n.
  split_and!; [by rewrite <- app_assoc| |by left|done]. left. eauto.
Qed.

(** ** The disks of a machine *)

(** What a disk says of itself; the size in blocks. *)
Record identity := mkIdentity {
  i_vendor : option str;
  i_model : option str;
  i_serial : option str;
  i_blocks : Z;
}.

(** An entry of [/sys/class/block]: a disk or a partition of it, by its name; a
    device of another name that says what it is, as [sr0] and [vda] do; one that
    does not. *)
Inductive block :=
  | Sd (x : ascii) (i : identity)
  | SdPart (x : ascii) (n : str)
  | Nvme (c k : ascii) (i : identity)
  | NvmePart (c k : ascii) (n : str)
  | Named (name : str) (i : identity)
  | Virtual (name : str).

Definition name_of (b : block) : str :=
  match b with
  | Sd x _ => $"sd" ++ [x]
  | SdPart x n => $"sd" ++ x :: n
  | Nvme c k _ => nvme_name [c] [k]
  | NvmePart c k n => nvme_name [c] [k] ++ $"p" ++ n
  | Named n _ => n
  | Virtual n => n
  end.

Definition path_of (b : block) : str := base_path ++ name_of b.

(** Where the vendor is. *)
Definition vendor_path (b : block) : str :=
  match b with
  | Nvme c _ _ => $"/sys/class/nvme/nvme" ++ [c]
  | _ => path_of b
  end.

Definition value_ok (v : str) : Prop :=
  newline ∉ v /\ blank (default " "%char (head v)) = false /\ blank (default " "%char (last v)) = false.

(** The file of a value, which may be padded; none for none. *)
Definition holds (content : str -> option str) (path : str) (o : option str) : Prop :=
  match o with
  | Some v => value_ok v /\ exists n, content path = Some (v ++ replicate n " "%char ++ [newline])
  | None => content path = None
  end.

(** A disk says something, and its size can be counted in bytes. *)
Definition identity_ok (i : identity) : Prop :=
  (default unknown (i_vendor i) <> unknown \/ default unknown (i_model i) <> unknown
   \/ default unknown (i_serial i) <> unknown)
  /\ 0 <= i_blocks i * block_size < 2 ^ 63.

Definition disk_files (content : str -> option str) (b : block) (i : identity) : Prop :=
  identity_ok i
  /\ holds content (vendor_path b ++ $"/device/vendor") (i_vendor i)
  /\ holds content (path_of b ++ $"/device/model") (i_model i)
  /\ holds content (path_of b ++ $"/device/serial") (i_serial i)
  /\ content (path_of b ++ $"/size") = Some (to_strz (i_blocks i) ++ [newline]).

(** The files are those of the entry. *)
Definition described (content : str -> option str) (b : block) : Prop :=
  match b with
  | Sd x i => is_lower x = true /\ disk_files content b i
  | SdPart x n => is_lower x = true /\ numeral n
  | Nvme c k i => is_digit c = true /\ is_digit k = true /\ disk_files content b i
  | NvmePart c k n => is_digit c = true /\ is_digit k = true /\ numeral n
  | Named _ i => sfind $"nvme" (path_of b) = None /\ isPartition (path_of b) = false /\ disk_files content b i
  | Virtual _ =>
      sfind $"nvme" (path_of b) = None
      /\ forall f, f ∈ [$"/device/vendor"; $"/device/model"; $"/device/serial"] -> content (path_of b ++ f) = None
  end.

(** What is to be reported. *)
Definition disk_of (b : block) : option Disk :=
  match b with
  | Sd _ i | Nvme _ _ i | Named _ i =>
      Some (mkDisk (default unknown (i_vendor i)) (default unknown (i_model i))
              (default unknown (i_serial i)) (i_blocks i * block_size) (-1))
  | _ => None
  end.

Lemma holds_read content path o :
  holds content path o -> stripped_line content path = inl (default unknown o).
Proof.
  unfold holds, stripped_line. destruct o as [v|]; [|by intros ->].
  intros [(Hn & Hh & Hl) [n ->]]. rewrite app_assoc. rewrite (line_of_line (v ++ replicate n " "%char)).
  - apply (strip_spec [] v (replicate n " "%char)); [constructor| |done|done]. by apply Forall_replicate.
  - rewrite elem_of_app. intros [?|H%elem_of_replicate]; [done|]. by destruct H as [[=] _].
  - by destruct v.
Qed.

Lemma digits_stop_after z r : no_digit r = true ->
  - 2 ^ 63 <= z < 2 ^ 63 -> exists r', extract_long (Some (to_strz z ++ r)) = Set_ z r'.
Proof.
  intros Hr Hz. pose proof (sto_printed 64 z r Hz Hr) as H. unfold sto in H. unfold extract_long. cbn [fmap option_fmap option_map].
  destruct (number (lskip (to_strz z ++ r))) as [n|] eqn:E; [|done].
  destruct ((- 2 ^ (64 - 1) <=? n) && (n <? 2 ^ (64 - 1))) eqn:El; [|done]. injection H as ->.
  destruct (lskip (to_strz z ++ r)) eqn:El'; [by vm_compute in E|].
  assert (is_long z = true) as -> by exact El. eauto.
Qed.

Lemma size_read content path z :
  0 <= z * block_size < 2 ^ 63 -> content (path ++ $"/size") = Some (to_strz z ++ [newline]) ->
  getDiskSize_Bytes content path = inl (z * block_size).
Proof.
  intros Hz Hc. unfold getDiskSize_Bytes. rewrite Hc.
  destruct (digits_stop_after z [newline]) as [r' ->]; [done|unfold block_size in *; lia|].
  unfold fits_in. destruct (Z.leb_spec (- 2 ^ (64 - 1)) (z * block_size)), (Z.ltb_spec (z * block_size) (2 ^ (64 - 1)));
    simpl in *; try lia; done.
Qed.

Lemma one_numeral c : is_digit c = true -> numeral [c].
Proof. intros H. split; [done|by constructor]. Qed.

(** No disk of its own is taken for a partition, and every partition is one. *)
Lemma partition_of content b :
  described content b -> match b with Named _ _ | Virtual _ => True | _ => isPartition (path_of b) = negb (bool_decide (is_Some (disk_of b))) end.
Proof.
  destruct b as [x i|x n|c k i|c k n|n i|n]; cbn [described]; unfold path_of; cbn [name_of disk_of]; [..|done|done].
  - intros [Hx _]. by rewrite sd_disk.
  - intros [Hx Hn]. by rewrite sd_partition.
  - intros (Hc & Hk & _). by rewrite namespace_partition by by apply one_numeral.
  - intros (Hc & Hk & Hn). by rewrite nvme_partition by (done || by apply one_numeral).
Qed.

Lemma vendor_read content b i :
  described content b -> disk_of b <> None -> holds content (vendor_path b ++ $"/device/vendor") (i_vendor i) ->
  getDiskVendor content (path_of b) = inl (default unknown (i_vendor i)).
Proof.
  intros Hd Hb H. unfold getDiskVendor. rewrite <- (holds_read _ _ _ H).
  destruct b as [x j|x n|c k j|c k n|n j|n]; try done.
  2:{ destruct Hd as [Hn _]. by rewrite Hn. }
  destruct Hd as [Hx _]. assert (sfind $"nvme" (path_of (Sd x j)) = None) as ->; [|done]. clear H.
  destruct x as [[] [] [] [] [] [] [] []]; vm_compute in Hx |- *; congruence.
Qed.

Definition reported (i : identity) : Disk :=
  mkDisk (default unknown (i_vendor i)) (default unknown (i_model i)) (default unknown (i_serial i))
    (i_blocks i * block_size) (-1).

Lemma real_disk_entry content exists_ disks b i :
  described content b -> disk_of b = Some (reported i) -> disk_files content b i ->
  isPartition (path_of b) = false -> exists_ (path_of b) = true ->
  disk_entry content exists_ disks (name_of b) = inl (disks ++ [reported i]).
Proof.
  intros Hd Ed ([Hi Hz] & Hv & Hm & Hs & Hb) En He. unfold disk_entry. cbv zeta.
  change (base_path ++ name_of b) with (path_of b). rewrite He, En. cbn [negb].
  rewrite (vendor_read content b i) by (done || by rewrite Ed). unfold getDiskModel, getDiskSerialNumber.
  rewrite (holds_read _ _ _ Hm), (holds_read _ _ _ Hs). cbv [mbind res_bind].
  rewrite (size_read content _ (i_blocks i)) by done.
  destruct (_ && _) eqn:E; [|done]. rewrite !andb_true_iff, !bool_decide_eq_true in E. intuition done.
Qed.

Lemma partition_entry content exists_ disks b :
  isPartition (path_of b) = true -> disk_entry content exists_ disks (name_of b) = inl disks.
Proof. unfold disk_entry, path_of. intros ->. by destruct (negb _). Qed.

Lemma disk_entry_of content exists_ disks b :
  described content b -> exists_ (path_of b) = true ->
  disk_entry content exists_ disks (name_of b) = inl (disks ++ option_list (disk_of b)).
Proof.
  intros Hd He. pose proof (partition_of content b Hd) as Hp.
  destruct b as [x i|x n|c k i|c k n|n i|n]; cbn [option_list disk_of] in *; rewrite ?app_nil_r.
  - apply (real_disk_entry content); [done|done|apply Hd|done|done].
  - by apply partition_entry.
  - apply (real_disk_entry content); [done|done|apply Hd|done|done].
  - by apply partition_entry.
  - apply (real_disk_entry content); [done|done|apply Hd|apply Hd|done].
  - destruct Hd as [Hn Hd]. unfold disk_entry. cbv zeta.
    change (base_path ++ name_of (Virtual n)) with (path_of (Virtual n)). rewrite He. destruct (isPartition _); [done|].
    unfold getDiskVendor, getDiskModel, getDiskSerialNumber, stripped_line. rewrite Hn.
    rewrite !Hd by (by repeat constructor). done.
Qed.

Lemma all_disks content exists_ bs :
  Forall (described content) bs -> Forall (fun b => exists_ (path_of b) = true) bs ->
  getAllDisks content exists_ (map name_of bs) = inl (omap disk_of bs).
Proof.
  intros Hd He. unfold getAllDisks. rewrite <- (app_nil_l (omap disk_of bs)). generalize (@nil Disk) as disks.
  induction Hd as [|b bs Hb _ IH]; intros disks; [cbn; by rewrite app_nil_r|].
  apply Forall_cons in He as [Hx He]. cbn [map loop]. rewrite (disk_entry_of content) by done.
  cbv [mbind res_bind]. rewrite IH by done. rewrite <- app_assoc. cbn [omap list_omap].
  by destruct (disk_of b).
Qed.

(** C35. The disks of a machine: of the entries of [/sys/class/block] exactly those
    that say what they are, and are no partition, are reported, in order, each with
    what its files say of its vendor, model and serial number, without the padding,
    and its size in bytes. These are the SCSI disks [sd] and a letter, the name
    spaces of NVMe with a controller and a number of one digit each, and any device
    of another name, such as [sr0] or [vda], that has one of the files; left out are
    the partitions of the disks and the devices without any of the three files. Of
    the reported ones each file is there with a value that has no blank first or
    last char (padded with spaces, and ended by a newline) or is not there at all,
    one of the three says something, and the size in bytes is a 64-bit number;
    what becomes of a blank value is undefined. *)
Theorem disks_reported content exists_ bs
  (Hd : Forall (described content) bs) (He : Forall (fun b => exists_ (path_of b) = true) bs) :
  getAllDisks content exists_ (map name_of bs) = inl (omap disk_of bs).
Proof. by apply all_disks. Qed.

(** A workstation with a SCSI disk, two partitions of it, an NVMe disk, a loop
    device and a DVD drive. *)
Definition samsung : identity := mkIdentity (Some $"0x144d") (Some $"Samsung SSD 980 1TB") (Some $"S649NL0T") 1953525168.
Definition seagate : identity := mkIdentity (Some $"ATA") (Some $"ST2000DM008-2FR1") None 3907029168.
Definition dvd : identity := mkIdentity (Some $"HL-DT-ST") (Some $"DVDRAM GH24NSD1") None 2097151.
Definition workstation : list block :=
  [Sd "a" seagate; SdPart "a" $"1"; SdPart "a" $"12"; Nvme "0" "1" samsung; NvmePart "0" "1" $"1"; Virtual $"loop0";
   Named $"sr0" dvd].
Definition workstation_files : list (string * string) :=
  [("/sys/class/block/sda/device/vendor", "ATA     
"); ("/sys/class/block/sda/device/model", "ST2000DM008-2FR1
"); ("/sys/class/block/sda/size", "3907029168
"); ("/sys/class/nvme/nvme0/device/vendor", "0x144d
"); ("/sys/class/block/nvme0n1/device/model", "Samsung SSD 980 1TB    
"); ("/sys/class/block/nvme0n1/device/serial", "S649NL0T     
"); ("/sys/class/block/nvme0n1/size", "1953525168
"); ("/sys/class/block/sr0/device/vendor", "HL-DT-ST
"); ("/sys/class/block/sr0/device/model", "DVDRAM GH24NSD1 
"); ("/sys/class/block/sr0/size", "2097151
")]%string.
Definition lookup_file (files : list (string * string)) (path : str) : option str :=
  kv ← list_find (fun kv => path = list_ascii_of_string kv.1) files; Some (list_ascii_of_string kv.2.2).

Lemma disks_reported_witness :
  getAllDisks (lookup_file workstation_files) (fun _ => true) (map name_of workstation)
  = inl [mkDisk $"ATA" $"ST2000DM008-2FR1" unknown 2000398934016 (-1);
         mkDisk $"0x144d" $"Samsung SSD 980 1TB" $"S649NL0T" 1000204886016 (-1);
         mkDisk $"HL-DT-ST" $"DVDRAM GH24NSD1" unknown 1073741312 (-1)].
Proof.
  rewrite (disks_reported (lookup_file workstation_files) (fun _ => true) workstation).
  - vm_compute. reflexivity.
  - repeat apply Forall_cons_2; [..|apply Forall_nil_2]; cbn [described].
    + split; [reflexivity|]. split; [|split_and!].
      * split; [left; vm_compute; congruence|vm_compute; split; congruence].
      * split; [by_decision|]. by exists 5%nat.
      * split; [by_decision|]. by exists 0%nat.
      * reflexivity.
      * reflexivity.
    + by_decision.
    + by_decision.
    + split_and!; [reflexivity|reflexivity|]. split; [|split_and!].
      * split; [left; vm_compute; congruence|vm_compute; split; congruence].
      * split; [by_decision|]. by exists 0%nat.
      * split; [by_decision|]. by exists 4%nat.
      * split; [by_decision|]. by exists 5%nat.
      * reflexivity.
    + by_decision.
    + split; [reflexivity|]. intros f Hf. repeat (apply elem_of_cons in Hf as [->|Hf]; [reflexivity|]). by apply elem_of_nil in Hf.
    + split_and!; [reflexivity|reflexivity|]. split; [|split_and!].
      * split; [left; vm_compute; congruence|vm_compute; split; congruence].
      * split; [by_decision|]. by exists 0%nat.
      * split; [by_decision|]. by exists 1%nat.
      * reflexivity.
      * reflexivity.
  - by repeat apply Forall_cons_2; [..|apply Forall_nil_2].
Defined.

End HwDisk.
