(* ===== verification/HwSystem.v ===== *)
(** * Memory, operating system and board ([src/node/src/hwinfo/linux/ram.cpp],
    [os.cpp], [mainboard.cpp])

    A text file of the system is read line by line; [content] is as for the
    processors. What the C library is asked ([sysconf], [uname]) and the byte
    order of the machine are arguments. *)

From S2P Require Import Prelude Ini StrUtil ProcStat HwText.
Import Ini ProcStat HwText.

Module HwSystem.

(** The lines [getline] reads. *)
Definition lines_of (s : str) : list str := StrUtil.split s newline.

(** ** Memory *)

(** src/node/src/hwinfo/linux/ram.cpp:19-23, [MemInfo]. *)
Record MemInfo := mkMemInfo { total : Z; free : Z; available : Z }.

(** What [sysconf] says: pages, free pages, the size of one. *)
Record sysconf := mkSysconf { phys_pages : Z; avphys_pages : Z; pagesize : Z }.

(** src/node/src/hwinfo/linux/ram.cpp:25-35, [get_from_sysconf]. *)
Definition get_from_sysconf (sc : sysconf) (mi : MemInfo) : res MemInfo :=
  t ← (if (0 <? phys_pages sc) && (0 <? pagesize sc) then fits_in 64 (phys_pages sc * pagesize sc)
       else mret (total mi));
  a ← (if (0 <? avphys_pages sc) && (0 <? pagesize sc) then fits_in 64 (avphys_pages sc * pagesize sc)
       else mret (available mi));
  mret (mkMemInfo t (free mi) a).

(** src/node/src/hwinfo/linux/ram.cpp:37-48, [set_value]. [dst] is the value
    before; the result, that after. *)
Definition set_value (line : str) (dst : Z) : res Z :=
  split_line ← split line $":";
  match split_line with
  | [_; value] =>
      value ← strip value;
      match sfind $" " value with
      | Some space => n ← stoll (take space value); fits_in 64 (n * 1024)
      | None => mret dst
      end
  | _ => mret dst
  end.

(** src/node/src/hwinfo/linux/ram.cpp:64-70, [parse_meminfo]. A line. *)
Definition meminfo_line (mi : MemInfo) (line : str) : res MemInfo :=
  if starts_with line $"MemTotal" then t ← set_value line (total mi); mret (mkMemInfo t (free mi) (available mi))
  else if starts_with line $"MemFree" then f ← set_value line (free mi); mret (mkMemInfo (total mi) f (available mi))
  else if starts_with line $"MemAvailable" then
    a ← set_value line (available mi); mret (mkMemInfo (total mi) (free mi) a)
  else mret mi.

Definition incomplete (mi : MemInfo) : bool := (total mi =? -1) || (available mi =? -1) || (free mi =? -1).

(** src/node/src/hwinfo/linux/ram.cpp:56-71, [parse_meminfo]. The loop. *)
Fixpoint meminfo_lines (sc : sysconf) (lines : list str) (mi : MemInfo) : res MemInfo :=
  if incomplete mi then
    match lines with
    | [] => if (total mi =? -1) || (available mi =? -1) then get_from_sysconf sc mi else mret mi
    | line :: lines' => mi' ← meminfo_line mi line; meminfo_lines sc lines' mi'
    end
  else mret mi.

Definition new_MemInfo : MemInfo := mkMemInfo (-1) (-1) (-1).

(** src/node/src/hwinfo/linux/ram.cpp:50-74, [parse_meminfo]. *)
Definition parse_meminfo (content : str -> option str) (sc : sysconf) : res MemInfo :=
  match content $"/proc/meminfo" with
  | None => get_from_sysconf sc new_MemInfo
  | Some s => meminfo_lines sc (lines_of s) new_MemInfo
  end.

Definition unknown : str := $"<unknown>".

(** src/node/src/include/hwinfo/ram.h:16-24, [Memory::Module]. *)
Record MemModule := mkMemModule {
  m_id : Z;
  m_vendor : str;
  m_name : str;
  m_model : str;
  m_serial_number : str;
  m_total_Bytes : Z;
  m_frequency_Hz : Z;
}.

(** src/node/src/hwinfo/linux/ram.cpp:77-88, [Memory::Memory]. *)
Definition Memory (content : str -> option str) (sc : sysconf) : res (list MemModule) :=
  mi ← parse_meminfo content sc;
  mret [mkMemModule 0 unknown unknown unknown unknown (total mi) (-1)].

(** src/node/src/hwinfo/ram.cpp:12-18, [Memory::total_Bytes]. *)
Definition total_Bytes (modules : list MemModule) : res Z :=
  loop (fun sum m => fits_in 64 (sum + m_total_Bytes m)) modules 0.

(** src/node/src/hwinfo/linux/ram.cpp:91-94, [Memory::free_Bytes]. *)
Definition free_Bytes (content : str -> option str) (sc : sysconf) : res Z :=
  meminfo ← parse_meminfo content sc; mret (free meminfo).

(** src/node/src/hwinfo/linux/ram.cpp:97-100, [Memory::available_Bytes]. *)
Definition available_Bytes (content : str -> option str) (sc : sysconf) : res Z :=
  meminfo ← parse_meminfo content sc; mret (available meminfo).

(** ** Operating system *)

(** src/node/src/include/hwinfo/os.h:12-33, [OS]. *)
Record OS := mkOS {
  _name : str;
  _version : str;
  _kernel : str;
  _32bit : bool;
  _64bit : bool;
  _bigEndian : bool;
  _littleEndian : bool;
}.

(** The value of a line [KEY=value]; the whole line, where there is no [=]. *)
Definition value_of (line : str) : str :=
  match sfind $"=" line with
  | Some i => drop (i + 1) line
  | None => line
  end.

(** A string without its first and its last char; that of a string of less than
    two is made of a range that ends before it begins. *)
Definition unquoted (line : str) : res str :=
  if (length line <? 2)%nat then fail HwText.Undefined
  else mret (take (length line - 2) (drop 1 line)).

(** src/node/src/hwinfo/linux/os.cpp:29-38, [OS::OS]. A line, which is replaced
    by its value before it is looked at again. *)
Definition os_line (nv : str * str) (line : str) : res (str * str) :=
  let '(name, version) := nv in
  '(line, name) ← (if starts_with line $"PRETTY_NAME" then
                     let line := value_of line in n ← unquoted line; mret (line, n)
                   else mret (line, name));
  version ← (if starts_with line $"VERSION=" then unquoted (value_of line) else mret version);
  mret (name, version).

(** src/node/src/hwinfo/linux/os.cpp:20-60, [OS::OS]. [release] is what [uname]
    says, [exists_] whether a path is there, [little] whether the first byte of a
    number is its lowest. *)
Definition new_OS (content : str -> option str) (exists_ : str -> bool) (release : option str)
    (little : bool) : res OS :=
  '(name, version) ← match content $"/etc/os-release" with
                     | Some s => loop os_line (lines_of s) ([], [])
                     | None => mret ($"Linux", unknown)
                     end;
  let _64bit := exists_ $"/lib64/ld-linux-x86-64.so.2" in
  let first_byte := if little then 2 else 1 in
  mret (mkOS name version (default unknown release) (negb _64bit) _64bit (first_byte =? 1) (first_byte =? 2)).

(** ** Board *)

(** src/node/src/hwinfo/linux/mainboard.cpp:15-31, [get_dmi_by_name]. The loop
    over the candidates. *)
Fixpoint first_value (content : str -> option str) (paths : list str) : str :=
  match paths with
  | [] => unknown
  | path :: paths' =>
      match content path with
      | Some s => match line_of s with [] => first_value content paths' | value => value end
      | None => first_value content paths'
      end
  end.

(** src/node/src/hwinfo/linux/mainboard.cpp:15-31, [get_dmi_by_name]. *)
Definition get_dmi_by_name (content : str -> option str) (name : string) : str :=
  first_value content
    (map (fun path => path ++ $"id/" ++ $name) [$"/sys/devices/virtual/dmi/"; $"/sys/class/dmi/"]).

(** src/node/src/include/hwinfo/mainboard.h:12-29, [MainBoard]. *)
Record MainBoard := mkMainBoard { b_vendor : str; b_name : str; b_version : str; b_serialNumber : str }.

(** src/node/src/hwinfo/linux/mainboard.cpp:34-39, [MainBoard::MainBoard]. *)
Definition new_MainBoard (content : str -> option str) : MainBoard :=
  mkMainBoard (get_dmi_by_name content "board_vendor") (get_dmi_by_name content "board_name")
    (get_dmi_by_name content "board_version") (get_dmi_by_name content "board_serial").

(** ** The text of [/proc/meminfo] *)

Definition mem_line (name : str) (pad : nat) (kB : Z) : str :=
  name ++ $":" ++ replicate pad " "%char ++ to_strz kB ++ $" kB".

Definition other_line (line : str) : Prop :=
  newline ∉ line /\ starts_with line $"MemTotal" = false /\ starts_with line $"MemFree" = false
  /\ starts_with line $"MemAvailable" = false.
#[export] Instance other_line_dec line : Decision (other_line line).
Proof. unfold other_line. apply _. Defined.

(** Kilobytes that can be counted in bytes. *)
Definition kB_ok (kB : Z) : Prop := 0 <= kB * 1024 < 2 ^ 63.

Lemma to_strz_head z : blank (default " "%char (head (to_strz z))) = false.
Proof.
  destruct (to_strz z) as [|c s] eqn:E; [by apply to_strz_nonempty in E|]. simpl.
  unfold blank. apply bool_decide_eq_false_2. intros Hc.
  assert (c ∈ to_strz z) as Hin by (rewrite E; left).
  repeat (apply elem_of_cons in Hc as [->|Hc]; [revert Hin; by apply to_strz_without|]). by apply elem_of_nil in Hc.
Qed.

Lemma fits_in_64 z : 0 <= z < 2 ^ 63 -> fits_in 64 z = inl z.
Proof.
  intros H. unfold fits_in. destruct (Z.leb_spec (- 2 ^ (64 - 1)) z), (Z.ltb_spec z (2 ^ (64 - 1)));
    simpl in *; try lia; done.
Qed.

Lemma set_value_line name pad kB dst :
  ":"%char ∉ name -> kB_ok kB -> set_value (mem_line name pad kB) dst = inl (kB * 1024).
Proof.
  intros Hn Hk. unfold set_value, mem_line.
  assert (":"%char ∉ replicate pad " "%char ++ to_strz kB ++ $" kB") as Hr.
  { rewrite !elem_of_app. intros [[[=] _]%elem_of_replicate|[H|H]].
    - revert H. by apply to_strz_without.
    - revert H. by apply (bool_decide_unpack _). }
  rewrite split_segment; [|done|by apply (sfind_char ":"%char)].
  rewrite cut_last by by apply sfind_char_none. cbv [mbind res_bind mret res_ret].
  rewrite <- (app_nil_r (to_strz kB ++ $" kB")), strip_spec.
  - change (to_strz kB ++ $" kB") with (to_strz kB ++ " "%char :: $"kB").
    rewrite (sfind_char " "%char) by by apply to_strz_without. rewrite take_app_length.
    unfold stoll. rewrite <- (app_nil_r (to_strz kB)), sto_printed; [|unfold kB_ok in Hk; simpl; lia|done].
    by apply fits_in_64.
  - by apply Forall_replicate.
  - constructor.
  - pose proof (to_strz_head kB) as H. destruct (to_strz kB) eqn:E; [by apply to_strz_nonempty in E|]. exact H.
  - change ($" kB") with ($" k" ++ ["B"%char]). by rewrite app_assoc, last_snoc.
Qed.

Lemma skip_others sc pre l mi :
  Forall other_line pre -> incomplete mi = true ->
  meminfo_lines sc (pre ++ l) mi = meminfo_lines sc l mi.
Proof.
  intros Hp Hi. induction Hp as [|x pre (_ & H1 & H2 & H3) _ IH]; [done|]. cbn [app meminfo_lines].
  rewrite Hi. unfold meminfo_line. by rewrite H1, H2, H3.
Qed.

(** The lines of the memory, as the kernel orders them, among others. *)
Definition meminfo_total (pre : list str) (n : nat) (t : Z) (l : list str) : list str :=
  pre ++ mem_line $"MemTotal" n t :: l.
Definition meminfo_free (pre : list str) (n : nat) (f : Z) (l : list str) : list str :=
  pre ++ mem_line $"MemFree" n f :: l.
Definition meminfo_available (pre : list str) (n : nat) (a : Z) (l : list str) : list str :=
  pre ++ mem_line $"MemAvailable" n a :: l.

Lemma line_total n t mi :
  kB_ok t -> meminfo_line mi (mem_line $"MemTotal" n t) = inl (mkMemInfo (t * 1024) (free mi) (available mi)).
Proof.
  intros Ht. change (meminfo_line mi (mem_line $"MemTotal" n t)) with
    (v ← set_value (mem_line $"MemTotal" n t) (total mi); mret (mkMemInfo v (free mi) (available mi))).
  rewrite set_value_line; [done|by apply (bool_decide_unpack _)|done].
Qed.

Lemma line_free n f mi :
  kB_ok f -> meminfo_line mi (mem_line $"MemFree" n f) = inl (mkMemInfo (total mi) (f * 1024) (available mi)).
Proof.
  intros Hf. change (meminfo_line mi (mem_line $"MemFree" n f)) with
    (v ← set_value (mem_line $"MemFree" n f) (free mi); mret (mkMemInfo (total mi) v (available mi))).
  rewrite set_value_line; [done|by apply (bool_decide_unpack _)|done].
Qed.

Lemma line_available n a mi :
  kB_ok a -> meminfo_line mi (mem_line $"MemAvailable" n a) = inl (mkMemInfo (total mi) (free mi) (a * 1024)).
Proof.
  intros Ha. change (meminfo_line mi (mem_line $"MemAvailable" n a)) with
    (v ← set_value (mem_line $"MemAvailable" n a) (available mi); mret (mkMemInfo (total mi) (free mi) v)).
  rewrite set_value_line; [done|by apply (bool_decide_unpack _)|done].
Qed.

(** A line of the memory, behind others. *)
Lemma meminfo_step sc pre line l mi mi' :
  Forall other_line pre -> incomplete mi = true -> meminfo_line mi line = inl mi' ->
  meminfo_lines sc (pre ++ line :: l) mi = meminfo_lines sc l mi'.
Proof. intros Hp Hi Hl. rewrite skip_others by done. cbn [meminfo_lines]. by rewrite Hi, Hl. Qed.

Lemma incomplete_available t f : incomplete (mkMemInfo t f (-1)) = true.
Proof. unfold incomplete. simpl. by rewrite orb_true_r. Qed.

Lemma mem_line_whole name n t : newline ∉ name -> newline ∉ mem_line name n t.
Proof.
  intros Hn. unfold mem_line. rewrite !elem_of_app. intros [?|[H|[[[=] _]%elem_of_replicate|[H|H]]]]; [done|..].
  - revert H. by apply (bool_decide_unpack _).
  - revert H. by apply to_strz_without.
  - revert H. by apply (bool_decide_unpack _).
Qed.

Lemma others_whole pre line l :
  Forall other_line pre -> newline ∉ line -> Forall (fun x => newline ∉ x) l ->
  Forall (fun x => newline ∉ x) (pre ++ line :: l).
Proof.
  intros Hp Hl H. apply Forall_app. split; [|by constructor]. eapply Forall_impl; [exact Hp|]. by intros x [? _].
Qed.

(** The text of [/proc/meminfo]: the total, then the free memory, then, from
    Linux 3.14 on, the available memory; other lines between them. *)
Definition meminfo_text (p1 : list str) (n1 : nat) (t : Z) (p2 : list str) (n2 : nat) (f : Z) (rest : list str) : str :=
  StrUtil.unsplit newline (p1 ++ mem_line $"MemTotal" n1 t :: p2 ++ mem_line $"MemFree" n2 f :: rest).

Lemma meminfo_two content sc p1 n1 t p2 n2 f rest :
  content $"/proc/meminfo" = Some (meminfo_text p1 n1 t p2 n2 f rest) ->
  Forall other_line p1 -> Forall other_line p2 -> Forall (fun l => newline ∉ l) rest ->
  kB_ok t -> kB_ok f ->
  parse_meminfo content sc = meminfo_lines sc rest (mkMemInfo (t * 1024) (f * 1024) (-1)).
Proof.
  intros Hc H1 H2 Hr Ht Hf. unfold parse_meminfo. rewrite Hc. unfold meminfo_text, lines_of.
  rewrite StrUtil.split_unsplit_segments.
  - rewrite (meminfo_step sc p1 _ _ _ _ H1 (incomplete_available _ _) (line_total n1 t new_MemInfo Ht)).
    by rewrite (meminfo_step sc p2 _ _ _ _ H2 (incomplete_available _ _) (line_free n2 f _ Hf)).
  - repeat (apply others_whole; [done|by apply mem_line_whole, (bool_decide_unpack _)|]). done.
Qed.

Lemma memory_parsed content sc p1 n1 t p2 n2 f p3 n3 a rest :
  content $"/proc/meminfo" = Some (meminfo_text p1 n1 t p2 n2 f (p3 ++ mem_line $"MemAvailable" n3 a :: rest)) ->
  Forall other_line p1 -> Forall other_line p2 -> Forall other_line p3 -> Forall (fun l => newline ∉ l) rest ->
  kB_ok t -> kB_ok f -> kB_ok a ->
  parse_meminfo content sc = inl (mkMemInfo (t * 1024) (f * 1024) (a * 1024)).
Proof.
  intros Hc H1 H2 H3 Hr Ht Hf Ha.
  rewrite (meminfo_two _ sc _ _ _ _ _ _ _ Hc) by
    (done || (apply others_whole; [done|by apply mem_line_whole, (bool_decide_unpack _)|done])).
  rewrite (meminfo_step sc p3 _ _ _ _ H3 (incomplete_available _ _) (line_available n3 a _ Ha)).
  unfold kB_ok in *. assert (incomplete (mkMemInfo (t * 1024) (f * 1024) (a * 1024)) = false) as Hi.
  { unfold incomplete. simpl. lia. }
  cbn [total free]. destruct rest; cbn [meminfo_lines]; by rewrite Hi.
Qed.

(** What the kernel says of the memory is read: the numbers of the three
    lines, in bytes, whatever other lines there are, and nothing is asked of the C
    library. *)
Theorem meminfo_read content sc p1 n1 t p2 n2 f p3 n3 a rest
  (Hc : content $"/proc/meminfo" = Some (meminfo_text p1 n1 t p2 n2 f (p3 ++ mem_line $"MemAvailable" n3 a :: rest)))
  (H1 : Forall other_line p1) (H2 : Forall other_line p2) (H3 : Forall other_line p3)
  (Hr : Forall (fun l => newline ∉ l) rest) (Ht : kB_ok t) (Hf : kB_ok f) (Ha : kB_ok a) :
  parse_meminfo content sc = inl (mkMemInfo (t * 1024) (f * 1024) (a * 1024)).
Proof. by apply (memory_parsed _ _ p1 n1 _ p2 n2 _ p3 n3 _ rest). Qed.

(** Without a line of the available memory, as before Linux 3.14, what the C
    library says replaces the total too; the free memory is that of the file. *)
Theorem meminfo_without_available content sc p1 n1 t p2 n2 f rest
  (Hc : content $"/proc/meminfo" = Some (meminfo_text p1 n1 t p2 n2 f rest))
  (H1 : Forall other_line p1) (H2 : Forall other_line p2) (Hr : Forall other_line rest)
  (Ht : kB_ok t) (Hf : kB_ok f)
  (Hp : 0 < phys_pages sc) (Ha : 0 < avphys_pages sc) (Hs : 0 < pagesize sc)
  (Hm : phys_pages sc * pagesize sc < 2 ^ 63) (Hn : avphys_pages sc * pagesize sc < 2 ^ 63) :
  parse_meminfo content sc
  = inl (mkMemInfo (phys_pages sc * pagesize sc) (f * 1024) (avphys_pages sc * pagesize sc)).
Proof.
  rewrite (meminfo_two _ sc _ _ _ _ _ _ _ Hc H1 H2).
  - rewrite <- (app_nil_r rest), skip_others by (done || apply incomplete_available). cbn [meminfo_lines].
    rewrite incomplete_available. cbn [total available]. rewrite orb_true_r. unfold get_from_sysconf.
    rewrite (proj2 (Z.ltb_lt _ _) Hp), (proj2 (Z.ltb_lt _ _) Ha), (proj2 (Z.ltb_lt _ _) Hs). cbn [andb].
    rewrite !fits_in_64 by nia. done.
  - eapply Forall_impl; [exact Hr|]. by intros x [? _].
  - done.
  - done.
Qed.

Lemma meminfo_read_witness :
  parse_meminfo (fun _ => Some $"MemTotal:       16316412 kB
MemFree:         1047660 kB
MemAvailable:    9411752 kB
Buffers:          521832 kB
") (mkSysconf 1 1 1) = inl (mkMemInfo 16708005888 1072803840 9637634048).
Proof.
  apply (meminfo_read (fun _ => Some _) (mkSysconf 1 1 1) [] 7 16316412 [] 9 1047660 [] 4 9411752 [$"Buffers:          521832 kB"]);
    try reflexivity; try apply Forall_nil_2; try (split; vm_compute; congruence).
  by_decision.
Defined.

Lemma meminfo_without_available_witness :
  parse_meminfo (fun _ => Some $"MemTotal:       16316412 kB
MemFree:         1047660 kB
") (mkSysconf 4079103 261915 4096) = inl (mkMemInfo 16708005888 1072803840 1072803840).
Proof.
  apply (meminfo_without_available (fun _ => Some _) (mkSysconf 4079103 261915 4096) [] 7 16316412 [] 9 1047660 []);
    try reflexivity; try apply Forall_nil_2; try (split; vm_compute; congruence); simpl; lia.
Defined.

(** ** The text of [/etc/os-release] *)

Definition plain_line (line : str) : Prop :=
  newline ∉ line /\ starts_with line $"PRETTY_NAME" = false /\ starts_with line $"VERSION=" = false.
#[export] Instance plain_line_dec line : Decision (plain_line line).
Proof. unfold plain_line. apply _. Defined.

(** A line of a key and a value between two chars. *)
Definition release_line (key : str) (a : ascii) (v : str) (b : ascii) : str := key ++ $"=" ++ a :: v ++ [b].

Lemma unquoted_ends a v b : unquoted (a :: v ++ [b]) = inl v.
Proof.
  unfold unquoted. cbn [length drop]. rewrite length_app. cbn [length].
  destruct (Nat.ltb_spec (S (length v + 1)) 2) as [H|H]; [lia|].
  replace (S (length v + 1) - 2)%nat with (length v) by lia. by rewrite drop_0, take_app_length.
Qed.

Lemma value_of_line key v : "="%char ∉ key -> value_of (key ++ $"=" ++ v) = v.
Proof.
  intros Hk. unfold value_of. change (key ++ $"=" ++ v) with (key ++ "="%char :: v).
  rewrite (sfind_char "="%char) by done. rewrite drop_app_ge by lia.
  by replace (length key + 1 - length key)%nat with 1%nat by lia.
Qed.

Lemma pretty_name_line nv a v b :
  starts_with (a :: v ++ [b]) $"VERSION=" = false ->
  os_line nv (release_line $"PRETTY_NAME" a v b) = inl (v, nv.2).
Proof.
  intros Hv. destruct nv as [name version]. unfold os_line, release_line.
  assert (starts_with ($"PRETTY_NAME" ++ $"=" ++ a :: v ++ [b]) $"PRETTY_NAME" = true) as -> by reflexivity.
  rewrite value_of_line by by apply (bool_decide_unpack _). cbv zeta. rewrite unquoted_ends.
  cbv [mbind res_bind mret res_ret]. by rewrite Hv.
Qed.

Lemma version_line nv a v b : os_line nv (release_line $"VERSION" a v b) = inl (nv.1, v).
Proof.
  destruct nv as [name version]. unfold os_line, release_line.
  assert (starts_with ($"VERSION" ++ $"=" ++ a :: v ++ [b]) $"PRETTY_NAME" = false) as -> by reflexivity.
  cbv [mbind res_bind mret res_ret].
  assert (starts_with ($"VERSION" ++ $"=" ++ a :: v ++ [b]) $"VERSION=" = true) as -> by reflexivity.
  rewrite value_of_line by by apply (bool_decide_unpack _). by rewrite unquoted_ends.
Qed.

Lemma plain_lines pre l nv : Forall plain_line pre -> loop os_line (pre ++ l) nv = loop os_line l nv.
Proof.
  induction 1 as [|x pre (_ & H1 & H2) _ IH]; [done|]. destruct nv as [name version]. cbn [app loop].
  unfold os_line at 2. rewrite H1. cbv [mbind res_bind mret res_ret]. by rewrite H2.
Qed.

Section Release.
Context (content : str -> option str) (exists_ : str -> bool) (release : option str) (little : bool).

(** [/etc/os-release] has one line of the name and one of the version, in either
    order, each value between two chars, and other lines. *)
Definition release_text (name version : str) : Prop :=
  exists p1 a b p2 c d p3,
    (content $"/etc/os-release" = Some (StrUtil.unsplit newline
       (p1 ++ release_line $"PRETTY_NAME" a name b :: p2 ++ release_line $"VERSION" c version d :: p3))
     \/ content $"/etc/os-release" = Some (StrUtil.unsplit newline
       (p1 ++ release_line $"VERSION" c version d :: p2 ++ release_line $"PRETTY_NAME" a name b :: p3)))
    /\ Forall plain_line p1 /\ Forall plain_line p2 /\ Forall plain_line p3
    /\ newline ∉ a :: name ++ [b] /\ starts_with (a :: name ++ [b]) $"VERSION=" = false
    /\ newline ∉ c :: version ++ [d].

(** What the system says of itself. *)
Definition os_is (os : OS) : Prop :=
  release_text (_name os) (_version os) /\ default unknown release = _kernel os
  /\ exists_ $"/lib64/ld-linux-x86-64.so.2" = _64bit os /\ _32bit os = negb (_64bit os)
  /\ little = _littleEndian os /\ _bigEndian os = negb (_littleEndian os).

Lemma release_lines_whole p1 k1 a v b p2 k2 c w d p3 :
  Forall plain_line p1 -> Forall plain_line p2 -> Forall plain_line p3 -> newline ∉ k1 -> newline ∉ k2 ->
  newline ∉ a :: v ++ [b] -> newline ∉ c :: w ++ [d] ->
  Forall (fun x => newline ∉ x) (p1 ++ release_line k1 a v b :: p2 ++ release_line k2 c w d :: p3).
Proof.
  intros H1 H2 H3 Hk1 Hk2 Hv Hw.
  assert (forall key x y z, newline ∉ key -> newline ∉ x :: y ++ [z] -> newline ∉ release_line key x y z) as Hl.
  { intros key x y z Hk Hx. unfold release_line. rewrite !elem_of_app. intros [?|[H|?]]; [done| |done].
    by apply list_elem_of_singleton in H. }
  assert (forall p, Forall plain_line p -> Forall (fun x => newline ∉ x) p) as Hp.
  { intros p H. eapply Forall_impl; [exact H|]. by intros x [? _]. }
  apply Forall_app. split; [auto|]. constructor; [by apply Hl|].
  apply Forall_app. split; [auto|]. constructor; [by apply Hl|]. auto.
Qed.

Lemma os_read os : os_is os -> new_OS content exists_ release little = inl os.
Proof.
  intros ((p1 & a & b & p2 & c & d & p3 & Hc & H1 & H2 & H3 & Hv & Hs & Hw) & Hk & H64 & H32 & Hl & Hb).
  unfold new_OS.
  assert (match content $"/etc/os-release" with
          | Some s => loop os_line (lines_of s) ([], [])
          | None => mret ($"Linux", unknown)
          end = inl (_name os, _version os)) as ->.
  { destruct Hc as [-> | ->]; unfold lines_of; rewrite StrUtil.split_unsplit_segments
      by (by apply release_lines_whole; first [done|by apply (bool_decide_unpack _)]);
      rewrite plain_lines by done; cbn [loop].
    - rewrite pretty_name_line by done. cbv [mbind res_bind]. rewrite plain_lines by done. cbn [loop].
      rewrite version_line. cbv [mbind res_bind]. by rewrite <- (app_nil_r p3), plain_lines by done.
    - rewrite version_line. cbv [mbind res_bind]. rewrite plain_lines by done. cbn [loop].
      rewrite pretty_name_line by done. cbv [mbind res_bind]. by rewrite <- (app_nil_r p3), plain_lines by done. }
  cbv [mbind res_bind]. rewrite H64, Hk. destruct os as [? ? ? b32 b64 be le]. cbn in *. subst.
  by destruct le.
Qed.

(** The name and the version of the system are those of the file without their
    first and their last char, be they quotes or not. *)
Theorem os_release os : os_is os -> new_OS content exists_ release little = inl os.
Proof. apply os_read. Qed.

End Release.

Lemma os_release_witness :
  new_OS (fun _ => Some $"NAME=Fedora
VERSION='39 (Server)'
PRETTY_NAME=Fedora
") (fun _ => true) None true = inl (mkOS $"edor" $"39 (Server)" unknown false true false true).
Proof.
  apply os_release. split; [|by repeat split].
  exists [$"NAME=Fedora"], "F"%char, "a"%char, [], "'"%char, "'"%char, [].
  split; [right; reflexivity|]. split_and!; by_decision.
Defined.

(** A value of one char, or none, is made of an invalid range. *)
Example short_version :
  os_line ([], []) $"VERSION=9" = inr HwText.Undefined /\ os_line ([], []) $"PRETTY_NAME=" = inr HwText.Undefined.
Proof. vm_compute. done. Qed.

(** ** The board *)

(** The vendor of the board is the first line of the first of two files that has
    one. *)
Theorem board_value content name line rest
  (Hl : newline ∉ line) (Hn : line <> []) :
  let virtual := $"/sys/devices/virtual/dmi/" ++ $"id/" ++ $name in
  let class := $"/sys/class/dmi/" ++ $"id/" ++ $name in
  (content virtual = Some (line ++ newline :: rest)
   \/ ((content virtual = None \/ content virtual = Some []) /\ content class = Some (line ++ newline :: rest))) ->
  get_dmi_by_name content name = line.
Proof.
  intros virtual class H. unfold get_dmi_by_name. cbn [map first_value]. fold virtual class.
  destruct H as [H|[[H|H] H']]; rewrite H, ?H', ?line_of_line by done; try (by destruct line).
Qed.

Lemma board_value_witness :
  get_dmi_by_name (fun path => if starts_with path $"/sys/class" then Some $"ASUSTeK
" else None) "board_vendor" = $"ASUSTeK".
Proof.
  apply (board_value _ "board_vendor" _ []); [by_decision|done|].
  right. split; [by left|]. reflexivity.
Defined.

End HwSystem.
