(* ===== verification/HwDevices.v ===== *)
(** * Graphics cards, batteries and networks
    ([src/node/src/hwinfo/linux/gpu.cpp], [battery.cpp], [network.cpp])

    [content] is what a file holds, [exists_] whether a path is there. The
    addresses of the interfaces come from the C library and are arguments. *)

From Stdlib Require Import SpecFloat.
From S2P Require Import Prelude Ini ProcStat HwText HwPci HwCpu.
Import Ini ProcStat HwText HwPci.

Module HwDevices.

Section Files.
Context (content : str -> option str) (exists_ : str -> bool).

(** ** Graphics cards *)

(** src/node/src/include/hwinfo/gpu.h:14-42, [GPU]. *)
Record GPU := mkGPU {
  g_vendor : str;
  g_name : str;
  g_driverVersion : str;
  g_memory_Bytes : Z;
  g_frequency_MHz : Z;
  g_num_cores : Z;
  g_id : Z;
  g_vendor_id : str;
  g_device_id : str;
}.

(** src/node/src/hwinfo/linux/gpu.cpp:24-32, [read_drm_by_path]. *)
Definition read_drm_by_path (path : str) : str :=
  match content path with
  | Some s => line_of s
  | None => []
  end.

(** A number, or nothing where there is none. *)
Definition try_stoi (s : str) : res (option Z) :=
  match stoi s with
  | inl n => mret (Some n)
  | inr InvalidArgument => mret None
  | inr e => fail e
  end.

(** src/node/src/hwinfo/linux/gpu.cpp:35-54, [get_frequencies]. Whichever number
    is missing, the first is set. *)
Definition get_frequencies (drm_path : str) : res (Z * Z * Z) :=
  a ← try_stoi (read_drm_by_path (drm_path ++ $"gt_min_freq_mhz"));
  b ← try_stoi (read_drm_by_path (drm_path ++ $"gt_cur_freq_mhz"));
  c ← try_stoi (read_drm_by_path (drm_path ++ $"gt_max_freq_mhz"));
  mret (match b, c with Some _, Some _ => default (-1) a | _, _ => -1 end, default 0 b, default 0 c).

Definition card_path (id : Z) : str := $"/sys/class/drm/card" ++ to_strz id ++ $"/".

(** src/node/src/hwinfo/linux/gpu.cpp:61-84, [getAllGPUs]. The loop. *)
Fixpoint gpus_from (turns : nat) (pci : gmap str PCIVendor) (id : Z) : res (list GPU) :=
  match turns with
  | O => fail Endless
  | S turns' =>
      let path := card_path id in
      if negb (exists_ path) then
        if 2 <? id then mret [] else gpus_from turns' pci (id + 1)
      else
        let vendor_id := read_drm_by_path (path ++ $"device/vendor") in
        let device_id := read_drm_by_path (path ++ $"device/device") in
        if bool_decide (vendor_id = []) || bool_decide (device_id = []) then gpus_from turns' pci (id + 1)
        else
          let vendor := vendor_from_id pci vendor_id in
          frequencies ← get_frequencies path;
          gpus ← gpus_from turns' pci (id + 1);
          mret (mkGPU (vendor_name vendor) (device_name (device_from_id vendor device_id)) [] 0
                  frequencies.2 0 id vendor_id device_id :: gpus)
  end.

(** src/node/src/hwinfo/linux/gpu.cpp:57-101, [getAllGPUs]. Without OpenCL. *)
Definition getAllGPUs (turns : nat) (home : option str) (pci_ids : str) : res (list GPU) :=
  pci ← getMapper home pci_ids; gpus_from turns pci 0.

(** ** Batteries *)

(** src/node/src/include/hwinfo/battery.h:14-46, [Battery]. *)
Record Battery := mkBattery {
  t_id : Z;
  t_vendor : str;
  t_model : str;
  t_serialNumber : str;
  t_technology : str;
  t_energyFull : Z;
}.

(** src/node/src/hwinfo/battery.cpp:10-10, [Battery::Battery]. *)
Definition new_Battery (id : Z) : Battery := mkBattery id [] [] [] [] 0.

Definition battery_path (id : Z) : str := $"/sys/class/power_supply/" ++ $"BAT" ++ to_strz id.

(** src/node/src/hwinfo/linux/battery.cpp:19-30, [Battery::getVendor]. The first
    line of a file of the battery. *)
Definition battery_line (id : Z) (file : string) : option str :=
  if id <? 0 then None else line_of <$> content (battery_path id ++ $"/" ++ $file).

(** src/node/src/hwinfo/linux/battery.cpp:19-30, [Battery::getVendor]. *)
Definition getVendor (b : Battery) : str := default $"<unknown>" (battery_line (t_id b) "manufacturer").

(** src/node/src/hwinfo/linux/battery.cpp:33-44, [Battery::getModel]. *)
Definition getModel (b : Battery) : str := default $"<unknown>" (battery_line (t_id b) "model_name").

(** src/node/src/hwinfo/linux/battery.cpp:47-58, [Battery::getSerialNumber]. *)
Definition getSerialNumber (b : Battery) : str := default $"<unknown>" (battery_line (t_id b) "serial_number").

(** src/node/src/hwinfo/linux/battery.cpp:61-72, [Battery::getTechnology]. *)
Definition getTechnology (b : Battery) : str := default $"<unknown>" (battery_line (t_id b) "technology").

(** An energy; an [int] is converted to an unsigned one. *)
Definition energy (id : Z) (file : string) : res Z :=
  match battery_line id file with
  | Some value => n ← try_stoi value; mret (default 0 (uwrap 32 <$> n))
  | None => mret 0
  end.

(** src/node/src/hwinfo/linux/battery.cpp:75-90, [Battery::getEnergyFull]. *)
Definition getEnergyFull (b : Battery) : res Z := energy (t_id b) "energy_full".

(** src/node/src/hwinfo/linux/battery.cpp:93-108, [Battery::energyNow]. *)
Definition energyNow (b : Battery) : res Z := energy (t_id b) "energy_now".

(** src/node/src/hwinfo/linux/battery.cpp:111-122, [Battery::charging]. *)
Definition charging (b : Battery) : bool := bool_decide (battery_line (t_id b) "status" = Some $"Charging").

(** src/node/src/hwinfo/linux/battery.cpp:125-125, [Battery::discharging]. *)
Definition discharging (b : Battery) : bool := negb (charging b).

(** src/node/src/hwinfo/battery.cpp:13-18, [Battery::vendor]. What is asked once
    is kept; the value and the battery after. *)
Definition battery_vendor (b : Battery) : str * Battery :=
  let v := match t_vendor b with [] => getVendor b | v => v end in
  (v, mkBattery (t_id b) v (t_model b) (t_serialNumber b) (t_technology b) (t_energyFull b)).

(** src/node/src/hwinfo/battery.cpp:21-26, [Battery::model]. *)
Definition battery_model (b : Battery) : str * Battery :=
  let v := match t_model b with [] => getModel b | v => v end in
  (v, mkBattery (t_id b) (t_vendor b) v (t_serialNumber b) (t_technology b) (t_energyFull b)).

(** src/node/src/hwinfo/battery.cpp:29-34, [Battery::serialNumber]. *)
Definition battery_serialNumber (b : Battery) : str * Battery :=
  let v := match t_serialNumber b with [] => getSerialNumber b | v => v end in
  (v, mkBattery (t_id b) (t_vendor b) (t_model b) v (t_technology b) (t_energyFull b)).

(** src/node/src/hwinfo/battery.cpp:37-42, [Battery::technology]. *)
Definition battery_technology (b : Battery) : str * Battery :=
  let v := match t_technology b with [] => getTechnology b | v => v end in
  (v, mkBattery (t_id b) (t_vendor b) (t_model b) (t_serialNumber b) v (t_energyFull b)).

(** src/node/src/hwinfo/battery.cpp:45-50, [Battery::energyFull]. *)
Definition energyFull (b : Battery) : res (Z * Battery) :=
  e ← (if t_energyFull b =? 0 then getEnergyFull b else mret (t_energyFull b));
  mret (e, mkBattery (t_id b) (t_vendor b) (t_model b) (t_serialNumber b) (t_technology b) e).

(** src/node/src/hwinfo/battery.cpp:53-53, [Battery::capacity]. *)
Definition capacity (b : Battery) : res (spec_float * Battery) :=
  now ← energyNow b;
  '(full, b') ← energyFull b;
  mret (SFdiv 53 1024 (of_Z now) (of_Z full), b').

(** src/node/src/hwinfo/linux/battery.cpp:129-136, [getAllBatteries]. The number
    has 8 bits. *)
Fixpoint batteries_from (turns : nat) (id : Z) : res (list Battery) :=
  match turns with
  | O => fail Endless
  | S turns' =>
      if exists_ (battery_path id) then
        bs ← batteries_from turns' (swrap 8 (id + 1)); mret (new_Battery id :: bs)
      else mret []
  end.

(** src/node/src/hwinfo/linux/battery.cpp:129-136, [getAllBatteries]. *)
Definition getAllBatteries (turns : nat) : res (list Battery) := batteries_from turns 0.

(** ** Networks *)

(** An address of an interface, as [getifaddrs] lists it, the text that
    [inet_ntop] makes of it with it. *)
Inductive address := Packet | Inet (ip : str) | Inet6 (ip : str) | OtherFamily.
Record ifaddr := mkIfaddr { ifa_name : str; ifa_addr : option address }.

(** src/node/src/include/hwinfo/network.h:10-30, [Network]. *)
Record Network := mkNetwork { w_index : str; w_description : str; w_mac : str; w_ip4 : str; w_ip6 : str }.

Section Interfaces.
Context (if_nametoindex : str -> Z) (ifaddrs : option (list ifaddr)).

(** src/node/src/hwinfo/linux/network.cpp:18-21, [getInterfaceIndex]. *)
Definition getInterfaceIndex (path : str) : str :=
  let index := if_nametoindex path in
  if 0 <? index then to_strz index else $"<unknown>".

(** src/node/src/hwinfo/linux/network.cpp:23-23, [getDescription]. *)
Definition getDescription (path : str) : str := path.

(** src/node/src/hwinfo/linux/network.cpp:25-33, [getMac]. *)
Definition getMac (path : str) : str :=
  match read_drm_by_path ($"/sys/class/net/" ++ path ++ $"/address") with
  | [] => $"<unknown>"
  | mac => mac
  end.

(** The first address that is taken. *)
Fixpoint first_ip (take_ : address -> option str) (interface : str) (l : list ifaddr) : str :=
  match l with
  | [] => $"<unknown>"
  | ifa :: l' =>
      match (a ← ifa_addr ifa; if decide (interface = ifa_name ifa) then take_ a else None) with
      | Some ip => ip
      | None => first_ip take_ interface l'
      end
  end.

(** src/node/src/hwinfo/linux/network.cpp:35-53, [getIp4]. *)
Definition getIp4 (interface : str) : str :=
  first_ip (fun a => match a with Inet ip => Some ip | _ => None end) interface (default [] ifaddrs).

(** src/node/src/hwinfo/linux/network.cpp:55-77, [getIp6]. Only an address that
    starts with fe80 is taken. *)
Definition getIp6 (interface : str) : str :=
  first_ip (fun a => match a with Inet6 ip => if starts_with ip $"fe80" then Some ip else None | _ => None end)
    interface (default [] ifaddrs).

(** src/node/src/hwinfo/linux/network.cpp:79-102, [getAllNetworks]. *)
Definition getAllNetworks : list Network :=
  omap (fun ifa =>
      match ifa_addr ifa with
      | Some Packet =>
          let interface := ifa_name ifa in
          Some (mkNetwork (getInterfaceIndex interface) (getDescription interface) (getMac interface)
                  (getIp4 interface) (getIp6 interface))
      | _ => None
      end) (default [] ifaddrs).

End Interfaces.
End Files.

(** ** The cards of a machine *)

(** What the files of a card say; the highest frequency, if there is one. *)
Record card := mkCard { c_vendor : str; c_device : str; c_max_MHz : option Z }.

Definition card_files (content : str -> option str) (id : Z) (c : card) : Prop :=
  c_vendor c <> [] /\ newline ∉ c_vendor c /\ c_device c <> [] /\ newline ∉ c_device c
  /\ content (card_path id ++ $"device/vendor") = Some (c_vendor c ++ [newline])
  /\ content (card_path id ++ $"device/device") = Some (c_device c ++ [newline])
  /\ content (card_path id ++ $"gt_min_freq_mhz") = None
  /\ content (card_path id ++ $"gt_cur_freq_mhz") = None
  /\ match c_max_MHz c with
     | Some f => HwCpu.in_int f = true /\ content (card_path id ++ $"gt_max_freq_mhz") = Some (to_strz f ++ [newline])
     | None => content (card_path id ++ $"gt_max_freq_mhz") = None
     end.

(** What is to be reported of it: the names of the data base, and 0 for a
    frequency that is not known. *)
Definition gpu_of (pci : gmap str PCIVendor) (id : Z) (c : card) : GPU :=
  let vendor := vendor_from_id pci (c_vendor c) in
  mkGPU (vendor_name vendor) (device_name (device_from_id vendor (c_device c))) [] 0
    (default 0 (c_max_MHz c)) 0 id (c_vendor c) (c_device c).

(** The cards from number [id] on, a place without a card for [None]. *)
Fixpoint cards_at (content : str -> option str) (exists_ : str -> bool) (id : Z) (cards : list (option card)) : Prop :=
  match cards with
  | [] => 2 < id /\ exists_ (card_path id) = false
  | Some c :: cards' => exists_ (card_path id) = true /\ card_files content id c /\ cards_at content exists_ (id + 1) cards'
  | None :: cards' => id <= 2 /\ exists_ (card_path id) = false /\ cards_at content exists_ (id + 1) cards'
  end.

Fixpoint gpus_of (pci : gmap str PCIVendor) (id : Z) (cards : list (option card)) : list GPU :=
  match cards with
  | [] => []
  | Some c :: cards' => gpu_of pci id c :: gpus_of pci (id + 1) cards'
  | None :: cards' => gpus_of pci (id + 1) cards'
  end.

Lemma read_line content path l :
  newline ∉ l -> l <> [] -> content path = Some (l ++ [newline]) -> read_drm_by_path content path = l.
Proof. intros H1 H2 Hc. unfold read_drm_by_path. rewrite Hc. by apply line_of_line. Qed.

Lemma read_missing content path : content path = None -> read_drm_by_path content path = [].
Proof. intros Hc. unfold read_drm_by_path. by rewrite Hc. Qed.

Lemma try_stoi_printed z : HwCpu.in_int z = true -> try_stoi (to_strz z) = inl (Some z).
Proof. intros H. unfold try_stoi. by rewrite HwCpu.in_int_stoi. Qed.

Lemma card_frequency content id c :
  card_files content id c -> exists a b, get_frequencies content (card_path id) = inl (a, b, default 0 (c_max_MHz c)).
Proof.
  intros (_ & _ & _ & _ & _ & _ & Hm & Hc & Hf). unfold get_frequencies.
  rewrite (read_missing _ _ Hm), (read_missing _ _ Hc). change (try_stoi []) with (inl None : res (option Z)).
  cbv [mbind res_bind]. destruct (c_max_MHz c) as [f|].
  - destruct Hf as [Hi Hf]. rewrite (read_line _ _ (to_strz f)) by (done || by apply to_strz_without || apply to_strz_nonempty).
    rewrite try_stoi_printed by done. eexists _, _. reflexivity.
  - rewrite (read_missing _ _ Hf). eexists _, _. reflexivity.
Qed.

Lemma gpus_from_cards content exists_ pci cards : forall turns id,
  cards_at content exists_ id cards -> (length cards < turns)%nat ->
  gpus_from content exists_ turns pci id = inl (gpus_of pci id cards).
Proof.
  induction cards as [|[c|] cards IH]; intros [|turns] id H Hl; simpl in Hl; try lia; cbn [gpus_from gpus_of]; cbv zeta.
  - destruct H as [Hi He]. rewrite He. cbn [negb]. by destruct (Z.ltb_spec 2 id); [|lia].
  - destruct H as (He & Hc & H). rewrite He. cbn [negb].
    pose proof (card_frequency content id c Hc) as (a & b & Hf).
    destruct Hc as (Hv & Hvn & Hd & Hdn & Cv & Cd & _).
    rewrite (read_line _ _ _ Hvn Hv Cv), (read_line _ _ _ Hdn Hd Cd).
    rewrite !bool_decide_eq_false_2 by done. cbn [orb]. rewrite Hf. cbv [mbind res_bind].
    by rewrite (IH turns) by (done || lia).
  - destruct H as (Hi & He & H). rewrite He. cbn [negb]. destruct (Z.ltb_spec 2 id); [lia|]. apply IH; [done|lia].
Qed.

(** The graphics cards of a machine: the numbers 0 to 2 may be without a card,
    the search ends at the first one after them; every card is reported with the
    names of the data base. *)
Theorem gpus_reported content exists_ home pci_ids pci cards turns
  (Hp : getMapper home pci_ids = inl pci) (Hc : cards_at content exists_ 0 cards)
  (Hl : (length cards < turns)%nat) :
  getAllGPUs content exists_ turns home pci_ids = inl (gpus_of pci 0 cards).
Proof. unfold getAllGPUs. rewrite Hp. by apply gpus_from_cards. Qed.

Definition quadro_files (path : str) : option str :=
  if decide (path = $"/sys/class/drm/card1/device/vendor") then Some $"0x0e11
" else if decide (path = $"/sys/class/drm/card1/device/device") then Some $"0xb203
" else None.
Definition quadro_there (path : str) : bool := bool_decide (path = $"/sys/class/drm/card1/").

Lemma gpus_reported_witness :
  getAllGPUs quadro_files quadro_there 10 (Some $"/root") (database_text excerpt)
  = inl [mkGPU $"Compaq Computer Corporation" $"Integrated Lights Out Controller" [] 0 0 0 1 $"0x0e11" $"0xb203"].
Proof.
  rewrite (gpus_reported quadro_files quadro_there (Some $"/root") (database_text excerpt) (database_of excerpt)
    [None; Some (mkCard $"0x0e11" $"0xb203" None); None] 10).
  - vm_compute. reflexivity.
  - cbn [getMapper]. apply database_parsed. by_decision.
  - cbn [cards_at]. split_and!; try reflexivity; try lia. split_and!; try done; by_decision.
  - simpl. lia.
Defined.

(** ** Batteries and networks *)

Lemma batteries_from_ends exists_ n : forall id,
  (forall i, i < 0 -> exists_ (battery_path i) = false) -> 0 <= id <= 127 -> 128 - id <= Z.of_nat n ->
  exists bs, batteries_from exists_ (S n) id = inl bs /\ Z.of_nat (length bs) <= 128 - id.
Proof.
  induction n as [|n IH]; intros id Hneg Hid Hn; [lia|]. remember (S n) as m eqn:Em. cbn [batteries_from].
  destruct (exists_ (battery_path id)).
  - destruct (decide (id = 127)) as [->|Hne].
    + subst m. change (swrap 8 (127 + 1)) with (-128). cbn [batteries_from]. rewrite Hneg by lia.
      eexists. split; [reflexivity|]. simpl. lia.
    + rewrite (swrap_small 8) by (simpl; lia). destruct (IH (id + 1)) as (bs & Hbs & Hl); [done|lia|lia|].
      subst m. rewrite Hbs. eexists. split; [reflexivity|]. simpl. lia.
  - eexists. split; [reflexivity|]. simpl. lia.
Qed.

(** The search for batteries ends, whatever is there, if only no name has a
    negative number: the number has 8 bits, and -128 comes after 127. *)
Theorem batteries_end exists_ (Hneg : forall i, i < 0 -> exists_ (battery_path i) = false) :
  exists bs, getAllBatteries exists_ 129 = inl bs /\ (length bs <= 128)%nat.
Proof.
  destruct (batteries_from_ends exists_ 128 0) as (bs & Hbs & Hl); [done|lia|lia|].
  exists bs. split; [exact Hbs|lia].
Qed.

Lemma batteries_end_witness :
  exists bs, getAllBatteries (fun path => bool_decide (path = battery_path 0)) 129 = inl bs /\ (length bs <= 128)%nat.
Proof.
  apply batteries_end. intros i Hi. apply bool_decide_eq_false_2. unfold battery_path.
  intros H%app_inv_head%app_inv_head. assert (i = 0) as ->; [|lia]. destruct i as [|p|p]; [done|lia|done].
Defined.

(** A battery whose files cannot be read again is still what it was: what is
    asked once is kept. *)
Theorem battery_kept content b :
  getVendor content b <> [] ->
  let '(v, b') := battery_vendor content b in
  forall content', battery_vendor content' b' = (v, b').
Proof.
  intros Hv. unfold battery_vendor. cbn [t_vendor t_id t_model t_serialNumber t_technology t_energyFull].
  destruct (t_vendor b); [|done]. intros content'. by destruct (getVendor content b).
Qed.

Lemma battery_kept_witness :
  let '(v, b') := battery_vendor (fun _ => Some $"BYD") (new_Battery 0) in
  forall content', battery_vendor content' b' = (v, b').
Proof. apply (battery_kept (fun _ => Some $"BYD") (new_Battery 0)). done. Defined.

(** The first address that is taken is that of the first entry of the interface
    that gives one. *)
Lemma first_ip_spec take_ interface l ip :
  first_ip take_ interface l = ip ->
  ip = $"<unknown>" \/ exists ifa a, ifa ∈ l /\ ifa_name ifa = interface /\ ifa_addr ifa = Some a /\ take_ a = Some ip.
Proof.
  intros <-. induction l as [|x l IH]; [by left|]. cbn [first_ip].
  destruct (ifa_addr x) as [a|] eqn:Ea; cbn [mbind option_bind].
  - destruct (decide (interface = ifa_name x)) as [E|].
    + destruct (take_ a) as [ip|] eqn:Et.
      * right. exists x, a. split_and!; [left|..]; done.
      * destruct IH as [IH|(y & b & Hy & H)]; [by left|]. right. exists y, b. split; [by right|done].
    + destruct IH as [IH|(y & b & Hy & H)]; [by left|]. right. exists y, b. split; [by right|done].
  - destruct IH as [IH|(y & b & Hy & H)]; [by left|]. right. exists y, b. split; [by right|done].
Qed.

(** A public IPv6 address is never reported: what is reported is link-local. *)
Theorem ip6_link_local ifaddrs interface :
  let ip := getIp6 ifaddrs interface in
  ip = $"<unknown>" \/ starts_with ip $"fe80" = true.
Proof.
  cbv zeta. destruct (first_ip_spec _ interface (default [] ifaddrs) (getIp6 ifaddrs interface) eq_refl) as [H|(ifa & a & _ & _ & _ & H)]; [by left|].
  right. revert H. generalize (getIp6 ifaddrs interface). intros r H. destruct a as [|ip|ip|]; try discriminate.
  destruct (starts_with ip $"fe80") eqn:E; [|done]. injection H as <-. exact E.
Qed.

End HwDevices.
