(* ===== verification/Db.v ===== *)
(** * The data base client ([src/db/rd/rd.cpp])

    A pool of connections behind two flags, [isUsing_] (a statement runs) and
    [isCheck_] (the connections are being checked). SOCI and MySQL are not the
    repository's code: what a statement does is an argument. *)

From S2P Require Import Prelude.

Module Db.

(** src/db/rd/rd.h:14-18, [Rd]. *)
Definition MAX_WAIT_ATTEMPTS : nat := 1000.

(** src/db/rd/rd.h:62-84, [Rd]. The flags and, for each connection of the
    pool, whether it is connected. *)
Record rd := mkRd {
  dbType_ : Z;
  isCheck_ : bool;
  isUsing_ : bool;
  pool_ : list bool;
}.

(** src/db/rd/rd.cpp:143-152, [Rd::waitForOperation]. [flag k] is the value of
    the [k]-th load; [left] is how many more attempts are allowed. *)
Fixpoint waitForOperation (left : nat) (flag : nat -> bool) (k : nat) : bool :=
  if flag k then
    match left with
    | O => false
    | S left' => waitForOperation left' flag (S k)
    end
  else true.

(** A call that no other thread interferes with loads the same value always. The
    operations of this file are such calls; [DbLife.access_step] has those of
    several threads. *)
Definition wait_alone (flag : bool) : bool :=
  waitForOperation MAX_WAIT_ATTEMPTS (fun _ => flag) 0.

(** src/db/rd/rd.cpp:116-135, [Rd::checkConnections]. [reconnect i] says
    whether reconnecting connection [i] works. *)
Fixpoint check_loop (needReconnect : bool) (reconnect : nat -> bool) (i : nat)
    (pool : list bool) : list bool :=
  match pool with
  | [] => []
  | c :: pool' =>
      (if c then true else if needReconnect then reconnect i else false)
        :: check_loop needReconnect reconnect (S i) pool'
  end.

(** src/db/rd/rd.cpp:106-141, [Rd::checkConnections]. *)
Definition checkConnections (needReconnect : bool) (reconnect : nat -> bool) (r : rd) : rd :=
  if negb (wait_alone (isUsing_ r)) then r
  else mkRd (dbType_ r) false (isUsing_ r)
         (if dbType_ r =? 1 then check_loop needReconnect reconnect 0 (pool_ r) else pool_ r).

(** What executing a statement comes to. *)
Inductive result :=
  | Rows (affected : Z)
  | SociError (message : str)
  | OtherError.

Definition lost_connection (message : str) : bool :=
  match sfind $"lost connection" message with Some _ => true | None => false end.

(** src/db/rd/rd.cpp:154-160, [Rd::handleDatabaseError]. *)
Definition handleDatabaseError (reconnect : nat -> bool) (message : str) (r : rd) : rd :=
  if lost_connection message then checkConnections true reconnect r else r.

(** src/db/rd/rd.cpp:162-196, [Rd::excuteSql]. The guard on [isUsing_] lives
    until the function returns, through the handlers too. *)
Definition excuteSql (reconnect : nat -> bool) (r : rd) (sql : str) (res : result) : Z * rd :=
  if negb (wait_alone (isCheck_ r)) then (-1, r)
  else
    let r1 := mkRd (dbType_ r) (isCheck_ r) true (pool_ r) in
    let '(v, r2) :=
      match sql with
      | [] => (-1, r1)
      | firstChar :: _ =>
          match res with
          | Rows n =>
              (if (0 <? n) || bool_decide (firstChar = "t"%char) || bool_decide (firstChar = "T"%char)
               then 1 else -1, r1)
          | SociError m => (-1, handleDatabaseError reconnect m r1)
          | OtherError => (-1, r1)
          end
      end in
    (v, mkRd (dbType_ r2) (isCheck_ r2) false (pool_ r2)).

(** src/db/rd/rd.cpp:198-217, [Rd::select]. [None] is an exception. *)
Definition select (reconnect : nat -> bool) (r : rd) (res : result) : option Z * rd :=
  if negb (wait_alone (isCheck_ r)) then (None, r)
  else
    let r1 := mkRd (dbType_ r) (isCheck_ r) true (pool_ r) in
    let '(v, r2) :=
      match res with
      | Rows n => (Some n, r1)
      | SociError m => (None, handleDatabaseError reconnect m r1)
      | OtherError => (None, r1)
      end in
    (v, mkRd (dbType_ r2) (isCheck_ r2) false (pool_ r2)).

(** src/db/rd/rd.cpp:44-49, [Rd::init]. [connect i] says whether connection [i]
    opens; an exception leaves the rest closed. *)
Fixpoint open_all (connect : nat -> bool) (i n : nat) : list bool * bool :=
  match n with
  | O => ([], true)
  | S n' => if connect i then let '(l, ok) := open_all connect (S i) n' in (true :: l, ok)
            else (replicate n false, false)
  end.
(** src/db/rd/rd.cpp:30-62, [Rd::init]. *)
Definition init (dbType : Z) (maxConn : nat) (connect : nat -> bool) : Z * rd :=
  let '(pool, ok) := if dbType =? 1 then open_all connect 0 maxConn
                     else (replicate maxConn false, true) in
  (if ok then 0 else -1, mkRd dbType false false pool).

(** src/db/rd/rd.cpp:64-92, [Rd::uInit]. *)
Definition uInit (r : rd) : Z * rd := (0, mkRd (dbType_ r) (isCheck_ r) (isUsing_ r) []).

(** ** The flags under concurrency

    Any number of threads in [excuteSql] or [select], and the check thread.
    Loading a flag and storing the other are separate steps. *)

Inductive upc := UIdle | UPassed | UUsing.
Inductive cpc := CIdle | CPassed | CChecking.

Record conc := mkConc { f_check : bool; f_using : bool; users : list upc; checker : cpc }.

Inductive action :=
  | ULoad (i : nat) | UEnter (i : nat) | ULeave (i : nat)
  | CLoad | CEnter | CLeave.

(** src/db/rd/rd.cpp:162-168, [Rd::excuteSql]. One atomic step of one thread;
    [None]: not enabled. *)
Definition cstep (s : conc) (a : action) : option conc :=
  match a with
  | ULoad i =>
      match users s !! i with
      | Some UIdle => if f_check s then None
                      else Some (mkConc (f_check s) (f_using s) (<[i := UPassed]> (users s)) (checker s))
      | _ => None
      end
  | UEnter i =>
      match users s !! i with
      | Some UPassed => Some (mkConc (f_check s) true (<[i := UUsing]> (users s)) (checker s))
      | _ => None
      end
  | ULeave i =>
      match users s !! i with
      | Some UUsing => Some (mkConc (f_check s) false (<[i := UIdle]> (users s)) (checker s))
      | _ => None
      end
  | CLoad => match checker s with
             | CIdle => if f_using s then None
                        else Some (mkConc (f_check s) (f_using s) (users s) CPassed)
             | _ => None
             end
  | CEnter => match checker s with
              | CPassed => Some (mkConc true (f_using s) (users s) CChecking)
              | _ => None
              end
  | CLeave => match checker s with
              | CChecking => Some (mkConc false (f_using s) (users s) CIdle)
              | _ => None
              end
  end.

Fixpoint crun (s : conc) (l : list action) : option conc :=
  match l with
  | [] => Some s
  | a :: l' => s' ← cstep s a; crun s' l'
  end.

Definition cinit (n : nat) : conc := mkConc false false (replicate n UIdle) CIdle.

(** ** Lemmas *)

Lemma wait_false n k : waitForOperation n (fun _ => false) k = true.
Proof. by destruct n. Qed.

Lemma wait_true n k : waitForOperation n (fun _ => true) k = false.
Proof. revert k. induction n as [|n IH]; intros k; simpl; [done|apply IH]. Qed.

Lemma wait_alone_negb b : wait_alone b = negb b.
Proof. destruct b; [apply wait_true|apply wait_false]. Qed.

Lemma handleDatabaseError_using reconnect m r :
  isUsing_ r = true -> handleDatabaseError reconnect m r = r.
Proof.
  intros H. unfold handleDatabaseError, checkConnections.
  rewrite H, wait_alone_negb. by destruct (lost_connection m).
Qed.

Lemma check_loop_all reconnect i pool :
  (forall j, reconnect j = true) ->
  Forall (eq true) (check_loop true reconnect i pool).
Proof.
  intros H. revert i. induction pool as [|c pool IH]; intros i; simpl; constructor; [|done].
  rewrite H. by destruct c.
Qed.

Lemma cstep_inv s a s' :
  cstep s a = Some s' ->
  (f_check s = true <-> checker s = CChecking) /\ (f_using s = true -> UUsing ∈ users s) ->
  (f_check s' = true <-> checker s' = CChecking) /\ (f_using s' = true -> UUsing ∈ users s').
Proof.
  intros Hs [Hc Hu]. destruct a as [i|i|i| | |]; simpl in Hs; simp_cases; simpl.
  - split; [done|]. intros Hf. specialize (Hu Hf). apply list_elem_of_lookup in Hu as [j Hj].
    apply list_elem_of_lookup. exists j. rewrite list_lookup_insert_ne; [done|].
    intros ->. congruence.
  - split; [done|]. intros _. apply list_elem_of_lookup. exists i.
    apply list_lookup_insert_eq. by eapply lookup_lt_Some.
  - done.
  - split; [|done]. split; [|done]. intros Hf. apply Hc in Hf. congruence.
  - done.
  - done.
Qed.

(** ** Properties *)

(** A lost connection is not repaired by the statement that notices it.
    [excuteSql] holds [isUsing_] while its handler runs, and the check the
    handler starts waits for [isUsing_] to be cleared, gives up after
    [MAX_WAIT_ATTEMPTS] polls and returns: the statement fails and the pool is
    left as it was, although reconnecting would have worked. A check outside
    any statement does reconnect every connection. *)
Theorem lost_connection_not_repaired reconnect r sql m :
  lost_connection m = true -> isCheck_ r = false -> isUsing_ r = false ->
  dbType_ r = 1 -> (forall i, reconnect i = true) ->
  excuteSql reconnect r sql (SociError m) = (-1, r) /\
  Forall (eq true) (pool_ (checkConnections true reconnect r)).
Proof.
  intros Hm Hc Hu Ht Hr. destruct r as [ty ck us pool]. simpl in *. subst. split.
  - unfold excuteSql. simpl isCheck_. rewrite wait_alone_negb. simpl negb. cbn iota.
    destruct sql as [|c sql]; [done|].
    by rewrite handleDatabaseError_using.
  - unfold checkConnections. rewrite wait_alone_negb. simpl. by apply check_loop_all.
Qed.

Lemma lost_connection_not_repaired_witness :
  let r := mkRd 1 false false [true; false] in
  excuteSql (fun _ => true) r $"select 1" (SociError $"2013 lost connection") = (-1, r) /\
  Forall (eq true) (pool_ (checkConnections true (fun _ => true) r)).
Proof.
  apply (lost_connection_not_repaired (fun _ => true)); reflexivity.
Defined.

(** What the flags mean under concurrency. With any number of statement
    threads and the check thread, in every reachable state [isCheck_] is set
    exactly while the check runs, and [isUsing_] set implies that some
    statement runs. The converse of the second fails and so does the exclusion
    the flags are for: with two statement threads there is a reachable state
    in which [isUsing_] is clear while a statement runs, and a reachable one in
    which the check runs beside a statement. *)
Theorem flags_meaning n :
  (forall l s, crun (cinit n) l = Some s ->
     (f_check s = true <-> checker s = CChecking) /\
     (f_using s = true -> UUsing ∈ users s)) /\
  (exists l s, crun (cinit 2) l = Some s /\ UUsing ∈ users s /\ f_using s = false) /\
  (exists l s, crun (cinit 2) l = Some s /\ UUsing ∈ users s /\ checker s = CChecking).
Proof.
  split_and!.
  - intros l. assert (forall s0, (f_check s0 = true <-> checker s0 = CChecking) /\
      (f_using s0 = true -> UUsing ∈ users s0) -> forall s, crun s0 l = Some s ->
      (f_check s = true <-> checker s = CChecking) /\ (f_using s = true -> UUsing ∈ users s)) as H.
    { induction l as [|a l IH]; intros s0 H0 s; simpl; [by intros; simplify_eq|].
      destruct (cstep s0 a) as [s1|] eqn:E; simpl; [|done].
      apply IH. by eapply cstep_inv. }
    apply H. by simpl.
  - exists [ULoad 0; UEnter 0; ULoad 1; UEnter 1; ULeave 0]. eexists.
    split; [vm_compute; reflexivity|]. split; [|done].
    apply list_elem_of_lookup. by exists 1%nat.
  - exists [ULoad 0; CLoad; UEnter 0; CEnter]. eexists.
    split; [vm_compute; reflexivity|]. split; [|done].
    apply list_elem_of_lookup. by exists 0%nat.
Qed.

End Db.
