(* ===== verification/DbLife.v ===== *)
(** * The life of the data base client

    [DbBase] of [src/db/DbBase.h] makes the one client of a program, and [Rd] of
    [src/db/rd/rd.cpp] keeps a thread that checks the connections. The operations
    are those of [Db], where a statement is one step; here are the construction, the
    thread, the destructor, and the statements again, in the steps in which those of
    several threads interleave. *)

From stdpp Require Import gmap.
From S2P Require Import Prelude Db.
Import Db.

Module DbLife.

(** src/db/rd/rd.cpp:94-100, [Rd::startCheck]. Where the thread is: before the test
    of [stopCheck_], asleep, or at its end. *)
Inductive place := Testing | Asleep | Finished.

(** src/db/rd/rd.h:70-83, [Rd]. [pool_reset]: [pool_] is null; no [checkThread_]
    when it has not been started. *)
Record client := mkClient {
  rd_ : rd;
  pool_reset : bool;
  stopCheck_ : bool;
  checkThread_ : option place;
}.

(** src/db/DbBase.h:42-54, [DbBase::DbBase]. With [Rd::init], whose result is not
    used: the thread is started last, when every connection has opened. *)
Definition construct (dbType : Z) (maxConn : nat) (connect : nat -> bool) : client :=
  let '(v, r) := init dbType maxConn connect in
  mkClient r false false (if v =? 0 then Some Testing else None).

(** The program with the client, or a null pointer is used. *)
Inductive outcome := Live (c : client) | NullPointer.

(** src/db/rd/rd.cpp:106-141, [Rd::checkConnections]. On the thread: the connections
    of a pool that has been reset are looked at when there are any. *)
Definition check (reconnect : nat -> bool) (c : client) : outcome :=
  if pool_reset c && (dbType_ (rd_ c) =? 1) && wait_alone (isUsing_ (rd_ c)) && bool_decide (pool_ (rd_ c) <> [])
  then NullPointer
  else Live (mkClient (checkConnections true reconnect (rd_ c)) (pool_reset c) (stopCheck_ c) (checkThread_ c)).

Definition set_place (p : place) (c : client) : client :=
  mkClient (rd_ c) (pool_reset c) (stopCheck_ c) (Some p).

(** src/db/rd/rd.cpp:94-100, [Rd::startCheck]. A step of the thread: the test, or
    the sleep and the check after it. *)
Definition check_step (reconnect : nat -> bool) (c : client) : outcome :=
  match checkThread_ c with
  | Some Testing => Live (set_place (if stopCheck_ c then Finished else Asleep) c)
  | Some Asleep => check reconnect (set_place Testing c)
  | _ => Live c
  end.

(** src/db/rd/rd.cpp:64-92, [Rd::uInit]. The pool is as long as it was for
    [maxConn_], which the thread uses. *)
Definition uInit (c : client) : client := mkClient (rd_ c) true true (checkThread_ c).

(** src/db/rd/rd.cpp:17-28, [Rd::~Rd]. [uInit], then the thread goes on until it has
    finished; [reconnect] is for its checks. *)
Definition destructor (reconnect : nat -> bool) (c : client) : outcome :=
  let on f x := match x with Live c => f c | NullPointer => NullPointer end in
  on (check_step reconnect) (check_step reconnect (uInit c)).

(** What happens to a client in use, one thing at a time; [result] is what a
    statement comes to. *)
Inductive event :=
  | Execute (reconnect : nat -> bool) (sql : str) (res : result)
  | Select (reconnect : nat -> bool) (res : result)
  | Check (reconnect : nat -> bool).

Definition happen (c : client) (e : event) : client :=
  match e with
  | Execute reconnect sql res =>
      mkClient (excuteSql reconnect (rd_ c) sql res).2 (pool_reset c) (stopCheck_ c) (checkThread_ c)
  | Select reconnect res =>
      mkClient (select reconnect (rd_ c) res).2 (pool_reset c) (stopCheck_ c) (checkThread_ c)
  | Check reconnect => match check_step reconnect c with Live c' => c' | NullPointer => c end
  end.

Definition use (c : client) (es : list event) : client := foldl happen c es.

(** ** Statements of several threads *)

(** Where a thread is in [excuteSql] or [select]: past the wait for [isCheck_];
    under its guard of [isUsing_]; in the handler of a lost connection, with so many
    polls of [isUsing_] left; past that wait; under its guard of [isCheck_]. *)
Inductive phase := Passed | Running | Polling (polls : nat) | Allowed | Checking.

(** The client and the statements under way, by thread. *)
Record shared := mkShared { client_ : client; underway : gmap nat phase }.

Definition set_flags (ck us : bool) (c : client) : client :=
  mkClient (mkRd (dbType_ (rd_ c)) ck us (pool_ (rd_ c))) (pool_reset c) (stopCheck_ c) (checkThread_ c).

Definition isCheck (s : shared) : bool := isCheck_ (rd_ (client_ s)).
Definition isUsing (s : shared) : bool := isUsing_ (rd_ (client_ s)).

(** A load of [isCheck_] that lets thread [i] pass; the guard; an error "lost
    connection" of its statement; a poll of [isUsing_]; the guard of the check; the
    check; the end of the statement. Or a step of the thread of the checks. *)
Inductive access :=
  | Begin (i : nat) | Enter (i : nat) | Lose (i : nat) | Poll (i : nat) | Guard (i : nat)
  | Repair (i : nat) (reconnect : nat -> bool) | Leave (i : nat)
  | Tick (reconnect : nat -> bool).

Definition at_phase (i : nat) (p : phase) (s : shared) : shared :=
  mkShared (client_ s) (<[i := p]> (underway s)).

(** src/db/rd/rd.cpp:162-196, [Rd::excuteSql]. A step, with [handleDatabaseError]
    (154-160) and [checkConnections] (106-141) in it; what a thread does not do where
    it is changes nothing. *)
Definition access_step (s : shared) (a : access) : shared :=
  match a with
  | Begin i =>
      match underway s !! i with
      | None => if isCheck s then s else at_phase i Passed s
      | Some _ => s
      end
  | Enter i =>
      match underway s !! i with
      | Some Passed => mkShared (set_flags (isCheck s) true (client_ s)) (<[i := Running]> (underway s))
      | _ => s
      end
  | Lose i =>
      match underway s !! i with
      | Some Running => at_phase i (Polling MAX_WAIT_ATTEMPTS) s
      | _ => s
      end
  | Poll i =>
      match underway s !! i with
      | Some (Polling n) =>
          if isUsing s then at_phase i (match n with O => Running | S n' => Polling n' end) s
          else at_phase i Allowed s
      | _ => s
      end
  | Guard i =>
      match underway s !! i with
      | Some Allowed => mkShared (set_flags true (isUsing s) (client_ s)) (<[i := Checking]> (underway s))
      | _ => s
      end
  | Repair i reconnect =>
      match underway s !! i with
      | Some Checking =>
          let r := rd_ (client_ s) in
          let pool := if dbType_ r =? 1 then check_loop true reconnect 0 (pool_ r) else pool_ r in
          mkShared (mkClient (mkRd (dbType_ r) false (isUsing s) pool) (pool_reset (client_ s))
                      (stopCheck_ (client_ s)) (checkThread_ (client_ s)))
            (<[i := Running]> (underway s))
      | _ => s
      end
  | Leave i =>
      match underway s !! i with
      | Some Running => mkShared (set_flags (isCheck s) false (client_ s)) (delete i (underway s))
      | _ => s
      end
  | Tick reconnect =>
      match check_step reconnect (client_ s) with
      | Live c => mkShared c (underway s)
      | NullPointer => s
      end
  end.

Definition accesses (s : shared) (l : list access) : shared := foldl access_step s l.

(** At no moment are two statements under way. *)
Fixpoint one_at_a_time (s : shared) (l : list access) : bool :=
  (size (underway s) <=? 1)%nat &&
  match l with [] => true | a :: l' => one_at_a_time (access_step s a) l' end.

(** src/db/DbBase.h:17-25, [DbBase::getDbInstance]. [instance] is [dbInstance_]. *)
Definition getDbInstance {A} (make : A -> client) (a : A) (instance : option client) : client * option client :=
  match instance with
  | None => let c := make a in (c, Some c)
  | Some c => (c, Some c)
  end.

(** ** Lemmas *)

(** Between the statements no flag is set. *)
Definition idle (r : rd) : Prop := isCheck_ r = false /\ isUsing_ r = false.

Lemma excute_idle reconnect r sql res : idle r -> (excuteSql reconnect r sql res).2 = r.
Proof.
  intros [Hc Hu]. destruct r as [ty ck us pool]. simpl in *. subst. unfold excuteSql. simpl isCheck_.
  rewrite wait_alone_negb. simpl negb. cbn iota.
  destruct sql as [|c sql]; [done|]. destruct res as [n|m|]; [by case_match|by rewrite handleDatabaseError_using|done].
Qed.

Lemma select_idle reconnect r res : idle r -> (select reconnect r res).2 = r.
Proof.
  intros [Hc Hu]. destruct r as [ty ck us pool]. simpl in *. subst. unfold select. simpl isCheck_.
  rewrite wait_alone_negb. simpl negb. cbn iota.
  destruct res as [n|m|]; [done|by rewrite handleDatabaseError_using|done].
Qed.

Lemma check_idle reconnect r : idle r -> idle (checkConnections true reconnect r).
Proof. intros [Hc Hu]. unfold checkConnections. rewrite Hu, wait_alone_negb. simpl. by split. Qed.

Lemma open_all_failed connect i n : (open_all connect i n).2 = false -> false ∈ (open_all connect i n).1.
Proof.
  revert i. induction n as [|n IH]; intros i; simpl; [done|].
  destruct (connect i); [|intros _; by constructor].
  specialize (IH (S i)). destruct (open_all connect (S i) n) as [l ok]. simpl in *. intros H.
  constructor. by apply IH.
Qed.

Lemma init_idle ty n connect : idle (init ty n connect).2.
Proof. unfold init. by destruct (if ty =? 1 then _ else _). Qed.

Lemma construct_rd ty n connect : rd_ (construct ty n connect) = (init ty n connect).2.
Proof. unfold construct. by destruct (init ty n connect). Qed.

(** The invariant of a client in use: idle, not reset, not stopped, and its thread,
    if it has one, still there. *)
Record in_use (c c0 : client) : Prop := mkInUse {
  use_idle : idle (rd_ c);
  use_reset : pool_reset c = false;
  use_stop : stopCheck_ c = false;
  use_type : dbType_ (rd_ c) = dbType_ (rd_ c0);
  use_thread : match checkThread_ c0 with
               | None => checkThread_ c = None /\ rd_ c = rd_ c0
               | Some _ => checkThread_ c = Some Testing \/ checkThread_ c = Some Asleep
               end;
}.

Lemma happen_in_use c c0 e : in_use c c0 -> in_use (happen c e) c0.
Proof.
  intros [Hi Hr Hs Ht Hth]. destruct e as [reconnect sql res|reconnect res|reconnect]; simpl.
  - rewrite excute_idle by done. by destruct c.
  - rewrite select_idle by done. by destruct c.
  - unfold check_step. destruct (checkThread_ c) as [[]|] eqn:Hp; [| |split; try done; rewrite Hp; destruct (checkThread_ c0); naive_solver..].
    + rewrite Hs. split; try done. simpl. destruct (checkThread_ c0); [by right|destruct Hth; congruence].
    + unfold check. simpl. rewrite Hr. simpl. split; simpl; try done.
      * by apply check_idle.
      * rewrite <- Ht. unfold checkConnections. by destruct (negb _).
      * destruct (checkThread_ c0); [by left|destruct Hth; congruence].
Qed.

Lemma construct_in_use ty n connect : in_use (construct ty n connect) (construct ty n connect).
Proof.
  split; [rewrite construct_rd; apply init_idle| | |done|];
    unfold construct; destruct (init ty n connect) as [v r]; simpl; [done..|].
  destruct (v =? 0); [by left|done].
Qed.

Lemma use_in_use c c0 es : in_use c c0 -> in_use (use c es) c0.
Proof. revert c. induction es as [|e es IH]; intros c H; [done|]. by apply IH, happen_in_use. Qed.

(** ** Theorems *)

(** What a statement that is alone has made of the flags: it never gets as far as
    the check. *)
Definition alone (s : shared) : Prop :=
  isCheck s = false /\
  ((underway s = ∅ /\ isUsing s = false) \/
   exists i p, underway s = {[i := p]} /\
     match p with
     | Passed => isUsing s = false
     | Running | Polling _ => isUsing s = true
     | Allowed | Checking => False
     end).

Definition kept (c0 : client) (s : shared) : Prop :=
  checkThread_ (client_ s) = None /\ pool_ (rd_ (client_ s)) = pool_ (rd_ c0).

(** The thread of an access. *)
Definition of_thread (a : access) : option nat :=
  match a with
  | Begin i | Enter i | Lose i | Poll i | Guard i | Repair i _ | Leave i => Some i
  | Tick _ => None
  end.

(** What a thread does that is the only one in a statement. *)
Lemma own_access c0 c i p a :
  kept c0 (mkShared c {[i := p]}) -> alone (mkShared c {[i := p]}) ->
  default i (of_thread a) = i ->
  kept c0 (access_step (mkShared c {[i := p]}) a) /\ alone (access_step (mkShared c {[i := p]}) a).
Proof.
  intros Hk Ha Hi. pose proof Ha as [Hc [[He _]|(j & p' & Hs & Hp)]];
    [by apply (f_equal (lookup i)) in He; cbn in He; rewrite lookup_singleton_eq, lookup_empty in He|].
  cbn [underway] in Hs. assert (j = i /\ p' = p) as [-> ->].
  { apply (f_equal (lookup j)) in Hs. rewrite lookup_singleton_eq in Hs.
    apply lookup_singleton_Some in Hs as [-> ->]. done. }
  pose proof Hk as [Hth Hpool]. cbn [client_] in Hth.
  assert (forall q : phase, <[i := q]> {[i := p]} = ({[i := q]} : gmap nat phase)) as Hins
    by (intros; apply insert_singleton_eq).
  destruct a as [j|j|j|j|j|j rc|j|rc]; cbn [access_step underway of_thread default from_option id] in *;
    try subst j;
    rewrite ?lookup_singleton_eq; [done| | | | | | |unfold check_step; cbn [client_]; by rewrite Hth].
  - destruct p; try (by split). split; [done|]. split; [done|]. right. exists i, Running. split; [apply Hins|done].
  - destruct p; try (by split). split; [done|]. split; [done|]. right. eexists i, _. split; [apply Hins|]. exact Hp.
  - destruct p as [| |n| |]; try (by split). rewrite Hp. split; [done|]. split; [done|]. right.
    eexists i, _. split; [apply Hins|]. by destruct n.
  - destruct p; by split.
  - destruct p; by split.
  - destruct p; try (by split). split; [done|]. split; [done|]. left. split; [apply delete_singleton_eq|done].
Qed.

Lemma access_alone c0 s a :
  kept c0 s -> alone s -> (size (underway (access_step s a)) <= 1)%nat ->
  kept c0 (access_step s a) /\ alone (access_step s a).
Proof.
  intros Hk Ha Hsize. pose proof Ha as [Hc [[Hs Hus]|(i & p & Hs & Hp)]]; destruct s as [c m];
    cbn [underway] in Hs; subst m.
  - destruct a as [j|j|j|j|j|j rc|j|rc]; cbn [access_step underway]; rewrite ?lookup_empty; try by split.
    + rewrite Hc. split; [done|]. split; [done|]. right. exists j, Passed. split; [|done].
      apply insert_empty.
    + unfold check_step. pose proof (proj1 Hk) as Hth. cbn [client_] in *. rewrite Hth. by split.
  - destruct (decide (default i (of_thread a) = i)) as [Hi|Hi]; [by apply own_access|].
    destruct a as [j|j|j|j|j|j rc|j|rc]; cbn [access_step underway of_thread default from_option id] in *;
      try (by split);
      rewrite lookup_singleton_ne in * by done; try by split.
    exfalso. rewrite Hc in Hsize. cbn [underway at_phase] in Hsize.
    rewrite map_size_insert_None, map_size_singleton in Hsize by (by rewrite lookup_singleton_ne). lia.
Qed.

(** C15. When one connection does not open at the start, the program goes on with
    what it has: no thread checks the connections, and as long as no two threads are
    in a statement at the same time, no statement opens one, whatever it comes to:
    the closed connection stays closed. *)
Theorem down_at_start_stays_down (ty : Z) (maxConn : nat) connect (l : list access) :
  (init ty maxConn connect).1 = -1 ->
  let c := construct ty maxConn connect in
  let s := accesses (mkShared c ∅) l in
  one_at_a_time (mkShared c ∅) l = true ->
  pool_ (rd_ (client_ s)) = pool_ (rd_ c) /\ checkThread_ (client_ s) = None /\ false ∈ pool_ (rd_ c).
Proof.
  intros Hi c s Hone. assert (checkThread_ c = None) as Hc
    by (subst c; unfold construct; destruct (init _ _ _) as [v r]; simpl in *; by subst).
  assert (alone (mkShared c ∅)) as Ha.
  { destruct (use_idle _ _ (construct_in_use ty maxConn connect)) as [H1 H2]. split; [exact H1|].
    left. split; [done|exact H2]. }
  assert (kept c (mkShared c ∅)) as Hk by done.
  assert (kept c s) as [Hs1 Hs2].
  { subst s. generalize dependent (mkShared c ∅). induction l as [|a l IH]; intros s Hone Ha Hk; [done|].
    cbn [one_at_a_time] in Hone. apply andb_true_iff in Hone as [_ Hone]. cbn [accesses foldl].
    assert (size (underway (access_step s a)) <= 1)%nat as Hsz.
    { destruct l; cbn [one_at_a_time] in Hone; apply andb_true_iff in Hone as [Hone _]; by apply Nat.leb_le. }
    destruct (access_alone c s a Hk Ha Hsz) as [Hk' Ha']. by apply IH. }
  split; [done|]. split; [done|]. subst c. rewrite construct_rd.
  revert Hi. unfold init. destruct (ty =? 1); [|done].
  pose proof (open_all_failed connect 0 maxConn) as H. destruct (open_all connect 0 maxConn) as [pool []]; [done|].
  intros _. by apply H.
Qed.

(** Two statements that overlap can open it: the end of the one clears [isUsing_]
    while the other, which has lost its connection, waits for that, so that the
    check it asks for runs. *)
Theorem overlap_reopens :
  let c := construct 1 1 (fun _ => false) in
  pool_ (rd_ c) = [false] /\ checkThread_ c = None /\
  pool_ (rd_ (client_ (accesses (mkShared c ∅)
    [Begin 0; Enter 0; Begin 1; Enter 1; Lose 0; Poll 0; Leave 1; Poll 0; Guard 0;
     Repair 0 (fun _ => true); Leave 0]))) = [true].
Proof. vm_compute. by split_and!. Qed.

(** When all connections open, the thread is there for good, and within two of
    its steps from any moment every connection of a MySQL pool is up again, if
    connecting works then. *)
Theorem check_repairs (maxConn : nat) connect (es : list event) (reconnect : nat -> bool) :
  (init 1 maxConn connect).1 = 0 -> (forall i, reconnect i = true) ->
  let c := use (construct 1 maxConn connect) es in
  exists k, (k <= 2)%nat /\ Forall (eq true) (pool_ (rd_ (use c (replicate k (Check reconnect))))).
Proof.
  intros Hi Hrec c. assert (checkThread_ (construct 1 maxConn connect) = Some Testing /\
    dbType_ (rd_ (construct 1 maxConn connect)) = 1) as [Hc Hty].
  { unfold construct. destruct (init 1 maxConn connect) as [v r] eqn:E. simpl in *. subst v. split; [done|].
    unfold init in E. destruct (if 1 =? 1 then _ else _) as [pool ok]. by injection E as _ <-. }
  destruct (use_in_use _ _ es (construct_in_use 1 maxConn connect)) as [[Hck Hus] Hr Hs Ht Hth].
  rewrite Hc in Hth. fold c in Hr, Hs, Ht, Hth, Hck, Hus.
  rewrite Hty in Ht. clear Hc Hty Hi. clearbody c.
  assert (forall c' : client, checkThread_ c' = Some Asleep -> rd_ c' = rd_ c -> pool_reset c' = false ->
    Forall (eq true) (pool_ (rd_ (happen c' (Check reconnect))))) as Hstep.
  { intros c' H1 H2 H3. simpl. unfold check_step. rewrite H1. unfold check. simpl. rewrite H3. simpl. rewrite H2.
    unfold checkConnections. rewrite Hus, wait_alone_negb. simpl. rewrite Ht. simpl.
    by apply check_loop_all. }
  destruct Hth as [Hth|Hth].
  - exists 2%nat. split; [lia|]. cbn [replicate use foldl]. apply Hstep;
      unfold happen, check_step; rewrite Hth, Hs; done.
  - exists 1%nat. split; [lia|]. by apply Hstep.
Qed.

(** Destroying the client uses a null pointer whenever its thread is asleep, that
    is but for an instant every five minutes: the pool is reset, and the thread
    then checks the connections before it looks at [stopCheck_]. *)
Theorem destructor_uses_null (maxConn : nat) connect (es : list event) (reconnect : nat -> bool) :
  let c := use (construct 1 maxConn connect) es in
  pool_ (rd_ c) <> [] -> checkThread_ c = Some Asleep -> destructor reconnect c = NullPointer.
Proof.
  intros c Hne Ha. destruct (use_in_use _ _ es (construct_in_use 1 maxConn connect)) as [[_ Hus] _ _ Ht _].
  fold c in Hus, Ht. rewrite construct_rd in Ht.
  assert (dbType_ (init 1 maxConn connect).2 = 1) as Hty by (unfold init; by destruct (if 1 =? 1 then _ else _)).
  rewrite Hty in Ht. clear Hty. clearbody c. unfold destructor, check_step, uInit. simpl. rewrite Ha.
  unfold check. simpl. rewrite Hus, wait_alone_negb, Ht. simpl. by rewrite bool_decide_true.
Qed.

(** The first data base a program asks for is the one it has: the arguments of
    later calls are not looked at. *)
Theorem first_database_stays {A} (make : A -> client) (a b : A) (instance : option client) :
  let '(c, i) := getDbInstance make a instance in getDbInstance make b i = (c, Some c).
Proof. by destruct instance. Qed.

(** Two statements one after the other, the first of which polls in vain. *)
Definition two_statements : list access :=
  [Begin 0; Enter 0; Lose 0] ++ replicate 1001 (Poll 0) ++ [Leave 0; Begin 1; Enter 1; Leave 1; Tick (fun _ => true)].

Lemma down_at_start_stays_down_witness :
  let c := construct 1 3 (fun i => bool_decide (i <> 1%nat)) in
  pool_ (rd_ (client_ (accesses (mkShared c ∅) two_statements))) = [true; false; false] /\
  underway (accesses (mkShared c ∅) two_statements) = ∅.
Proof.
  intros c. split; [|vm_compute; reflexivity].
  etransitivity; [apply (down_at_start_stays_down 1 3); vm_compute; reflexivity|reflexivity].
Defined.

Lemma check_repairs_witness :
  exists k, (k <= 2)%nat /\
    Forall (eq true) (pool_ (rd_ (use (use (construct 1 2 (fun _ => true)) [Check (fun _ => true)])
                                      (replicate k (Check (fun _ => true)))))).
Proof. apply (check_repairs 2 (fun _ => true) [Check (fun _ => true)] (fun _ => true)); reflexivity. Defined.

End DbLife.
