(* ===== verification/Json.v ===== *)
(** * JSON documents ([rapidjson], used by [src/node/src/NodeCmdTopic.cpp] and
    [src/utils/aws/s3/FileWatcher.h])

    A document is a value; [write] is the text the library's writer makes of
    it. Parsing is an argument of the definitions that parse. *)

From S2P Require Import Prelude.

Module Json.

Inductive json :=
  | JNull
  | JBool (b : bool)
  | JInt (z : Z)
  | JString (s : str)
  | JArray (l : list json)
  | JObject (l : list (str * json)).

Definition hex_digit (n : nat) : ascii :=
  default "0"%char ($"0123456789ABCDEF" !! n).

Definition quote : ascii := Ascii.ascii_of_nat 34.

(** src/third_party/rapidjson/writer.h:378-391, [Writer::WriteString]. The
    escape table, for the encoding the program uses. *)
Definition escape (c : ascii) : str :=
  match nat_of_ascii c with
  | 8%nat => $"\b" | 9%nat => $"\t" | 10%nat => $"\n" | 12%nat => $"\f" | 13%nat => $"\r"
  | 34%nat => ["\"%char; quote]
  | 92%nat => $"\\"
  | n => if (n <? 32)%nat
         then $"\u00" ++ [hex_digit (n / 16); hex_digit (n mod 16)]
         else [c]
  end.

(** src/third_party/rapidjson/writer.h:393-452, [Writer::WriteString]. *)
Definition write_string (s : str) : str := [quote] ++ (s ≫= escape) ++ [quote].

Fixpoint commas (l : list str) : str :=
  match l with [] => [] | [x] => x | x :: l' => x ++ $"," ++ commas l' end.

(** What [Writer] makes of a document that [Accept]s it. *)
Fixpoint write (j : json) : str :=
  match j with
  | JNull => $"null"
  | JBool b => if b then $"true" else $"false"
  | JInt z => to_strz z
  | JString s => write_string s
  | JArray l => $"[" ++ commas (map write l) ++ $"]"
  | JObject l =>
      $"{" ++ commas (map (fun '(k, v) => write_string k ++ $":" ++ write v) l) ++ $"}"
  end.

Definition is_null (j : json) : bool := match j with JNull => true | _ => false end.

(** ** Lemmas *)

(** An escaped string holds no bare quote: every quote in it follows a
    backslash that is not itself escaped. *)
Fixpoint no_bare_quote (s : str) : bool :=
  match s with
  | [] => true
  | c :: s' =>
      if bool_decide (c = "\"%char) then
        match s' with [] => false | _ :: s'' => no_bare_quote s'' end
      else if bool_decide (c = quote) then false else no_bare_quote s'
  end.

Lemma escape_closed c s : no_bare_quote (escape c ++ s) = no_bare_quote s.
Proof. by destruct c as [[] [] [] [] [] [] [] []]. Qed.

Lemma write_string_closed s : no_bare_quote (s ≫= escape) = true.
Proof.
  induction s as [|c s IH]; [done|].
  change ((c :: s) ≫= escape) with (escape c ++ (s ≫= escape)).
  by rewrite escape_closed.
Qed.


(** Reading one escaped char back. *)
Definition hex_value (c : ascii) : nat :=
  let n := nat_of_ascii c in if (n <? 65)%nat then (n - 48)%nat else (n - 55)%nat.

Definition unescape1 (s : str) : option (ascii * str) :=
  match s with
  | [] => None
  | c :: s' =>
      if bool_decide (c = "\"%char) then
        match s' with
        | [] => None
        | d :: s'' =>
            if bool_decide (d = "u"%char) then
              match s'' with
              | _ :: _ :: h :: l :: r =>
                  Some (ascii_of_nat (16 * hex_value h + hex_value l), r)
              | _ => None
              end
            else if bool_decide (d = "b"%char) then Some (ascii_of_nat 8, s'')
            else if bool_decide (d = "t"%char) then Some (ascii_of_nat 9, s'')
            else if bool_decide (d = "n"%char) then Some (ascii_of_nat 10, s'')
            else if bool_decide (d = "f"%char) then Some (ascii_of_nat 12, s'')
            else if bool_decide (d = "r"%char) then Some (ascii_of_nat 13, s'')
            else Some (d, s'')
        end
      else Some (c, s')
  end.

Lemma unescape1_escape c s : unescape1 (escape c ++ s) = Some (c, s).
Proof. by destruct c as [[] [] [] [] [] [] [] []]. Qed.

(** The string ends at the first bare quote, and is read back as written. *)
Fixpoint unescape (fuel : nat) (s : str) : option (str * str) :=
  match fuel with
  | O => None
  | S fuel' =>
      match s with
      | [] => None
      | c :: r =>
          if bool_decide (c = quote) then Some ([], r)
          else '(d, r') ← unescape1 s; '(t, r'') ← unescape fuel' r'; Some (d :: t, r'')
      end
  end.

Definition read_string (s : str) : option (str * str) :=
  match s with
  | c :: r => if bool_decide (c = quote) then unescape (length s) r else None
  | [] => None
  end.

Lemma escape_cons c : exists d t, escape c = d :: t /\ d <> quote.
Proof. destruct c as [[] [] [] [] [] [] [] []]; eexists _, _; (split; [reflexivity|done]). Qed.

Lemma unescape_escape s r fuel :
  (length s < fuel)%nat -> unescape fuel ((s ≫= escape) ++ [quote] ++ r) = Some (s, r).
Proof.
  revert fuel. induction s as [|c s IH]; intros [|fuel] Hf; simpl in Hf; try lia.
  - done.
  - change ((c :: s) ≫= escape) with (escape c ++ (s ≫= escape)).
    rewrite <- (assoc_L (++)). destruct (escape_cons c) as (d & t & E & Hd).
    cbn [unescape]. rewrite E. cbn [app]. rewrite bool_decide_false by done.
    change (d :: t ++ ?x) with ((d :: t) ++ x). rewrite <- E, unescape1_escape.
    cbn. rewrite IH by lia. done.
Qed.

Lemma read_write_string s r : read_string (write_string s ++ r) = Some (s, r).
Proof.
  unfold write_string, read_string. rewrite <- !(assoc_L (++)). cbn [app].
  rewrite bool_decide_true by done. apply unescape_escape.
  cbn [length]. rewrite !length_app. simpl.
  enough (length s <= length (s ≫= escape))%nat by lia.
  induction s as [|c s IH]; [done|].
  change ((c :: s) ≫= escape) with (escape c ++ (s ≫= escape)). rewrite length_app. simpl.
  destruct (escape_cons c) as (d & t & -> & _). simpl. lia.
Qed.

#[export] Instance write_string_inj : Inj (=) (=) write_string.
Proof.
  intros a b E. pose proof (read_write_string a []) as Ha.
  rewrite E, read_write_string in Ha. by simplify_eq.
Qed.

End Json.
