(* ===== verification/NodeCmd.v ===== *)
(** * The command topic ([src/node/src/NodeCmdTopic.cpp])

    The managing node sends the rows of table [node_cmd] whose status is 1 and
    stores the replies; the other nodes put the commands addressed to them into
    one of two queues and send the replies the workers queue. A row of a
    result set is a list of cells, [None] being SQL's null. *)

From S2P Require Import Prelude StrUtil Json Messages.
Import Json Messages.

Module NodeCmdTopic.

(** ** The sender: table [node_cmd] *)

Inductive cell := Text (s : str) | Num (z : Z).

Abbreviation row := (list (option cell)).

(** [row.get<std::string>(i)], which throws on a null cell too, and the same with
    a value for a null cell. *)
Definition get_string (r : row) (i : nat) : option str :=
  match r !! i with Some (Some (Text s)) => Some s | _ => None end.
Definition get_string_or (r : row) (i : nat) (s : str) : option str :=
  match r !! i with Some None => Some s | _ => get_string r i end.

(** [row.get<std::string>(i)] unless the cell is null; [None] is the exception
    of a cell of another type or of no such column. *)
Definition get_text (r : row) (i : nat) : option str :=
  match r !! i with
  | Some None => Some []
  | Some (Some (Text s)) => Some s
  | _ => None
  end.

(** The same for a [long long] that is made an enum. *)
Definition get_enum (r : row) (i : nat) : option Z :=
  match r !! i with
  | Some None => Some 0
  | Some (Some (Num z)) => Some (swrap 32 z)
  | _ => None
  end.

(** src/node/src/NodeCmdTopic.cpp:436-541, [NodeCmdTopic::fill_cmd_message]. *)
Definition fill_cmd_message (r : row) : option NodeCmd :=
  uuid ← get_text r 0;
  to_node_id ← get_text r 1;
  src_node_id ← get_text r 3;
  src_node_name ← get_text r 4;
  to_group ← get_text r 6;
  cmd ← get_text r 7;
  paras ← get_text r 8;
  paras_1 ← get_text r 13;
  paras_2 ← get_text r 14;
  cmd_type ← get_enum r 11;
  podman_cmd ← get_enum r 15;
  Some (mkNodeCmd uuid src_node_id src_node_name to_node_id to_group cmd_type podman_cmd
          cmd paras paras_1 paras_2).

(** [row.get<long long>(12)]: the key of the row. *)
Definition get_id (r : row) : option Z :=
  match r !! 12%nat with Some (Some (Num z)) => Some z | _ => None end.

(** src/node/src/NodeCmdTopic.cpp:545-546, [NodeCmdTopic::update_cmd_status]. *)
Definition update_sql (id status : Z) : str :=
  $"update node_cmd set comm_status_id=" ++ to_strz status ++ $" where id=" ++ to_strz id.

Section Writer.
Context {E : Type}.
(** One publication, [false] being an exception, and one statement executed. *)
Context (put : E -> NodeCmd -> bool * E) (excuteSql : E -> str -> Z * E).

(** src/node/src/NodeCmdTopic.cpp:170-185, [NodeCmdTopic::send_cmd]. *)
Definition send_cmd (e : E) (c : NodeCmd) : bool * E :=
  let '(ok, e') := put e c in (if ok : bool then true else false, e').

(** src/node/src/NodeCmdTopic.cpp:544-550, [NodeCmdTopic::update_cmd_status]. *)
Definition update_cmd_status (e : E) (id status : Z) : E :=
  snd (excuteSql e (update_sql id status)).

(** src/node/src/NodeCmdTopic.cpp:98-108, [NodeCmdTopic::writer_worker]. The
    rows that [select] returned; the commands sent. An exception ends the turn
    (the key is read after the command is sent). *)
Fixpoint send_rows (e : E) (rows : list row) : list NodeCmd * E :=
  match rows with
  | [] => ([], e)
  | r :: rows' =>
      match fill_cmd_message r with
      | None => ([], e)
      | Some c =>
          let '(ok, e1) := send_cmd e c in
          if ok : bool then
            match get_id r with
            | None => ([c], e1)
            | Some id =>
                let '(sent, e2) := send_rows (update_cmd_status e1 id 2) rows' in
                (c :: sent, e2)
            end
          else send_rows e1 rows'
      end
  end.

(** src/node/src/NodeCmdTopic.cpp:88-117, [NodeCmdTopic::writer_worker].
    [select] is the query for the rows whose [comm_status_id] is 1; [None] is
    its exception. [turns] of the loop. *)
Fixpoint writer_worker (select : E -> option (list row)) (turns : nat) (e : E)
    : list NodeCmd * E :=
  match turns with
  | O => ([], e)
  | S turns' =>
      let '(sent, e1) := match select e with None => ([], e) | Some rows => send_rows e rows end in
      let '(sent', e2) := writer_worker select turns' e1 in (sent ++ sent', e2)
  end.

End Writer.

(** ** The receiver *)

(** src/node/src/NodeCmdTopic.cpp:214-229, [NodeCmdTopic::handle_cmd]. *)
Definition to_file_queue (cmd_type : Z) : bool :=
  match cmd_of_Z cmd_type with
  | Some (LS | MKDIR | DELDIR | DEL | SENDFILE | ZIP | DZIP | GETS3FILE | PUTS3FILE
         | LSS3BUCKETS | DELS3FILE | ADDS3WATCH | RMS3WATCH | LSS3WATCH | MKFILE | CPFILE) => true
  | _ => false
  end.

(** The two command queues of a node ([fileDataQueueIn_], [mainCmdQueueIn_]). *)
Record queues := mkQueues { fileDataQueueIn_ : list NodeCmd; mainCmdQueueIn_ : list NodeCmd }.

(** src/node/src/NodeCmdTopic.cpp:205-246, [NodeCmdTopic::handle_cmd]. *)
Definition handle_cmd (needReply : bool) (nodeId : str) (c : NodeCmd) (q : queues) : queues :=
  if needReply && bool_decide (nodeId = c_to_node_id c) then
    if to_file_queue (c_cmd_type c)
    then mkQueues (fileDataQueueIn_ q ++ [c]) (mainCmdQueueIn_ q)
    else mkQueues (fileDataQueueIn_ q) (mainCmdQueueIn_ q ++ [c])
  else q.

(** What became of a reply taken from the queue of the file worker or of the main
    worker: it was published, or the publication threw. *)
Record outcome := mkOutcome { o_file : bool; o_sent : bool; o_reply : NodeCmdReply }.

Section Replies.
(** [reply_publisher_->put], [false] when it throws; the publisher has been
    declared. *)
Context {B : Type} (put : B -> NodeCmdReply -> bool * B).

(** src/node/src/NodeCmdTopic.cpp:187-203, [NodeCmdTopic::send_reply]. An exception
    is caught; nobody looks at the result. *)
Definition send_reply (file : bool) (b : B) (r : NodeCmdReply) : list outcome * B :=
  let '(ok, b') := put b r in ([mkOutcome file ok r], b').

(** src/node/src/NodeCmdTopic.cpp:552-559, [NodeCmdTopic::process_app_cmd_replies].
    The reply is taken from the queue whatever becomes of it. *)
Definition process_app_cmd_replies (b : B) (q : list NodeCmdReply)
    : list outcome * B * list NodeCmdReply :=
  match q with
  | [] => ([], b, [])
  | reply :: q' =>
      if bool_decide (r_uuid reply = []) then ([], b, q')
      else (send_reply false b reply, q')
  end.

(** src/node/src/NodeCmdTopic.cpp:561-568, [NodeCmdTopic::process_file_cmd_replies]. *)
Definition process_file_cmd_replies (b : B) (q : list NodeCmdReply)
    : list outcome * B * list NodeCmdReply :=
  match q with
  | [] => ([], b, [])
  | reply :: q' =>
      if bool_decide (r_uuid reply = []) then ([], b, q')
      else (send_reply true b reply, q')
  end.

(** src/node/src/NodeCmdTopic.cpp:160-167, [NodeCmdTopic::reader_worker]. What
    became of the replies of so many turns, and the queues, which do not grow. *)
Fixpoint reader_worker (needReply : bool) (turns : nat) (b : B) (app file : list NodeCmdReply)
    : list outcome * B * (list NodeCmdReply * list NodeCmdReply) :=
  match turns with
  | O => ([], b, (app, file))
  | S turns' =>
      if needReply then
        let '(s1, b1, app') := process_app_cmd_replies b app in
        let '(s2, b2, file') := process_file_cmd_replies b1 file in
        let '(out, b3, qs) := reader_worker needReply turns' b2 app' file' in
        (s1 ++ s2 ++ out, b3, qs)
      else reader_worker needReply turns' b app file
  end.

End Replies.

(** ** The reply in the data base *)

(** [subreplace(pathName, "\\", "/")], which terminates ([listing_spec]). *)
Definition slashes (pathName : str) : str :=
  default pathName (StrUtil.subreplace (length pathName) pathName $"\" $"/").

(** src/node/src/NodeCmdTopic.cpp:293-308, [NodeCmdTopic::handle_reply]. *)
Definition file_json (f : File) : json :=
  JObject [($"filePathName", JString (slashes (file_path_name f)));
           ($"isDir", JBool (is_dir f));
           ($"fileSize", JInt (file_size f));
           ($"timestamp", JInt (timestamp f))].

(** src/node/src/NodeCmdTopic.cpp:289-325, [NodeCmdTopic::handle_reply]. The
    two arrays grow by [PushBack]; at the end the files follow the directories. *)
Fixpoint fill_arrays (result : list File) (alarmArray alarmArrayFile : list json) : list json :=
  match result with
  | [] => alarmArray ++ alarmArrayFile
  | f :: result' =>
      if is_dir f then fill_arrays result' (alarmArray ++ [file_json f]) alarmArrayFile
      else fill_arrays result' alarmArray (alarmArrayFile ++ [file_json f])
  end.
Definition file_infos (result : list File) : list json := fill_arrays result [] [].

Definition result_json (result : list File) : json :=
  JObject [($"FileInfos", JArray (file_infos result))].

(** src/node/src/NodeCmdTopic.cpp:333-359, [NodeCmdTopic::handle_reply]. The
    same for a reply without files at 365-393. *)
Definition description_json (uuid : str) (cmdType : Z) (data : json) : json :=
  JObject [($"uuid", JString uuid); ($"cmdType", JInt cmdType);
           ($"result", JObject [($"data", if is_null data then JArray [] else data)])].

(** src/node/src/NodeCmdTopic.cpp:273-408, [NodeCmdTopic::handle_reply]. The
    texts [resStr] and [description]. [parse] is [Document::Parse]: null when
    the text is no document. *)
Definition reply_texts (parse : str -> json) (r : NodeCmdReply) : str * str :=
  match r_result r with
  | [] =>
      (if (r_cmd_type r =? 8) || (r_cmd_type r =? 3)
       then write (JObject [($"FileInfos", JArray [])]) else [],
       write (description_json (r_uuid r) (r_cmd_type r) (parse (r_desc r))))
  | fs =>
      (write (result_json fs),
       write (description_json (r_uuid r) (r_cmd_type r) (JArray (file_infos fs))))
  end.

Definition q' (s : str) : str := $"'" ++ s ++ $"'".

(** src/node/src/NodeCmdTopic.cpp:413-417, [NodeCmdTopic::handle_reply]. *)
Definition reply_sql (r : NodeCmdReply) (resStr description : str) : str :=
  $"insert into node_cmd_reply(uuid,src_node_id,src_node_name,to_node_id,to_node_name, cmd_reply_uuid,description,                result,comm_status_id,cmd_type_id,podman_desc) values ("
  ++ q' (r_uuid r) ++ $"," ++ q' (r_src_node_id r) ++ $"," ++ q' (r_src_node_name r) ++ $","
  ++ q' (r_to_node_id r) ++ $"," ++ q' (r_to_node_name r) ++ $"," ++ q' (r_cmd_reply_uuid r)
  ++ $"," ++ q' description ++ $"," ++ q' resStr ++ $"," ++ to_strz (Z_of_status (r_status r))
  ++ $"," ++ to_strz (r_cmd_type r) ++ $"," ++ q' (r_desc_str r) ++ $")".

(** src/node/src/NodeCmdTopic.cpp:409-413, [NodeCmdTopic::handle_reply]. The
    bytes allocated for it. *)
Definition sql_buffer (resStr description : str) : nat :=
  (4096 + length resStr + length description)%nat.

(** src/node/src/NodeCmdTopic.cpp:248-434, [NodeCmdTopic::handle_reply]. [None]:
    the statement does not fit the buffer it is printed into. *)
Definition handle_reply (parse : str -> json) (r : NodeCmdReply) : option str :=
  let '(resStr, description) := reply_texts parse r in
  let sql := reply_sql r resStr description in
  if (length sql <? sql_buffer resStr description)%nat then Some sql else None.

(** ** The table, a bus and statements that may fail *)

Record task := mkTask { t_id : Z; t_status : Z; t_cmd : NodeCmd }.

(** The row that [select] returns for a task. *)
Definition row_of (t : task) : row :=
  let c := t_cmd t in
  [Some (Text (c_uuid c)); Some (Text (c_to_node_id c)); None;
   Some (Text (c_src_node_id c)); Some (Text (c_src_node_name c)); None;
   Some (Text (c_to_group c)); Some (Text (c_cmd c)); Some (Text (c_paras c)); None; None;
   Some (Num (c_cmd_type c)); Some (Num (t_id t)); Some (Text (c_paras_1 c));
   Some (Text (c_paras_2 c)); Some (Num (c_podman_cmd c))].

(** [puts] and [updates] say which publications and statements to come work;
    what they do not say works. *)
Record db := mkDb { tasks : list task; puts : list bool; updates : list bool }.

Definition pending (d : db) : list task := filter (fun t => t_status t = 1) (tasks d).

Definition db_put (d : db) (c : NodeCmd) : bool * db :=
  (default true (head (puts d)), mkDb (tasks d) (tail (puts d)) (updates d)).

Definition mark (sql : str) (t : task) : task :=
  if decide (update_sql (t_id t) 2 = sql) then mkTask (t_id t) 2 (t_cmd t) else t.

(** The statement [update_sql id 2] sets the status of row [id]. *)
Definition db_exec (d : db) (sql : str) : Z * db :=
  if default true (head (updates d))
  then (1, mkDb (map (mark sql) (tasks d)) (puts d) (tail (updates d)))
  else (-1, mkDb (tasks d) (puts d) (tail (updates d))).

Definition db_select (d : db) : option (list row) := Some (map row_of (pending d)).

Definition run (turns : nat) (d : db) : list NodeCmd * db :=
  writer_worker db_put db_exec db_select turns d.

(** Enums are 32 bits wide. *)
Definition cmd_wf (c : NodeCmd) : Prop :=
  swrap 32 (c_cmd_type c) = c_cmd_type c /\ swrap 32 (c_podman_cmd c) = c_podman_cmd c.

(** ** Lemmas *)

Lemma fill_row_of t : cmd_wf (t_cmd t) -> fill_cmd_message (row_of t) = Some (t_cmd t).
Proof.
  destruct t as [id st []]. intros [H1 H2]. simpl in *.
  unfold fill_cmd_message. simpl. by rewrite H1, H2.
Qed.

Lemma update_sql_inj a b s : update_sql a s = update_sql b s -> a = b.
Proof.
  unfold update_sql. intros E. repeat apply (inj (app _)) in E. by apply (inj to_strz) in E.
Qed.

(** The tasks whose keys are in [l] have status 2. *)
Definition marked (l : list Z) (t : task) : task :=
  if decide (t_id t ∈ l) then mkTask (t_id t) 2 (t_cmd t) else t.

#[local] Opaque update_sql.

Lemma marked_nil t : marked [] t = t.
Proof. done. Qed.

Lemma marked_cons id l t : marked l (mark (update_sql id 2) t) = marked (id :: l) t.
Proof.
  destruct t as [i s c]. unfold marked, mark. cbn [t_id t_cmd].
  destruct (decide (update_sql i 2 = update_sql id 2)) as [E|Hne]; cbn [t_id t_cmd].
  - apply update_sql_inj in E as ->.
    rewrite (decide_True (P := id ∈ id :: l)) by left. by case_decide.
  - destruct (decide (i ∈ l)) as [H|H].
    + by rewrite decide_True by (by right).
    + rewrite decide_False; [done|]. intros [->|?]%elem_of_cons; done.
Qed.

Lemma pending_marked l ts p u :
  pending (mkDb (map (marked l) ts) p u)
  = filter (fun t => t_id t ∉ l) (pending (mkDb ts p u)).
Proof.
  unfold pending. cbn [tasks]. induction ts as [|t ts IH]; [done|].
  cbn [map]. rewrite !(filter_cons (fun t => t_status t = 1)), IH.
  assert (marked l t = if bool_decide (t_id t ∈ l) then mkTask (t_id t) 2 (t_cmd t) else t) as ->.
  { unfold marked. repeat case_decide; case_bool_decide; done. }
  case_bool_decide; cbn [t_status].
  - rewrite decide_False by done.
    case_decide; [|done]. rewrite filter_cons, decide_False by tauto. done.
  - case_decide; [|done]. rewrite filter_cons, decide_True by done. done.
Qed.

Lemma perm_filter_sublist (M P : list task) :
  NoDup (map t_id P) -> M `sublist_of` P ->
  P ≡ₚ M ++ filter (fun t => t_id t ∉ map t_id M) P.
Proof.
  intros Hnd Hs. revert Hnd. induction Hs as [|x M P Hs IH|x M P Hs IH]; [done| |]; intros Hnd;
    apply NoDup_cons in Hnd as [Hx Hnd].
  - rewrite filter_cons, decide_False by (simpl; intros H; apply H; left).
    simpl. f_equiv. rewrite IH at 1 by done. f_equiv.
    enough (filter (fun t => t_id t ∉ map t_id M) P
            = filter (fun t => t_id t ∉ t_id x :: map t_id M) P) as -> by done.
    clear -Hx. induction P as [|y P IH]; [done|]. simpl in Hx.
    apply not_elem_of_cons in Hx as [Hne Hx]. rewrite !filter_cons, IH by done.
    assert (t_id y ∉ map t_id M <-> t_id y ∉ t_id x :: map t_id M) as Hiff
      by (rewrite elem_of_cons; naive_solver).
    repeat case_decide; tauto.
  - rewrite filter_cons, decide_True.
    + rewrite IH at 1 by done. by rewrite <- Permutation_middle.
    + intros Hin. apply Hx. eapply elem_of_sublist; [exact Hin|].
      by apply (fmap_sublist t_id).
Qed.

Lemma map_marked_nil ts : map (marked []) ts = ts.
Proof. induction ts as [|t ts IH]; [done|]. simpl. by rewrite IH. Qed.

Lemma map_marked_cons id l ts :
  map (marked l) (map (mark (update_sql id 2)) ts) = map (marked (id :: l)) ts.
Proof. rewrite map_map. apply map_ext. intros t. apply marked_cons. Qed.

Definition works (l : list bool) : Prop := Forall (fun b => b = true) l.

Lemma works_head l : works l -> default true (head l) = true.
Proof. destruct 1 as [|x l Hx]; [done|exact Hx]. Qed.
Lemma works_tail l : works l -> works (tail l).
Proof. destruct 1 as [|x l Hx Hl]; [constructor|exact Hl]. Qed.

Lemma send_cmd_eq d c :
  send_cmd db_put d c
  = (default true (head (puts d)), mkDb (tasks d) (tail (puts d)) (updates d)).
Proof. unfold send_cmd. simpl. by destruct (default true _). Qed.

Lemma update_eq d id :
  update_cmd_status db_exec d id 2
  = mkDb (if default true (head (updates d))
          then map (mark (update_sql id 2)) (tasks d) else tasks d)
      (puts d) (tail (updates d)).
Proof. unfold update_cmd_status, db_exec. by destruct (default true _). Qed.

(** A turn sends some of the rows, in order, and marks some of these; all of
    them if statements work, and all of the rows if publications work too. *)
Lemma send_rows_spec ts : forall d,
  Forall (fun t => cmd_wf (t_cmd t)) ts ->
  exists (S M : list task) (d' : db),
    send_rows db_put db_exec d (map row_of ts) = (map t_cmd S, d') /\
    M `sublist_of` S /\ S `sublist_of` ts /\
    tasks d' = map (marked (map t_id M)) (tasks d) /\
    (works (updates d) -> works (updates d') /\ M = S) /\
    (works (puts d) -> works (puts d') /\ S = ts).
Proof.
  induction ts as [|t ts IH]; intros d Hwf.
  - exists [], [], d. simpl. rewrite map_marked_nil. by repeat split.
  - apply Forall_cons in Hwf as [Ht Hwf]. cbn [map send_rows].
    rewrite fill_row_of, send_cmd_eq by done.
    destruct (default true (head (puts d))) eqn:Ep.
    + change (get_id (row_of t)) with (Some (t_id t)). cbn match. rewrite update_eq.
      cbn [tasks puts updates].
      destruct (default true (head (updates d))) eqn:Eu.
      * destruct (IH (mkDb (map (mark (update_sql (t_id t) 2)) (tasks d)) (tail (puts d))
                       (tail (updates d))) Hwf) as (S & M & d' & -> & HM & HS & Ht' & Hu & Hp).
        exists (t :: S), (t :: M), d'. cbn [map]. split_and!; try done; try by constructor.
        -- rewrite Ht'. apply map_marked_cons.
        -- intros H. destruct (Hu (works_tail _ H)) as [? ->]. done.
        -- intros H. destruct (Hp (works_tail _ H)) as [? ->]. done.
      * destruct (IH (mkDb (tasks d) (tail (puts d)) (tail (updates d))) Hwf)
          as (S & M & d' & -> & HM & HS & Ht' & Hu & Hp).
        exists (t :: S), M, d'. cbn [map]. split_and!; try done; try by constructor.
        -- intros H. by rewrite works_head in Eu.
        -- intros H. destruct (Hp (works_tail _ H)) as [? ->]. done.
    + destruct (IH (mkDb (tasks d) (tail (puts d)) (updates d)) Hwf)
        as (S & M & d' & -> & HM & HS & Ht' & Hu & Hp).
      exists S, M, d'. split_and!; try done; try by constructor.
      intros H. by rewrite works_head in Ep.
Qed.

Definition db_wf (d : db) : Prop :=
  NoDup (map t_id (tasks d)) /\ Forall (fun t => cmd_wf (t_cmd t)) (tasks d).

Lemma marked_keeps l ts :
  map t_id (map (marked l) ts) = map t_id ts /\ map t_cmd (map (marked l) ts) = map t_cmd ts.
Proof.
  rewrite !map_map. split; apply map_ext; intros t; unfold marked; by case_decide.
Qed.

Lemma pending_sublist d : pending d `sublist_of` tasks d.
Proof. apply sublist_filter. Qed.

Lemma pending_wf d :
  db_wf d -> NoDup (map t_id (pending d)) /\ Forall (fun t => cmd_wf (t_cmd t)) (pending d).
Proof.
  intros [Hnd Hwf]. split.
  - eapply sublist_NoDup; [exact Hnd|]. apply (fmap_sublist t_id), pending_sublist.
  - apply Forall_forall. intros t Ht. rewrite Forall_forall in Hwf.
    apply Hwf. eapply elem_of_sublist; [exact Ht|apply pending_sublist].
Qed.

(** One turn from a well-formed table. *)
Lemma turn_spec d :
  db_wf d -> exists (S M : list task) (d' : db),
    send_rows db_put db_exec d (map row_of (pending d)) = (map t_cmd S, d') /\
    db_wf d' /\ M `sublist_of` S /\ S `sublist_of` pending d /\
    pending d ≡ₚ M ++ pending d' /\
    (works (updates d) -> works (updates d') /\ M = S) /\
    (works (puts d) -> works (puts d') /\ S = pending d).
Proof.
  intros Hd. destruct (pending_wf _ Hd) as [Hnd Hwf].
  destruct (send_rows_spec (pending d) d Hwf) as (S & M & d' & E & HM & HS & Ht & Hu & Hp).
  exists S, M, d'. split_and!; try done.
  - destruct Hd as [H1 H2]. unfold db_wf. rewrite Ht.
    destruct (marked_keeps (map t_id M) (tasks d)) as [-> Hc]. split; [done|].
    assert (Forall cmd_wf (map t_cmd (tasks d))) as H3 by (by apply List.Forall_map).
    rewrite <- Hc in H3. by rewrite List.Forall_map in H3.
  - assert (pending d' = filter (fun t => t_id t ∉ map t_id M) (pending d)) as ->.
    { destruct d' as [ts p u]. simpl in Ht. rewrite Ht, pending_marked. by destruct d. }
    apply perm_filter_sublist; [done|]. by transitivity S.
Qed.

Lemma run_step turns d :
  run (S turns) d
  = let '(sent, e1) := send_rows db_put db_exec d (map row_of (pending d)) in
    let '(sent', e2) := run turns e1 in (sent ++ sent', e2).
Proof. reflexivity. Qed.

Lemma run_spec turns : forall d,
  db_wf d -> exists (S M : list task) (d' : db),
    run turns d = (map t_cmd S, d') /\ db_wf d' /\ M `sublist_of` S /\ S ⊆ pending d /\
    pending d ≡ₚ M ++ pending d' /\ (works (updates d) -> M = S).
Proof.
  induction turns as [|turns IH]; intros d Hd.
  - exists [], [], d. split_and!; try done; try (intros ? Hn; by apply elem_of_nil in Hn).
  - destruct (turn_spec d Hd) as (S1 & M1 & d1 & E1 & Hd1 & HM1 & HS1 & Hp1 & Hu1 & _).
    destruct (IH d1 Hd1) as (S2 & M2 & d2 & E2 & Hd2 & HM2 & HS2 & Hp2 & Hu2).
    exists (S1 ++ S2), (M1 ++ M2), d2. rewrite run_step, E1, E2, map_app.
    split_and!; try done.
    + by apply sublist_app.
    + intros t [Ht|Ht]%elem_of_app.
      * by eapply elem_of_sublist.
      * rewrite Hp1. apply elem_of_app. right. by apply HS2.
    + by rewrite Hp1, Hp2, (assoc_L (++)).
    + intros H. destruct (Hu1 H) as [H1 ->]. by rewrite (Hu2 H1).
Qed.

Lemma run_empty turns d : pending d = [] -> run turns d = ([], d).
Proof.
  intros Hp. induction turns as [|turns IH]; [done|]. rewrite run_step, Hp. simpl. by rewrite IH.
Qed.

(** ** Properties of the sender *)

(** C17. The commands of table [node_cmd] are sent and marked: over any number
    of turns, a command that was pending is sent or still pending, and only
    such commands are sent; when the statements work, a command is sent once
    or is still pending, never both; when publications work too, the first
    turn sends all of them in order. *)
Theorem commands_sent_once turns d :
  db_wf d ->
  let '(sent, d') := run turns d in
  (forall t, t ∈ pending d -> t_cmd t ∈ sent \/ t ∈ pending d') /\
  (forall c, c ∈ sent -> c ∈ map t_cmd (pending d)) /\
  (works (updates d) -> map t_cmd (pending d) ≡ₚ sent ++ map t_cmd (pending d')) /\
  (works (updates d) -> works (puts d) -> (0 < turns)%nat ->
   sent = map t_cmd (pending d) /\ pending d' = []).
Proof.
  intros Hd. destruct (run turns d) as [sent d'] eqn:E.
  destruct (run_spec turns d Hd) as (S & M & d2 & E2 & _ & HM & HS & Hp & Hu).
  rewrite E in E2. injection E2 as -> <-. split_and!.
  - intros t. rewrite Hp, elem_of_app. intros [Ht|Ht]; [left|by right].
    apply list_elem_of_fmap_2. by eapply elem_of_sublist.
  - intros c (t & -> & Ht)%list_elem_of_fmap. apply list_elem_of_fmap_2. by apply HS.
  - intros H. rewrite Hp, map_app. by rewrite (Hu H).
  - intros H1 H2 Ht. destruct turns as [|turns]; [lia|]. rewrite run_step in E.
    destruct (turn_spec d Hd) as (S1 & M1 & d1 & E1 & _ & _ & _ & Hp1 & Hu1 & Hq1).
    destruct (Hu1 H1) as [_ ->]. destruct (Hq1 H2) as [_ ->]. rewrite E1 in E.
    assert (pending d1 = []) as Hn.
    { apply Permutation_length in Hp1.
      rewrite length_app in Hp1. destruct (pending d1); [done|simpl in Hp1; lia]. }
    rewrite run_empty in E by done. injection E as <- <-. by rewrite app_nil_r.
Qed.

Definition demo_cmd (uuid : str) (ty : Z) : NodeCmd :=
  mkNodeCmd uuid $"mgr" $"m" $"n1" [] ty 0 $"ls" [] [] [].
Definition demo_db : db :=
  mkDb [mkTask 7 1 (demo_cmd $"a" 3); mkTask 8 2 (demo_cmd $"b" 3); mkTask 9 1 (demo_cmd $"c" 1)]
    [true; false] [].

Lemma commands_sent_once_witness :
  db_wf demo_db /\ fst (run 1 demo_db) = [demo_cmd $"a" 3] /\
  (let '(sent, d') := run 2 demo_db in
   sent = [demo_cmd $"a" 3; demo_cmd $"c" 1] /\
   map t_cmd (pending demo_db) ≡ₚ sent ++ map t_cmd (pending d')).
Proof.
  assert (db_wf demo_db) as H.
  { split; [by_decision|]. by repeat constructor. }
  split; [exact H|]. split; [vm_compute; reflexivity|].
  pose proof (commands_sent_once 2 demo_db H) as Hc.
  destruct (run 2 demo_db) as [sent d'] eqn:E. destruct Hc as (_ & _ & Hc & _).
  split; [|apply Hc; constructor].
  vm_compute in E. by injection E as <- _.
Defined.

(** A command whose status cannot be updated is sent again in every turn,
    until the update works. *)
Theorem resent_until_marked t turns failures :
  t_status t = 1 -> cmd_wf (t_cmd t) ->
  fst (run turns (mkDb [t] [] (replicate failures false)))
  = replicate (turns `min` S failures) (t_cmd t).
Proof.
  intros Hs Hwf. revert failures. induction turns as [|turns IH]; intros f; [done|].
  rewrite run_step. unfold pending at 1. cbn [tasks].
  rewrite filter_cons, decide_True by done. cbn [map filter list_filter].
  cbn [send_rows]. rewrite fill_row_of, send_cmd_eq by done. cbn [puts head tail default].
  change (get_id (row_of t)) with (Some (t_id t)). cbn match. rewrite update_eq.
  cbn [tasks puts updates].
  destruct f as [|f]; cbn [replicate head tail default].
  - rewrite run_empty; [by destruct turns|].
    unfold pending. cbn [tasks map]. unfold mark. rewrite decide_True by done. done.
  - specialize (IH f). destruct (run turns _) as [sent d']. simpl in *. by rewrite IH.
Qed.

Lemma resent_until_marked_witness :
  fst (run 3 (mkDb [mkTask 7 1 (demo_cmd $"a" 3)] [] (replicate 1 false)))
  = [demo_cmd $"a" 3; demo_cmd $"a" 3].
Proof. apply (resent_until_marked (mkTask 7 1 (demo_cmd $"a" 3)) 3 1); [reflexivity|done]. Defined.

(** ** The receiver *)

(** After any commands, the file queue holds those addressed to the node
    that are file commands, the other queue those that are not, each in the
    order received. *)
Theorem handle_cmd_routing nodeId cs :
  foldl (fun q c => handle_cmd true nodeId c q) (mkQueues [] []) cs
  = mkQueues (filter (fun c => nodeId = c_to_node_id c /\ to_file_queue (c_cmd_type c) = true) cs)
      (filter (fun c => nodeId = c_to_node_id c /\ to_file_queue (c_cmd_type c) = false) cs).
Proof.
  induction cs as [|c cs IH] using rev_ind; [done|].
  rewrite foldl_app, IH, !filter_app. cbn [foldl]. unfold handle_cmd.
  rewrite !filter_cons. cbn [andb].
  case_bool_decide as Hn.
  - destruct (to_file_queue (c_cmd_type c)); cbn [fileDataQueueIn_ mainCmdQueueIn_].
    + rewrite decide_True, decide_False by naive_solver. by rewrite app_nil_r.
    + rewrite decide_False, decide_True by naive_solver. by rewrite app_nil_r.
  - rewrite !decide_False by naive_solver. by rewrite !app_nil_r.
Qed.

Definition sendable : list NodeCmdReply -> list NodeCmdReply := filter (fun r => r_uuid r <> []).

(** The replies of the one or of the other worker, and those published. *)
Definition of_worker (file : bool) (out : list outcome) : list NodeCmdReply :=
  map o_reply (filter (fun o => o_file o = file) out).
Definition published (out : list outcome) : list NodeCmdReply :=
  map o_reply (filter (fun o => o_sent o = true) out).

Lemma of_worker_app file a b : of_worker file (a ++ b) = of_worker file a ++ of_worker file b.
Proof. unfold of_worker. by rewrite filter_app, map_app. Qed.
Lemma published_app a b : published (a ++ b) = published a ++ published b.
Proof. unfold published. by rewrite filter_app, map_app. Qed.

Lemma published_all out : Forall (fun o => o_sent o = true) out -> published out = map o_reply out.
Proof.
  induction 1 as [|o out Ho _ IH]; [done|]. unfold published in *.
  rewrite filter_cons_True by done. cbn [map]. by f_equal.
Qed.

Lemma split_by_worker out : map o_reply out ≡ₚ of_worker false out ++ of_worker true out.
Proof.
  induction out as [|o out IH]; [done|]. unfold of_worker in *. rewrite !filter_cons.
  destruct (o_file o) eqn:E.
  - rewrite decide_False by congruence. rewrite decide_True by done. cbn [map].
    rewrite IH. apply Permutation_middle.
  - rewrite decide_True by done. rewrite decide_False by congruence. cbn [map app].
    by rewrite IH.
Qed.

Section Sent.
Context {B : Type} (put : B -> NodeCmdReply -> bool * B).

(** No publication throws. *)
Definition put_works : Prop := forall b r, fst (put b r) = true.

(** Both functions: a reply with an id leaves the queue with one outcome, that of
    its publication. *)
Lemma process_spec file b q :
  exists out b',
    (if file : bool then process_file_cmd_replies put else process_app_cmd_replies put) b q
      = (out, b', tail q) /\
    sendable q = of_worker file out ++ sendable (tail q) /\ of_worker (negb file) out = [] /\
    (put_works -> Forall (fun o => o_sent o = true) out).
Proof.
  destruct q as [|r q]; [exists [], b; by destruct file|].
  assert (sendable (r :: q) = if bool_decide (r_uuid r = []) then sendable q else r :: sendable q) as ->.
  { unfold sendable. rewrite filter_cons. case_bool_decide; by case_decide. }
  exists (if bool_decide (r_uuid r = []) then [] else [mkOutcome file (fst (put b r)) r]),
    (if bool_decide (r_uuid r = []) then b else snd (put b r)).
  destruct file; unfold process_file_cmd_replies, process_app_cmd_replies, send_reply;
    case_bool_decide; try (by split_and!); pose proof (fun H : put_works => H b r) as Hp;
    destruct (put b r) as [ok b']; (split_and!; [done..|]); intros Hw; apply Forall_singleton, Hp, Hw.
Qed.

(** C34. What becomes of the replies that wait when the listener goes round: once
    there were as many turns as replies in the longer queue, both queues are
    empty, and every reply with an id has been handed to the publisher once, those
    of each worker in the order in which it queued them. A reply whose publication
    throws is lost, since it is not put back; all are published when none throws. *)
Theorem replies_all_sent turns b app file :
  (length app <= turns)%nat -> (length file <= turns)%nat ->
  exists out b', reader_worker put true turns b app file = (out, b', ([], [])) /\
    of_worker false out = sendable app /\ of_worker true out = sendable file /\
    (put_works -> published out ≡ₚ sendable app ++ sendable file).
Proof.
  enough (forall b app file, (length app <= turns)%nat -> (length file <= turns)%nat ->
    exists out b', reader_worker put true turns b app file = (out, b', ([], [])) /\
      of_worker false out = sendable app /\ of_worker true out = sendable file /\
      (put_works -> Forall (fun o => o_sent o = true) out)) as H.
  { intros Ha Hf. destruct (H b app file Ha Hf) as (out & b' & E & H1 & H2 & H3).
    exists out, b'. split_and!; try done. intros Hw. rewrite published_all by auto.
    rewrite <- H1, <- H2. apply split_by_worker. }
  clear b app file. induction turns as [|turns IH]; intros b app file Ha Hf.
  - exists [], b. by destruct app, file; simpl in *; try lia.
  - cbn [reader_worker].
    destruct (process_spec false b app) as (s1 & b1 & E1 & -> & N1 & W1). rewrite E1.
    destruct (process_spec true b1 file) as (s2 & b2 & E2 & -> & N2 & W2). rewrite E2.
    destruct (IH b2 (tail app) (tail file)) as (out & b' & E & H1 & H2 & H3);
      [destruct app; simpl in *; lia|destruct file; simpl in *; lia|].
    rewrite E. exists (s1 ++ s2 ++ out), b'. cbn [negb] in N1, N2.
    rewrite !of_worker_app, N1, N2, H1, H2. split_and!; [done..|].
    intros Hw. rewrite !Forall_app. auto.
Qed.

End Sent.

Definition demo_reply (uuid desc_str : str) : NodeCmdReply :=
  mkNodeCmdReply uuid $"n1" $"n" $"mgr" $"m" $"a" 3 SUCCESS [] desc_str
    [mkFile $"a\b" false 5 6; mkFile $"d" true 0 7].

(** A publisher that throws at the outcomes that are [false]. *)
Definition listed_put (l : list bool) (r : NodeCmdReply) : bool * list bool :=
  (default true (head l), tail l).

(** The second publication throws: the reply of the file worker is lost. *)
Lemma replies_all_sent_witness :
  let app := [demo_reply $"1" []; demo_reply [] []; demo_reply $"3" []] in
  let file := [demo_reply $"2" []] in
  let '(out, _, qs) := reader_worker listed_put true 3 [true; false; true] app file in
  published out = [demo_reply $"1" []; demo_reply $"3" []] /\ qs = ([], []) /\
  of_worker false out = sendable app /\ of_worker true out = file.
Proof.
  intros app file.
  destruct (replies_all_sent listed_put 3 [true; false; true] app file) as (out & b' & E & H1 & H2 & _);
    [simpl; lia|simpl; lia|].
  rewrite E. vm_compute in E. injection E as <- <-. split; [reflexivity|]. split; [reflexivity|].
  split; [exact H1|exact H2].
Defined.

(** ** The reply in the data base *)

Lemma sfind_singleton c s :
  match sfind [c] s with
  | Some i => exists a b, s = a ++ c :: b /\ i = length a /\ c ∉ a
  | None => c ∉ s
  end.
Proof.
  induction s as [|d s IH]; simpl; [by apply not_elem_of_nil|].
  destruct (decide (c = d)) as [->|Hne]; simpl.
  - destruct s; simpl; (eexists [], _; split_and!; [done|done|apply not_elem_of_nil]).
  - destruct (sfind [c] s) as [i|]; simpl.
    + destruct IH as (a & b & -> & -> & Ha). exists (d :: a), b. split_and!; [done|done|].
      by apply not_elem_of_cons.
    + by apply not_elem_of_cons.
Qed.


Lemma map_id_on_not_in (c d : ascii) (s : str) :
  c ∉ s -> map (fun x => if decide (x = c) then d else x) s = s.
Proof.
  induction s as [|x s IH]; [done|]. intros [Hx Hs]%not_elem_of_cons. cbn [map].
  rewrite decide_False by done. by rewrite IH.
Qed.

Lemma slash_step n : forall s, (length (filter (fun x => x = "\"%char) s) <= n)%nat ->
  StrUtil.subreplace n s $"\" $"/"
  = Some (map (fun x => if decide (x = "\"%char) then "/"%char else x) s).
Proof.
  induction n as [|n IH]; intros s Hn; cbn [StrUtil.subreplace];
    pose proof (sfind_singleton "\"%char s) as Hs;
    change $"\" with ["\"%char]; destruct (sfind ["\"%char] s) as [i|].
  - destruct Hs as (a & b & -> & -> & _). rewrite filter_app, filter_cons, decide_True, length_app in Hn
      by done. simpl in Hn. lia.
  - f_equal. symmetry. apply map_id_on_not_in; done.
  - destruct Hs as (a & b & -> & -> & Ha).
    unfold sreplace. rewrite take_app_length. cbn [length].
    replace (drop (length a + 1) (a ++ "\"%char :: b)) with b.
    2: { rewrite drop_app_ge by lia. by replace (length a + 1 - length a)%nat with 1%nat by lia. }
    change $"/" with ["/"%char]. change $"\" with ["\"%char] in IH. rewrite IH.
    + f_equal. rewrite !map_app. f_equal.
    + rewrite filter_app, filter_cons, decide_True, length_app in Hn by done.
      cbn [app]. rewrite filter_app, filter_cons, decide_False, length_app by done. simpl in *. lia.
  - f_equal. symmetry. apply map_id_on_not_in; done.
Qed.

(** The paths of a listing have every backslash made a slash, and the
    files of the listing follow its directories, in the order received. *)
Theorem listing_spec result :
  file_infos result
  = map file_json (filter (fun f => is_dir f = true) result
                   ++ filter (fun f => is_dir f = false) result) /\
  (forall f, slashes (file_path_name f)
             = map (fun x => if decide (x = "\"%char) then "/"%char else x) (file_path_name f)).
Proof.
  split.
  - unfold file_infos.
    enough (forall fs d a, fill_arrays fs d a
      = (d ++ map file_json (filter (fun f => is_dir f = true) fs))
        ++ a ++ map file_json (filter (fun f => is_dir f = false) fs)) as ->
      by (by rewrite map_app).
    induction fs as [|f fs IH]; intros d a; [by rewrite !app_nil_r|].
    cbn [fill_arrays]. rewrite !filter_cons. destruct (is_dir f); rewrite IH.
    + rewrite decide_True, decide_False by done. cbn [map]. by rewrite <- !(assoc_L (++)).
    + rewrite decide_False, decide_True by done. cbn [map]. by rewrite <- !(assoc_L (++)).
  - intros f. unfold slashes. rewrite slash_step; [done|].
    apply length_filter.
Qed.

(** The bytes of the statement that the two texts do not account for. *)
Definition other_bytes (r : NodeCmdReply) : nat :=
  (length (r_uuid r) + length (r_src_node_id r) + length (r_src_node_name r)
   + length (r_to_node_id r) + length (r_to_node_name r) + length (r_cmd_reply_uuid r)
   + length (r_desc_str r) + length (to_strz (Z_of_status (r_status r)))
   + length (to_strz (r_cmd_type r)))%nat.

(** The statement for a reply fits its buffer exactly when the fields other
    than the two texts leave room in 4096 bytes: a long answer of Podman, which
    is such a field, overruns it. *)
Theorem reply_sql_fits parse r :
  handle_reply parse r
  = if (other_bytes r <? 3886)%nat
    then Some (reply_sql r (fst (reply_texts parse r)) (snd (reply_texts parse r))) else None.
Proof.
  unfold handle_reply. destruct (reply_texts parse r) as [res desc]. simpl fst. simpl snd.
  assert (length (reply_sql r res desc) + 3886 = sql_buffer res desc + other_bytes r)%nat as Hl.
  { unfold reply_sql, q', sql_buffer, other_bytes. rewrite !length_app. cbn [length list_ascii_of_string].
    lia. }
  destruct (Nat.ltb_spec (length (reply_sql r res desc)) (sql_buffer res desc)),
    (Nat.ltb_spec (other_bytes r) 3886); done || lia.
Qed.

(** What a JSON reader reads of the path of a file is the path. *)
Theorem listing_reads_back f rest :
  exists tail, write (file_json f) ++ rest = $"{" ++ write_string $"filePathName" ++ $":" ++ tail /\
  exists tail', read_string tail = Some (slashes (file_path_name f), tail').
Proof.
  eexists. split.
  - unfold file_json. cbn [write map commas]. rewrite <- !(assoc_L (++)). reflexivity.
  - eexists. rewrite <- ?(assoc_L (++)). apply read_write_string.
Qed.

End NodeCmdTopic.
