(* ===== verification/LogMonitor.v ===== *)
(** * Following log files ([src/node/src/LogMonitor.cpp],
    [src/node/src/LogMonitorManager.cpp], [src/node/src/LogTopic.cpp])

    A monitor reads a file line by line, in passes: a pass reads from the last
    saved position to the end, then the file is closed and, if it is longer
    than that position, opened for the next pass. How long reading takes and
    how the file grows are arguments. *)

From S2P Require Import Prelude.

Module LogMonitor.

Definition _maxQueueSize : nat := 5000.
Definition newline : ascii := ascii_of_nat 10.

(** [std::getline(fs, line)]: the line, what is left of the file, and whether
    the end of the file was met. [None] when nothing could be read. *)
Fixpoint scan (s : str) : str * str * bool :=
  match s with
  | [] => ([], [], true)
  | c :: s' => if decide (c = newline) then ([], s', false)
               else let '(line, rest, eof) := scan s' in (c :: line, rest, eof)
  end.
Definition getline (s : str) : option (str * str * bool) :=
  match s with [] => None | _ => Some (scan s) end.

(** src/node/src/LogMonitor.cpp:140-149, [LogMonitor::run]. *)
Definition enqueue_line (q : list str) (line : str) : list str :=
  let q1 := q ++ [line] in
  if (_maxQueueSize <? length q1)%nat then tail q1 else q1.

(** The state of a monitor: its stream, the saved position, the queue, and
    the batches handed to the topic. *)
Record monitor := mkMonitor {
  isopen : bool;
  lastPos : Z;
  logQueue_ : list str;
  batches : list (list str);
}.

(** src/node/src/LogMonitor.cpp:137-166, [LogMonitor::run]. One pass: [rest] is
    what the stream has not read, [pos] its position; [due k] says whether
    200 ms have passed at the [k]-th line. The end of the file is met unless a
    stop is asked for ([stop k]). [tellg] fails once the end was met. *)
Fixpoint read_lines (fuel : nat) (due stop : nat -> bool) (k : nat) (rest : str) (pos : Z)
    (m : monitor) : monitor * bool :=
  match fuel with
  | O => (m, true)
  | S fuel' =>
      if stop k then (m, false)
      else
        match getline rest with
        | None => (m, true)
        | Some (line, rest', eof) =>
            let q := enqueue_line (logQueue_ m) line in
            let pos' := pos + Z.of_nat (length line) + 1 in
            let m' :=
              if due k
              then mkMonitor (isopen m) (if eof then -1 else pos') [] (batches m ++ [q])
              else mkMonitor (isopen m) (lastPos m) q (batches m) in
            read_lines fuel' due stop (S k) rest' pos' m'
        end
  end.

(** src/node/src/LogMonitor.cpp:170-178, [LogMonitor::run]. The size is
    unsigned, so is the position in the comparison. *)
Definition reopen (size : nat) (m : monitor) : monitor :=
  mkMonitor (uwrap 64 (lastPos m) <? Z.of_nat size) (lastPos m) (logQueue_ m) (batches m).

(** src/node/src/LogMonitor.cpp:124-183, [LogMonitor::run]. A turn of the
    outer loop: [content] is the file when it is read, [size] its size when
    that is asked. On a closed stream nothing can be read and no end is met. *)
Definition turn (due stop : nat -> bool) (content : str) (size : nat) (m : monitor) : monitor :=
  if isopen m && (0 <=? lastPos m) then
    let rest := drop (Z.to_nat (lastPos m)) content in
    let '(m', eof) := read_lines (S (length rest)) due stop 0 rest (lastPos m) m in
    if eof then reopen size m' else m'
  else m.

Definition start : monitor := mkMonitor true 0 [] [].

(** The monitor over several turns. *)
Definition turns (m : monitor) (l : list ((nat -> bool) * str * nat)) : monitor :=
  foldl (fun m '(due, content, size) => turn due (fun _ => false) content size m) m l.

(** src/node/src/LogMonitor.cpp:191-203, [LogMonitor::consumeLogQueue]. *)
Fixpoint consume (fuel : nat) (q messages : list str) : list str * list str :=
  match fuel with
  | O => (messages, q)
  | S fuel' =>
      match q with
      | [] => (messages, [])
      | x :: q' => consume fuel' q' (messages ++ [x])
      end
  end.
Definition consumeLogQueue (q : list str) : list str * list str := consume (length q) q [].

(** src/node/src/LogMonitor.cpp:205-228, [LogMonitor::consumeLogQueueWithJson].
    Poco turns the lines into text. *)
Definition consumeLogQueueWithJson (stringify : list str -> str) (q : list str) : str * list str :=
  let '(messages, q') := consumeLogQueue q in (stringify messages, q').

(** src/node/src/LogMonitorManager.cpp:83-89, [LogMonitorManager::consumeAllMessages].
    The queue of one monitor, until it is empty. *)
Fixpoint drain (fuel : nat) (q messages : list str) : list str * list str :=
  match fuel, q with
  | S fuel', _ :: _ =>
      let '(message, q') := consumeLogQueue q in drain fuel' q' (messages ++ message)
  | _, _ => (messages, q)
  end.

(** src/node/src/LogMonitorManager.cpp:76-96, [LogMonitorManager::consumeAllMessages].
    The messages by path, and the queues afterwards. *)
Definition consumeAllMessages (queues : gmap str (list str)) :
    gmap str (list str) * gmap str (list str) :=
  let drained := (fun q => drain (length q) q []) <$> queues in
  (filter (fun kv => kv.2 <> []) (fst <$> drained), snd <$> drained).

(** ** The topic *)

(** src/node/src/LogTopic.h:41-44, [LogTopic]. Whether the publisher exists. *)
Record log_topic := mkLogTopic { publisher_ : bool; lt_nodeId : str; lt_monNodeId : str }.

(** src/node/src/LogTopic.cpp:3-4, [LogTopic::LogTopic]. The argument is
    ignored. *)
Definition new_topic (nodeId monNodeId : str) : log_topic := mkLogTopic false [] [].

(** src/node/src/LogTopic.cpp:137-149, [LogTopic::create_publisher]. *)
Definition create_publisher (works : bool) (t : log_topic) : log_topic :=
  mkLogTopic (publisher_ t || works) (lt_nodeId t) (lt_monNodeId t).

(** The message [LogData] of [src/node/src/proto/log.proto]. *)
Record LogData := mkLogData { ld_src : str; ld_to : str; ld_file : str; ld_logs : str }.

(** src/node/src/LogTopic.cpp:177-200, [LogTopic::write_log_data]. The message
    published, if any. *)
Definition write_log_data (put_works : bool) (t : log_topic) (filename logStr : str)
    : bool * option LogData :=
  if negb (publisher_ t) then (false, None)
  else if put_works
       then (true, Some (mkLogData (lt_nodeId t) (lt_monNodeId t) filename logStr))
       else (false, None).

(** What is published of the batches of a monitor. *)
Definition publish (stringify : list str -> str) (t : log_topic) (file : str) (bs : list (list str))
    : list LogData :=
  omap (fun b => snd (write_log_data true t file (stringify b))) bs.

(** ** The manager *)

(** The monitors by path, each with how many threads run it; and how many
    threads run a monitor that was destroyed. *)
Record manager := mkManager { _monitors : gmap str nat; orphans : nat; topic : log_topic }.

(** src/node/src/LogMonitorManager.cpp:7-12, [LogMonitorManager::LogMonitorManager].
    [initLogTopic] makes the topic and starts its writer. *)
Definition new_manager (nodeId monNodeId : str) : manager :=
  mkManager ∅ 0 (new_topic nodeId monNodeId).

(** src/node/src/LogMonitorManager.cpp:40-48, [LogMonitorManager::startMonitoring]. *)
Definition startMonitoring (g : manager) (filePath : str) : manager :=
  let ms := if decide (_monitors g !! filePath = None)
            then <[filePath := O]> (_monitors g) else _monitors g in
  mkManager (alter S filePath ms) (orphans g) (topic g).

(** src/node/src/LogMonitorManager.cpp:50-59, [LogMonitorManager::stopMonitoring].
    The monitor is destroyed while its threads run. *)
Definition stopMonitoring (g : manager) (filePath : str) : manager :=
  match _monitors g !! filePath with
  | Some threads => mkManager (delete filePath (_monitors g)) (orphans g + threads) (topic g)
  | None => g
  end.

(** A [std::map] is visited in the order of its keys. *)
Definition str_le (a b : str) : Prop :=
  String.leb (string_of_list_ascii a) (string_of_list_ascii b) = true.
#[export] Instance str_le_dec a b : Decision (str_le a b).
Proof. unfold str_le. apply _. Defined.
(** The paths of the monitors, in order. *)
Definition active (g : manager) : list str := merge_sort str_le (map fst (map_to_list (_monitors g))).

(** src/node/src/LogMonitorManager.cpp:61-75, [LogMonitorManager::getActiveMonitors]. *)
Definition getActiveMonitors (stringify : list str -> str) (g : manager) : str :=
  match active g with [] => [] | l => stringify l end.

(** ** Lemmas *)

Definition unlines (ls : list str) : str := concat (map (fun l => l ++ [newline]) ls).
Definition whole_lines (ls : list str) : Prop := Forall (fun l => newline ∉ l) ls.
Definition never (k : nat) : bool := false.

Lemma scan_line l r : newline ∉ l -> scan (l ++ newline :: r) = (l, r, false).
Proof.
  induction l as [|c l IH]; intros Hl; [done|].
  apply not_elem_of_cons in Hl as [Hc Hl]. cbn [app scan].
  rewrite decide_False by done. by rewrite IH.
Qed.

Lemma unlines_cons l ls : unlines (l :: ls) = l ++ newline :: unlines ls.
Proof. unfold unlines. cbn [map concat]. by rewrite <- (assoc_L (++)). Qed.

Lemma getline_unlines l ls :
  newline ∉ l -> getline (unlines (l :: ls)) = Some (l, unlines ls, false).
Proof.
  intros Hl. rewrite unlines_cons. pose proof (scan_line l (unlines ls) Hl) as E.
  destruct (l ++ newline :: unlines ls) eqn:Ec; [by destruct l|].
  unfold getline. by rewrite E.
Qed.

Lemma enqueue_room q line : (length q < _maxQueueSize)%nat -> enqueue_line q line = q ++ [line].
Proof.
  intros H. unfold enqueue_line. rewrite length_app. cbn [length].
  destruct (Nat.ltb_spec _maxQueueSize (length q + 1)); [lia|done].
Qed.

(** The position saved after reading [ls] from [pos]: that after the last line
    at which the time was up. *)
Fixpoint saved (due : nat -> bool) (k : nat) (ls : list str) (pos last : Z) : Z :=
  match ls with
  | [] => last
  | l :: ls' =>
      let pos' := pos + Z.of_nat (length l) + 1 in
      saved due (S k) ls' pos' (if due k then pos' else last)
  end.

Lemma saved_due due ls : forall k pos last,
  ls <> [] -> due (k + length ls - 1)%nat = true ->
  saved due k ls pos last = pos + Z.of_nat (length (unlines ls)).
Proof.
  induction ls as [|l ls IH]; intros k pos last Hne Hd; [done|].
  rewrite unlines_cons, length_app. cbn [saved length].
  destruct ls as [|l' ls].
  - cbn [length] in Hd. replace (k + 1 - 1)%nat with k in Hd by lia. rewrite Hd.
    cbn [saved unlines map concat length]. lia.
  - rewrite IH; [lia|done|].
    by replace (S k + length (l' :: ls) - 1)%nat with (k + length (l :: l' :: ls) - 1)%nat by (cbn [length]; lia).
Qed.

Lemma saved_never ls : forall k pos last, saved never k ls pos last = last.
Proof. induction ls as [|l ls IH]; intros; [done|]. cbn. apply IH. Qed.

Definition lines_of (m : monitor) : list str := concat (batches m) ++ logQueue_ m.

(** Reading whole lines keeps every line, in order, as long as the queue has
    room for all of them. *)
Lemma read_lines_spec due ls : forall fuel k pos m,
  whole_lines ls -> (length (unlines ls) < fuel)%nat ->
  (length (logQueue_ m) + length ls <= _maxQueueSize)%nat ->
  exists m', read_lines fuel due never k (unlines ls) pos m = (m', true) /\
    lines_of m' = lines_of m ++ ls /\ isopen m' = isopen m /\
    lastPos m' = saved due k ls pos (lastPos m).
Proof.
  induction ls as [|l ls IH]; intros [|fuel] k pos m Hw Hf Hq; try lia.
  - exists m. cbn. by rewrite app_nil_r.
  - apply Forall_cons in Hw as [Hl Hw]. rewrite unlines_cons, length_app in Hf.
    cbn [length] in Hf, Hq. cbn [read_lines never]. rewrite getline_unlines by done.
    rewrite enqueue_room by lia.
    match goal with |- context [read_lines fuel due never (S k) _ ?pos' ?m'] =>
      destruct (IH fuel (S k) pos' m') as (m2 & -> & Hl2 & Ho2 & Hp2) end; [done|lia| |].
    { destruct (due k); cbn [logQueue_]; rewrite ?length_app; cbn [length]; lia. }
    exists m2. split; [done|]. rewrite Hl2, Ho2, Hp2. unfold lines_of. cbn [saved].
    destruct (due k); cbn [batches logQueue_ isopen lastPos];
      rewrite ?concat_app; cbn [concat]; rewrite ?app_nil_r, <- ?(assoc_L (++)); done.
Qed.

Lemma monitor_turn_spec due pre ls size m :
  isopen m = true -> lastPos m = Z.of_nat (length pre) -> whole_lines ls ->
  (length (logQueue_ m) + length ls <= _maxQueueSize)%nat ->
  lines_of (turn due never (pre ++ unlines ls) size m) = lines_of m ++ ls /\
  lastPos (turn due never (pre ++ unlines ls) size m) = saved due 0 ls (lastPos m) (lastPos m) /\
  isopen (turn due never (pre ++ unlines ls) size m)
  = (uwrap 64 (saved due 0 ls (lastPos m) (lastPos m)) <? Z.of_nat size).
Proof.
  intros Ho Hp Hw Hq. unfold turn. rewrite Ho, Hp. cbn [andb].
  rewrite (proj2 (Z.leb_le _ _)) by lia. rewrite Nat2Z.id, drop_app_length.
  destruct (read_lines_spec due ls (S (length (unlines ls))) 0 (Z.of_nat (length pre)) m)
    as (m' & -> & Hl & _ & Hs); try done; [lia|].
  unfold reopen, lines_of in *. cbn [isopen lastPos logQueue_ batches].
  rewrite Hs, Hp. by repeat split.
Qed.

Lemma turn_closed due stop content size m : isopen m = false -> turn due stop content size m = m.
Proof. intros H. unfold turn. by rewrite H. Qed.

Lemma turns_closed l m : isopen m = false -> turns m l = m.
Proof.
  intros H. induction l as [|[[due c] size] l IH]; [done|].
  cbn [turns foldl] in *. by rewrite turn_closed.
Qed.

Lemma consume_spec q : forall messages, consume (length q) q messages = (messages ++ q, []).
Proof.
  induction q as [|x q IH]; intros messages; simpl; [by rewrite app_nil_r|].
  by rewrite IH, <- (assoc_L (++)).
Qed.

Lemma drain_spec q : drain (length q) q [] = (q, []).
Proof.
  destruct q as [|x q]; [done|]. cbn [length drain]. unfold consumeLogQueue.
  rewrite consume_spec. by destruct q.
Qed.

(** ** Properties *)

(** Every line that is queued is returned once, under its path, in order,
    and paths without lines are left out; all queues are empty afterwards. *)
Theorem all_consumed (queues : gmap str (list str)) :
  consumeAllMessages queues = (filter (fun kv => kv.2 <> []) queues, (fun _ => []) <$> queues).
Proof.
  unfold consumeAllMessages. cbv zeta.
  assert (((fun q => drain (length q) q []) <$> queues) = (fun q => (q, [])) <$> queues) as ->
    by (apply map_fmap_ext; intros; apply drain_spec).
  rewrite <- !map_fmap_compose. cbn. f_equal. f_equal. apply map_fmap_id.
Qed.

(** A turn of the monitor over whole lines hands on or queues each of
    them, once and in order, while the queue has room for them. *)
Theorem turn_reads_lines due pre ls size m :
  isopen m = true -> lastPos m = Z.of_nat (length pre) -> whole_lines ls ->
  (length (logQueue_ m) + length ls <= _maxQueueSize)%nat ->
  lines_of (turn due never (pre ++ unlines ls) size m) = lines_of m ++ ls.
Proof. intros. by apply monitor_turn_spec. Qed.

Definition always (k : nat) : bool := true.

Lemma turn_reads_lines_witness :
  lines_of (turn always never ([] ++ unlines [$"a"; $"bc"]) 5 start) = [$"a"; $"bc"].
Proof.
  apply (turn_reads_lines always [] [$"a"; $"bc"] 5 start); try done; [|apply Nat.leb_le; vm_compute; reflexivity].
  repeat constructor; by_decision.
Defined.

(** A monitor that has handed on the last line of the file before it asks
    for its size stops for good: whatever is appended later, in however many
    turns, is never read. *)
Theorem monitor_dies_at_end due pre ls m later :
  isopen m = true -> lastPos m = Z.of_nat (length pre) -> whole_lines ls -> ls <> [] ->
  (length (logQueue_ m) + length ls <= _maxQueueSize)%nat ->
  due (length ls - 1)%nat = true ->
  Z.of_nat (length (pre ++ unlines ls)) < 2 ^ 64 ->
  let m' := turn due never (pre ++ unlines ls) (length (pre ++ unlines ls)) m in
  turns m' later = m'.
Proof.
  intros Ho Hp Hw Hne Hq Hd Hb m'. apply turns_closed.
  destruct (monitor_turn_spec due pre ls (length (pre ++ unlines ls)) m) as (_ & _ & E); try done.
  subst m'. rewrite E, saved_due, Hp by done. rewrite length_app in *.
  rewrite uwrap_small by lia. apply Z.ltb_ge. lia.
Qed.

Lemma monitor_dies_at_end_witness :
  let m' := turn always never (unlines [$"a"; $"bc"]) 5 start in
  lines_of (turns m' [(always, unlines [$"a"; $"bc"; $"d"], 7%nat)]) = [$"a"; $"bc"].
Proof.
  pose proof (monitor_dies_at_end always [] [$"a"; $"bc"] start
    [(always, unlines [$"a"; $"bc"; $"d"], 7%nat)]) as H. cbv zeta in *.
  change (length ([] ++ unlines [$"a"; $"bc"])) with 5%nat in H.
  change ([] ++ unlines [$"a"; $"bc"]) with (unlines [$"a"; $"bc"]) in H.
  rewrite H; try done.
  - repeat constructor; by_decision.
  - apply Nat.leb_le; vm_compute; reflexivity.
Defined.

(** Lines read in the last 200 ms before the end of the file are read again
    in the next turn: after a first turn in which the time was never up, the
    second turn over the unchanged file repeats all of it. *)
Theorem lines_read_twice due ls size :
  whole_lines ls -> (2 * length ls <= _maxQueueSize)%nat -> (0 < size)%nat ->
  lines_of (turns start [(never, unlines ls, size); (due, unlines ls, size)]) = ls ++ ls.
Proof.
  intros Hw Hq Hs. cbn [turns foldl].
  destruct (monitor_turn_spec never [] ls size start) as (Hl & Hp & Ho); try done; [cbn; lia|].
  rewrite saved_never in Hp, Ho. cbn [app] in *.
  rewrite (uwrap_small 64 (lastPos start)), (proj2 (Z.ltb_lt _ _)) in Ho by (cbn; lia).
  fold never. change (fun _ : nat => false) with never.
  set (m1 := turn never never (unlines ls) size start) in *.
  destruct (monitor_turn_spec due [] ls size m1) as (Hl2 & _); try done.
  - enough (length (logQueue_ m1) <= length ls)%nat by lia.
    assert (length (lines_of m1) = length ls) as <- by (by rewrite Hl).
    unfold lines_of. rewrite length_app. lia.
  - cbn [app] in Hl2. by rewrite Hl2, Hl.
Qed.

Lemma lines_read_twice_witness :
  lines_of (turns start [(never, unlines [$"a"; $"b"], 4%nat); (always, unlines [$"a"; $"b"], 4%nat)])
  = [$"a"; $"b"; $"a"; $"b"].
Proof.
  apply (lines_read_twice always [$"a"; $"b"] 4); [|apply Nat.leb_le; vm_compute; reflexivity|lia].
  repeat constructor; by_decision.
Defined.

(** What the manager is asked to do. *)
Inductive mop := Start (f : str) | Stop (f : str).
Definition mop_step (g : manager) (o : mop) : manager :=
  match o with Start f => startMonitoring g f | Stop f => stopMonitoring g f end.

Lemma mop_step_lookup g o f :
  is_Some (_monitors (mop_step g o) !! f) <->
  match o with
  | Start f' => f = f' \/ is_Some (_monitors g !! f)
  | Stop f' => f <> f' /\ is_Some (_monitors g !! f)
  end.
Proof.
  destruct o as [f'|f']; cbn [mop_step].
  - unfold startMonitoring. cbn [_monitors]. destruct (decide (f = f')) as [->|Hne].
    + rewrite lookup_alter_eq || rewrite lookup_alter.
      split; [by left|]. intros _. case_decide as Hd.
      * rewrite lookup_insert_eq || rewrite lookup_insert. by eexists.
      * destruct (_monitors g !! f') eqn:E; [by eexists|done].
    + rewrite lookup_alter_ne by done. case_decide; [rewrite lookup_insert_ne by done|]; naive_solver.
  - unfold stopMonitoring. destruct (_monitors g !! f') as [n|] eqn:E; cbn [_monitors].
    + destruct (decide (f = f')) as [->|Hne].
      * rewrite lookup_delete_eq || rewrite lookup_delete. split; [by intros [??]|naive_solver].
      * rewrite lookup_delete_ne by done. naive_solver.
    + split; [|naive_solver]. intros Hf. split; [|done]. intros ->. rewrite E in Hf. by destruct Hf.
Qed.

Definition manage (nodeId monNodeId : str) (ops : list mop) : manager :=
  foldl mop_step (new_manager nodeId monNodeId) ops.

(** A file is followed from a start to the next stop. *)
Definition followed (ops : list mop) (f : str) : Prop :=
  exists pre post, ops = pre ++ Start f :: post /\ Stop f ∉ post.

Lemma followed_snoc ops o f :
  followed (ops ++ [o]) f <->
  match o with
  | Start f' => f = f' \/ followed ops f
  | Stop f' => f <> f' /\ followed ops f
  end.
Proof.
  assert (o <> Stop f -> followed ops f -> followed (ops ++ [o]) f) as Hkeep.
  { intros Ho (pre & post & -> & Hp). exists pre, (post ++ [o]).
    rewrite <- (assoc_L (++)). split; [done|]. rewrite elem_of_app, list_elem_of_singleton.
    naive_solver. }
  assert (followed (ops ++ [o]) f -> (o = Start f \/ followed ops f) /\ o <> Stop f) as Hinv.
  { intros (pre & post & E & Hp). destruct (last_snoc_cases post) as [->|(post' & x & ->)].
    - apply app_inj_tail in E as [-> ->]. split; [by left|done].
    - rewrite app_comm_cons, (assoc_L (++)) in E. apply app_inj_tail in E as [-> ->].
      rewrite elem_of_app, list_elem_of_singleton in Hp. split; [right|naive_solver].
      exists pre, post'. naive_solver. }
  destruct o as [f'|f']; split.
  - intros [[[=]|]%Hinv ?] || intros H; apply Hinv in H. naive_solver.
  - intros [->|H]; [|by apply Hkeep].
    exists ops, []. split; [done|]. apply not_elem_of_nil.
  - intros H. apply Hinv in H. naive_solver.
  - intros [Hne H]. apply Hkeep; [|done]. naive_solver.
Qed.

Lemma manage_snoc nodeId monNodeId ops o :
  manage nodeId monNodeId (ops ++ [o]) = mop_step (manage nodeId monNodeId ops) o.
Proof. unfold manage. by rewrite foldl_app. Qed.

Lemma manage_lookup nodeId monNodeId ops f :
  is_Some (_monitors (manage nodeId monNodeId ops) !! f) <-> followed ops f.
Proof.
  induction ops as [|o ops IH] using rev_ind.
  - split; [cbn; rewrite lookup_empty; by intros [??]|].
    intros (pre & post & E & _). by destruct pre.
  - rewrite manage_snoc, mop_step_lookup, followed_snoc. destruct o; by rewrite IH.
Qed.

Lemma mop_step_topic g o : topic (mop_step g o) = topic g.
Proof. destruct o as [f|f]; [done|]. cbn. unfold stopMonitoring. by case_match. Qed.

(** The files listed as active are those started and not stopped since,
    each once; and no line of any of them is ever published, for the manager's
    topic never gets a publisher. *)
Theorem active_but_silent nodeId monNodeId ops :
  (forall f, f ∈ active (manage nodeId monNodeId ops) <-> followed ops f) /\
  NoDup (active (manage nodeId monNodeId ops)) /\
  (forall stringify f bs, publish stringify (topic (manage nodeId monNodeId ops)) f bs = []).
Proof.
  split_and!.
  - intros f. unfold active. rewrite merge_sort_Permutation, <- manage_lookup.
    rewrite list_elem_of_fmap. split.
    + intros ([k n] & -> & Hk). apply elem_of_map_to_list in Hk. by eexists.
    + intros [n Hn]. exists (f, n). split; [done|]. by apply elem_of_map_to_list.
  - unfold active. rewrite merge_sort_Permutation. apply NoDup_fst_map_to_list.
  - intros stringify f bs.
    assert (topic (manage nodeId monNodeId ops) = new_topic nodeId monNodeId) as ->.
    { induction ops as [|o ops IH] using rev_ind; [done|]. by rewrite manage_snoc, mop_step_topic. }
    induction bs as [|b bs IH]; [done|]. exact IH.
Qed.

End LogMonitor.
