(* ===== verification/LogRelay.v ===== *)
(** * The topic of log lines, with its subscribers and workers
    ([src/node/src/LogTopic.cpp])

    [LogMonitor] has of this class what the node uses; this file has the rest:
    making the end points, the handlers of the samples, and the two threads
    that empty the queues. Both threads and the handlers take the one mutex for
    a single queue operation, so a turn of a thread is one step. Whether the
    calls of zenoh work is an argument. *)

From S2P Require Import Prelude LogMonitor.
Import LogMonitor.

Module LogRelay.

(** What a subscriber calls. *)
Inductive handler := HandleMessage | HandleReplyMessage.

(** src/node/src/LogTopic.h:41-53, [LogTopic]. A subscriber has its key and its
    callback. *)
Record relay := mkRelay {
  publisher_ : bool;
  reply_publisher_ : bool;
  subscriber_ : option (str * handler);
  reply_subscriber_ : option (str * handler);
  message_queue_ : list LogData;
  reply_queue_ : list LogData;
}.

(** src/node/src/LogTopic.cpp:3-4, [LogTopic::LogTopic]. *)
Definition fresh : relay := mkRelay false false None None [] [].

Section Topic.
(** The settings of the topic. *)
Context (topic_ topicReply_ : str) (needReply_ : bool).

(** ** The end points *)

(** src/node/src/LogTopic.cpp:137-149, [LogTopic::create_publisher]. *)
Definition create_publisher (works : bool) (t : relay) : bool * relay :=
  if publisher_ t then (true, t)
  else if works
       then (true, mkRelay true (reply_publisher_ t) (subscriber_ t) (reply_subscriber_ t)
                     (message_queue_ t) (reply_queue_ t))
       else (false, t).

(** src/node/src/LogTopic.cpp:151-175, [LogTopic::create_subscriber]. *)
Definition create_subscriber (works : bool) (t : relay) : bool * relay :=
  match subscriber_ t with
  | Some _ => (true, t)
  | None =>
      if works
      then (true, mkRelay (publisher_ t) (reply_publisher_ t) (Some (topic_, HandleMessage))
                    (reply_subscriber_ t) (message_queue_ t) (reply_queue_ t))
      else (false, t)
  end.

(** src/node/src/LogTopic.cpp:218-231, [LogTopic::create_reply_publisher]. *)
Definition create_reply_publisher (works : bool) (t : relay) : bool * relay :=
  if reply_publisher_ t then (true, t)
  else if works
       then (true, mkRelay (publisher_ t) true (subscriber_ t) (reply_subscriber_ t)
                     (message_queue_ t) (reply_queue_ t))
       else (false, t).

(** src/node/src/LogTopic.cpp:233-257, [LogTopic::create_reply_subscriber]. The
    subscriber is put in [subscriber_], not in [reply_subscriber_]. *)
Definition create_reply_subscriber (works : bool) (t : relay) : bool * relay :=
  match reply_subscriber_ t with
  | Some _ => (true, t)
  | None =>
      if works
      then (true, mkRelay (publisher_ t) (reply_publisher_ t)
                    (Some (topicReply_, HandleReplyMessage))
                    (reply_subscriber_ t) (message_queue_ t) (reply_queue_ t))
      else (false, t)
  end.

(** One call after another, until one fails. *)
Definition and_then (r : bool * relay) (f : relay -> bool * relay) : bool * relay :=
  if r.1 then f r.2 else r.

(** src/node/src/LogTopic.cpp:19-55, [LogTopic::init]. [base] is the result of
    [ZenohBase::init]. *)
Definition init (base pub sub rpub rsub : bool) (t : relay) : bool * relay :=
  if negb base then (false, t)
  else
    let r := and_then (create_publisher pub t) (create_subscriber sub) in
    if r.1 && needReply_
    then and_then (and_then r (create_reply_publisher rpub)) (create_reply_subscriber rsub)
    else r.

(** ** The handlers *)

(** src/node/src/LogTopic.h:70-73, [LogTopic::handle_reply]. *)
Definition handle_reply (logData : LogData) (t : relay) : relay :=
  mkRelay (publisher_ t) (reply_publisher_ t) (subscriber_ t) (reply_subscriber_ t)
    (message_queue_ t) (reply_queue_ t ++ [logData]).

(** src/node/src/LogTopic.cpp:202-216, [LogTopic::handle_message]. *)
Definition handle_message (logData : LogData) (t : relay) : relay :=
  if needReply_ then handle_reply logData t else t.

(** src/node/src/LogTopic.cpp:259-272, [LogTopic::handle_reply_message]. *)
Definition handle_reply_message (replyData : LogData) (t : relay) : relay :=
  mkRelay (publisher_ t) (reply_publisher_ t) (subscriber_ t) (reply_subscriber_ t)
    (message_queue_ t) (reply_queue_ t ++ [replyData]).

Definition call (h : handler) : LogData -> relay -> relay :=
  match h with HandleMessage => handle_message | HandleReplyMessage => handle_reply_message end.

(** A sample arrives at the session with this key. *)
Definition on_sample (key : str) (m : LogData) (t : relay) : relay :=
  match subscriber_ t with
  | Some (k, h) => if decide (k = key) then call h m t else t
  | None => t
  end.

(** ** The threads *)

(** src/node/src/LogTopic.cpp:79-106, [LogTopic::writer_worker]. A turn, and
    what it publishes under [topic_]. *)
Definition writer_turn (put_works : bool) (t : relay) : relay * list LogData :=
  match message_queue_ t with
  | [] => (t, [])
  | m :: q =>
      (mkRelay (publisher_ t) (reply_publisher_ t) (subscriber_ t) (reply_subscriber_ t)
         q (reply_queue_ t),
       if publisher_ t && put_works then [m] else [])
  end.

(** src/node/src/LogTopic.cpp:108-135, [LogTopic::reader_worker]. A turn, and
    what it publishes under [topicReply_]. *)
Definition reader_turn (put_works : bool) (t : relay) : relay * list LogData :=
  match reply_queue_ t with
  | [] => (t, [])
  | m :: q =>
      (mkRelay (publisher_ t) (reply_publisher_ t) (subscriber_ t) (reply_subscriber_ t)
         (message_queue_ t) q,
       if reply_publisher_ t && put_works then [m] else [])
  end.

(** What happens to a topic: a sample arrives, a thread has a turn. *)
Inductive event := Sample (key : str) (m : LogData) | Writer (put_works : bool) | Reader (put_works : bool).

Definition happen (t : relay) (e : event) : relay * list LogData :=
  match e with
  | Sample k m => (on_sample k m t, [])
  | Writer w => writer_turn w t
  | Reader w => reader_turn w t
  end.

Fixpoint happens (t : relay) (es : list event) : relay * list LogData :=
  match es with
  | [] => (t, [])
  | e :: es' =>
      let '(t1, out) := happen t e in
      let '(t2, out') := happens t1 es' in (t2, out ++ out')
  end.

(** A session gets its own samples back, as zenoh does unless told otherwise:
    a turn of the reader thread and the delivery of what it published. *)
Definition echo_turn (t : relay) : relay * list LogData :=
  let '(t1, out) := reader_turn true t in
  (foldl (fun t m => on_sample topicReply_ m t) t1 out, out).

Fixpoint echo (n : nat) (t : relay) : relay * list LogData :=
  match n with
  | O => (t, [])
  | S n' => let '(t1, out) := echo_turn t in let '(t2, out') := echo n' t1 in (t2, out ++ out')
  end.

(** ** Theorems *)

(** Without replies, as the node sets the topic up, nothing that arrives is
    ever published, and nothing is kept of it. *)
Theorem nothing_relayed (base pub sub rpub rsub : bool) (es : list event) :
  needReply_ = false ->
  let t := snd (init base pub sub rpub rsub fresh) in happens t es = (t, []).
Proof.
  intros Hn t. assert (message_queue_ t = [] /\ reply_queue_ t = []
    /\ (subscriber_ t = None \/ subscriber_ t = Some (topic_, HandleMessage))) as (Hm & Hr & Hs).
  { subst t. unfold init, and_then. rewrite Hn. destruct base, pub, sub; cbn; auto. }
  clearbody t. induction es as [|e es IH]; [done|]. cbn [happens].
  assert (happen t e = (t, [])) as ->.
  { destruct e as [k m|w|w]; cbn.
    - unfold on_sample. destruct Hs as [->| ->]; [done|]. case_decide; [|done]. cbn.
      unfold handle_message. by rewrite Hn.
    - unfold writer_turn. by rewrite Hm.
    - unfold reader_turn. by rewrite Hr. }
  by rewrite IH.
Qed.

(** What an initialisation with replies leaves. *)
Lemma init_replies t :
  needReply_ = true -> init true true true true true fresh = (true, t) ->
  t = mkRelay true true (Some (topicReply_, HandleReplyMessage)) None [] [].
Proof. intros Hn. unfold init, and_then. rewrite Hn. cbn. by intros [= <-]. Qed.

(** As many turns as there are replies publish all of them, in order. *)
Lemma reads_in_order sub rsub q ms :
  snd (happens (mkRelay true true sub rsub q ms) (replicate (length ms) (Reader true))) = ms.
Proof.
  induction ms as [|m ms IH]; [done|]. cbn [length replicate happens happen].
  unfold reader_turn. cbn [reply_queue_ reply_publisher_ andb message_queue_ subscriber_ publisher_ reply_subscriber_].
  destruct (happens _ _) as [t2 out]. simpl in *. by rewrite IH.
Qed.

(** With replies, the subscriber for replies replaces the one for messages:
    messages are no longer taken, and replies are published in the order in
    which they come, as many as there are turns for. *)
Theorem replies_replace_messages (t : relay) (ms : list LogData) :
  needReply_ = true -> topic_ <> topicReply_ ->
  init true true true true true fresh = (true, t) ->
  (forall m, on_sample topic_ m t = t)
  /\ snd (happens t (map (Sample topicReply_) ms ++ replicate (length ms) (Reader true))) = ms.
Proof.
  intros Hn Hne ->%init_replies; [|done]. split.
  - intros m. unfold on_sample. cbn. by rewrite decide_False by congruence.
  - assert (forall q rest, happens (mkRelay true true (Some (topicReply_, HandleReplyMessage)) None [] q)
        (map (Sample topicReply_) ms ++ rest)
      = happens (mkRelay true true (Some (topicReply_, HandleReplyMessage)) None [] (q ++ ms)) rest) as H.
    { induction ms as [|m ms IH]; intros q rest; [by rewrite app_nil_r|].
      cbn [map app happens happen]. unfold on_sample at 1. cbn. rewrite decide_True by done.
      unfold handle_reply_message. cbn. rewrite IH, <- app_assoc. cbn.
      by destruct (happens _ rest). }
    rewrite H. apply reads_in_order.
Qed.

(** And a topic that gets its own samples back publishes the first reply it
    receives in every turn, for ever. *)
Theorem reply_echoes (t : relay) (m : LogData) (n : nat) :
  needReply_ = true -> init true true true true true fresh = (true, t) ->
  echo n (on_sample topicReply_ m t) = (on_sample topicReply_ m t, replicate n m).
Proof.
  intros Hn ->%init_replies; [|done]. unfold on_sample. cbn. rewrite decide_True by done.
  unfold handle_reply_message. cbn. induction n as [|n IH]; [done|].
  cbn [echo]. unfold echo_turn, reader_turn. cbn [reply_queue_ reply_publisher_ andb foldl].
  unfold on_sample at 1. cbn [subscriber_]. rewrite decide_True by done.
  unfold call, handle_reply_message. cbn. by rewrite IH.
Qed.

End Topic.

Definition a_line : LogData := mkLogData $"n1" $"n0" $"/var/log/a" $"[]".

Lemma nothing_relayed_witness :
  let t := snd (init $"log" $"log/reply" false true true true true true fresh) in
  happens false t [Sample $"log" a_line; Reader true; Writer true] = (t, []).
Proof. by apply nothing_relayed. Defined.

Lemma reply_echoes_witness :
  snd (echo $"log/reply" true 3
    (on_sample true $"log/reply" a_line (snd (init $"log" $"log/reply" true true true true true true fresh))))
  = [a_line; a_line; a_line].
Proof.
  by rewrite (reply_echoes $"log" $"log/reply" true
    (snd (init $"log" $"log/reply" true true true true true true fresh)) a_line 3).
Defined.

Lemma replies_replace_messages_witness :
  let t := snd (init $"log" $"log/reply" true true true true true true fresh) in
  on_sample true $"log" a_line t = t.
Proof.
  apply (replies_replace_messages $"log" $"log/reply" true
    (snd (init $"log" $"log/reply" true true true true true true fresh)) []); done.
Defined.

End LogRelay.
