(* ===== verification/Exec.v ===== *)
(** * Running shell commands ([src/node/src/CommandExecutor.h])

    A command is run by a [CommandExecutor] of its own; the handles of all the
    processes are in one static map, as pointers to a local variable of
    [execute_command]. A pointer whose function has returned is dead: using it
    is undefined behaviour, [None] here. Launching and the lines a process
    writes are arguments. *)

From S2P Require Import Prelude.

(** What an executor asks of the operating system. *)
Class Shell (O : Type) := {
  launch_cmd : O -> str -> option (Z * O);   (* [None] throws *)
  collected : O -> Z -> list str * O;        (* lines read when the wait ends *)
}.

Module Exec.
Section Manager.
Context {O : Type} `{!Shell O}.

(** A [ProcessHandle*]: the process, and whether the variable still exists. *)
Record handle := mkHandle { h_pid : Z; h_alive : bool }.
Definition deref (h : handle) : option Z := if h_alive h then Some (h_pid h) else None.

(** src/node/src/CommandExecutor.h:32-41, [CommandExecutor]. [executors] is the
    manager's, 201-203; an executor is its [recentOutputs]. *)
Record commands := mkCommands {
  executors : gmap str (gmap str (list str));
  process_handles : gmap str handle;
  process_running : gmap str bool;
}.

Definition no_commands : commands := mkCommands ∅ ∅ ∅.

(** src/node/src/CommandExecutor.h:44-127, [CommandExecutor::execute_command].
    The last step is the return: the handle's variable is gone. *)
Definition executor_execute (o : O) (c : commands) (command : str) : bool * O * commands :=
  let running := <[command := true]> (process_running c) in
  match launch_cmd o command with
  | None => (false, o, mkCommands (executors c) (process_handles c) running)
  | Some (pid, o1) =>
      let '(lines, o2) := collected o1 pid in
      let outputs := <[command := lines]> (default ∅ (executors c !! command)) in
      (true, o2,
       mkCommands (<[command := outputs]> (executors c))
         (<[command := mkHandle pid false]> (process_handles c)) running)
  end.

(** src/node/src/CommandExecutor.h:206-224, [CommandManager::execute_command].
    An executor the command had is dropped; the result is whether it returned. *)
Definition execute_command (o : O) (c : commands) (command : str) : bool * O * commands :=
  executor_execute o
    (mkCommands (<[command := ∅]> (delete command (executors c))) (process_handles c)
       (process_running c)) command.

(** src/node/src/CommandExecutor.h:149-167, [CommandExecutor::getRecentOutput]. *)
Definition getRecentOutput (stringify : list str -> str) (recentOutputs : gmap str (list str))
    (uuid : str) : str :=
  match recentOutputs !! uuid with Some l => stringify l | None => $"[]" end.

(** src/node/src/CommandExecutor.h:226-232, [CommandManager::get_output]. *)
Definition get_output (stringify : list str -> str) (c : commands) (command : str) : str :=
  match executors c !! command with
  | Some outputs => getRecentOutput stringify outputs command
  | None => $"[]"
  end.

(** src/node/src/CommandExecutor.h:234-240, [CommandManager::is_command_running].
    [process_running[command]] is false when it was not there. *)
Definition is_command_running (c : commands) (command : str) : bool :=
  match executors c !! command with
  | Some _ => default false (process_running c !! command)
  | None => false
  end.

(** src/node/src/CommandExecutor.h:174-193, [CommandExecutor::kill_command]. The
    process killed, if a handle is found. *)
Definition executor_kill (c : commands) (command : str) : option (option Z * commands) :=
  match process_handles c !! command with
  | None => Some (None, c)
  | Some h =>
      pid ← deref h;
      Some (Some pid, mkCommands (executors c) (delete command (process_handles c))
                        (<[command := false]> (process_running c)))
  end.

(** src/node/src/CommandExecutor.h:242-248, [CommandManager::kill_command]. *)
Definition kill_command (c : commands) (command : str) : option (option Z * commands) :=
  match executors c !! command with
  | None => Some (None, c)
  | Some _ =>
      '(killed, c1) ← executor_kill c command;
      Some (killed, mkCommands (delete command (executors c1)) (process_handles c1)
                      (process_running c1))
  end.

(** src/node/src/CommandExecutor.h:253-274, [CommandManager::getAllProcesses].
    The loop over the handles. *)
Fixpoint list_processes (isRunning : Z -> bool) (l : list (str * handle)) : option (list (str * bool)) :=
  match l with
  | [] => Some []
  | (command, h) :: l' =>
      pid ← deref h; rest ← list_processes isRunning l'; Some ((command, isRunning pid) :: rest)
  end.

(** src/node/src/CommandExecutor.h:250-278, [CommandManager::getAllProcesses].
    The commands and whether they run, in some order. *)
Definition getAllProcesses (isRunning : Z -> bool) (c : commands) : option (list (str * bool)) :=
  list_processes isRunning (map_to_list (process_handles c)).

(** ** Lemmas *)

(** The commands that were executed, from the start. *)
Definition execute_all (o : O) (cs : list str) : O * commands :=
  foldl (fun '(o, c) command => let '(_, o', c') := execute_command o c command in (o', c'))
    (o, no_commands) cs.

Definition dead_handles (c : commands) : Prop := map_Forall (fun _ h => h_alive h = false) (process_handles c).

Lemma execute_dead o c command :
  dead_handles c -> dead_handles (execute_command o c command).2.
Proof.
  intros Hd. unfold execute_command, executor_execute. cbn [process_handles executors].
  destruct (launch_cmd o command) as [[pid o1]|]; [|exact Hd].
  destruct (collected o1 pid) as [lines o2]. cbn [snd].
  unfold dead_handles. cbn [process_handles]. by apply map_Forall_insert_2.
Qed.

Lemma execute_all_snoc o cs command :
  execute_all o (cs ++ [command])
  = let '(o1, c) := execute_all o cs in
    let '(_, o', c') := execute_command o1 c command in (o', c').
Proof. unfold execute_all. rewrite foldl_app. cbn [foldl]. by destruct (foldl _ _ cs). Qed.

Lemma execute_all_dead o cs : dead_handles (execute_all o cs).2.
Proof.
  induction cs as [|command cs IH] using rev_ind; [apply map_Forall_empty|].
  rewrite execute_all_snoc. destruct (execute_all o cs) as [o1 c].
  pose proof (execute_dead o1 c command IH) as H.
  by destruct (execute_command o1 c command) as [[??]?].
Qed.

Lemma list_processes_dead isRunning l :
  l <> [] -> Forall (fun x => h_alive x.2 = false) l -> list_processes isRunning l = None.
Proof.
  destruct l as [|[k h] l]; [done|]. intros _ [Hh _]%Forall_cons. cbn in *.
  unfold deref. by rewrite Hh.
Qed.

(** ** Properties *)

(** Listing the commands, and killing one, are undefined as soon as one was
    launched: every handle kept points to a variable that is gone. *)
Theorem handles_dangle isRunning o cs command :
  let '(o1, c) := execute_all o cs in
  (getAllProcesses isRunning c = Some [] <-> process_handles c = ∅) /\
  (process_handles c <> ∅ -> getAllProcesses isRunning c = None) /\
  (let '(returned, _, c') := execute_command o1 c command in
   if returned : bool
   then getAllProcesses isRunning c' = None /\ kill_command c' command = None
   else process_handles c' = process_handles c).
Proof.
  pose proof (execute_all_dead o cs) as Hd. destruct (execute_all o cs) as [o1 c]. cbn in Hd.
  assert (forall c, dead_handles c -> process_handles c <> ∅ -> getAllProcesses isRunning c = None) as Hn.
  { intros c' Hd' Hne. apply list_processes_dead.
    - by rewrite map_to_list_empty_iff.
    - apply Forall_forall. intros [k h] Hk. apply elem_of_map_to_list in Hk. by apply (Hd' k). }
  split_and!.
  - split; [|by unfold getAllProcesses; intros ->; rewrite map_to_list_empty].
    intros E. destruct (decide (process_handles c = ∅)); [done|]. by rewrite Hn in E.
  - by apply Hn.
  - pose proof (execute_dead o1 c command Hd) as Hd2.
    unfold execute_command, executor_execute in *. cbn [process_handles executors] in *.
    destruct (launch_cmd o1 command) as [[pid o2]|]; [|done].
    destruct (collected o2 pid) as [lines o3]. cbn [snd] in Hd2. split.
    + apply Hn; [done|]. cbn [process_handles]. apply insert_non_empty.
    + unfold kill_command, executor_kill. cbn [executors process_handles].
      rewrite lookup_insert_eq. cbn. by rewrite lookup_insert_eq.
Qed.

(** The answer to a command that was run holds the lines collected from it,
    and only them: those of an earlier run of the same command are gone. *)
Theorem output_is_of_last_run stringify o c command pid o1 :
  launch_cmd o command = Some (pid, o1) ->
  let '(returned, _, c') := execute_command o c command in
  returned = true /\ get_output stringify c' command = stringify (collected o1 pid).1 /\
  is_command_running c' command = true /\
  (forall other, other <> command -> get_output stringify c' other = get_output stringify c other).
Proof.
  intros Hl. unfold execute_command, executor_execute. cbn [executors process_handles process_running].
  rewrite Hl. destruct (collected o1 pid) as [lines o2]. cbn [fst].
  unfold get_output, getRecentOutput, is_command_running. cbn [executors process_running].
  rewrite !lookup_insert_eq. split_and!; [done..|].
  intros other Hne. by rewrite !lookup_insert_ne, lookup_delete_ne by done.
Qed.

End Manager.

(** A shell on which the command [false] cannot be launched. *)
#[export] Instance toy_shell : Shell Z := {
  launch_cmd o c := if decide (c = $"false") then None else Some (o, o + 1);
  collected o pid := ([$"done"], o);
}.

Lemma output_is_of_last_run_witness :
  get_output (fun l => concat l) (execute_command 7 no_commands $"ls").2 $"ls" = $"done".
Proof.
  pose proof (@output_is_of_last_run Z toy_shell (fun l => concat l) 7 no_commands $"ls" 7 8
    ltac:(vm_compute; reflexivity)) as H.
  destruct (execute_command 7 no_commands $"ls") as [[r o] c']. apply H.
Defined.

End Exec.
