(* ===== verification/Podman.v ===== *)
(** * The Podman client ([src/node/src/PodmanManager.cpp])

    Every operation is a request to Podman's service or a run of
    [podman-compose]. Poco (JSON, HTTP, processes) and what answers are
    arguments: a state and functions on it. An operation returns a text or
    throws, with the text of the exception. *)

From S2P Require Import Prelude Messages.
Import Messages.

(** What the client asks of the libraries and of the host. *)
Class Host (P J : Type) := {
  http : P -> str -> str -> str -> (Z * str + str) * P;   (* URL, method, body: status and body *)
  launch : P -> list str -> (str * str * Z + str) * P;    (* output, error, exit code *)
  write_text : P -> str -> str -> bool * P;
  remove_path : P -> str -> bool * P;
  parse : str -> J + bool * str;                          (* is it a [JSONException]? *)
  jsonToString : J -> str;
  object : list (str * str) -> J;
  members : J -> list (str * str);
}.

Module Podman.
Section Client.
Context {P J : Type} `{!Host P J} (baseUrl : str).

(** A call that changes the state and returns or throws. *)
Definition M (A : Type) : Type := P -> (A + str) * P.

#[local] Instance M_ret : MRet M := fun _ a p => (inl a, p).
#[local] Instance M_bind : MBind M := fun _ _ f m p =>
  match m p with (inl a, p') => f a p' | (inr e, p') => (inr e, p') end.
Definition throw {A} (e : str) : M A := fun p => (inr e, p).

(** src/node/src/PodmanManager.cpp:28-40, [PodmanManager::stringToJson]. *)
Definition stringToJson (jsonString : str) : M J :=
  match parse jsonString with
  | inl j => mret j
  | inr (true, e) => throw ($"JSON parsing error: " ++ e)
  | inr (false, e) => throw ($"Error converting to json: " ++ e)
  end.

(** src/node/src/PodmanManager.cpp:257-283, [PodmanManager::executeRequest]. The
    status of the response is only logged. *)
Definition executeRequest (endpoint method body : str) : M str :=
  fun p => match http p (baseUrl ++ endpoint) method body with
           | (inl (_, responseBody), p') => (inl responseBody, p')
           | (inr e, p') => (inr e, p')
           end.

(** src/node/src/PodmanManager.cpp:320-322, [PodmanManager::getComposeFilePath]. *)
Definition getComposeFilePath (stackName : str) : str :=
  $"/path/to/compose/files/" ++ stackName ++ $".yml".

(** src/node/src/PodmanManager.cpp:285-318, [PodmanManager::executePodmanCompose]. *)
Definition executePodmanCompose (args : list str) (stackName : str) : M str := fun p =>
  match launch p ([$"podman-compose"]
                  ++ (if bool_decide (stackName = []) then [] else [$"-f"; getComposeFilePath stackName])
                  ++ args) with
  | (inl (output, error, exitCode), p') =>
      (if exitCode =? 0 then inl output else inr ($"podman-compose command failed: " ++ error), p')
  | (inr e, p') => (inr e, p')
  end.

(** src/node/src/PodmanManager.cpp:324-335, [PodmanManager::writeComposeFile]. *)
Definition writeComposeFile (stackName composeFile : str) : M unit := fun p =>
  let filePath := getComposeFilePath stackName in
  let '(ok, p') := write_text p filePath composeFile in
  (if ok : bool then inl tt else inr ($"Failed to open file for writing: " ++ filePath), p').

(** src/node/src/PodmanManager.cpp:337-345, [PodmanManager::removeComposeFile]. *)
Definition removeComposeFile (stackName : str) : M unit := fun p =>
  let filePath := getComposeFilePath stackName in
  let '(ok, p') := remove_path p filePath in
  (if ok : bool then inl tt else inr ($"Failed to remove file: " ++ filePath), p').

(** src/node/src/PodmanManager.cpp:42-46, [PodmanManager::listContainers]. *)
Definition listContainers (all : bool) : M str :=
  executeRequest ($"/libpod/containers/json?all=" ++ if all then $"true" else $"false") $"GET" [].

(** src/node/src/PodmanManager.cpp:48-51, [PodmanManager::createContainer]. *)
Definition createContainer (config : J) : M str :=
  executeRequest $"/libpod/containers/create" $"POST" (jsonToString config).

(** src/node/src/PodmanManager.cpp:53-56, [PodmanManager::startContainer]. *)
Definition startContainer (containerId : str) : M str :=
  executeRequest ($"/libpod/containers/" ++ containerId ++ $"/start") $"POST" [].

(** src/node/src/PodmanManager.cpp:58-61, [PodmanManager::stopContainer]. *)
Definition stopContainer (containerId : str) : M str :=
  executeRequest ($"/libpod/containers/" ++ containerId ++ $"/stop") $"POST" [].

(** src/node/src/PodmanManager.cpp:63-66, [PodmanManager::removeContainer]. *)
Definition removeContainer (containerId : str) : M str :=
  executeRequest ($"/libpod/containers/" ++ containerId) $"DELETE" [].

(** src/node/src/PodmanManager.cpp:68-71, [PodmanManager::inspectContainer]. *)
Definition inspectContainer (containerId : str) : M str :=
  executeRequest ($"/libpod/containers/" ++ containerId ++ $"/json") $"GET" [].

(** src/node/src/PodmanManager.cpp:73-76, [PodmanManager::restartContainer]. *)
Definition restartContainer (containerId : str) : M str :=
  executeRequest ($"/libpod/containers/" ++ containerId ++ $"/restart") $"POST" [].

(** src/node/src/PodmanManager.cpp:78-81, [PodmanManager::pauseContainer]. *)
Definition pauseContainer (containerId : str) : M str :=
  executeRequest ($"/libpod/containers/" ++ containerId ++ $"/pause") $"POST" [].

(** src/node/src/PodmanManager.cpp:83-86, [PodmanManager::unpauseContainer]. *)
Definition unpauseContainer (containerId : str) : M str :=
  executeRequest ($"/libpod/containers/" ++ containerId ++ $"/unpause") $"POST" [].

(** src/node/src/PodmanManager.cpp:88-91, [PodmanManager::execInContainer]. *)
Definition execInContainer (containerId : str) (execConfig : J) : M str :=
  executeRequest ($"/libpod/containers/" ++ containerId ++ $"/exec") $"POST" (jsonToString execConfig).

(** src/node/src/PodmanManager.cpp:93-96, [PodmanManager::listImages]. *)
Definition listImages : M str :=
  executeRequest $"/libpod/images/json" $"GET" [].

(** src/node/src/PodmanManager.cpp:98-104, [PodmanManager::pullImage]. *)
Definition pullImage (imageName tag registry : str) : M str :=
  executeRequest $"/libpod/images/pull" $"POST"
    (jsonToString (object [($"reference", registry ++ $"/" ++ imageName ++ $":" ++ tag)])).

(** src/node/src/PodmanManager.cpp:106-109, [PodmanManager::removeImage]. *)
Definition removeImage (imageId : str) : M str :=
  executeRequest ($"/libpod/images/" ++ imageId) $"DELETE" [].

(** src/node/src/PodmanManager.cpp:111-114, [PodmanManager::inspectImage]. *)
Definition inspectImage (imageId : str) : M str :=
  executeRequest ($"/libpod/images/" ++ imageId ++ $"/json") $"GET" [].

(** src/node/src/PodmanManager.cpp:116-121, [PodmanManager::tagImage]. *)
Definition tagImage (imageId newTag : str) : M str :=
  executeRequest ($"/libpod/images/" ++ imageId ++ $"/tag") $"POST"
    (jsonToString (object [($"tag", newTag)])).

(** src/node/src/PodmanManager.cpp:123-126, [PodmanManager::listNetworks]. *)
Definition listNetworks : M str :=
  executeRequest $"/libpod/networks" $"GET" [].

(** src/node/src/PodmanManager.cpp:128-131, [PodmanManager::createNetwork]. *)
Definition createNetwork (config : J) : M str :=
  executeRequest $"/libpod/networks/create" $"POST" (jsonToString config).

(** src/node/src/PodmanManager.cpp:133-136, [PodmanManager::removeNetwork]. *)
Definition removeNetwork (networkId : str) : M str :=
  executeRequest ($"/libpod/networks/" ++ networkId) $"DELETE" [].

(** src/node/src/PodmanManager.cpp:138-141, [PodmanManager::inspectNetwork]. *)
Definition inspectNetwork (networkId : str) : M str :=
  executeRequest ($"/libpod/networks/" ++ networkId) $"GET" [].

(** src/node/src/PodmanManager.cpp:143-146, [PodmanManager::listVolumes]. *)
Definition listVolumes : M str :=
  executeRequest $"/libpod/volumes" $"GET" [].

(** src/node/src/PodmanManager.cpp:148-151, [PodmanManager::createVolume]. *)
Definition createVolume (config : J) : M str :=
  executeRequest $"/libpod/volumes/create" $"POST" (jsonToString config).

(** src/node/src/PodmanManager.cpp:153-156, [PodmanManager::removeVolume]. *)
Definition removeVolume (volumeName : str) : M str :=
  executeRequest ($"/libpod/volumes/" ++ volumeName) $"DELETE" [].

(** src/node/src/PodmanManager.cpp:158-161, [PodmanManager::inspectVolume]. *)
Definition inspectVolume (volumeName : str) : M str :=
  executeRequest ($"/libpod/volumes/" ++ volumeName) $"GET" [].

(** src/node/src/PodmanManager.cpp:163-166, [PodmanManager::listStacks]. *)
Definition listStacks : M str :=
  executePodmanCompose [$"ps"; $"--format"; $"json"] [].

(** src/node/src/PodmanManager.cpp:168-172, [PodmanManager::deployStack]. *)
Definition deployStack (stackName composeFile : str) : M str :=
  _ ← writeComposeFile stackName composeFile; executePodmanCompose [$"up"; $"-d"] stackName.

(** src/node/src/PodmanManager.cpp:174-179, [PodmanManager::removeStack]. *)
Definition removeStack (stackName : str) : M str :=
  result ← executePodmanCompose [$"down"] stackName; _ ← removeComposeFile stackName; mret result.

(** src/node/src/PodmanManager.cpp:181-184, [PodmanManager::inspectStack]. *)
Definition inspectStack (stackName : str) : M str :=
  executePodmanCompose [$"ps"; $"--format"; $"json"] stackName.

(** src/node/src/PodmanManager.cpp:186-190, [PodmanManager::updateStack]. *)
Definition updateStack (stackName composeFile : str) : M str :=
  _ ← writeComposeFile stackName composeFile; executePodmanCompose [$"up"; $"-d"] stackName.

(** src/node/src/PodmanManager.cpp:192-195, [PodmanManager::startStack]. *)
Definition startStack (stackName : str) : M str :=
  executePodmanCompose [$"start"] stackName.

(** src/node/src/PodmanManager.cpp:197-200, [PodmanManager::stopStack]. *)
Definition stopStack (stackName : str) : M str :=
  executePodmanCompose [$"stop"] stackName.

(** src/node/src/PodmanManager.cpp:202-205, [PodmanManager::restartStack]. *)
Definition restartStack (stackName : str) : M str :=
  executePodmanCompose [$"restart"] stackName.

(** src/node/src/PodmanManager.cpp:207-210, [PodmanManager::pauseStack]. *)
Definition pauseStack (stackName : str) : M str :=
  executePodmanCompose [$"pause"] stackName.

(** src/node/src/PodmanManager.cpp:212-215, [PodmanManager::unpauseStack]. *)
Definition unpauseStack (stackName : str) : M str :=
  executePodmanCompose [$"unpause"] stackName.

(** src/node/src/PodmanManager.cpp:217-224, [PodmanManager::scaleStack]. *)
Definition scaleStack (stackName : str) (serviceScaleConfig : J) : M str :=
  executePodmanCompose ($"scale" :: map (fun '(k, v) => k ++ $"=" ++ v) (members serviceScaleConfig))
    stackName.

(** src/node/src/PodmanManager.cpp:226-229, [PodmanManager::getStackLogs]. *)
Definition getStackLogs (stackName : str) : M str :=
  executePodmanCompose [$"logs"] stackName.

(** src/node/src/PodmanManager.cpp:231-234, [PodmanManager::listRegistries]. *)
Definition listRegistries : M str :=
  executeRequest $"/libpod/registries" $"GET" [].

(** src/node/src/PodmanManager.cpp:236-241, [PodmanManager::addRegistry]. *)
Definition addRegistry (url : str) : M str :=
  executeRequest $"/libpod/registries" $"POST" (jsonToString (object [($"url", url)])).

(** src/node/src/PodmanManager.cpp:243-246, [PodmanManager::removeRegistry]. *)
Definition removeRegistry (url : str) : M str :=
  executeRequest ($"/libpod/registries/" ++ url) $"DELETE" [].

(** src/node/src/PodmanManager.cpp:248-255, [PodmanManager::loginRegistry]. *)
Definition loginRegistry (url username password : str) : M str :=
  executeRequest $"/libpod/auth" $"POST"
    (jsonToString (object [($"url", url); ($"username", username); ($"password", password)])).

(** src/node/src/NodeCmdWorker.cpp:637-798, [NodeCmdWorker::worker]. The switch:
    what a Podman command runs; [None] is its default. *)
Definition podman_call (c : option PodmanCmd) (paras paras_1 paras_2 : str) : option (M str) :=
  match c with
  | Some LIST_CONTAINERS => Some (listContainers true)
  | Some CREATE_CONTAINER => Some (j ← stringToJson paras_2; createContainer j)
  | Some START_CONTAINER => Some (startContainer paras)
  | Some STOP_CONTAINER => Some (stopContainer paras)
  | Some REMOVE_CONTAINER => Some (removeContainer paras)
  | Some INSPECT_CONTAINER => Some (inspectContainer paras)
  | Some RESTART_CONTAINER => Some (restartContainer paras)
  | Some PAUSE_CONTAINER => Some (pauseContainer paras)
  | Some UNPAUSE_CONTAINER => Some (unpauseContainer paras)
  | Some EXEC_IN_CONTAINER => Some (j ← stringToJson paras_2; execInContainer paras j)
  | Some LIST_IMAGES => Some listImages
  | Some PULL_IMAGE => Some (pullImage paras paras_1 paras_2)
  | Some REMOVE_IMAGE => Some (removeImage paras)
  | Some INSPECT_IMAGE => Some (inspectImage paras)
  | Some TAG_IMAGE => Some (tagImage paras paras_1)
  | Some LIST_NETWORKS => Some listNetworks
  | Some CREATE_NETWORK => Some (j ← stringToJson paras_2; createNetwork j)
  | Some REMOVE_NETWORK => Some (removeNetwork paras)
  | Some INSPECT_NETWORK => Some (inspectNetwork paras)
  | Some LIST_VOLUMES => Some listVolumes
  | Some CREATE_VOLUME => Some (j ← stringToJson paras_2; createVolume j)
  | Some REMOVE_VOLUME => Some (removeVolume paras)
  | Some INSPECT_VOLUME => Some (inspectVolume paras)
  | Some LIST_STACKS => Some listStacks
  | Some DEPLOY_STACK => Some (deployStack paras paras_1)
  | Some REMOVE_STACK => Some (removeStack paras)
  | Some INSPECT_STACK => Some (inspectStack paras)
  | Some UPDATE_STACK => Some (updateStack paras paras_1)
  | Some START_STACK => Some (startStack paras)
  | Some STOP_STACK => Some (stopStack paras)
  | Some RESTART_STACK => Some (restartStack paras)
  | Some PAUSE_STACK => Some (pauseStack paras)
  | Some UNPAUSE_STACK => Some (unpauseStack paras)
  | Some SCALE_STACK => Some (j ← stringToJson paras_2; scaleStack paras j)
  | Some GET_STACK_LOGS => Some (getStackLogs paras)
  | Some LIST_REGISTRIES => Some listRegistries
  | Some ADD_REGISTRY => Some (addRegistry paras)
  | Some REMOVE_REGISTRY => Some (removeRegistry paras)
  | Some LOGIN_REGISTRY => Some (loginRegistry paras paras_1 paras_2)
  | None => None
  end.

(** src/node/src/NodeCmdWorker.cpp:633-810, [NodeCmdWorker::worker]. The case of
    a Podman command. [podm_] is not null once the worker is initialised. *)
Definition podman_cmd (c : NodeCmd) (r : NodeCmdReply) (p : P) : NodeCmdReply * P :=
  if (0 <? c_podman_cmd c) && (c_podman_cmd c <=? 255) then
    match podman_call (podman_of_Z (c_podman_cmd c)) (c_paras c) (c_paras_1 c) (c_paras_2 c) with
    | None => (set_status (set_desc_str (set_status r INVALID) $"未知的Podman命令") SUCCESS, p)
    | Some call =>
        match call p with
        | (inl out, p') => (set_status (set_desc_str r out) SUCCESS, p')
        | (inr e, p') =>
            (set_desc_str (set_status r INVALID) ($"Podman命令执行失败: " ++ e), p')
        end
    end
  else (r, p).

End Client.

(** ** Properties *)

(** Commands on stacks run [podman-compose]; the others are HTTP requests. *)
Definition is_stack (c : PodmanCmd) : bool :=
  match c with
  | LIST_STACKS | DEPLOY_STACK | REMOVE_STACK | INSPECT_STACK | UPDATE_STACK | START_STACK
  | STOP_STACK | RESTART_STACK | PAUSE_STACK | UNPAUSE_STACK | SCALE_STACK | GET_STACK_LOGS => true
  | _ => false
  end.

Lemma podman_of_Z_in z c : podman_of_Z z = Some c -> z = Z_of_podman c.
Proof.
  unfold podman_of_Z. destruct (Z.ltb_spec z 0); [done|]. intros Hz.
  rewrite <- (Z2Nat.id z) by done. generalize dependent (Z.to_nat z). clear.
  intros n Hn. do 39 (destruct n as [|n]; [by simplify_eq/=|]). done.
Qed.

Lemma podman_of_Z_of c : podman_of_Z (Z_of_podman c) = Some c.
Proof. by destruct c. Qed.

Section Facts.
Context {P J : Type} `{!Host P J} (baseUrl : str).

(** The status of a Podman command: a number that is out of range leaves
    the default failure and does nothing, [LIST_CONTAINERS], which is 0, among
    them; a number in range is a success unless the call throws, a number that
    names no command included. *)
Theorem podman_status c r p :
  r_status r = INVALID ->
  let '(r', p') := podman_cmd baseUrl c r p in
  (r_status r' = SUCCESS <->
   0 < c_podman_cmd c <= 255 /\
   match podman_call baseUrl (podman_of_Z (c_podman_cmd c)) (c_paras c) (c_paras_1 c) (c_paras_2 c) with
   | None => True
   | Some call => exists out, fst (call p) = inl out
   end) /\
  (~ 0 < c_podman_cmd c <= 255 -> r' = r /\ p' = p) /\
  (podman_of_Z (c_podman_cmd c) = Some LIST_CONTAINERS -> r' = r /\ p' = p).
Proof.
  intros Hr. unfold podman_cmd.
  destruct (Z.ltb_spec 0 (c_podman_cmd c)), (Z.leb_spec (c_podman_cmd c) 255);
    cbn [andb]; cycle 1.
  1-3: rewrite Hr; split_and!; intros; try done; split; try done; intros; try done; lia.
  assert (podman_of_Z (c_podman_cmd c) <> Some LIST_CONTAINERS) as Hl.
  { intros E%podman_of_Z_in. rewrite E in *. by apply Z.lt_irrefl in H. }
  destruct (podman_call _ _ _ _ _) as [call|].
  - destruct (call p) as [[out|e] p']; cbn [fst set_status set_desc_str r_status];
      split_and!; try done; try lia; split; try done; eauto.
    by intros [_ [? ?]].
  - split_and!; try done; try lia.
Qed.

(** A request that Podman answers with an error is a success: whatever the
    HTTP status, the body is the answer. *)
Theorem http_status_ignored c pc r p j status body :
  podman_of_Z (c_podman_cmd c) = Some pc -> pc <> LIST_CONTAINERS -> is_stack pc = false ->
  parse (c_paras_2 c) = inl j ->
  (forall url method text, http p url method text = (inl (status, body), p)) ->
  podman_cmd baseUrl c r p = (set_status (set_desc_str r body) SUCCESS, p).
Proof.
  intros Hc Hne Hs Hj Hh. pose proof (podman_of_Z_in _ _ Hc) as Hz. unfold podman_cmd.
  assert ((0 <? c_podman_cmd c) && (c_podman_cmd c <=? 255) = true) as -> by (rewrite Hz; by destruct pc).
  rewrite Hc.
  assert (exists call, podman_call baseUrl (Some pc) (c_paras c) (c_paras_1 c) (c_paras_2 c) = Some call
    /\ call p = (inl body, p)) as (call & -> & ->); [|done].
  destruct pc; try done; (eexists; split; [reflexivity|]);
    cbv [mbind mret M_bind M_ret stringToJson]; rewrite ?Hj;
    cbv [listContainers createContainer startContainer stopContainer removeContainer inspectContainer
      restartContainer pauseContainer unpauseContainer execInContainer listImages pullImage removeImage
      inspectImage tagImage listNetworks createNetwork removeNetwork inspectNetwork listVolumes
      createVolume removeVolume inspectVolume listRegistries addRegistry removeRegistry loginRegistry
      executeRequest mret M_ret]; by rewrite Hh.
Qed.

(** When [podman-compose] fails, the reply to a command on a stack says so,
    with the error output. *)
Theorem stack_failure_reported c pc r p j out error code :
  podman_of_Z (c_podman_cmd c) = Some pc -> is_stack pc = true ->
  parse (c_paras_2 c) = inl j -> code <> 0 ->
  (forall path text, write_text p path text = (true, p)) ->
  (forall args, launch p args = (inl (out, error, code), p)) ->
  podman_cmd baseUrl c r p
  = (set_desc_str (set_status r INVALID)
       ($"Podman命令执行失败: " ++ $"podman-compose command failed: " ++ error), p).
Proof.
  intros Hc Hs Hj Hn Hw Hl. pose proof (podman_of_Z_in _ _ Hc) as Hz. unfold podman_cmd.
  assert ((0 <? c_podman_cmd c) && (c_podman_cmd c <=? 255) = true) as -> by (rewrite Hz; by destruct pc).
  rewrite Hc.
  assert (forall args s, executePodmanCompose args s p
    = (inr ($"podman-compose command failed: " ++ error), p)) as He.
  { intros args s. unfold executePodmanCompose. rewrite Hl.
    destruct (Z.eqb_spec code 0); [done|reflexivity]. }
  assert (exists call, podman_call baseUrl (Some pc) (c_paras c) (c_paras_1 c) (c_paras_2 c) = Some call
    /\ call p = (inr ($"podman-compose command failed: " ++ error), p)) as (call & -> & ->); [|done].
  destruct pc; try done; (eexists; split; [reflexivity|]);
    cbv [mbind mret M_bind M_ret stringToJson writeComposeFile]; rewrite ?Hj, ?Hw;
    cbv [listStacks deployStack removeStack inspectStack updateStack startStack stopStack restartStack
      pauseStack unpauseStack scaleStack getStackLogs mbind M_bind mret M_ret writeComposeFile];
    rewrite ?Hw, ?He; done.
Qed.

End Facts.

(** A host that answers every request with 404 and on which [podman-compose]
    fails; a JSON document is its text. *)
#[export] Instance broken_host : Host unit str := {
  http _ _ _ _ := (inl (404, $"no such container"), tt);
  launch _ _ := (inl ([], $"no such file", 1), tt);
  write_text _ _ _ := (true, tt);
  remove_path _ _ := (true, tt);
  parse s := inl s;
  jsonToString s := s;
  object l := concat (map snd l);
  members s := [(s, $"1")];
}.

Definition podman_test (z : Z) : NodeCmd := mkNodeCmd $"u" $"m" $"m" $"n" [] 41 z [] $"c1" [] [].
Definition blank : NodeCmdReply := mkNodeCmdReply $"r" $"n" $"n" $"m" $"m" $"u" 41 INVALID [] [] [].

Lemma podman_status_witness :
  r_status (fst (podman_cmd $"http://h" (podman_test 99) blank tt)) = SUCCESS /\
  podman_cmd $"http://h" (podman_test 0) blank tt = (blank, tt).
Proof.
  pose proof (podman_status $"http://h" (podman_test 99) blank tt eq_refl) as H99.
  pose proof (podman_status $"http://h" (podman_test 0) blank tt eq_refl) as H0.
  destruct (podman_cmd _ (podman_test 99) _ _) as [r99 p99].
  destruct (podman_cmd _ (podman_test 0) _ _) as [r0 p0]. split.
  - apply H99. split; [by vm_compute|exact I].
  - destruct H0 as (_ & _ & H0). destruct (H0 eq_refl) as [-> ->]. reflexivity.
Defined.

Lemma http_status_ignored_witness :
  r_status (fst (podman_cmd $"http://h" (podman_test 2) blank tt)) = SUCCESS.
Proof.
  rewrite (http_status_ignored $"http://h" (podman_test 2) START_CONTAINER blank tt []
             404 $"no such container"); try reflexivity. discriminate.
Defined.

Lemma stack_failure_reported_witness :
  r_status (fst (podman_cmd $"http://h" (podman_test 24) blank tt)) = INVALID.
Proof.
  rewrite (stack_failure_reported $"http://h" (podman_test 24) DEPLOY_STACK blank tt []
             [] $"no such file" 1); try reflexivity. discriminate.
Defined.

End Podman.
