(* ===== verification/Worker.v ===== *)
(** * The command worker ([src/node/src/NodeCmdWorker.cpp])

    The worker takes the commands of the main queue one by one; it runs
    plugins, applications, log monitors, shell commands and Podman, and queues
    a reply. The plugin framework (CppMicroServices) and the libraries under
    the components are arguments. *)

From S2P Require Import Prelude StrUtil Json Messages Wiring ProcessManager LogMonitor Exec Podman.
Import Messages ProcessManager.

(** The plugin framework: an operation that returns [false] threw. *)
Class Framework (F : Type) := {
  InstallBundles : F -> str -> bool * F;
  GetBundles : F -> list (Z * str * Z);      (* id, symbolic name, state *)
  Uninstall : F -> Z -> bool * F;
  Start_ : F -> Z -> bool * F;
  Stop_ : F -> Z -> bool * F;
}.

Module Worker.
Definition id_le (a b : Z * str * Z) : Prop := (a.1.1 <= b.1.1)%Z.
#[export] Instance id_le_dec a b : Decision (id_le a b).
Proof. unfold id_le. apply _. Defined.
Abbreviation procs := (list ProcessAttribute).

Section Worker.
Context {O X F P J : Type} `{OsO : Os O, ShX : !Exec.Shell X, FwF : !Framework F, HoP : !Podman.Host P J}.
(** [Poco::File::exists], which may throw; the texts Poco's JSON makes of a list
    of strings and of the list of processes; the process id of a child that was
    never launched; whether a process runs. *)
Context (path_exists : O -> str -> option bool) (stringify : list str -> str)
  (stringify_procs : list (str * bool) -> str) (no_child : Z) (isRunning : Z -> bool).
(** The node's settings ([utility::node::nodeInfo_] and [topicInfo_]). *)
Context (windows : bool) (nodeId nodeName podmanBaseUrl : str).

Record world := mkWorld {
  w_os : O;
  w_procs : procs;
  w_shell : X;
  w_cmds : Exec.commands;
  w_monitors : LogMonitor.manager;
  w_framework : F;
  w_names : gmap str Z;           (* [symbolicNameToId] *)
  w_podman : P;
  w_reboots : nat;                (* [system("shutdown -r -t 0")] *)
  w_replies : list NodeCmdReply;  (* [mainCmdReplyQueueOut_] *)
}.

Definition with_procs (w : world) (o : O) (ps : procs) : world :=
  mkWorld o ps (w_shell w) (w_cmds w) (w_monitors w) (w_framework w) (w_names w) (w_podman w)
    (w_reboots w) (w_replies w).
Definition with_cmds (w : world) (x : X) (c : Exec.commands) : world :=
  mkWorld (w_os w) (w_procs w) x c (w_monitors w) (w_framework w) (w_names w) (w_podman w)
    (w_reboots w) (w_replies w).
Definition with_monitors (w : world) (g : LogMonitor.manager) : world :=
  mkWorld (w_os w) (w_procs w) (w_shell w) (w_cmds w) g (w_framework w) (w_names w) (w_podman w)
    (w_reboots w) (w_replies w).
Definition with_framework (w : world) (f : F) (names : gmap str Z) : world :=
  mkWorld (w_os w) (w_procs w) (w_shell w) (w_cmds w) (w_monitors w) f names (w_podman w)
    (w_reboots w) (w_replies w).
Definition with_podman (w : world) (p : P) : world :=
  mkWorld (w_os w) (w_procs w) (w_shell w) (w_cmds w) (w_monitors w) (w_framework w) (w_names w) p
    (w_reboots w) (w_replies w).
Definition rebooting (w : world) : world :=
  mkWorld (w_os w) (w_procs w) (w_shell w) (w_cmds w) (w_monitors w) (w_framework w) (w_names w)
    (w_podman w) (S (w_reboots w)) (w_replies w).
Definition enqueue (w : world) (r : NodeCmdReply) : world :=
  mkWorld (w_os w) (w_procs w) (w_shell w) (w_cmds w) (w_monitors w) (w_framework w) (w_names w)
    (w_podman w) (w_reboots w) (w_replies w ++ [r]).

(** How a turn of the loop ends: the next turn, an exception that [catch (...)]
    logs, the end of the process, or undefined behaviour. *)
Inductive ending := Next | Thrown | Exited | Undefined.

Definition reply (w : world) (r : NodeCmdReply) : ending * world := (Next, enqueue w r).

Definition contains (s sub : str) : bool :=
  match sfind sub s with Some _ => true | None => false end.

(** ** Plugins *)

(** [ss >> id] for a [long]: blanks, a sign, digits. *)
Definition is_digit (c : ascii) : bool :=
  let n := nat_of_ascii c in (48 <=? n)%nat && (n <=? 57)%nat.
Fixpoint read_digits (acc : option Z) (s : str) : option Z :=
  match s with
  | c :: s' =>
      if is_digit c
      then read_digits (Some (default 0 acc * 10 + Z.of_nat (nat_of_ascii c - 48))) s'
      else acc
  | [] => acc
  end.
Fixpoint skip_blanks (s : str) : str :=
  match s with
  | c :: s' => if in_set $" " c || (9 <=? nat_of_ascii c)%nat && (nat_of_ascii c <=? 13)%nat
               then skip_blanks s' else s
  | [] => []
  end.
Definition read_long (s : str) : option Z :=
  let z := match skip_blanks s with
           | "-"%char :: s' => Z.opp <$> read_digits None s'
           | "+"%char :: s' => read_digits None s'
           | s' => read_digits None s'
           end in
  z ← z; if (- 2 ^ 63 <=? z) && (z <? 2 ^ 63) then Some z else None.

(** src/node/src/NodeCmdWorker.cpp:51-65, [NodeCmdWorker::get_bundle]. *)
Definition get_bundle (w : world) (s : str) : Z :=
  match read_long s with Some id => id | None => default (-1) (w_names w !! s) end.

Definition is_bundle (w : world) (id : Z) : bool :=
  existsb (fun b => fst (fst b) =? id) (GetBundles (w_framework w)).

(** src/node/src/NodeCmdWorker.cpp:881-903, [NodeCmdWorker::start_plugin]. *)
Definition start_plugin (w : world) (pluginName : str) : bool * world :=
  let id := get_bundle w pluginName in
  if is_bundle w id
  then let '(ok, f) := Start_ (w_framework w) id in (ok, with_framework w f (w_names w))
  else (false, w).

(** src/node/src/NodeCmdWorker.cpp:904-923, [NodeCmdWorker::stop_plugin]. *)
Definition stop_plugin (w : world) (pluginName : str) : bool * world :=
  let id := get_bundle w pluginName in
  if is_bundle w id
  then let '(ok, f) := Stop_ (w_framework w) id in (ok, with_framework w f (w_names w))
  else (false, w).

Definition q (s : str) : str := Json.quote :: s ++ [Json.quote].

(** src/node/src/NodeCmdWorker.cpp:830-836, [NodeCmdWorker::setLsPluginDesc].
    The bundles by id; the first of an id stays. *)
Definition bundle_map (l : list (Z * str * Z)) : list (Z * str * Z) :=
  merge_sort id_le
    (map (fun '(id, (name, st)) => (id, name, st))
       (map_to_list (foldl (fun m '(id, name, st) =>
          match m !! id with Some _ => m | None => <[id := (name, st)]> m end)
          (∅ : gmap Z (str * Z)) l))).

(** src/node/src/NodeCmdWorker.cpp:836-849, [NodeCmdWorker::setLsPluginDesc]. *)
Definition plugins_json (l : list (Z * str * Z)) : str :=
  let items := concat (map (fun '(id, name, st) =>
    $"{" ++ q $"id" ++ $":" ++ to_strz id
    ++ $"," ++ q $"SymbolicName" ++ $":" ++ q name
    ++ $"," ++ q $"State" ++ $":" ++ q (to_strz st) ++ $"},") l) in
  match items with [] => $"[]" | _ => $"[" ++ removelast items ++ $"]" end.
Definition setLsPluginDesc (w : world) (r : NodeCmdReply) : NodeCmdReply :=
  set_desc r (plugins_json (bundle_map (GetBundles (w_framework w)))).

(** ** Applications *)

(** src/node/src/NodeCmdWorker.cpp:925-930, [NodeCmdWorker::combUuid]. *)
Definition combUuid (paras1 cmd paras paras2 : str) : str :=
  StrUtil.trim (paras1 ++ $" " ++ cmd ++ $" " ++ paras ++ $" " ++ paras2).

(** src/node/src/NodeCmdWorker.cpp:852-872, [NodeCmdWorker::setLsAppDesc]. *)
Definition app_json (p : ProcessAttribute) : str :=
  $"{" ++ q $"id" ++ $":" ++ to_strz (default no_child (instance p))
  ++ $"," ++ q $"state" ++ $":" ++ q (if exception_flag p then $"0" else $"1")
  ++ $"," ++ q $"uuid" ++ $":" ++ q (uuid p)
  ++ $"," ++ q $"launch_cmd" ++ $":" ++ q (launch_cmd p)
  ++ $"," ++ q $"paras1" ++ $":" ++ q (work_path p)
  ++ $"," ++ q $"paras2" ++ $":" ++ q $" " ++ $"},".

(** src/node/src/NodeCmdWorker.cpp:852-879, [NodeCmdWorker::setLsAppDesc]. *)
Definition setLsAppDesc (ps : procs) (r : NodeCmdReply) : NodeCmdReply :=
  set_desc r match concat (map app_json ps) with
             | [] => $"[]"
             | items => $"[" ++ removelast items ++ $"]"
             end.

(** [pm_->ls_process()] and then the description of all the instances. *)
Definition list_apps (now : Z) (w : world) (r : NodeCmdReply) : world * NodeCmdReply :=
  let '(_, o, ps) := ls_process now (w_os w) (w_procs w) in
  (with_procs w o ps, setLsAppDesc ps r).

(** [if (pathName.exists())]: the rest of a case; an exception leaves it. *)
Definition if_exists (w : world) (path : str) (yes no : ending * world) : ending * world :=
  match path_exists (w_os w) path with
  | None => (Thrown, w)
  | Some true => yes
  | Some false => no
  end.

Definition app_path (c : NodeCmd) : str := StrUtil.trim (c_paras_1 c ++ c_cmd c).
Definition app_uuid (c : NodeCmd) : str := combUuid (c_paras_1 c) (c_cmd c) (c_paras c) (c_paras_2 c).
Definition long_cmd (c : NodeCmd) : bool := (1 <? length (c_cmd c))%nat.

(** src/node/src/NodeCmdWorker.cpp:338-368, [NodeCmdWorker::worker]. [ADDAPP]. *)
Definition add_app (now : Z) (w : world) (c : NodeCmd) (r : NodeCmdReply) : ending * world :=
  if long_cmd c then
    if_exists w (app_path c)
      (let cmd := StrUtil.trim (c_cmd c) ++ $" " ++ StrUtil.trim (c_paras c) in
       let '(ok, ps) := add_process (w_procs w) (app_uuid c) (c_paras_1 c) cmd true in
       let w1 := with_procs w (w_os w) ps in
       if ok : bool then
         let '(w2, r2) := list_apps now w1 r in reply w2 (set_status r2 SUCCESS)
       else reply w1 (set_status r SUCCESS))
      (reply w r)
  else reply w (set_status r INVALID).

(** src/node/src/NodeCmdWorker.cpp:369-399, [NodeCmdWorker::worker]. [REMOVEAPP]. *)
Definition remove_app (now : Z) (w : world) (c : NodeCmd) (r : NodeCmdReply) : ending * world :=
  if long_cmd c then
    if_exists w (app_path c)
      (let '(ok, o, ps) := remove_process (w_os w) (w_procs w) (app_uuid c) in
       let w1 := with_procs w o ps in
       match ok with
       | None => (Undefined, w1)
       | Some true => let '(w2, r2) := list_apps now w1 r in reply w2 (set_status r2 SUCCESS)
       | Some false => reply w1 (set_status r SUCCESS)
       end)
      (reply w (set_status r INVALID))
  else reply w (set_status r INVALID).

(** src/node/src/NodeCmdWorker.cpp:400-425, [NodeCmdWorker::worker]. [STARTAPP]. *)
Definition start_app (now : Z) (w : world) (c : NodeCmd) (r : NodeCmdReply) : ending * world :=
  if long_cmd c then
    if_exists w (app_path c)
      (let '(ok, o, ps) := start_process now (w_os w) (w_procs w) (app_uuid c) in
       let w1 := with_procs w o ps in
       if ok : bool then
         let '(w2, r2) := list_apps now w1 r in reply w2 (set_status r2 SUCCESS)
       else reply w1 (set_status r SUCCESS))
      (reply w (set_status r INVALID))
  else reply w r.

(** src/node/src/NodeCmdWorker.cpp:426-452, [NodeCmdWorker::worker]. [STOPAPP]. *)
Definition stop_app (now : Z) (w : world) (c : NodeCmd) (r : NodeCmdReply) : ending * world :=
  if long_cmd c then
    if_exists w (app_path c)
      (let '(ok, o, ps) := kill_process (w_os w) (w_procs w) (app_uuid c) in
       let w1 := with_procs w o ps in
       match ok with
       | None => (Undefined, w1)
       | Some true =>
           let '(w2, r2) := list_apps now w1 r in reply w2 (set_status (set_status r2 SUCCESS) SUCCESS)
       | Some false => reply w1 (set_status (set_status r SUCCESS) SUCCESS)
       end)
      (reply w (set_status (set_status r INVALID) SUCCESS))
  else reply w (set_status r SUCCESS).

(** src/node/src/NodeCmdWorker.cpp:453-481, [NodeCmdWorker::worker]. [RESTARTAPP]. *)
Definition restart_app (now : Z) (w : world) (c : NodeCmd) (r : NodeCmdReply) : ending * world :=
  if long_cmd c then
    if_exists w (app_path c)
      (let '(ok, o, ps) := kill_process (w_os w) (w_procs w) (app_uuid c) in
       match ok with
       | None => (Undefined, with_procs w o ps)
       | Some true =>
           let '(_, o2, ps2) := start_process now o ps (app_uuid c) in
           let '(w2, r2) := list_apps now (with_procs w o2 ps2) r in
           reply w2 (set_status (set_status r2 SUCCESS) SUCCESS)
       | Some false => reply (with_procs w o ps) (set_status (set_status r SUCCESS) SUCCESS)
       end)
      (reply w (set_status (set_status r INVALID) SUCCESS))
  else reply w (set_status r SUCCESS).

(** ** Plugins, logs, commands *)

(** src/node/src/NodeCmdWorker.cpp:243-270, [NodeCmdWorker::worker]. [ADDPLUGIN]. *)
Definition add_plugin (w : world) (c : NodeCmd) (r : NodeCmdReply) : ending * world :=
  if contains (c_cmd c) $"ADDPLUGIN" && negb (bool_decide (c_paras c = [])) then
    let dll := c_paras c ++ if windows then $".dll" else $".so" in
    let '(ok, f) := InstallBundles (w_framework w) dll in
    let names := if ok : bool
                 then foldl (fun m '(id, name, _) => <[name := id]> m) (w_names w) (GetBundles f)
                 else w_names w in
    let w1 := with_framework w f names in
    reply w1 (setLsPluginDesc w1 (if ok then set_status r SUCCESS else r))
  else reply w r.

(** src/node/src/NodeCmdWorker.cpp:271-288, [NodeCmdWorker::worker]. [REMOVEPLUGIN]. *)
Definition remove_plugin (w : world) (c : NodeCmd) (r : NodeCmdReply) : ending * world :=
  if contains (c_cmd c) $"REMOVEPLUGIN" && negb (bool_decide (c_paras c = [])) then
    let '(ok, f) := Uninstall (w_framework w) (get_bundle w (c_paras c)) in
    let w1 := with_framework w f (w_names w) in
    reply w1 (setLsPluginDesc w1 (if ok : bool then set_status r SUCCESS else r))
  else reply w r.

(** src/node/src/NodeCmdWorker.cpp:289-300, [NodeCmdWorker::worker]. [STARTPLUGIN]. *)
Definition start_plugin_cmd (w : world) (c : NodeCmd) (r : NodeCmdReply) : ending * world :=
  if contains (c_cmd c) $"STARTPLUGIN" && negb (bool_decide (c_paras c = [])) then
    let '(ok, w1) := start_plugin w (c_paras c) in
    reply w1 (setLsPluginDesc w1 (if ok : bool then set_status r SUCCESS else r))
  else reply w r.

(** src/node/src/NodeCmdWorker.cpp:301-312, [NodeCmdWorker::worker]. [STOPPLUGIN]. *)
Definition stop_plugin_cmd (w : world) (c : NodeCmd) (r : NodeCmdReply) : ending * world :=
  if contains (c_cmd c) $"STOPPLUGIN" && negb (bool_decide (c_paras c = [])) then
    let '(ok, w1) := stop_plugin w (c_paras c) in
    reply w1 (setLsPluginDesc w1 (if ok : bool then set_status r SUCCESS else r))
  else reply w r.

(** src/node/src/NodeCmdWorker.cpp:313-327, [NodeCmdWorker::worker]. [RESTARTPLUGIN]. *)
Definition restart_plugin (w : world) (c : NodeCmd) (r : NodeCmdReply) : ending * world :=
  if contains (c_cmd c) $"RESTARTPLUGIN" && negb (bool_decide (c_paras c = [])) then
    let '(_, w1) := stop_plugin w (c_paras c) in
    let '(ok, w2) := start_plugin w1 (c_paras c) in
    reply w2 (setLsPluginDesc w2 (if ok : bool then set_status r SUCCESS else r))
  else reply w r.

(** src/node/src/NodeCmdWorker.cpp:328-337, [NodeCmdWorker::worker]. [LSPLUGIN]. *)
Definition ls_plugin (w : world) (c : NodeCmd) (r : NodeCmdReply) : ending * world :=
  if contains (c_cmd c) $"LSPLUGIN" then reply w (set_status (setLsPluginDesc w r) SUCCESS)
  else reply w r.

(** src/node/src/NodeCmdWorker.cpp:482-493, [NodeCmdWorker::worker]. [LSAPP]. *)
Definition ls_app (now : Z) (w : world) (c : NodeCmd) (r : NodeCmdReply) : ending * world :=
  if contains (c_cmd c) $"LSAPP"
  then let '(w1, r1) := list_apps now w r in reply w1 (set_status r1 SUCCESS)
  else reply w r.

(** src/node/src/NodeCmdWorker.cpp:494-513, [NodeCmdWorker::worker]. [STARTTRACELOG]. *)
Definition start_log (w : world) (c : NodeCmd) (r : NodeCmdReply) : ending * world :=
  if long_cmd c then
    if_exists w (StrUtil.trim (c_cmd c))
      (let g := LogMonitor.startMonitoring (w_monitors w) (StrUtil.trim (c_cmd c)) in
       reply (with_monitors w g)
         (set_status (set_desc r (LogMonitor.getActiveMonitors stringify g)) SUCCESS))
      (reply w (set_status r INVALID))
  else reply w r.

(** src/node/src/NodeCmdWorker.cpp:514-537, [NodeCmdWorker::worker]. [STOPTRACELOG]. *)
Definition stop_log (w : world) (c : NodeCmd) (r : NodeCmdReply) : ending * world :=
  if long_cmd c then
    if_exists w (StrUtil.trim (c_cmd c))
      (let g := LogMonitor.stopMonitoring (w_monitors w) (StrUtil.trim (c_cmd c)) in
       reply (with_monitors w g)
         (set_status (set_desc r (LogMonitor.getActiveMonitors stringify g)) SUCCESS))
      (reply w (set_status r INVALID))
  else reply w r.

(** src/node/src/NodeCmdWorker.cpp:538-543, [NodeCmdWorker::worker]. [LSTRACELOG]. *)
Definition ls_log (w : world) (r : NodeCmdReply) : ending * world :=
  reply w (set_status (set_desc r (LogMonitor.getActiveMonitors stringify (w_monitors w))) SUCCESS).

Definition exec_uuid (c : NodeCmd) : str :=
  StrUtil.trim (c_cmd c) ++ $" " ++ StrUtil.trim (c_paras c).

(** src/node/src/NodeCmdWorker.cpp:544-573, [NodeCmdWorker::worker]. [STARTEXEC]. *)
Definition start_exec (w : world) (c : NodeCmd) (r : NodeCmdReply) : ending * world :=
  if long_cmd c then
    let '(returned, x, cs) := Exec.execute_command (w_shell w) (w_cmds w) (exec_uuid c) in
    let w1 := with_cmds w x cs in
    if returned : bool
    then reply w1 (set_status (set_desc r (Exec.get_output stringify cs (exec_uuid c))) SUCCESS)
    else (Thrown, w1)
  else reply w r.

(** src/node/src/NodeCmdWorker.cpp:574-599, [NodeCmdWorker::worker]. [STOPEXEC];
    [RMEXEC], 600-625, is the same. *)
Definition stop_exec (w : world) (c : NodeCmd) (r : NodeCmdReply) : ending * world :=
  if long_cmd c then
    match Exec.kill_command (w_cmds w) (exec_uuid c) with
    | None => (Undefined, w)
    | Some (_, cs) =>
        let w1 := with_cmds w (w_shell w) cs in
        match Exec.getAllProcesses isRunning cs with
        | None => (Undefined, w1)
        | Some l => reply w1 (set_status (set_desc r (stringify_procs l)) SUCCESS)
        end
    end
  else reply w r.

(** src/node/src/NodeCmdWorker.cpp:626-632, [NodeCmdWorker::worker]. [LSEXEC]. *)
Definition ls_exec (w : world) (c : NodeCmd) (r : NodeCmdReply) : ending * world :=
  if long_cmd c then
    match Exec.getAllProcesses isRunning (w_cmds w) with
    | None => (Undefined, w)
    | Some l => reply w (set_status (set_desc r (stringify_procs l)) SUCCESS)
    end
  else reply w r.

(** src/node/src/NodeCmdWorker.cpp:215-223, [NodeCmdWorker::worker]. [REBOOT]. *)
Definition reboot (w : world) (c : NodeCmd) (r : NodeCmdReply) : ending * world :=
  if contains (c_cmd c) $"REBOOT" then reply (rebooting w) (set_status r SUCCESS) else reply w r.

(** src/node/src/NodeCmdWorker.cpp:224-242, [NodeCmdWorker::worker]. [RESTART]. *)
Definition restart (w : world) (c : NodeCmd) (r : NodeCmdReply) : ending * world :=
  if contains (c_cmd c) $"RESTART" then
    let '(ok, o, ps) := kill_all_process (w_os w) (w_procs w) in
    (Exited, enqueue (with_procs w o ps) (set_status r (if ok : bool then SUCCESS else INVALID)))
  else (Next, w).

(** src/node/src/NodeCmdWorker.cpp:633-810, [NodeCmdWorker::worker]. [PODMANCMD]. *)
Definition podman (w : world) (c : NodeCmd) (r : NodeCmdReply) : ending * world :=
  let '(r1, p) := Podman.podman_cmd podmanBaseUrl c r (w_podman w) in
  reply (with_podman w p) r1.

(** src/node/src/NodeCmdWorker.cpp:202-212, [NodeCmdWorker::worker]. *)
Definition new_reply (id : str) (c : NodeCmd) : NodeCmdReply :=
  mkNodeCmdReply id nodeId nodeName (c_src_node_id c) (c_src_node_name c) (c_uuid c)
    (c_cmd_type c) INVALID [] [] [].

(** src/node/src/NodeCmdWorker.cpp:213-821, [NodeCmdWorker::worker]. A command
    taken from the queue; [id] is the uuid generated for the reply. *)
Definition dispatch (now : Z) (id : str) (w : world) (c : NodeCmd) : ending * world :=
  let r := new_reply id c in
  match cmd_of_Z (c_cmd_type c) with
  | Some REBOOT => reboot w c r
  | Some RESTART => restart w c r
  | Some ADDPLUGIN => add_plugin w c r
  | Some REMOVEPLUGIN => remove_plugin w c r
  | Some STARTPLUGIN => start_plugin_cmd w c r
  | Some STOPPLUGIN => stop_plugin_cmd w c r
  | Some RESTARTPLUGIN => restart_plugin w c r
  | Some LSPLUGIN => ls_plugin w c r
  | Some ADDAPP => add_app now w c r
  | Some REMOVEAPP => remove_app now w c r
  | Some STARTAPP => start_app now w c r
  | Some STOPAPP => stop_app now w c r
  | Some RESTARTAPP => restart_app now w c r
  | Some LSAPP => ls_app now w c r
  | Some STARTTRACELOG => start_log w c r
  | Some STOPTRACELOG => stop_log w c r
  | Some LSTRACELOG => ls_log w r
  | Some STARTEXEC => start_exec w c r
  | Some (STOPEXEC | RMEXEC) => stop_exec w c r
  | Some LSEXEC => ls_exec w c r
  | Some PODMANCMD => podman w c r
  | _ => reply w r
  end.

(** ** The configured applications *)

(** src/node/src/NodeCmdWorker.cpp:145-184, [NodeCmdWorker::worker]. [trim]
    changes the path and the parameters in place. *)
Definition start_configured (now : Z) (w : world) (p : Wiring.PROCESS) : world :=
  let path := StrUtil.trim (Wiring.path p) in
  let paras := StrUtil.trim (Wiring.paras p) in
  let id := combUuid (Wiring.add_paras1 p) path paras (Wiring.add_paras2 p) in
  let '(_, ps) := add_process (w_procs w) id (Wiring.add_paras1 p) (path ++ $" " ++ paras)
                    (Wiring.keep_live p) in
  if Wiring.state p =? 2 then
    let '(_, o, ps') := start_process now (w_os w) ps id in with_procs w o ps'
  else with_procs w (w_os w) ps.

(** src/node/src/NodeCmdWorker.cpp:137-190, [NodeCmdWorker::worker]. *)
Definition start_all_configured (now : Z) (w : world) (l : list Wiring.PROCESS) : world :=
  foldl (start_configured now) w l.

(** src/node/src/NodeCmdWorker.cpp:193-826, [NodeCmdWorker::worker]. The loop
    over the commands of the queue, until the process ends. [ids] are the
    uuids generated. *)
Fixpoint worker (now : Z) (ids : list str) (w : world) (cs : list NodeCmd) : ending * world :=
  match cs, ids with
  | c :: cs', id :: ids' =>
      match dispatch now id w c with
      | (Next, w') | (Thrown, w') => worker now ids' w' cs'
      | (e, w') => (e, w')
      end
  | _, _ => (Next, w)
  end.

(** ** Lemmas *)

(** What no case changes in the reply. *)
Definition same_header (r r' : NodeCmdReply) : Prop :=
  r_uuid r' = r_uuid r /\ r_src_node_id r' = r_src_node_id r /\
  r_src_node_name r' = r_src_node_name r /\ r_to_node_id r' = r_to_node_id r /\
  r_to_node_name r' = r_to_node_name r /\ r_cmd_reply_uuid r' = r_cmd_reply_uuid r /\
  r_cmd_type r' = r_cmd_type r.

Lemma same_header_refl r : same_header r r.
Proof. by repeat split. Qed.

(** A case queues one reply with the header of [r], unless it is left. *)
Definition answers (w : world) (r : NodeCmdReply) (res : ending * world) : Prop :=
  match res with
  | (Next, w') | (Exited, w') => exists r', w_replies w' = w_replies w ++ [r'] /\ same_header r r'
  | (Thrown, w') | (Undefined, w') => w_replies w' = w_replies w
  end.

Lemma answers_reply w w' r r' :
  w_replies w' = w_replies w -> same_header r r' -> answers w r (reply w' r').
Proof. intros E H. exists r'. cbn. by rewrite E. Qed.

Lemma list_apps_spec now w r :
  let '(w', r') := list_apps now w r in w_replies w' = w_replies w /\ same_header r r'.
Proof. unfold list_apps. by destruct (ls_process _ _ _) as [[??]?]. Qed.

Lemma answers_if_exists w r path yes no :
  answers w r yes -> answers w r no -> answers w r (if_exists w path yes no).
Proof. intros Hy Hn. unfold if_exists. by destruct (path_exists _ _) as [[]|]. Qed.

Ltac answers_tac :=
  repeat match goal with
  | |- answers _ _ (if_exists _ _ _ _) => apply answers_if_exists
  | |- context [let '(_, _) := list_apps ?now ?w ?r in _] =>
      let h := fresh "h" in pose proof (list_apps_spec now w r) as h; destruct (list_apps now w r) as [??]
  | |- answers _ _ (reply _ _) => apply answers_reply
  | |- context [match ?x with _ => _ end] => destruct x eqn:?
  end;
  simplify_eq/=; destruct_and?; try done.

Lemma apps_answer now w c r :
  answers w r (add_app now w c r) /\ answers w r (remove_app now w c r) /\
  answers w r (start_app now w c r) /\ answers w r (stop_app now w c r) /\
  answers w r (restart_app now w c r) /\ answers w r (ls_app now w c r).
Proof.
  split_and!; unfold add_app, remove_app, start_app, stop_app, restart_app, ls_app; answers_tac.
Qed.

Lemma logs_answer w c r :
  answers w r (start_log w c r) /\ answers w r (stop_log w c r) /\ answers w r (ls_log w r).
Proof. split_and!; unfold start_log, stop_log, ls_log; answers_tac. Qed.

Lemma execs_answer w c r :
  answers w r (start_exec w c r) /\ answers w r (stop_exec w c r) /\ answers w r (ls_exec w c r).
Proof. split_and!; unfold start_exec, stop_exec, ls_exec; answers_tac. Qed.

Lemma start_plugin_replies w name : w_replies (start_plugin w name).2 = w_replies w.
Proof. unfold start_plugin. destruct (is_bundle _ _); [|done]. by destruct (Start_ _ _). Qed.
Lemma stop_plugin_replies w name : w_replies (stop_plugin w name).2 = w_replies w.
Proof. unfold stop_plugin. destruct (is_bundle _ _); [|done]. by destruct (Stop_ _ _). Qed.

Lemma plugins_answer w c r :
  answers w r (add_plugin w c r) /\ answers w r (remove_plugin w c r) /\
  answers w r (start_plugin_cmd w c r) /\ answers w r (stop_plugin_cmd w c r) /\
  answers w r (restart_plugin w c r) /\ answers w r (ls_plugin w c r).
Proof.
  split_and!; unfold add_plugin, remove_plugin, start_plugin_cmd, stop_plugin_cmd,
    restart_plugin, ls_plugin.
  - answers_tac.
  - answers_tac.
  - pose proof (start_plugin_replies w (c_paras c)) as h. answers_tac.
  - pose proof (stop_plugin_replies w (c_paras c)) as h. answers_tac.
  - pose proof (stop_plugin_replies w (c_paras c)) as h1.
    pose proof (start_plugin_replies (stop_plugin w (c_paras c)).2 (c_paras c)) as h2.
    destruct (stop_plugin w (c_paras c)) as [b1 w1]. cbn [snd] in h1, h2.
    destruct (start_plugin w1 (c_paras c)) as [b2 w2]. cbn [snd] in h2.
    answers_tac; congruence.
  - answers_tac.
Qed.

Lemma podman_header c r p : same_header r (Podman.podman_cmd podmanBaseUrl c r p).1.
Proof.
  unfold Podman.podman_cmd. destruct (_ && _); [|done].
  destruct (Podman.podman_call _ _ _ _ _) as [call|]; [|done].
  by destruct (call p) as [[?|?] ?].
Qed.

Lemma podman_answers w c r : answers w r (podman w c r).
Proof.
  unfold podman. pose proof (podman_header c r (w_podman w)) as h.
  destruct (Podman.podman_cmd _ _ _ _) as [r1 p]. by apply answers_reply.
Qed.

(** A [RESTART] that does not say so is the one command without an answer. *)
Definition silent (c : NodeCmd) : bool :=
  (c_cmd_type c =? 2) && negb (contains (c_cmd c) $"RESTART").

Lemma cmd_of_Z_eq z c : cmd_of_Z z = Some c -> z = Z_of_cmd c.
Proof. intros E. symmetry. by apply Z_of_cmd_of_Z. Qed.

Lemma dispatch_answers now id w c :
  if silent c then dispatch now id w c = (Next, w)
  else answers w (new_reply id c) (dispatch now id w c).
Proof.
  pose proof (apps_answer now w c (new_reply id c)) as (?&?&?&?&?&?).
  pose proof (logs_answer w c (new_reply id c)) as (?&?&?).
  pose proof (execs_answer w c (new_reply id c)) as (?&?&?).
  pose proof (plugins_answer w c (new_reply id c)) as (?&?&?&?&?&?).
  pose proof (podman_answers w c (new_reply id c)).
  unfold silent, dispatch. destruct (cmd_of_Z (c_cmd_type c)) as [ct|] eqn:E.
  - apply cmd_of_Z_eq in E as ->.
    destruct ct; try (change (Z_of_cmd _ =? 2) with false; cbn [andb]; done || by apply answers_reply).
    + unfold reboot. change (Z_of_cmd _ =? 2) with false. cbn [andb].
      destruct (contains _ _); by apply answers_reply.
    + unfold restart. change (Z_of_cmd _ =? 2) with true. cbn [andb].
      destruct (contains _ _); cbn [negb]; [|done]. by eexists.
  - assert (c_cmd_type c =? 2 = false) as -> by (apply Z.eqb_neq; intros E2; by rewrite E2 in E).
    by apply answers_reply.
Qed.

(** ** Properties *)

(** C18. The worker queues exactly one reply for a command that is handled to its
    end, with the command's uuid, addressed to its sender and with its type,
    except that there is none for a [RESTART] whose text does not say so. A case
    that is left by an exception, or that becomes undefined, has queued nothing;
    [undefined_when] says which cases can become so. *)
Theorem one_reply now id w c :
  match dispatch now id w c with
  | (Next, w') | (Exited, w') =>
      if silent c then w' = w
      else exists r, w_replies w' = w_replies w ++ [r] /\ r_uuid r = id /\
        r_cmd_reply_uuid r = c_uuid c /\ r_to_node_id r = c_src_node_id c /\
        r_src_node_id r = nodeId /\ r_cmd_type r = c_cmd_type c
  | (Thrown, w') | (Undefined, w') => w_replies w' = w_replies w
  end.
Proof.
  pose proof (dispatch_answers now id w c) as Ha. destruct (silent c).
  - by rewrite Ha.
  - destruct (dispatch now id w c) as [[] w']; cbn in Ha; try done;
      destruct Ha as (r & E & ? & ? & ? & ? & ? & ? & ?); exists r; cbn in *; by split_and!.
Qed.

Lemma list_apps_ids now w r : ids (w_procs (list_apps now w r).1) = ids (w_procs w).
Proof.
  unfold list_apps. pose proof (listener_ids now (w_os w) (w_procs w)) as E.
  unfold ls_process. by destruct (listener _ _ _) as [[??]?].
Qed.

(** The uuid under which a configured application is added. *)
Definition configured_uuid (p : Wiring.PROCESS) : str :=
  combUuid (Wiring.add_paras1 p) (StrUtil.trim (Wiring.path p))
    (StrUtil.trim (Wiring.paras p)) (Wiring.add_paras2 p).

Lemma start_configured_ids now w p :
  ids (w_procs (start_configured now w p))
  = if decide (configured_uuid p ∈ ids (w_procs w)) then ids (w_procs w)
    else ids (w_procs w) ++ [configured_uuid p].
Proof using Type.
  unfold start_configured. fold (configured_uuid p).
  pose proof (add_process_ids (w_procs w) (configured_uuid p) (Wiring.add_paras1 p)
    (StrUtil.trim (Wiring.path p) ++ $" " ++ StrUtil.trim (Wiring.paras p)) (Wiring.keep_live p)) as Ha.
  destruct (add_process _ _ _ _ _) as [ok ps]. cbn [snd] in Ha. rewrite <- Ha.
  destruct (Wiring.state p =? 2); [|done].
  pose proof (start_process_ids now (w_os w) ps (configured_uuid p)) as Hst.
  by destruct (start_process _ _ _ _) as [[??]?].
Qed.

(** [REMOVEAPP], [STOPAPP] and [RESTARTAPP] of an application that is there are
    undefined: its child has been stopped and its instance erased by then, no
    reply has been queued, and [RESTARTAPP] has not started it again. *)
Theorem stop_undefined now id w c :
  c_cmd_type c ∈ [Z_of_cmd REMOVEAPP; Z_of_cmd STOPAPP; Z_of_cmd RESTARTAPP] ->
  long_cmd c = true -> path_exists (w_os w) (app_path c) = Some true ->
  app_uuid c ∈ ids (w_procs w) ->
  exists w', dispatch now id w c = (Undefined, w') /\ w_replies w' = w_replies w /\
    ids (w_procs w') = filter (fun x => x <> app_uuid c) (ids (w_procs w)).
Proof.
  intros Hc Hl Hp Hin.
  pose proof (kill_process_defined (w_os w) (w_procs w) (app_uuid c)) as Hk.
  pose proof (kill_process_left (w_os w) (w_procs w) (app_uuid c)) as Hps.
  rewrite decide_True in Hk by done.
  destruct (kill_process (w_os w) (w_procs w) (app_uuid c)) as [[ok o] ps] eqn:E.
  cbn in Hk, Hps. subst ok ps.
  exists (with_procs w o (filter (fun p => uuid p <> app_uuid c) (w_procs w))).
  split; [|split; [done|apply ids_filter]].
  unfold dispatch. rewrite !elem_of_cons, elem_of_nil in Hc.
  destruct Hc as [-> |[-> |[-> |[]]]]; rewrite cmd_of_Z_of_cmd; unfold remove_app, stop_app, restart_app,
    if_exists, remove_process; rewrite Hl, Hp, E; reflexivity.
Qed.

(** Nothing else is undefined but [STOPEXEC], [RMEXEC] and [LSEXEC]. *)
Theorem undefined_when now id w c :
  fst (dispatch now id w c) = Undefined ->
  c_cmd_type c ∈ [Z_of_cmd STOPEXEC; Z_of_cmd RMEXEC; Z_of_cmd LSEXEC] \/
  c_cmd_type c ∈ [Z_of_cmd REMOVEAPP; Z_of_cmd STOPAPP; Z_of_cmd RESTARTAPP] /\
    app_uuid c ∈ ids (w_procs w).
Proof.
  assert (forall o' ps', kill_process (w_os w) (w_procs w) (app_uuid c) = (None, o', ps') ->
    app_uuid c ∈ ids (w_procs w)) as Hk.
  { intros o' ps' E. pose proof (kill_process_defined (w_os w) (w_procs w) (app_uuid c)) as Hd.
    rewrite E in Hd. by case_decide. }
  unfold dispatch. destruct (cmd_of_Z (c_cmd_type c)) as [ct|] eqn:Ec; [|done].
  apply cmd_of_Z_eq in Ec as ->.
  destruct ct; try (intros _; left; by_decision);
    unfold reboot, restart, add_plugin, remove_plugin, start_plugin_cmd, stop_plugin_cmd, restart_plugin,
      ls_plugin, add_app, remove_app, start_app, stop_app, restart_app, ls_app, start_log, stop_log, ls_log,
      start_exec, podman, if_exists, remove_process;
    repeat case_match; simplify_eq/=; try done;
    intros _; right; (split; [by_decision|]); by eapply Hk.
Qed.

(** [STOPAPP] and [RESTARTAPP] never report a failure: every reply to one is
    a success, though the command names no file or a file that does not exist. *)
Theorem stop_always_succeeds now id w c w' :
  cmd_of_Z (c_cmd_type c) = Some STOPAPP \/ cmd_of_Z (c_cmd_type c) = Some RESTARTAPP ->
  dispatch now id w c = (Next, w') ->
  exists r, w_replies w' = w_replies w ++ [r] /\ r_status r = SUCCESS.
Proof.
  assert (forall w1 r1, w_replies w1 = w_replies w -> r_status r1 = SUCCESS ->
    reply w1 r1 = (Next, w') -> exists r, w_replies w' = w_replies w ++ [r] /\ r_status r = SUCCESS) as Hr.
  { intros w1 r1 E Hs Heq. unfold reply in Heq. simplify_eq. cbn. rewrite E. eauto. }
  intros Hc. unfold dispatch. destruct Hc as [-> | ->]; unfold stop_app, restart_app, if_exists;
    (destruct (long_cmd c); [|by apply Hr]);
    (destruct (path_exists _ _) as [[]|]; [|by apply Hr|by intros; simplify_eq]);
    destruct (kill_process _ _ _) as [[[[]|] o] ps]; try (by apply Hr); try (intros; by simplify_eq).
  - pose proof (list_apps_spec now (with_procs w o ps) (new_reply id c)) as Hs.
    destruct (list_apps _ _ _) as [w2 r2]. destruct Hs as [Hs _]. by apply Hr.
  - destruct (start_process _ _ _ _) as [[??]?].
    match goal with |- context [list_apps now ?w0 ?r0] => pose proof (list_apps_spec now w0 r0) as Hs end.
    destruct (list_apps _ _ _) as [w2 r2]. destruct Hs as [Hs _]. by apply Hr.
Qed.

(** [ADDAPP] starts the application: adding one that is new lists the
    instances, which restarts those that do not run, so the new instance is
    launched at once and counted as rebooted after an exception. *)
Theorem add_app_starts now id w c :
  cmd_of_Z (c_cmd_type c) = Some ADDAPP -> long_cmd c = true ->
  path_exists (w_os w) (app_path c) = Some true ->
  app_uuid c ∉ ids (w_procs w) ->
  (forall o cmd dir, spawn o cmd dir <> None) ->
  exists w' ps p, dispatch now id w c = (Next, w') /\ w_procs w' = ps ++ [p] /\
    ids ps = ids (w_procs w) /\ uuid p = app_uuid c /\ instance p <> None /\
    exception_flag p = true /\ reboot_count p = 1.
Proof.
  intros Hc Hl Hp Hn Hs. unfold dispatch. rewrite Hc. unfold add_app, if_exists. rewrite Hl, Hp.
  unfold add_process. rewrite (proj2 (existsb_ids _ _)) by done.
  unfold list_apps, ls_process. cbn [w_os w_procs with_procs].
  rewrite listener_snoc by done.
  pose proof (listener_ids now (w_os w) (w_procs w)) as Hids.
  destruct (listener now (w_os w) (w_procs w)) as [[b o1] ps1]. cbn [snd] in Hids.
  cbn [running instance negb except_runnig andb launch_cmd work_path].
  destruct (spawn o1 _ _) as [[pid o2]|] eqn:E; [|by apply Hs in E].
  eexists _, ps1, _. split; [reflexivity|]. cbn. by split_and!.
Qed.

(** After the start every configured application is known, under one
    instance per uuid, whatever the operating system does. *)
Theorem configured_present now w l :
  NoDup (ids (w_procs w)) ->
  let w' := start_all_configured now w l in
  NoDup (ids (w_procs w')) /\
  (forall x, x ∈ ids (w_procs w') <->
     x ∈ ids (w_procs w) \/ exists p, p ∈ l /\ x = configured_uuid p).
Proof using Type.
  clear isRunning.
  intros Hnd w'. subst w'. unfold start_all_configured.
  induction l as [|p l IH] using rev_ind; [split; [done|]; cbn; set_solver|].
  destruct IH as [IH1 IH2]. rewrite foldl_app. cbn [foldl].
  set (w1 := foldl (start_configured now) w l) in *.
  rewrite start_configured_ids. case_decide as Hx.
  - split; [done|]. intros x. rewrite IH2. set_solver.
  - split.
    + apply NoDup_app. split_and!; [done| |apply NoDup_singleton]. set_solver.
    + intros x. rewrite elem_of_app, list_elem_of_singleton, IH2. set_solver.
Qed.

End Worker.
(** ** Examples *)

#[local] Existing Instance Exec.toy_shell.
#[local] Existing Instance Podman.broken_host.

(** A framework in which every operation throws. *)
#[export] Instance no_framework : Framework unit := {
  InstallBundles _ _ := (false, tt);
  GetBundles _ := [];
  Uninstall _ _ := (false, tt);
  Start_ _ _ := (false, tt);
  Stop_ _ _ := (false, tt);
}.

Definition toy_world (ps : procs) (children : list Z) : world :=
  mkWorld (O := toy) (X := Z) (F := unit) (P := unit) (mkToy 10 children) ps 7 Exec.no_commands
    (LogMonitor.new_manager $"n1" $"mgr") tt ∅ tt 0 [].

(** The node [n1], on which only the file "app" exists. *)
Definition toy_dispatch (id : str) (w : world) (c : NodeCmd) : ending * world :=
  dispatch (O := toy) (X := Z) (F := unit) (P := unit) (J := str)
    (fun _ path => Some (bool_decide (path = $"app"))) (fun l => concat l) (fun l => concat (map fst l))
    (-1) (fun _ => true) false $"n1" $"node 1" $"http://h" 100 id w c.

Definition app_cmd (ty : Z) (cmd : str) : NodeCmd :=
  mkNodeCmd $"c1" $"mgr" $"manager" $"n1" [] ty 0 cmd [] [] [].
Definition app_proc : ProcessAttribute := mkProc true false 0 0 $"app " $"app" [] 0 (Some 3).

Lemma stop_undefined_witness :
  exists w', toy_dispatch $"r1" (toy_world [app_proc] [3]) (app_cmd 12 $"app") = (Undefined, w') /\
    w_replies w' = [] /\ ids (w_procs w') = [].
Proof.
  apply (stop_undefined (O := toy) (X := Z) (F := unit) (P := unit) (J := str)
    (fun _ path => Some (bool_decide (path = $"app"))) (fun l => concat l) (fun l => concat (map fst l))
    (-1) (fun _ => true) false $"n1" $"node 1" $"http://h" 100 $"r1" (toy_world [app_proc] [3])
    (app_cmd 12 $"app")); [by_decision|reflexivity|reflexivity|by_decision].
Defined.

Lemma stop_always_succeeds_witness :
  exists r, w_replies (toy_dispatch $"r1" (toy_world [] []) (app_cmd 11 $"no such file")).2 = [r] /\
    r_status r = SUCCESS.
Proof.
  apply (stop_always_succeeds (O := toy) (X := Z) (F := unit) (P := unit) (J := str)
    (fun _ path => Some (bool_decide (path = $"app"))) (fun l => concat l) (fun l => concat (map fst l))
    (-1) (fun _ => true) false $"n1" $"node 1" $"http://h" 100 $"r1" (toy_world [] [])
    (app_cmd 11 $"no such file")); [by left|reflexivity].
Defined.

(** A system on which every command can be launched. *)
Definition easy_os : Os toy := {|
  spawn o cmd dir := Some (next_pid o, mkToy (next_pid o + 1) (next_pid o :: children o));
  alive o pid := bool_decide (pid ∈ children o);
  wait_for o pid secs := o;
  sigterm o pid := o;
  sigkill o pid := o;
|}.

Lemma add_app_starts_witness :
  exists w' ps p,
    dispatch (OsO := easy_os) (X := Z) (F := unit) (P := unit) (J := str)
      (fun _ path => Some (bool_decide (path = $"app"))) (fun l => concat l)
      (fun l => concat (map fst l)) (-1) (fun _ => true) false $"n1" $"node 1" $"http://h" 100 $"r1"
      (toy_world [] []) (app_cmd 8 $"app") = (Next, w') /\
    w_procs w' = ps ++ [p] /\ ids ps = [] /\ uuid p = $"app" /\ instance p <> None /\
    exception_flag p = true /\ reboot_count p = 1.
Proof.
  apply (add_app_starts (OsO := easy_os) (X := Z) (F := unit) (P := unit) (J := str)
    (fun _ path => Some (bool_decide (path = $"app"))) (fun l => concat l)
    (fun l => concat (map fst l)) (-1) (fun _ => true) false $"n1" $"node 1" $"http://h" 100 $"r1"
    (toy_world [] []) (app_cmd 8 $"app")); try reflexivity.
  - apply not_elem_of_nil.
  - discriminate.
Defined.

Definition configured_app : Wiring.PROCESS := Wiring.mkProcess 2 $"app " $"-v" [] [] true.

Lemma configured_present_witness :
  let w' := start_all_configured (X := Z) (F := unit) (P := unit) 100 (toy_world [] [])
              [configured_app; configured_app] in
  NoDup (ids (w_procs w')) /\ (forall x, x ∈ ids (w_procs w') <-> x ∈ ids [] \/
     exists p, p ∈ [configured_app; configured_app] /\ x = configured_uuid p).
Proof. apply (configured_present 100 (toy_world [] [])). constructor. Defined.

End Worker.
