(* ===== verification/FileWatcher.v ===== *)
(** * Watching directories for upload to S3 ([src/utils/aws/s3/FileWatcher.h])

    A watcher scans a directory again and again and uploads the files that
    changed between two scans and not until the third. The directory is a tree
    of entries with modification times; how Poco joins a directory and a name is
    an argument, and so is what Poco's files, its zipping and S3 answer: a call
    of these may fail, and some may throw, which nothing in the thread catches. *)

From stdpp Require Import sorting.
From S2P Require Import Prelude StrUtil Json FileSys FileSplit.
Import Json.

Module FileWatcher.

(** A regular file with its time, or a directory. *)
Inductive entry :=
  | FileE (modified : Z)
  | DirE (children : list (str * entry)).

Record watcher := mkWatcher {
  m_directory : str;
  m_bucket : str;
  m_nodeid : str;
  m_sleep : Z;
  m_keepFile : bool;
  m_needZip : bool;
  m_watchSubDir : bool;
}.

Abbreviation snapshot := (gmap (list ascii) Z).

(** src/utils/aws/s3/FileWatcher.h:91-93, [FileWatcher::isZipDirectory]. *)
Definition isZipDirectory (path : str) : bool :=
  match sfind $"/zip" path with Some _ => true | None => false end.

Section Watcher.
Context (join : str -> str -> str).

(** src/utils/aws/s3/FileWatcher.h:63-89, [FileWatcher::scanDirectoryRecursive].
    [e] is what the directory names; nothing, or a file, adds nothing. *)
Fixpoint scanDirectoryRecursive (watchSubDir : bool) (files : snapshot) (directory : str)
    (e : entry) : snapshot :=
  match e with
  | FileE _ => files
  | DirE children =>
      if isZipDirectory directory then files
      else
        foldl (fun files '(name, e') =>
          let path := join directory name in
          match e' with
          | FileE t => <[path := t]> files
          | DirE _ => if watchSubDir then scanDirectoryRecursive watchSubDir files path e'
                      else files
          end) files children
  end.

(** src/utils/aws/s3/FileWatcher.h:95-97, [FileWatcher::scanDirectory]. *)
Definition scanDirectory (w : watcher) (e : entry) : snapshot :=
  scanDirectoryRecursive (m_watchSubDir w) ∅ (m_directory w) e.

End Watcher.

Definition shorten (s : str) : str :=
  let s1 := default s (StrUtil.subreplace (length s) s $"//" $"/") in
  default s1 (StrUtil.subreplace (length s1) s1 $"/./" $"/").

(** What is at a path. *)
Inductive kind := Missing | Regular | Directory | Other.
#[export] Instance kind_eq_dec : EqDecision kind.
Proof. solve_decision. Defined.

(** What the outside answers during a scan: what is at a path; whether making the
    directories, writing a zip file of a file and removing a file return (or
    throw); whether S3 took a file. *)
Record outside := mkOutside {
  at_path : str -> kind;
  createDirectories : str -> bool;
  compress : str -> str -> bool;
  remove : str -> bool;
  stored : str -> str -> str -> bool;
}.

(** What a watcher does to the outside. *)
Inductive action :=
  | MakeDirectory (path : str)
  | Zip (file zipFile : str)
  | Remove (file : str)
  | Put (bucket key file : str).

(** How the upload of a file ends; only an exception is noticed by the caller. *)
Inductive result := Uploaded | NotUploaded | NotZipped | Threw.
#[export] Instance result_eq_dec : EqDecision result.
Proof. solve_decision. Defined.

Section Upload.
Context (o : outside) (getFileName : str -> str).

(** src/utils/aws/s3/FileWatcher.h:184-225, [FileWatcher::zipFile]. A file that is
    gone is zipped too, to nothing. [None] is an exception. *)
Definition zipFile (file out : str) (keepFile : bool) : list action * option bool :=
  if decide (at_path o file = Directory) then ([], Some false)
  else if compress o file out then
    if keepFile || bool_decide (at_path o file = Missing) then ([Zip file out], Some true)
    else if remove o file then ([Zip file out; Remove file], Some true)
    else ([Zip file out], None)
  else ([], None).

(** src/utils/aws/s3/FileWatcher.h:123-162, [FileWatcher::uploadToS3]. *)
Definition put_file (w : watcher) (key file : str) : list action * result :=
  ([Put (m_bucket w) (shorten key) file],
   if stored o (m_bucket w) (shorten key) file then Uploaded else NotUploaded).

(** src/utils/aws/s3/FileWatcher.h:123-162, [FileWatcher::uploadToS3]. [getFileName]
    is Poco's. *)
Definition uploadToS3 (w : watcher) (file : str) : list action * result :=
  if m_needZip w then
    let zipDir := StrUtil.cutLastLeftStr file $"/" ++ $"/zip" in
    let needed := bool_decide (at_path o zipDir = Missing) in
    if needed && negb (createDirectories o zipDir) then ([], Threw)
    else
      let made := if needed then [MakeDirectory zipDir] else [] in
      let out := zipDir ++ $"/" ++ getFileName file ++ $".zip" in
      let '(zipped, ok) := zipFile file out (m_keepFile w) in
      match ok with
      | None => (made ++ zipped, Threw)
      | Some false => (made ++ zipped, NotZipped)
      | Some true => let '(put, r) := put_file w (m_nodeid w ++ out) out in (made ++ zipped ++ put, r)
      end
  else put_file w (m_nodeid w ++ file) file.

End Upload.

(** A call of [uploadToS3] in a scan: the file with the time the scan saw, what
    was done and how it ended. *)
Record upload := mkUpload { u_file : str * Z; u_actions : list action; u_result : result }.

(** src/utils/aws/s3/FileWatcher.h:168-168, [FileWatcher::scanContinuously]. *)
Definition changed (files1 files2 : snapshot) (file : str * Z) : bool :=
  match files1 !! file.1, files2 !! file.1 with
  | Some t1, Some t2 => negb (t1 =? t2) && (t2 =? file.2)
  | _, _ => false
  end.

(** src/utils/aws/s3/FileWatcher.h:173-173, [FileWatcher::scanContinuously]. *)
Definition added (files1 files2 : snapshot) (file : str * Z) : bool :=
  match files1 !! file.1, files2 !! file.1 with
  | None, Some t2 => t2 =? file.2
  | _, _ => false
  end.

(** The order of the strings that are the keys of a [std::map]. *)
Fixpoint str_leb (a b : str) : bool :=
  match a, b with
  | [], _ => true
  | _ :: _, [] => false
  | c :: a', d :: b' =>
      if (N_of_ascii c <? N_of_ascii d)%N then true
      else if (N_of_ascii d <? N_of_ascii c)%N then false else str_leb a' b'
  end.
Definition key_le (x y : str * Z) : Prop := str_leb x.1 y.1 = true.
#[export] Instance key_le_dec x y : Decision (key_le x y).
Proof. unfold key_le. apply _. Defined.

(** The entries in the order in which a loop over the map sees them. *)
Definition entries (files : snapshot) : list (str * Z) := merge_sort key_le (map_to_list files).

(** A call returns, or the process is terminated. *)
Inductive fate (A : Type) := Lives (a : A) | Terminates.
Arguments Lives {A}. Arguments Terminates {A}.

Section Scan.
Context (getFileName : str -> str) (w : watcher).

Definition call (o : outside) (file : str * Z) : upload :=
  let '(acts, r) := uploadToS3 o getFileName w file.1 in mkUpload file acts r.

(** src/utils/aws/s3/FileWatcher.h:167-177, [FileWatcher::scanContinuously]. The
    files of a pass of the loop that are handed to [uploadToS3], in order: each of
    the two conditions hands on the file. *)
Definition handed (files1 files2 : snapshot) (file : str * Z) : list (str * Z) :=
  (if changed files1 files2 file then [file] else []) ++ (if added files1 files2 file then [file] else []).

(** Calls until one throws; whether none did. *)
Fixpoint calls (o : outside) (files : list (str * Z)) : list upload * bool :=
  match files with
  | [] => ([], true)
  | file :: files' =>
      let u := call o file in
      if decide (u_result u = Threw) then ([u], false)
      else let '(us, ok) := calls o files' in (u :: us, ok)
  end.

(** src/utils/aws/s3/FileWatcher.h:164-181, [FileWatcher::scanContinuously]. [st]
    are [m_files1] and [m_files2], [files3] is what the scan finds. The calls of
    [uploadToS3] and the members afterwards, [None] after an exception. *)
Definition scanContinuously (st : snapshot * snapshot) (files3 : snapshot) (o : outside)
    : list upload * option (snapshot * snapshot) :=
  let '(us, ok) := calls o (concat (map (handed st.1 st.2) (entries files3))) in
  (us, if ok then Some (st.2, files3) else None).

(** src/utils/aws/s3/FileWatcher.h:239-244, [FileWatcher::watch]. The turns until
    the watcher is stopped, each with what its scan finds and what the outside
    answers: the calls of [uploadToS3] of each turn, and the members at the end;
    an exception leaves the function of the thread, which terminates the process. *)
Fixpoint watch (st : snapshot * snapshot) (turns : list (snapshot * outside))
    : list (list upload) * fate (snapshot * snapshot) :=
  match turns with
  | [] => ([], Lives st)
  | (files3, o) :: turns' =>
      let '(us, next) := scanContinuously st files3 o in
      match next with
      | None => ([us], Terminates)
      | Some st' => let '(uss, f) := watch st' turns' in (us :: uss, f)
      end
  end.

(** src/utils/aws/s3/FileWatcher.h:245-249, [FileWatcher]. The members of a new
    watcher. *)
Definition nothing_seen : snapshot * snapshot := (∅, ∅).

End Scan.

(** ** The thread of a watcher *)

(** Whether the loop is to stop; whether the thread object has a thread that
    was not joined. *)
Record thread := mkThread { m_stop : bool; joinable : bool }.

(** src/utils/aws/s3/FileWatcher.h:33-34, [FileWatcher::FileWatcher]. *)
Definition new_thread : thread := mkThread true false.

(** src/utils/aws/s3/FileWatcher.h:44-51, [FileWatcher::start]. A thread that is
    assigned to while it is joinable terminates the process. *)
Definition start_thread (t : thread) : fate thread :=
  if joinable t then Terminates else Lives (mkThread false true).

(** src/utils/aws/s3/FileWatcher.h:54-60, [FileWatcher::stop]. The thread is not
    joined. *)
Definition stop (t : thread) : thread := mkThread true (joinable t).

(** src/utils/aws/s3/FileWatcher.h:40-42, [FileWatcher::~FileWatcher]. Then the
    members are destroyed, a joinable thread by terminating the process. *)
Definition destroy (t : thread) : fate () :=
  if joinable (stop t) then Terminates else Lives ().

(** src/utils/aws/s3/FileWatcher.h:293-301, [FileWatcherFactory::updateFileWatcher]. *)
Definition updateFileWatcher (w : watcher) (t : thread) (directory bucket nodeid : str) (sleep : Z)
    (keepFile : bool) : watcher * fate thread :=
  let t1 := stop t in
  (mkWatcher directory bucket nodeid sleep keepFile (m_needZip w) (m_watchSubDir w), start_thread t1).

(** src/utils/aws/s3/FileWatcher.h:283-291, [FileWatcherFactory::deleteFileWatcher].
    With the lock free; [at_] is the place of the watcher in the list, if it
    is there. *)
Definition deleteFileWatcher {A} (watchers : list (A * thread)) (at_ : option nat) :
    list (A * thread) * fate () :=
  match at_ with
  | None => (watchers, Lives ())
  | Some i =>
      match watchers !! i with
      | None => (watchers, Lives ())
      | Some (_, t) => (delete i watchers, destroy (stop t))
      end
  end.

(** ** The factory *)

(** The watchers, and whether a thread holds [mtx] for ever. *)
Record factory := mkFactory { fileWatchers : list watcher; stuck : bool }.

(** A call returns or blocks. *)
Inductive called (A : Type) := Returned (a : A) | Blocked.
Arguments Returned {A}. Arguments Blocked {A}.

(** src/utils/aws/s3/FileWatcher.h:303-313, [FileWatcherFactory::findFileWatcher]. *)
Definition findFileWatcher (f : factory) (directory : str) : option watcher :=
  snd <$> list_find (fun w => m_directory w = directory) (fileWatchers f).

(** src/utils/aws/s3/FileWatcher.h:33-38, [FileWatcher::FileWatcher]. [sleep] is
    not stored: the member keeps its default, 10. *)
Definition new_watcher (directory bucket nodeid : str) (sleep : Z)
    (keepFile needZip watchSubDir : bool) : watcher :=
  mkWatcher directory bucket nodeid 10 keepFile needZip watchSubDir.

(** src/utils/aws/s3/FileWatcher.h:44-51, [FileWatcher::start]. The directory
    that is made; [None] is an exception. *)
Definition start (fs : FileSys.t) (w : watcher) : option FileSys.t :=
  if m_needZip w then FileSys.create_directories fs (m_directory w ++ $"/zip/") else Some fs.

(** src/utils/aws/s3/FileWatcher.h:266-281, [FileWatcherFactory::createFileWatcher]. *)
Definition createFileWatcher (f : factory) (directory bucket nodeid : str) (sleep : Z)
    (keepFile needZip watchSubDir : bool) : called factory :=
  if stuck f then Blocked
  else match findFileWatcher f directory with
       | Some _ => Returned f
       | None =>
           Returned (mkFactory (fileWatchers f
             ++ [new_watcher directory bucket nodeid sleep keepFile needZip watchSubDir]) false)
       end.

(** src/utils/aws/s3/FileWatcher.h:323-330, [FileWatcherFactory::deleteFileWatcherByDirectory].
    [deleteFileWatcher], 283-291, locks the mutex that is held already. *)
Definition deleteFileWatcherByDirectory (f : factory) (directory : str) : called factory * factory :=
  if stuck f then (Blocked, f)
  else match findFileWatcher f directory with
       | None => (Returned f, f)
       | Some _ => (Blocked, mkFactory (fileWatchers f) true)
       end.

(** src/utils/aws/s3/FileWatcher.h:338-344, [FileWatcherFactory::listAllWatchers]. *)
Definition watcher_json (w : watcher) : json :=
  JObject [($"directory", JString (m_directory w)); ($"bucket", JString (m_bucket w));
           ($"nodeid", JString (m_nodeid w)); ($"sleep", JInt (m_sleep w));
           ($"keepFile", JBool (m_keepFile w))].

(** src/utils/aws/s3/FileWatcher.h:332-355, [FileWatcherFactory::listAllWatchers]. *)
Definition listAllWatchers (f : factory) : called str :=
  if stuck f then Blocked
  else Returned (write (JObject [($"watchers", JArray (map watcher_json (fileWatchers f)))])).

(** ** Lemmas *)

(** When a version of a file is handed on. *)
Definition settled (files1 files2 files3 : snapshot) (v : str * Z) : Prop :=
  files3 !! v.1 = Some v.2 /\ files2 !! v.1 = Some v.2 /\ files1 !! v.1 <> Some v.2.
#[export] Instance settled_dec files1 files2 files3 v : Decision (settled files1 files2 files3 v).
Proof. unfold settled. apply _. Defined.

(** The two conditions exclude each other. *)
Lemma handed_settled files1 files2 files3 v :
  files3 !! v.1 = Some v.2 ->
  handed files1 files2 v = if decide (settled files1 files2 files3 v) then [v] else [].
Proof.
  destruct v as [p t]. unfold handed, changed, added. cbn [fst snd]. intros H3.
  destruct (decide _) as [(_ & H2 & H1)|Hn].
  - cbn [fst snd] in *. rewrite H2, Z.eqb_refl. destruct (files1 !! p) as [t1|]; [|done].
    by destruct (Z.eqb_spec t1 t); [congruence|].
  - assert (files2 !! p = Some t -> files1 !! p = Some t) as Hs.
    { intros H2. destruct (decide (files1 !! p = Some t)); [done|]. by destruct Hn. }
    destruct (files2 !! p) as [t2|]; [|by destruct (files1 !! p)].
    destruct (Z.eqb_spec t2 t) as [->|].
    + rewrite Hs by done. by rewrite Z.eqb_refl.
    + destruct (files1 !! p); [|done]. by rewrite andb_false_r.
Qed.

Lemma handed_version files1 files2 v file : v ∈ handed files1 files2 file -> v = file.
Proof.
  unfold handed. destruct (changed _ _ _), (added _ _ _); cbn; rewrite ?elem_of_cons, ?elem_of_nil; naive_solver.
Qed.

Lemma filter_concat_map {A B} (P : B -> Prop) `{!forall x, Decision (P x)} (f : A -> list B) l :
  filter P (concat (map f l)) = concat (map (fun x => filter P (f x)) l).
Proof. induction l as [|x l IH]; [done|]. cbn. by rewrite filter_app, IH. Qed.

Lemma concat_only {A B} `{!EqDecision A} (f : A -> list B) l x :
  NoDup l -> (forall y, y <> x -> y ∈ l -> f y = []) ->
  concat (map f l) = if decide (x ∈ l) then f x else [].
Proof.
  intros Hnd. induction Hnd as [|y l Hy _ IH]; intros H; [by rewrite decide_False by apply not_elem_of_nil|].
  cbn. rewrite IH by (intros; apply H; [done|by right]).
  destruct (decide (y = x)) as [->|Hne].
  - rewrite (decide_False (P := x ∈ l)), (decide_True (P := x ∈ x :: l)) by (done || by left). apply app_nil_r.
  - rewrite (H y Hne) by by left. cbn. apply decide_ext. rewrite elem_of_cons. naive_solver.
Qed.

(** Of a version a scan hands on one call or none. *)
Lemma handed_once files1 files2 files3 v :
  filter (v =.) (concat (map (handed files1 files2) (entries files3)))
  = if decide (settled files1 files2 files3 v) then [v] else [].
Proof.
  rewrite filter_concat_map. unfold entries.
  assert (forall x, x ∈ merge_sort key_le (map_to_list files3) <-> files3 !! x.1 = Some x.2) as Hin.
  { intros [p t]. rewrite merge_sort_Permutation. apply elem_of_map_to_list. }
  rewrite (concat_only _ _ v).
  - case_decide as Hv.
    + rewrite (handed_settled _ _ files3) by by apply Hin. case_decide; [|done].
      by rewrite filter_cons_True by done.
    + rewrite decide_False; [done|]. intros (H3 & _). apply Hv, Hin, H3.
  - rewrite merge_sort_Permutation. apply NoDup_map_to_list.
  - intros y Hne _. destruct (filter _ _) as [|x l] eqn:E; [done|]. exfalso.
    assert (x ∈ filter (v =.) (handed files1 files2 y)) as [Hx Hy]%list_elem_of_filter
      by (rewrite E; by left).
    apply handed_version in Hy. congruence.
Qed.

Section Calls.
Context (getFileName : str -> str) (w : watcher).
Notation call := (call getFileName w).
Notation calls := (calls getFileName w).
Notation watch := (watch getFileName w).

Definition of_version (v : str * Z) (us : list upload) : list upload := filter (fun u => u_file u = v) us.

Lemma of_version_app v us us' : of_version v (us ++ us') = of_version v us ++ of_version v us'.
Proof. apply filter_app. Qed.

Lemma call_file o file : u_file (call o file) = file.
Proof. unfold FileWatcher.call. by destruct (uploadToS3 _ _ _ _). Qed.

Lemma calls_version o v files :
  let '(us, ok) := calls o files in
  of_version v us `prefix_of` map (call o) (filter (v =.) files)
  /\ (ok = true -> of_version v us = map (call o) (filter (v =.) files)).
Proof.
  induction files as [|file files IH]; [done|]. cbn [FileWatcher.calls].
  destruct (calls o files) as [us ok]. destruct IH as [IH1 IH2]. unfold of_version in *.
  destruct (decide (v = file)) as [->|Hne].
  - rewrite (filter_cons_True (file =.)) by done. case_decide.
    + rewrite filter_cons_True by apply call_file. split; [|done]. by apply prefix_cons, prefix_nil.
    + rewrite filter_cons_True by apply call_file. split; [by apply prefix_cons|].
      intros ?. cbn [map]. by rewrite IH2.
  - rewrite (filter_cons_False (v =.)) by done.
    assert (u_file (call o file) <> v) by (rewrite call_file; congruence).
    case_decide; rewrite filter_cons_False by done; [|done]. split; [apply prefix_nil|done].
Qed.

(** The calls for a version that are due. *)
Fixpoint due (v : str * Z) (st : snapshot * snapshot) (turns : list (snapshot * outside)) : list upload :=
  match turns with
  | [] => []
  | (files3, o) :: turns' =>
      (if decide (settled st.1 st.2 files3 v) then [call o v] else []) ++ due v (st.2, files3) turns'
  end.

Lemma watch_due v turns : forall st,
  let '(uss, f) := watch st turns in
  of_version v (concat uss) `prefix_of` due v st turns
  /\ (f <> Terminates -> of_version v (concat uss) = due v st turns).
Proof.
  induction turns as [|[files3 o] turns IH]; intros st; [done|]. cbn [FileWatcher.watch due].
  unfold scanContinuously.
  pose proof (calls_version o v (concat (map (handed st.1 st.2) (entries files3)))) as Hc.
  destruct (calls o _) as [us ok]. destruct Hc as [Hp He].
  rewrite handed_once in Hp, He.
  assert (map (call o) (if decide (settled st.1 st.2 files3 v) then [v] else [])
          = if decide (settled st.1 st.2 files3 v) then [call o v] else []) as Hm by by case_decide.
  rewrite Hm in Hp, He. destruct ok.
  - specialize (IH (st.2, files3)). destruct (watch _ turns) as [uss f]. destruct IH as [IH1 IH2].
    cbn [concat]. rewrite of_version_app, He by done. split; [by apply prefix_app|].
    intros Hf. by rewrite IH2.
  - cbn [concat]. rewrite app_nil_r. split; [by apply prefix_app_r|done].
Qed.

(** A version that is seen in one run of scans. *)
Lemma due_run v turns : forall a b n m,
  (forall k s, (a :: b :: map fst turns) !! k = Some s -> s !! v.1 = Some v.2 <-> (n <= k < m)%nat) ->
  due v (a, b) turns
  = match n with
    | O => []
    | S j => if (S n <? m)%nat then match turns !! j with Some (_, o) => [call o v] | None => [] end else []
    end.
Proof.
  induction turns as [|[f o] turns IH]; intros a b n m H.
  - destruct n; [done|]. by destruct (_ <? _)%nat.
  - cbn [due fst snd]. rewrite (IH b f (pred n) (pred m)).
    2:{ intros k s Hk. rewrite (H (S k) s Hk). lia. }
    pose proof (H 0%nat a eq_refl) as H0. pose proof (H 1%nat b eq_refl) as H1. pose proof (H 2%nat f eq_refl) as H2.
    assert (settled a b f v <-> (n = 1 /\ 2 < m)%nat) as Hs by (unfold settled; rewrite H0, H1, H2; lia).
    destruct (decide (settled a b f v)) as [Hd|Hd]; rewrite Hs in Hd; cbn [app].
    + destruct Hd as [-> Hm]. cbn [pred]. by destruct (Nat.ltb_spec 2 m); [|lia].
    + destruct n as [|[|n]]; cbn [pred]; [done| |].
      * by destruct (Nat.ltb_spec 2 m); [lia|].
      * change ((f, o) :: turns) with ([(f, o)] ++ turns). rewrite lookup_app_r by (simpl; lia). cbn [length].
        replace (S n - 1)%nat with n by lia.
        by destruct (Nat.ltb_spec (S (S n)) (pred m)), (Nat.ltb_spec (S (S (S n))) m); try lia.
Qed.

End Calls.

(** ** Properties *)

Lemma run_from_start (turns : list (snapshot * outside)) (v : str * Z) n m :
  (forall k files o, turns !! k = Some (files, o) -> files !! v.1 = Some v.2 <-> (n <= k < m)%nat) ->
  forall k s, (∅ :: ∅ :: map fst turns) !! k = Some s -> s !! v.1 = Some v.2 <-> (S (S n) <= k < S (S m))%nat.
Proof.
  intros H [|[|k]] s; [intros [= <-]; rewrite lookup_empty; split; [done|lia]..|].
  change ((fst <$> turns) !! k = Some s -> s !! v.1 = Some v.2 <-> (S (S n) <= S (S k) < S (S m))%nat).
  rewrite list_lookup_fmap. intros ([files o] & Hk & ->)%fmap_Some. rewrite (H k files o Hk). lia.
Qed.


(** A file that is changed while it is seen; S3 does not take the second version. *)
Definition an_outside (takes : bool) : outside :=
  mkOutside (fun _ => Regular) (fun _ => true) (fun _ _ => true) (fun _ => true) (fun _ _ _ => takes).
Definition snap (l : list (str * Z)) : snapshot := list_to_map l.
Definition new_version_turns : list (snapshot * outside) :=
  map (fun t => (snap [($"/d/a", t)], an_outside (t =? 1))) [1; 1; 2; 2; 2].
Definition plain_watcher : watcher := mkWatcher $"/d" $"bucket" $"n1" 10 true false false.


Lemma calls_threw getFileName w o files :
  let '(us, ok) := calls getFileName w o files in
  ok = false <-> Exists (fun u => u_result u = Threw) us.
Proof.
  induction files as [|file files IH]; [by split; [|intros H%Exists_nil]|]. cbn [calls].
  destruct (calls getFileName w o files) as [us ok]. case_decide; rewrite Exists_cons; [tauto|].
  rewrite IH. tauto.
Qed.

(** The process is terminated exactly when a call throws: a directory, a zip file
    or the removal of the zipped file that fails is enough. *)
Theorem exception_terminates getFileName w turns : forall st,
  (watch getFileName w st turns).2 = Terminates
  <-> Exists (fun u => u_result u = Threw) (concat (watch getFileName w st turns).1).
Proof.
  induction turns as [|[files3 o] turns IH]; intros st; [by split; [|intros H%Exists_nil]|].
  cbn [watch]. unfold scanContinuously.
  pose proof (calls_threw getFileName w o (concat (map (handed st.1 st.2) (entries files3)))) as Hc.
  destruct (calls _ _ _ _) as [us ok]. destruct ok; cbn [fst snd].
  - specialize (IH (st.2, files3)). destruct (watch _ _ _ _) as [uss f]. cbn [fst snd concat] in *.
    rewrite Exists_app, IH, <- Hc. split; [by right|]. by intros [?|?].
  - cbn [concat]. rewrite app_nil_r, <- Hc. done.
Qed.

(** A directory whose path contains "/zip" anywhere is not watched at all:
    its scans are empty, whatever it holds. *)
Theorem zip_path_unwatched join w e a b :
  m_directory w = a ++ $"/zip" ++ b -> scanDirectory join w e = ∅.
Proof.
  intros Hd. unfold scanDirectory. destruct e as [t|children]; [done|]. cbn.
  assert (isZipDirectory (m_directory w) = true) as ->; [|done].
  unfold isZipDirectory. destruct (sfind _ _) eqn:E; [done|]. exfalso.
  rewrite sfind_none in E. exact (E a b Hd).
Qed.

Definition slash_join (d n : str) : str := d ++ $"/" ++ n.
Definition demo_watcher (d : str) : watcher := new_watcher d $"bucket" $"n1/up/" 30 true false true.

Lemma zip_path_unwatched_witness :
  scanDirectory slash_join (demo_watcher $"/data/zipcodes") (DirE [($"a", FileE 1)]) = ∅ /\
  scanDirectory slash_join (demo_watcher $"/data/codes") (DirE [($"a", FileE 1)])
  = {[ $"/data/codes/a" := 1 ]}.
Proof.
  split; [|vm_compute; reflexivity].
  apply (zip_path_unwatched slash_join (demo_watcher $"/data/zipcodes") _ $"/data" $"codes").
  reflexivity.
Defined.

(** A watcher that was started once, as the factory does with each, cannot be
    started again, updated or deleted: the process is terminated, whatever
    was stopped before. *)
Theorem started_for_good (w : watcher) (t : thread) (stops : nat) d b n s k :
  start_thread new_thread = Lives t ->
  let t' := Nat.iter stops stop t in
  start_thread t' = Terminates
  /\ (updateFileWatcher w t' d b n s k).2 = Terminates
  /\ forall (l : list (watcher * thread)) i, l !! i = Some (w, t') ->
       (deleteFileWatcher l (Some i)).2 = Terminates.
Proof.
  intros [= <-] t'. assert (joinable t' = true) as Hj.
  { subst t'. induction stops as [|k' IH]; [done|]. exact IH. }
  split_and!.
  - unfold start_thread. by rewrite Hj.
  - unfold updateFileWatcher, start_thread. simpl. by rewrite Hj.
  - intros l i Hl. unfold deleteFileWatcher. rewrite Hl. unfold destroy. simpl. by rewrite Hj.
Qed.

Lemma started_for_good_witness :
  start_thread (stop (mkThread false true)) = Terminates.
Proof.
  by apply (started_for_good (demo_watcher $"/d") (mkThread false true) 1 $"" $"" $"" 0 true).
Defined.

(** What the factory is asked to do. *)
Inductive fop :=
  | Create (directory bucket nodeid : str) (sleep : Z) (keepFile needZip watchSubDir : bool)
  | Delete (directory : str)
  | List.

(** Whether the call returned, and the factory afterwards. *)
Definition fop_step (f : factory) (o : fop) : bool * factory :=
  match o with
  | Create d b n s k z w =>
      match createFileWatcher f d b n s k z w with Returned f' => (true, f') | Blocked => (false, f) end
  | Delete d =>
      match deleteFileWatcherByDirectory f d with
      | (Returned f', _) => (true, f') | (Blocked, f') => (false, f')
      end
  | List => match listAllWatchers f with Returned _ => (true, f) | Blocked => (false, f) end
  end.
Definition fops (ops : list fop) : factory :=
  foldl (fun f o => snd (fop_step f o)) (mkFactory [] false) ops.

Lemma find_none f d : findFileWatcher f d = None <-> d ∉ map m_directory (fileWatchers f).
Proof.
  unfold findFileWatcher. rewrite fmap_None, list_find_None, Forall_forall. split.
  - intros H (w & -> & Hw)%list_elem_of_fmap. by apply (H w Hw).
  - intros H w Hw E. apply H. rewrite <- E. by apply list_elem_of_fmap_2.
Qed.

Lemma fops_snoc ops o : fops (ops ++ [o]) = snd (fop_step (fops ops) o).
Proof. unfold fops. by rewrite foldl_app. Qed.

Lemma fops_nodup ops : NoDup (map m_directory (fileWatchers (fops ops))).
Proof.
  induction ops as [|o ops IH] using rev_ind; [constructor|]. rewrite fops_snoc.
  destruct o as [d b n s k z w|d|]; cbn.
  - unfold createFileWatcher. destruct (stuck _); [done|].
    destruct (findFileWatcher (fops ops) d) eqn:E; [done|]. apply find_none in E.
    cbn. rewrite map_app. apply NoDup_app. split_and!; [done| |apply NoDup_singleton].
    cbn. intros x Hx ->%list_elem_of_singleton. done.
  - unfold deleteFileWatcherByDirectory. destruct (stuck _); [done|].
    by destruct (findFileWatcher _ _).
  - unfold listAllWatchers. by destruct (stuck _).
Qed.

(** A directory has at most one watcher; deleting an existing watcher never
    returns and keeps the lock, after which no call to the factory returns; so
    no watcher is ever removed. *)
Theorem delete_watcher_blocks ops d :
  NoDup (map m_directory (fileWatchers (fops ops))) /\
  (d ∈ map m_directory (fileWatchers (fops ops)) ->
   fst (fop_step (fops ops) (Delete d)) = false /\
   forall o, fst (fop_step (fops (ops ++ [Delete d])) o) = false /\
     fileWatchers (snd (fop_step (fops (ops ++ [Delete d])) o)) = fileWatchers (fops ops)).
Proof.
  split; [apply fops_nodup|]. intros Hd.
  assert (findFileWatcher (fops ops) d <> None) as Hf by (rewrite find_none; tauto).
  rewrite fops_snoc. cbn [fop_step]. unfold deleteFileWatcherByDirectory.
  destruct (stuck (fops ops)) eqn:Es.
  - split; [done|]. cbn [snd]. intros [???????|?|]; cbn;
      unfold createFileWatcher, deleteFileWatcherByDirectory, listAllWatchers; by rewrite Es.
  - destruct (findFileWatcher (fops ops) d); [|done]. split; [done|]. cbn [snd].
    by intros [???????|?|].
Qed.

Lemma delete_watcher_blocks_witness :
  fst (fop_step (fops [Create $"/d" $"b" $"n" 30 true true true]) (Delete $"/d")) = false.
Proof.
  apply (delete_watcher_blocks [Create $"/d" $"b" $"n" 30 true true true] $"/d").
  vm_compute. constructor.
Defined.

End FileWatcher.
