(* ===== verification/FileCmd.v ===== *)
(** * The file commands ([src/node/src/FileTopic.cpp])

    The worker of the file queue: listing, making, deleting, copying, zipping
    and sending files, S3 and the watchers of directories. Poco's file copy and
    archives, S3 and modification times are arguments. *)

From S2P Require Import Prelude StrUtil FileSys FileSplit Messages FileTransfer FileWatcher NodeCmd Wiring.
Import FileSys FileSplit Messages.

(** What the file commands ask of libraries: Poco and the AWS client. *)
Class Tools (T : Type) := {
  empty_exists : option bool;           (* [Poco::File("").exists()]; [None] throws *)
  copyTo : FileSys.t -> str -> str -> option FileSys.t;
  archive : option (str * bytes) -> option bytes;
  archive_dir : FileSys.t -> str -> bytes;
  unpack : FileSys.t -> bytes -> str -> option FileSys.t;
  mtime : str -> Z;
  downloadfile : T -> FileSys.t -> str -> str -> str -> bool * T * FileSys.t;
  uploadfile : T -> FileSys.t -> str -> str -> str -> bool * T;
  DeleteObject : T -> str -> str -> bool * T;
  ListObjects : T -> str -> bool * T;
}.

Module FileCmd.
Section Worker.
Context {T E : Type} `{TT : !Tools T}.
Context (net : E -> FileData -> bool * list FileDataReply * E) (cfg : FileTransfer.config).
Context (nodeId nodeName : str) (fuel : nat).

Record world := mkWorld {
  w_fs : FileSys.t;
  w_net : E;
  w_s3 : T;
  w_watchers : FileWatcher.factory;
  w_out : list NodeCmdReply;    (* [fileDataReplyQueueOut_] *)
}.

(** A command is done, was left by an exception, hangs, or is undefined. *)
Inductive ending := Done | Thrown | Hangs | Undefined.

Definition with_fs (w : world) (fs : FileSys.t) : world :=
  mkWorld fs (w_net w) (w_s3 w) (w_watchers w) (w_out w).
Definition with_s3 (w : world) (t : T) (fs : FileSys.t) : world :=
  mkWorld fs (w_net w) t (w_watchers w) (w_out w).
Definition with_watchers (w : world) (fs : FileSys.t) (f : FileWatcher.factory) : world :=
  mkWorld fs (w_net w) (w_s3 w) f (w_out w).
Definition reply (w : world) (r : NodeCmdReply) : ending * world :=
  (Done, mkWorld (w_fs w) (w_net w) (w_s3 w) (w_watchers w) (w_out w ++ [r])).

(** [Poco::File::exists]. *)
Definition poco_exists (fs : FileSys.t) (p : str) : option bool :=
  match p with [] => empty_exists | _ => Some (exists_ fs p) end.

(** The path of a directory entry, [path / name]. *)
Definition entry_path (p name : str) : str :=
  if bool_decide (last p = Some "/"%char) then p ++ name else p ++ $"/" ++ name.

(** src/node/src/FileTopic.cpp:1470-1503, [FileTopic::getFileInfos]. Files of
    size 0 are skipped. *)
Definition file_info (fs : FileSys.t) (dir : str) (e : path * bool) : option File :=
  let p := entry_path dir (default [] (last (fst e))) in
  if snd e then Some (mkFile p true (-1) (mtime p))
  else if GetFileLength fs p <=? 0 then None
  else Some (mkFile p false (GetFileLength fs p) (mtime p)).

(** src/node/src/FileTopic.cpp:1465-1511, [FileTopic::getFileInfos]. *)
Definition getFileInfos (fs : FileSys.t) (dir : str) : option (list File) :=
  match poco_exists fs dir with
  | None => None
  | Some b =>
      Some (if b && is_directory fs dir then omap (file_info fs dir) (entries fs (resolve fs dir))
            else [])
  end.

(** The files of a directory put into the reply, and the rest of a case. *)
Definition list_into (w : world) (r : NodeCmdReply) (dir : str)
    (k : NodeCmdReply -> ending * world) : ending * world :=
  match getFileInfos (w_fs w) dir with
  | None => (Thrown, w)
  | Some fs => k (add_results r fs)
  end.

Definition says (r : NodeCmdReply) (text : str) : NodeCmdReply := set_desc r (nodeName ++ nodeId ++ text).
Definition parent (p : str) : str := StrUtil.cutlaststr p $"/".
Definition nonempty (s : str) : bool := negb (bool_decide (s = [])).
Definition invalid (w : world) (r : NodeCmdReply) : ending * world :=
  reply w (says r $"invalid parameter").

(** src/node/src/FileTopic.cpp:536-554, [FileTopic::handle_file_transfer_command]. [LS]. *)
Definition ls (w : world) (c : NodeCmd) (r : NodeCmdReply) : ending * world :=
  if nonempty (c_paras c) then
    list_into w r (c_paras c) (fun r1 =>
      reply w (says (set_status r1 SUCCESS) ($"get directory sucess: " ++ c_paras c)))
  else invalid w r.

(** src/node/src/FileTopic.cpp:555-578, [FileTopic::handle_file_transfer_command]. [MKDIR]. *)
Definition make_dir (w : world) (c : NodeCmd) (r : NodeCmdReply) : ending * world :=
  if nonempty (c_paras c) then
    match mkdir (w_fs w) (c_paras c) with
    | None => (Thrown, w)
    | Some fs =>
        let w1 := with_fs w fs in
        list_into w1 r (parent (c_paras c)) (fun r1 =>
          reply w1 (says (set_status r1 SUCCESS) ($"creat directory sucess: " ++ c_paras c)))
    end
  else invalid w r.

(** src/node/src/FileTopic.cpp:579-619, [FileTopic::handle_file_transfer_command]. [DEL]. *)
Definition delete_file (w : world) (c : NodeCmd) (r : NodeCmdReply) : ending * world :=
  if nonempty (c_paras c) then
    match poco_exists (w_fs w) (StrUtil.trim (c_paras c)) with
    | None => (Thrown, w)
    | Some true =>
        let '(ok, fs) := del (w_fs w) (c_paras c) in
        let w1 := with_fs w fs in
        if ok : bool then
          list_into w1 (set_status r SUCCESS) (parent (c_paras c)) (fun r1 =>
            reply w1 (says r1 ($"delete file sucess: " ++ c_paras c)))
        else reply w1 r
    | Some false =>
        reply w (says (set_status r INVALID) $"deleted file is not exist,invalid parameter")
    end
  else reply w (says (set_status r INVALID) $"invalid parameter").

(** src/node/src/FileTopic.cpp:620-651, [FileTopic::handle_file_transfer_command]. [DELDIR]. *)
Definition delete_dir (w : world) (c : NodeCmd) (r : NodeCmdReply) : ending * world :=
  if nonempty (c_paras c) then
    if exists_ (w_fs w) (c_paras c) && is_directory (w_fs w) (c_paras c) then
      let w1 := with_fs w (remove_all_files (w_fs w) (c_paras c)) in
      list_into w1 r (parent (c_paras c)) (fun r1 =>
        reply w1 (says (set_status r1 SUCCESS) ($"delete directory sucess: " ++ c_paras c)))
    else reply w (says r $"deleted dir is not exist,invalid parameter")
  else invalid w r.

(** src/node/src/FileTopic.cpp:652-684, [FileTopic::handle_file_transfer_command]. [SENDFILE]. *)
Definition send_file_cmd (w : world) (c : NodeCmd) (r : NodeCmdReply) : ending * world :=
  if nonempty (c_paras c) then
    match FileTransfer.send_file net cfg fuel (w_fs w) (c_paras c) (c_to_node_id c) (c_uuid c)
            (c_src_node_id c) (c_paras c) (w_net w) with
    | FileTransfer.Throw => (Thrown, w)
    | FileTransfer.Loop => (Hangs, w)
    | FileTransfer.Undefined => (Undefined, w)
    | FileTransfer.Ret (sent, _, fs, e) =>
        let w1 := mkWorld fs e (w_s3 w) (w_watchers w) (w_out w) in
        if sent : bool then
          list_into w1 (set_status r SUCCESS) (parent (c_paras c)) (fun r1 =>
            reply w1 (says r1 ($"send file sucess: " ++ c_paras c)))
        else reply w1 (says r ($"send file fail: " ++ c_paras c))
    end
  else invalid w r.

(** src/node/src/FileTopic.cpp:685-724, [FileTopic::handle_file_transfer_command]. [MKFILE].
    [createFile] makes an empty file; the file does not exist here. *)
Definition make_file (w : world) (c : NodeCmd) (r : NodeCmdReply) : ending * world :=
  if nonempty (c_paras c) then
    let path := StrUtil.trim (c_paras c) in
    match poco_exists (w_fs w) path with
    | None => (Thrown, w)
    | Some false =>
        match write (w_fs w) path [] with
        | None => (Thrown, w)
        | Some fs =>
            let w1 := with_fs w fs in
            list_into w1 (set_status r SUCCESS) (parent (c_paras c)) (fun r1 =>
              reply w1 (says r1 ($"mk file sucess: " ++ c_paras c)))
        end
    | Some true => reply w (says r ($"make file fail,file exist: " ++ c_paras c))
    end
  else invalid w r.

(** src/node/src/FileTopic.cpp:725-757, [FileTopic::handle_file_transfer_command]. [CPFILE]. *)
Definition copy_file (w : world) (c : NodeCmd) (r : NodeCmdReply) : ending * world :=
  if nonempty (c_cmd c) && nonempty (c_paras c) then
    let path := StrUtil.trim (c_cmd c) in
    match poco_exists (w_fs w) path with
    | None => (Thrown, w)
    | Some true =>
        match copyTo (w_fs w) path (c_paras c) with
        | None => (Thrown, w)
        | Some fs =>
            let w1 := with_fs w fs in
            list_into w1 (set_status r SUCCESS) (parent (c_paras c)) (fun r1 =>
              reply w1 (says r1 ($"copy file sucess: " ++ c_paras c)))
        end
    | Some false => reply w (says r ($"copy file fail: " ++ c_paras c))
    end
  else invalid w r.

(** ** Archives *)

(** What a stream that may not have opened leaves in the file. *)
Definition write_if (fs : FileSys.t) (p : str) (b : bytes) : FileSys.t := default fs (write fs p b).

(** src/node/src/FileTopic.cpp:1342-1371, [FileTopic::zipFile]. The result is
    [None] for an exception. *)
Definition zipFile (fs : FileSys.t) (inputDirPath outputFilePath : str) : option bool * FileSys.t :=
  let fs1 := write_if fs outputFilePath [] in
  match poco_exists fs1 inputDirPath with
  | None => (None, fs1)
  | Some false =>
      (Some true, write_if fs1 outputFilePath (default [] (archive None)))
  | Some true =>
      if is_directory fs1 inputDirPath then (Some false, fs1)
      else match archive (Some (default [] (last (segments inputDirPath)),
                                default [] (read fs1 inputDirPath))) with
           | None => (None, fs1)
           | Some z => (Some true, write_if fs1 outputFilePath z)
           end
  end.

(** [Poco::Path::isDirectory]: the path ends in a slash. *)
Definition path_is_directory (p : str) : bool :=
  match last p with None => true | Some c => bool_decide (c = "/"%char) end.

(** src/node/src/FileTopic.cpp:1373-1396, [FileTopic::zipDir]. Exceptions while
    files are added are caught. *)
Definition zipDir (fs : FileSys.t) (inputDirPath outputFilePath : str) : bool * FileSys.t :=
  if path_is_directory inputDirPath
  then (true, write_if fs outputFilePath (archive_dir fs inputDirPath))
  else (false, fs).

(** src/node/src/FileTopic.cpp:1398-1406, [FileTopic::zip]. *)
Definition zip (fs : FileSys.t) (inputDirPath outputFilePath : str) : option bool * FileSys.t :=
  if path_is_directory inputDirPath
  then let '(ok, fs') := zipDir fs inputDirPath outputFilePath in (Some ok, fs')
  else zipFile fs inputDirPath outputFilePath.

(** src/node/src/FileTopic.cpp:1409-1429, [FileTopic::uZip]. What goes wrong
    while the files are unpacked is caught; [unpack] leaves what was unpacked. *)
Definition uZip (fs : FileSys.t) (inputDirPath outputFilePath : str) : option bool * FileSys.t :=
  match poco_exists fs inputDirPath with
  | None => (None, fs)
  | Some false => (Some false, fs)
  | Some true =>
      match unpack fs (default [] (read fs inputDirPath)) outputFilePath with
      | None => (None, fs)
      | Some fs' => (Some true, fs')
      end
  end.

(** [s.substr(0, s.find_last_of('/'))]. *)
Definition before_last_slash (s : str) : str :=
  match find_last_of $"/" s with Some i => take i s | None => s end.

(** src/node/src/FileTopic.cpp:758-826, [FileTopic::handle_file_transfer_command]. [ZIP].
    The last char of an empty name is undefined. *)
Definition zip_cmd (w : world) (c : NodeCmd) (r : NodeCmdReply) : ending * world :=
  if nonempty (c_paras c) then
    match last (StrUtil.trim (c_cmd c)) with
    | None => (Undefined, w)
    | Some last_char =>
        match poco_exists (w_fs w) (c_cmd c) with
        | None => (Thrown, w)
        | Some found =>
            if found && (negb (bool_decide (last_char = "/"%char)) || is_directory (w_fs w) (c_cmd c)) then
              match zip (w_fs w) (c_cmd c) (c_paras c) with
              | (None, fs) => (Thrown, with_fs w fs)
              | (Some false, fs) =>
                  reply (with_fs w fs) (says r ($"zip file fail: " ++ c_paras c))
              | (Some true, fs) =>
                  let w1 := with_fs w fs in
                  let oriParas := $"./" ++ c_cmd c in
                  let splitParas1 := before_last_slash oriParas in
                  let dir := if bool_decide (last oriParas = Some "/"%char)
                             then before_last_slash splitParas1 else splitParas1 in
                  list_into w1 (set_status r SUCCESS) dir (fun r1 =>
                    reply w1 (says r1 ($"zip file sucess: " ++ c_paras c)))
              end
            else reply w (says r $" zipped file or dir is not exist,invalid parameter")
        end
    end
  else invalid w r.

(** src/node/src/FileTopic.cpp:827-867, [FileTopic::handle_file_transfer_command]. [DZIP]. *)
Definition dzip_cmd (w : world) (c : NodeCmd) (r : NodeCmdReply) : ending * world :=
  if nonempty (c_cmd c) && nonempty (c_paras c) then
    if exists_ (w_fs w) (c_cmd c) then
      match uZip (w_fs w) (c_cmd c) (c_paras c) with
      | (None, fs) => (Thrown, with_fs w fs)
      | (Some false, fs) => reply (with_fs w fs) (says r ($"uzip file fail: " ++ c_paras c))
      | (Some true, fs) =>
          let w1 := with_fs w fs in
          list_into w1 (set_status r SUCCESS) (before_last_slash ($"./" ++ c_cmd c)) (fun r1 =>
            reply w1 (says r1 ($"uzip file sucess: " ++ c_paras c)))
      end
    else reply w (says r $" dzipped file is not exist,invalid parameter")
  else invalid w r.

(** ** S3 *)

(** src/node/src/FileTopic.cpp:892-938, [FileTopic::handle_s3_operations]. [GETS3FILE]. *)
Definition get_s3 (w : world) (c : NodeCmd) (r : NodeCmdReply) : ending * world :=
  if nonempty (c_cmd c) && nonempty (c_paras c) then
    let bucket := StrUtil.cutFisrtLeftStr (c_cmd c) $"/" in
    let fileKey := StrUtil.cutFisrtRightstr (c_cmd c) $"/" in
    let splitParas := parent (StrUtil.formatPath (c_paras c)) in
    match poco_exists (w_fs w) splitParas with
    | None => (Thrown, w)
    | Some found =>
        match (if found then Some (w_fs w) else mkdir (w_fs w) splitParas) with
        | None => (Thrown, w)
        | Some fs =>
            let '(ok, t, fs1) := downloadfile (w_s3 w) fs bucket fileKey (c_paras c) in
            let w1 := with_s3 w t fs1 in
            if ok : bool then
              list_into w1 (set_status r SUCCESS) splitParas (fun r1 =>
                reply w1 (says r1 ($"download s3 file success: " ++ c_paras c)))
            else reply w1 (set_status (says r ($"download s3 file failed: " ++ c_paras c)) INVALID)
        end
    end
  else invalid w r.

(** src/node/src/FileTopic.cpp:939-974, [FileTopic::handle_s3_operations]. [PUTS3FILE]. *)
Definition put_s3 (w : world) (c : NodeCmd) (r : NodeCmdReply) : ending * world :=
  if nonempty (c_cmd c) && nonempty (c_paras c) then
    let bucket := StrUtil.cutFisrtLeftStr (c_cmd c) $"/" in
    let fileKey := StrUtil.cutFisrtRightstr (c_cmd c) $"/" in
    let '(ok, t) := uploadfile (w_s3 w) (w_fs w) bucket fileKey (c_paras c) in
    let w1 := with_s3 w t (w_fs w) in
    if ok : bool then
      list_into w1 (set_status r SUCCESS) (parent (StrUtil.formatPath (c_paras c))) (fun r1 =>
        reply w1 (says r1 ($"upload s3 file success: " ++ c_paras c)))
    else reply w1 (set_status (says r ($"upload s3 file failed: " ++ c_paras c)) INVALID)
  else invalid w r.

(** src/node/src/FileTopic.cpp:975-1005, [FileTopic::handle_s3_operations]. [LSS3DIR]. *)
Definition ls_s3 (w : world) (c : NodeCmd) (r : NodeCmdReply) : ending * world :=
  if nonempty (c_cmd c) && nonempty (c_paras c) then
    let '(ok, t) := ListObjects (w_s3 w) (c_cmd c) in
    let w1 := with_s3 w t (w_fs w) in
    if ok : bool
    then reply w1 (says (set_status r SUCCESS) ($"upload s3 file success: " ++ c_paras c))
    else reply w1 (set_status (says r ($"upload s3 file failed: " ++ c_paras c)) INVALID)
  else invalid w r.

(** src/node/src/FileTopic.cpp:1006-1040, [FileTopic::handle_s3_operations]. [DELS3FILE]. *)
Definition del_s3 (w : world) (c : NodeCmd) (r : NodeCmdReply) : ending * world :=
  if nonempty (c_cmd c) && nonempty (c_paras c) then
    let bucket := StrUtil.cutFisrtLeftStr (c_cmd c) $"/" in
    let fileKey := StrUtil.cutFisrtRightstr (c_cmd c) $"/" in
    let '(ok, t) := DeleteObject (w_s3 w) fileKey bucket in
    let w1 := with_s3 w t (w_fs w) in
    if ok : bool then
      list_into w1 (set_status r SUCCESS) (parent (StrUtil.formatPath (c_paras c))) (fun r1 =>
        reply w1 (says r1 ($"copy s3 file success: " ++ c_paras c)))
    else reply w1 (set_status (says r ($"copy s3 file failed: " ++ c_paras c)) INVALID)
  else invalid w r.

(** The list of the watchers as the answer, or the lock never had. *)
Definition answer_watchers (w : world) (r : NodeCmdReply) : ending * world :=
  match FileWatcher.listAllWatchers (w_watchers w) with
  | FileWatcher.Blocked => (Hangs, w)
  | FileWatcher.Returned text => reply w (set_desc r text)
  end.

(** src/node/src/FileTopic.cpp:1055-1064, [FileTopic::handle_s3_operations]. The
    flags: keep the file, zip it, watch the directories below. *)
Definition watch_flags (paras : str) : bool * bool * bool :=
  match StrUtil.split paras "#"%char with
  | a :: b :: d :: _ =>
      (bool_decide (a = $"1"), bool_decide (b = $"1"), bool_decide (d = $"1"))
  | _ => (true, true, false)
  end.

(** A watcher is made and started, unless the directory has one. *)
Definition watch_dir (w : world) (directory bucket : str) (sleep : Z)
    (keepFile needZip watchSubDir : bool) : ending * world :=
  match FileWatcher.createFileWatcher (w_watchers w) directory bucket (nodeId ++ $"/up/") sleep
          keepFile needZip watchSubDir with
  | FileWatcher.Blocked => (Hangs, w)
  | FileWatcher.Returned f =>
      match FileWatcher.findFileWatcher (w_watchers w) directory with
      | Some _ => (Done, w)
      | None =>
          match FileWatcher.start (w_fs w)
                  (FileWatcher.new_watcher directory bucket (nodeId ++ $"/up/") sleep keepFile
                     needZip watchSubDir) with
          | None => (Thrown, w)
          | Some fs => (Done, with_watchers w fs f)
          end
      end
  end.

(** src/node/src/FileTopic.cpp:1041-1087, [FileTopic::handle_s3_operations]. [ADDS3WATCH]. *)
Definition add_watch (w : world) (c : NodeCmd) (r : NodeCmdReply) : ending * world :=
  if nonempty (c_cmd c) && nonempty (c_paras c) then
    let bucket := StrUtil.cutFisrtLeftStr (c_cmd c) $"/" in
    let fileKeyRoot := drop 1 (StrUtil.cutFisrtRightstr (c_cmd c) $"/") in
    match poco_exists (w_fs w) fileKeyRoot with
    | None => (Thrown, w)
    | Some found =>
        if found && is_directory (w_fs w) fileKeyRoot then
          let '(keepFile, needZip, watchSubDir) := watch_flags (c_paras c) in
          match watch_dir w fileKeyRoot bucket 30 keepFile needZip watchSubDir with
          | (Done, w1) => answer_watchers w1 (set_status r SUCCESS)
          | res => res
          end
        else reply w (set_desc (set_status r INVALID) $"dir not exist or not directory!")
    end
  else invalid w r.

(** src/node/src/FileTopic.cpp:1088-1109, [FileTopic::handle_s3_operations]. [RMS3WATCH]. *)
Definition remove_watch (w : world) (c : NodeCmd) (r : NodeCmdReply) : ending * world :=
  if nonempty (c_cmd c) && nonempty (c_paras c) then
    let fileKeyRoot := drop 1 (StrUtil.cutFisrtRightstr (c_cmd c) $"/") in
    let '(res, f) := FileWatcher.deleteFileWatcherByDirectory (w_watchers w) fileKeyRoot in
    let w1 := with_watchers w (w_fs w) f in
    match res with
    | FileWatcher.Blocked => (Hangs, w1)
    | FileWatcher.Returned _ => answer_watchers w1 (set_status r SUCCESS)
    end
  else reply w (set_status (says r $"invalid parameter") INVALID).

(** src/node/src/FileTopic.cpp:1110-1127, [FileTopic::handle_s3_operations]. [LSS3WATCH]. *)
Definition ls_watch (w : world) (c : NodeCmd) (r : NodeCmdReply) : ending * world :=
  if nonempty (c_cmd c) && nonempty (c_paras c) then answer_watchers w (set_status r SUCCESS)
  else reply w (set_status (says r $"invalid parameter") INVALID).

(** src/node/src/FileTopic.cpp:113-137, [FileTopic::writer_worker]. The
    configured directories; an exception leaves the loop. *)
Fixpoint start_watchers (w : world) (l : list Wiring.S3WATCH) : ending * world :=
  match l with
  | [] => (Done, w)
  | s :: l' =>
      match poco_exists (w_fs w) (Wiring.directory s) with
      | None => (Thrown, w)
      | Some found =>
          if found && is_directory (w_fs w) (Wiring.directory s) then
            match watch_dir w (Wiring.directory s) (Wiring.bucket s) (Wiring.sleep s)
                    (Wiring.keepFile s) (Wiring.zipFlag s) (Wiring.watchSubDir s) with
            | (Done, w1) => start_watchers w1 l'
            | res => res
            end
          else start_watchers w l'
      end
  end.

(** ** The worker *)

(** src/node/src/FileTopic.cpp:484-493, [FileTopic::process_node_cmd]. *)
Definition new_reply (id : str) (c : NodeCmd) : NodeCmdReply :=
  mkNodeCmdReply id nodeId nodeName (c_src_node_id c) (c_src_node_name c) (c_uuid c)
    (c_cmd_type c) INVALID [] [] [].

(** src/node/src/FileTopic.cpp:484-526, [FileTopic::process_node_cmd]. With S3
    compiled in. *)
Definition process_node_cmd (id : str) (w : world) (c : NodeCmd) : ending * world :=
  let r := new_reply id c in
  match cmd_of_Z (c_cmd_type c) with
  | Some LS => ls w c r
  | Some MKDIR => make_dir w c r
  | Some DEL => delete_file w c r
  | Some DELDIR => delete_dir w c r
  | Some SENDFILE => send_file_cmd w c r
  | Some MKFILE => make_file w c r
  | Some CPFILE => copy_file w c r
  | Some ZIP => zip_cmd w c r
  | Some DZIP => dzip_cmd w c r
  | Some GETS3FILE => get_s3 w c r
  | Some PUTS3FILE => put_s3 w c r
  | Some LSS3DIR => ls_s3 w c r
  | Some DELS3FILE => del_s3 w c r
  | Some ADDS3WATCH => add_watch w c r
  | Some RMS3WATCH => remove_watch w c r
  | Some LSS3WATCH => ls_watch w c r
  | _ => (Done, w)
  end.

(** ** Files sent for the data base *)

(** src/node/src/FileTopic.cpp:174-180, [FileTopic::writer_worker]. *)
Definition task_status_sql (uuid : str) (status : Z) : str :=
  $"update file_data set file_data_status_id=" ++ to_strz status ++ $" where uuid=" ++ FileTransfer.quoted uuid.

(** src/node/src/FileTopic.cpp:189-197, [FileTopic::writer_worker]. *)
Definition task_failed_sql (fileName srcNodeId toNodeId uuid : str) : str :=
  $"insert into file_data_reply(file_name,to_node_id,src_node_id,reply_uuid,total_block_num,current_block_num,status_description,file_data_status_id)values("
  ++ FileTransfer.quoted fileName ++ $"," ++ FileTransfer.quoted srcNodeId ++ $","
  ++ FileTransfer.quoted toNodeId ++ $"," ++ FileTransfer.quoted uuid ++ $",0,0,"
  ++ FileTransfer.quoted (fileName ++ $" Read Exception!") ++ $",6)".

(** src/node/src/FileTopic.cpp:164-201, [FileTopic::writer_worker]. The rows of
    [file_data] to send; the statements run, and how the turn ends. *)
Fixpoint send_tasks (w : world) (rows : list NodeCmdTopic.row) : list str * (ending * world) :=
  match rows with
  | [] => ([], (Done, w))
  | row :: rows' =>
      match NodeCmdTopic.get_string row 0, NodeCmdTopic.get_string row 1,
            NodeCmdTopic.get_string row 2, NodeCmdTopic.get_string row 3,
            NodeCmdTopic.get_string_or row 4 $"." with
      | Some fileName, Some srcNodeId, Some toNodeId, Some uuid, Some subDirs =>
          let started := task_status_sql uuid 1 in
          match FileTransfer.send_file net cfg fuel (w_fs w) fileName srcNodeId uuid toNodeId subDirs
                  (w_net w) with
          | FileTransfer.Throw => ([started], (Thrown, w))
          | FileTransfer.Loop => ([started], (Hangs, w))
          | FileTransfer.Undefined => ([started], (Undefined, w))
          | FileTransfer.Ret (success, _, fs, e) =>
              let w1 := mkWorld fs e (w_s3 w) (w_watchers w) (w_out w) in
              let sqls := started :: task_status_sql uuid (if success : bool then 2 else 6)
                :: (if success then [] else [task_failed_sql fileName srcNodeId toNodeId uuid]) in
              let '(rest, res) := send_tasks w1 rows' in (sqls ++ rest, res)
          end
      | _, _, _, _, _ => ([], (Thrown, w))
      end
  end.

(** src/node/src/FileTopic.cpp:147-217, [FileTopic::writer_worker]. A turn of
    the loop: a command, if there is one, and every twentieth time on a
    managing node the tasks. *)
Definition writer_turn (mgr : bool) (ctlCount : Z) (id : str) (cmd : option NodeCmd)
    (rows : list NodeCmdTopic.row) (w : world) : list str * (ending * world) :=
  match (match cmd with None => (Done, w) | Some c => process_node_cmd id w c end) with
  | (Done, w1) | (Thrown, w1) =>
      if mgr && (Z.rem ctlCount 20 =? 0) then send_tasks w1 rows else ([], (Done, w1))
  | res => ([], res)
  end.

(** ** Lemmas *)

(** A case queues one reply made from [r], unless it is left or hangs. *)
Definition header (r r' : NodeCmdReply) : Prop :=
  r_uuid r' = r_uuid r /\ r_src_node_id r' = r_src_node_id r /\ r_to_node_id r' = r_to_node_id r /\
  r_cmd_reply_uuid r' = r_cmd_reply_uuid r /\ r_cmd_type r' = r_cmd_type r.

Definition answers (w : world) (r : NodeCmdReply) (res : ending * world) : Prop :=
  match res with
  | (Done, w') => exists r', w_out w' = w_out w ++ [r'] /\ header r r'
  | (_, w') => w_out w' = w_out w
  end.

Lemma file_answers_reply w w' r r' : w_out w' = w_out w -> header r r' -> answers w r (reply w' r').
Proof. intros E1 Hh. exists r'. cbn. by rewrite E1. Qed.

Lemma answers_list w w' r r' dir k :
  w_out w' = w_out w ->
  (forall fs, answers w r (k (add_results r' fs))) -> answers w r (list_into w' r' dir k).
Proof. intros E1 Hk. unfold list_into. by destruct (getFileInfos _ _). Qed.

Lemma answers_watchers w w' r r' :
  w_out w' = w_out w -> header r r' -> answers w r (answer_watchers w' r').
Proof.
  intros E1 Hh. unfold answer_watchers. destruct (FileWatcher.listAllWatchers _); [|done].
  by apply file_answers_reply.
Qed.

Ltac answers_tac :=
  repeat match goal with
  | |- answers _ _ (list_into _ _ _ _) => apply answers_list; [done|intros ?]
  | |- answers _ _ (reply _ _) => apply file_answers_reply
  | |- answers _ _ (answer_watchers _ _) => apply answers_watchers
  | |- context [match ?x with _ => _ end] => destruct x eqn:?
  end;
  simplify_eq/=; try done.

Lemma file_cases_answer w c r :
  answers w r (ls w c r) /\ answers w r (make_dir w c r) /\ answers w r (delete_file w c r) /\
  answers w r (delete_dir w c r) /\ answers w r (send_file_cmd w c r) /\
  answers w r (make_file w c r) /\ answers w r (copy_file w c r).
Proof.
  split_and!; unfold ls, make_dir, delete_file, delete_dir, send_file_cmd, make_file, copy_file,
    invalid; answers_tac.
Qed.

Lemma zip_cases_answer w c r : answers w r (zip_cmd w c r) /\ answers w r (dzip_cmd w c r).
Proof. split_and!; unfold zip_cmd, dzip_cmd, invalid; answers_tac. Qed.

Lemma s3_cases_answer w c r :
  answers w r (get_s3 w c r) /\ answers w r (put_s3 w c r) /\ answers w r (ls_s3 w c r) /\
  answers w r (del_s3 w c r).
Proof. split_and!; unfold get_s3, put_s3, ls_s3, del_s3, invalid; answers_tac. Qed.

Lemma watch_dir_out w d b n k z s : w_out (watch_dir w d b n k z s).2 = w_out w.
Proof. unfold watch_dir. by repeat case_match. Qed.

Lemma watch_cases_answer w c r :
  answers w r (add_watch w c r) /\ answers w r (remove_watch w c r) /\ answers w r (ls_watch w c r).
Proof.
  split_and!.
  - unfold add_watch, invalid. destruct (_ && _); [|by apply file_answers_reply].
    destruct (poco_exists _ _) as [found|]; [|done].
    destruct (found && _); [|by apply file_answers_reply].
    destruct (watch_flags _) as [[k z] s].
    pose proof (watch_dir_out w (drop 1 (StrUtil.cutFisrtRightstr (c_cmd c) $"/"))
      (StrUtil.cutFisrtLeftStr (c_cmd c) $"/") 30 k z s) as Hw.
    destruct (watch_dir _ _ _ _ _ _ _) as [[] w1]; cbn in Hw; try done.
    by apply answers_watchers.
  - unfold remove_watch. answers_tac.
  - unfold ls_watch. answers_tac.
Qed.

(** src/node/src/FileTopic.cpp:495-522, [FileTopic::process_node_cmd]. The
    commands the file worker knows. *)
Definition known (cmd_type : Z) : bool :=
  match cmd_of_Z cmd_type with
  | Some (LS | MKDIR | DEL | DELDIR | SENDFILE | MKFILE | CPFILE | ZIP | DZIP | GETS3FILE
         | PUTS3FILE | LSS3DIR | DELS3FILE | ADDS3WATCH | RMS3WATCH | LSS3WATCH) => true
  | _ => false
  end.

Lemma process_answers id w c :
  if known (c_cmd_type c) then answers w (new_reply id c) (process_node_cmd id w c)
  else process_node_cmd id w c = (Done, w).
Proof.
  pose proof (file_cases_answer w c (new_reply id c)) as (?&?&?&?&?&?&?).
  pose proof (zip_cases_answer w c (new_reply id c)) as (?&?).
  pose proof (s3_cases_answer w c (new_reply id c)) as (?&?&?&?).
  pose proof (watch_cases_answer w c (new_reply id c)) as (?&?&?).
  unfold known, process_node_cmd. destruct (cmd_of_Z (c_cmd_type c)) as [[]|]; done.
Qed.

(** The path of an entry leads to the entry. *)
Lemma resolve_entry fs p n :
  p <> [] -> FileSys.name n -> resolve fs (entry_path p n) = resolve fs p ++ [n].
Proof.
  intros Hp Hn. unfold entry_path. case_bool_decide as Hl; [|by apply resolve_member].
  destruct (last_snoc_cases p) as [->|(p' & x & ->)]; [done|].
  rewrite last_snoc in Hl. injection Hl as ->.
  destruct (decide (p' = [])) as [->|Hp'].
  - cbn [app]. unfold resolve, absolute. cbn [prefixb app].
    assert (prefixb $"/" ("/"%char :: n) = true /\ prefixb $"/" ["/"%char] = true) as [-> ->] by done.
    change ("/"%char :: n) with ([] ++ "/"%char :: n). rewrite segments_app, foldl_app.
    rewrite (segments_plain n) by apply Hn. cbn [foldl]. by rewrite enter_name.
  - change ["/"%char] with $"/". rewrite <- (assoc_L (++)), resolve_member, resolve_slash by done. done.
Qed.

Lemma entries_spec fs p q d :
  (q, d) ∈ entries fs p <->
  exists n, q = p ++ [n] /\ if d : bool then p ++ [n] ∈ dirs fs else is_Some (files fs !! (p ++ [n])).
Proof.
  unfold entries. rewrite elem_of_app, !list_elem_of_fmap.
  assert (forall q, q <> [] /\ removelast q = p <-> exists n, q = p ++ [n]) as Hq.
  { intros q0. destruct (last_snoc_cases q0) as [->|(l & x & ->)].
    - split; [by intros []|]. intros [n Hn]. by destruct p.
    - rewrite removelast_snoc. split; [intros [_ ->]; eauto|].
      intros [n Hn]. apply app_inj_tail in Hn as [-> _]. split; [by destruct p|done]. }
  split.
  - intros [(q0 & [= -> ->] & H)|(q0 & [= -> ->] & H)];
      apply list_elem_of_filter in H as [H1 H2]; apply Hq in H1 as [n ->]; exists n; split; try done.
    + by apply elem_of_elements, elem_of_dom in H2.
    + by apply elem_of_elements in H2.
  - intros (n & -> & H). destruct d; [right|left]; exists (p ++ [n]); (split; [done|]);
      apply list_elem_of_filter; (split; [apply Hq; eauto|]); apply elem_of_elements; [done|].
    by apply elem_of_dom.
Qed.

Lemma entry_path_inj p a b : entry_path p a = entry_path p b -> a = b.
Proof. unfold entry_path. case_bool_decide; intros E1; by repeat apply (inj (app _)) in E1. Qed.

(** A listing holds the directories and the files with contents. *)
Lemma dir_listing_spec fs p n l :
  p <> [] -> is_directory fs p = true -> getFileInfos fs p = Some l -> FileSys.name n ->
  (exists f, f ∈ l /\ file_path_name f = entry_path p n) <->
  resolve fs p ++ [n] ∈ dirs fs \/ exists b, files fs !! (resolve fs p ++ [n]) = Some b /\ b <> [].
Proof.
  intros Hp Hd Hl Hn. unfold getFileInfos, poco_exists in Hl.
  destruct p as [|x p0]; [done|]. set (p := x :: p0) in *. unfold exists_ in Hl.
  rewrite Hd in Hl. cbn [orb andb] in Hl. injection Hl as <-. split.
  - intros (f & Hf & Hname). apply list_elem_of_omap in Hf as ([q d] & Hq & Hinfo).
    apply entries_spec in Hq as (m & -> & Hm). unfold file_info in Hinfo. cbn [fst snd] in Hinfo.
    rewrite last_snoc in Hinfo. change (default [] (Some m)) with m in Hinfo. destruct d.
    + injection Hinfo as <-. cbn in Hname. apply entry_path_inj in Hname. left. by rewrite <- Hname.
    + destruct (GetFileLength fs (entry_path p m) <=? 0) eqn:El; rewrite ?El in Hinfo; [done|].
      injection Hinfo as <-.
      cbn in Hname. apply entry_path_inj in Hname. rewrite <- Hname. right.
      unfold GetFileLength, read in El. rewrite Hname, resolve_entry in El by done. rewrite Hname in Hm |- *.
      destruct Hm as [b Hb]. rewrite Hb in El. exists b. split; [done|]. by intros ->.
  - intros Hcase.
    assert (exists d, (resolve fs p ++ [n], d) ∈ entries fs (resolve fs p) /\
              file_info fs p (resolve fs p ++ [n], d) <> None) as (d & Hin & Hsome).
    { unfold file_info. cbn [fst snd]. rewrite last_snoc. change (default [] (Some n)) with n.
      destruct Hcase as [Hdir|(b & Hb & Hne)].
      - exists true. split; [|done]. apply entries_spec. by exists n.
      - exists false. split; [apply entries_spec; exists n; split; [done|by eexists]|].
        unfold GetFileLength, read. rewrite resolve_entry, Hb by done.
        destruct b; [done|]. by rewrite (proj2 (Z.leb_gt _ _)) by (cbn [length]; lia). }
    destruct (file_info fs p (resolve fs p ++ [n], d)) as [f|] eqn:Ef; [|done].
    exists f. split; [apply list_elem_of_omap; eauto|].
    unfold file_info in Ef. cbn [fst snd] in Ef. rewrite last_snoc in Ef. change (default [] (Some n)) with n in Ef.
    destruct d; [by injection Ef as <-|]. destruct (_ <=? 0); [done|]. by injection Ef as <-.
Qed.

Lemma list_into_ok w r dir k fs :
  getFileInfos (w_fs w) dir = Some fs -> list_into w r dir k = k (add_results r fs).
Proof. intros E1. unfold list_into. by rewrite E1. Qed.

Lemma getFileInfos_some fs dir : dir <> [] -> exists l, getFileInfos fs dir = Some l.
Proof. intros Hd. unfold getFileInfos, poco_exists. destruct dir; [done|]. by eexists. Qed.

(** ** Properties *)

(** C19. The file worker queues exactly one reply for a command it knows, with
    the command's uuid, addressed to its sender and with its type, unless the
    command is left by an exception, hangs or is undefined; it queues none for
    a command it does not know. *)
Theorem file_one_reply id w c :
  let '(e, w') := process_node_cmd id w c in
  if known (c_cmd_type c) then
    match e with
    | Done => exists r, w_out w' = w_out w ++ [r] /\ r_uuid r = id /\
        r_cmd_reply_uuid r = c_uuid c /\ r_to_node_id r = c_src_node_id c /\
        r_src_node_id r = nodeId /\ r_cmd_type r = c_cmd_type c
    | _ => w_out w' = w_out w
    end
  else e = Done /\ w' = w.
Proof.
  pose proof (process_answers id w c) as Ha. destruct (process_node_cmd id w c) as [e w'].
  destruct (known (c_cmd_type c)); [|by simplify_eq].
  destruct e; cbn in Ha; try done.
  destruct Ha as (r & E1 & ? & ? & ? & ? & ?). exists r. cbn in *. by split_and!.
Qed.

(** [LS] of a directory succeeds and names its sub-directories and those of
    its files that are not empty, and nothing else. *)
Theorem ls_lists id w c :
  cmd_of_Z (c_cmd_type c) = Some LS -> c_paras c <> [] -> is_directory (w_fs w) (c_paras c) = true ->
  exists r, process_node_cmd id w c = reply w r /\ r_status r = SUCCESS /\
  forall n, FileSys.name n ->
    ((exists f, f ∈ r_result r /\ file_path_name f = entry_path (c_paras c) n) <->
     resolve (w_fs w) (c_paras c) ++ [n] ∈ dirs (w_fs w) \/
     exists b, files (w_fs w) !! (resolve (w_fs w) (c_paras c) ++ [n]) = Some b /\ b <> []).
Proof.
  intros Hc Hp Hd. unfold process_node_cmd. rewrite Hc. unfold ls.
  assert (nonempty (c_paras c) = true) as -> by (unfold nonempty; by rewrite bool_decide_false).
  destruct (getFileInfos_some (w_fs w) (c_paras c) Hp) as [l Hl].
  rewrite (list_into_ok _ _ _ _ l Hl). eexists. split; [reflexivity|]. split; [done|].
  intros n Hn. cbn [r_result says set_desc set_status add_results new_reply app].
  by apply dir_listing_spec.
Qed.

(** [MKFILE] does not show the file it makes: the file is there, empty, the
    reply is a success, and the listing in it does not name the file. *)
Theorem mkfile_not_listed id w c d n fs :
  cmd_of_Z (c_cmd_type c) = Some MKFILE -> c_paras c = d ++ $"/" ++ n -> d <> [] -> FileSys.name n ->
  StrUtil.trim (c_paras c) = c_paras c -> exists_ (w_fs w) (c_paras c) = false ->
  write (w_fs w) (c_paras c) [] = Some fs ->
  exists r, process_node_cmd id w c = reply (with_fs w fs) r /\ r_status r = SUCCESS /\
    files fs !! resolve fs (c_paras c) = Some [] /\
    ~ exists f, f ∈ r_result r /\ file_path_name f = entry_path d n.
Proof.
  intros Hc Hp Hd Hn Ht He Hw. unfold process_node_cmd. rewrite Hc. unfold make_file.
  assert (c_paras c <> []) as Hne by (rewrite Hp; by destruct d).
  assert (nonempty (c_paras c) = true) as -> by (unfold nonempty; by rewrite bool_decide_false).
  rewrite Ht. assert (poco_exists (w_fs w) (c_paras c) = Some false) as ->.
  { unfold poco_exists. rewrite He. by destruct (c_paras c). }
  rewrite Hw.
  assert (parent (c_paras c) = d) as Hpar.
  { unfold parent, StrUtil.cutlaststr. rewrite Hp.
    assert (find_last_of $"/" ($"/" ++ n) = Some 0%nat) as Hf.
    { change ($"/" ++ n) with ("/"%char :: n). cbn [find_last_of].
      rewrite (proj2 (find_last_of_none _ _)); [done|]. apply Forall_forall. intros x Hx.
      apply bool_decide_eq_false. change $"/" with ["/"%char].
      intros E1%list_elem_of_singleton. subst x. destruct Hn as [Hn _]. by apply Hn. }
    rewrite (find_last_of_app_some _ _ _ _ Hf), Nat.add_0_r. by rewrite take_app_length. }
  rewrite Hpar. destruct (getFileInfos_some (w_fs (with_fs w fs)) d Hd) as [l Hl].
  rewrite (list_into_ok _ _ _ _ l Hl). eexists. split; [reflexivity|]. split; [done|].
  unfold write, writep in Hw. destruct (_ || _) eqn:Eb; [done|]. injection Hw as <-.
  apply orb_false_iff in Eb as [Ed Ep]. apply negb_false_iff in Ep.
  assert (forall s, resolve (mk (<[resolve (w_fs w) (c_paras c) := []]> (files (w_fs w)))
            (dirs (w_fs w)) (cwd (w_fs w))) s = resolve (w_fs w) s) as Hres.
  { intros s0. by apply resolve_cwd. }
  split; [rewrite Hres; cbn [files]; apply lookup_insert_eq|].
  cbn [r_result says set_desc set_status add_results new_reply app w_fs with_fs] in *.
  assert (resolve (w_fs w) (c_paras c) = resolve (w_fs w) d ++ [n]) as Hr
    by (rewrite Hp; by apply resolve_member).
  rewrite Hr, removelast_snoc in *.
  match type of Hl with getFileInfos ?f _ = _ => rewrite (dir_listing_spec f d n l) end;
    try done; try (unfold is_directory; by rewrite Hres); rewrite Hres; cbn [files dirs].
  - intros [Hin|(b & Hb & Hbn)].
    + unfold is_dirp in Ed. apply orb_false_iff in Ed as [_ Ed].
      by apply bool_decide_eq_false in Ed.
    + rewrite lookup_insert_eq in Hb. by injection Hb as <-.
Qed.

(** [DEL] looks for the trimmed path and deletes the path as it is: given
    the path of a file with blanks around it, it reports a success and deletes
    nothing. *)
Theorem del_untrimmed_keeps_file id w c :
  cmd_of_Z (c_cmd_type c) = Some DEL ->
  StrUtil.trim (c_paras c) <> [] -> exists_ (w_fs w) (StrUtil.trim (c_paras c)) = true ->
  exists_ (w_fs w) (c_paras c) = false -> parent (c_paras c) <> [] ->
  exists r, process_node_cmd id w c = reply w r /\ r_status r = SUCCESS.
Proof.
  intros Hc Ht He Hn Hpar. unfold process_node_cmd. rewrite Hc. unfold delete_file.
  assert (c_paras c <> []) as Hne by (by intros E1; rewrite E1 in Ht).
  assert (nonempty (c_paras c) = true) as -> by (unfold nonempty; by rewrite bool_decide_false).
  assert (poco_exists (w_fs w) (StrUtil.trim (c_paras c)) = Some true) as ->.
  { unfold poco_exists. rewrite He. by destruct (StrUtil.trim (c_paras c)). }
  unfold exists_ in Hn. apply orb_false_iff in Hn as [Hdir Hfile].
  assert (del (w_fs w) (c_paras c) = (true, w_fs w)) as ->.
  { unfold del. rewrite Hdir. unfold remove. unfold is_file in Hfile. rewrite Hfile.
    unfold is_directory, is_dirp in Hdir. apply orb_false_iff in Hdir as [_ Hdir].
    by rewrite Hdir. }
  replace (with_fs w (w_fs w)) with w by (by destruct w).
  destruct (getFileInfos_some (w_fs w) (parent (c_paras c)) Hpar) as [l Hl].
  rewrite (list_into_ok _ _ _ _ l Hl). by eexists.
Qed.

End Worker.
(** ** Examples *)

(** Tools that do nothing. *)
#[export] Instance no_tools : Tools unit := {
  empty_exists := Some false;
  copyTo fs _ _ := None;
  archive _ := None;
  archive_dir _ _ := [];
  unpack fs _ _ := None;
  mtime _ := 0;
  downloadfile t fs _ _ _ := (false, tt, fs);
  uploadfile t fs _ _ _ := (false, tt);
  DeleteObject t _ _ := (false, tt);
  ListObjects t _ := (false, tt);
}.

Definition no_net (e : unit) (d : FileData) : bool * list FileDataReply * unit := (false, [], tt).
Definition demo_cfg : FileTransfer.config := FileTransfer.mkConfig $"n1" $"mgr" 3 1.

(** The directory "d" with a file "d/a" and the file "b". *)
Definition demo_fs : FileSys.t :=
  mk (<[[$"d"; $"a"] := $"x"]> {[ [$"b"] := $"y" ]}) {[ [$"d"] ]} [].
Definition demo_world : world := mkWorld demo_fs tt tt (FileWatcher.mkFactory [] false) [].
Definition file_cmd (ty : Z) (paras : str) : NodeCmd :=
  mkNodeCmd $"c1" $"mgr" $"manager" $"n1" [] ty 0 $"cmd" paras [] [].
Definition demo_process (c : NodeCmd) : ending * world :=
  process_node_cmd no_net demo_cfg $"n1" $"node1" 100 $"r1" demo_world c.

Lemma ls_lists_witness :
  is_directory demo_fs $"d" = true /\
  exists r, demo_process (file_cmd 3 $"d") = reply demo_world r /\ r_status r = SUCCESS.
Proof.
  assert (is_directory demo_fs $"d" = true) as Hd by (vm_compute; reflexivity).
  split; [exact Hd|].
  destruct (ls_lists no_net demo_cfg $"n1" $"node1" 100 $"r1" demo_world (file_cmd 3 $"d")
              eq_refl ltac:(discriminate) Hd) as (r & E1 & E2 & _).
  exists r. split; [exact E1|exact E2].
Defined.

Lemma mkfile_not_listed_witness :
  exists fs r, demo_process (file_cmd 39 $"d/new") = reply (with_fs demo_world fs) r /\
    r_status r = SUCCESS /\ files fs !! [$"d"; $"new"] = Some [].
Proof.
  destruct (mkfile_not_listed no_net demo_cfg $"n1" $"node1" 100 $"r1" demo_world
    (file_cmd 39 $"d/new") $"d" $"new"
    (mk (<[[$"d"; $"new"] := []]> (files demo_fs)) (dirs demo_fs) (cwd demo_fs)))
    as (r & E1 & E2 & E3 & _).
  - reflexivity.
  - reflexivity.
  - discriminate.
  - split_and!; try discriminate. by_decision.
  - vm_compute. reflexivity.
  - vm_compute. reflexivity.
  - vm_compute. reflexivity.
  - eexists _, r. split; [exact E1|]. split; [exact E2|]. exact E3.
Defined.

Lemma del_untrimmed_keeps_file_witness :
  exists_ demo_fs $"b" = true /\
  exists r, demo_process (file_cmd 5 $" b") = reply demo_world r /\ r_status r = SUCCESS.
Proof.
  split; [vm_compute; reflexivity|].
  apply (del_untrimmed_keeps_file no_net demo_cfg $"n1" $"node1" 100 $"r1" demo_world (file_cmd 5 $" b"));
    try (vm_compute; reflexivity); vm_compute; discriminate.
Defined.

End FileCmd.
