(* ===== verification/S3Client.v ===== *)
(** * The S3 client ([src/utils/aws/s3/helper.cpp], [S3Singleton.cpp])

    Every function of the helper makes a request, has a client carry it out, and
    returns whether that succeeded; what it prints is kept. The service behind the
    client is not part of the repository: an interface with the laws that the
    theorems need. The client reports errors in its outcomes; it does not throw. *)

From S2P Require Import Prelude Ini StrUtil FileSys FileSplit ProcStat Messages FileCmd.
Import Ini ProcStat Messages.

(** ** The service *)

Inductive permission := FULL_CONTROL | WRITE | READ | WRITE_ACP | READ_ACP | NOT_SET | OtherPermission.
Inductive grantee_type := AmazonCustomerByEmail | CanonicalUser | Group | TypeNotSet | OtherType.
#[export] Instance permission_eq_dec : EqDecision permission.
Proof. solve_decision. Defined.
#[export] Instance grantee_type_eq_dec : EqDecision grantee_type.
Proof. solve_decision. Defined.

(** What has not been set is [None]. *)
Record grantee := mkGrantee {
  gr_type : option grantee_type;
  gr_display : option str;
  gr_email : option str;
  gr_id : option str;
  gr_uri : option str;
}.
Record grant := mkGrant { gt_grantee : grantee; gt_permission : permission }.

(** The body of an object is [None] where the stream is that of a file that could
    not be opened. *)
Inductive request :=
  | PutObjectRequest (bucket key : str) (body : option str)
  | GetObjectRequest (bucket key : str)
  | CopyObjectRequest (source key bucket : str)
  | DeleteObjectRequest (key bucket : str)
  | DeleteObjectsRequest (keys : list str) (bucket : str)
  | CreateBucketRequest (bucket : str) (location : option str)
  | DeleteBucketRequest (bucket : str)
  | DeleteBucketPolicyRequest (bucket : str)
  | PutBucketPolicyRequest (bucket body : str)
  | GetBucketPolicyRequest (bucket : str)
  | PutBucketWebsiteRequest (bucket index error : str)
  | GetBucketWebsiteRequest (bucket : str)
  | DeleteBucketWebsiteRequest (bucket : str)
  | GetBucketAclRequest (bucket : str)
  | PutBucketAclRequest (bucket owner : str) (grants : list grant)
  | GetObjectAclRequest (bucket key : str)
  | PutObjectAclRequest (bucket key owner : str) (grants : list grant)
  | ListBucketsRequest
  | ListObjectsRequest (bucket : str).

(** What a result holds that is read. *)
Inductive answer :=
  | Empty
  | Body (s : str)
  | Policy (s : str)
  | Website (index error : str)
  | Grants (l : list grant)
  | Names (l : list str).

Inductive outcome := Success (a : answer) | Failure (exception message : str).

(** [Aws::Client::ClientConfiguration], as far as it is set or read. *)
Record configuration := mkConfiguration {
  endpointOverride : str;
  https : bool;
  verifySSL : bool;
  region : str;
}.

(** A client: its configuration and its keys; without keys it looks for some where
    the library does by default. *)
Record client := mkClient { c_config : configuration; c_keys : option (str * str) }.

Class Service (S : Type) := call : client -> request -> S -> outcome * S.

Module S3Client.

(** What is printed: to the log, and to [std::cout] and [std::cerr]. *)
Inductive line := Info (s : str) | Err (s : str) | Out (s : str) | Cerr (s : str).

(** src/utils/aws/s3/helper.h:135-143, [helper]. The client it keeps is made of
    these. *)
Record helper := mkHelper { app_key : str; sercet_key : str; config : configuration }.

(** src/utils/aws/s3/helper.cpp:49-70, [helper::helper]. *)
Definition new_helper (config : configuration) (appKey sercetKey : str) : helper := mkHelper appKey sercetKey config.

(** The client of the helper, and one made of a configuration alone. *)
Definition own (h : helper) : client := mkClient (config h) (Some (app_key h, sercet_key h)).
Definition anonymous (clientConfig : configuration) : client := mkClient clientConfig None.

Section Functions.
Context {S : Type} `{!Service S}.

(** A request, and what is printed of its outcome. *)
Definition ask (cl : client) (r : request) (failed : str -> str -> list line) (done : answer -> list line) (s : S) :
    bool * list line * S :=
  match call cl r s with
  | (Success a, s') => (true, done a, s')
  | (Failure e m, s') => (false, failed e m, s')
  end.

Definition named (what e m : str) : list line := [Err (what ++ e ++ $":" ++ m)].

(** The names, with commas between them. *)
Fixpoint commas (l : list str) : list line :=
  match l with
  | [] => []
  | [x] => [Out x]
  | x :: l' => Out x :: Out $", " :: commas l'
  end.

(** src/utils/aws/s3/helper.cpp:81-122, [helper::DeleteObjects]. *)
Definition DeleteObjects (objectKeys : list str) (fromBucket : str) (clientConfig : configuration) : S -> bool * list line * S :=
  ask (anonymous clientConfig) (DeleteObjectsRequest objectKeys fromBucket)
    (fun e m => [Err ($"Error deleting objects." ++ e ++ $": " ++ m)])
    (fun _ => [Info $"Successfully deleted the objects."] ++ commas objectKeys
              ++ [Info ($" from bucket:" ++ fromBucket ++ $".")]).

(** src/utils/aws/s3/helper.cpp:136-161, [helper::CopyObject]. *)
Definition CopyObject (objectKey fromBucket toBucket : str) (clientConfig : configuration) : S -> bool * list line * S :=
  ask (anonymous clientConfig) (CopyObjectRequest (fromBucket ++ $"/" ++ objectKey) objectKey toBucket)
    (named $"Error: CopyObject: ")
    (fun _ => [Info ($"Successfully copied " ++ objectKey ++ $" from " ++ fromBucket ++ $" to " ++ toBucket ++ $".")]).

(** src/utils/aws/s3/helper.cpp:169-198, [helper::CreateBucket]. *)
Definition CreateBucket (bucketName : str) (clientConfig : configuration) : S -> bool * list line * S :=
  ask (anonymous clientConfig)
    (CreateBucketRequest bucketName
       (if decide (region clientConfig = $"us-east-1") then None else Some (region clientConfig)))
    (named $"Error: CreateBucket: ")
    (fun _ => [Info ($"Created bucket " ++ bucketName ++ $" in the specified AWS Region.")]).

(** src/utils/aws/s3/helper.cpp:207-230, [helper::DeleteBucket]. *)
Definition DeleteBucket (bucketName : str) (clientConfig : configuration) : S -> bool * list line * S :=
  ask (anonymous clientConfig) (DeleteBucketRequest bucketName)
    (named $"Error: DeleteBucket: ") (fun _ => [Info $"The bucket was deleted"]).

(** src/utils/aws/s3/helper.cpp:240-262, [helper::DeleteBucketPolicy]. The client
    is made of that of the helper. *)
Definition DeleteBucketPolicy (h : helper) (bucketName : str) (clientConfig : configuration) : S -> bool * list line * S :=
  ask (own h) (DeleteBucketPolicyRequest bucketName)
    (named $"Error: DeleteBucketPolicy: ") (fun _ => [Info $"Policy was deleted from the bucket."]).

(** src/utils/aws/s3/helper.cpp:273-297, [helper::DeleteObject]. *)
Definition DeleteObject (objectKey fromBucket : str) (clientConfig : configuration) : S -> bool * list line * S :=
  ask (anonymous clientConfig) (DeleteObjectRequest objectKey fromBucket)
    (named $"Error: DeleteObject: ") (fun _ => [Info $"Successfully deleted the object."]).

(** src/utils/aws/s3/helper.cpp:308-347, [helper::PutObject]. *)
Definition PutObject (fs : FileSys.t) (bucketName fileName : str) (clientConfig : configuration) (s : S) :
    bool * list line * S :=
  match FileSys.read fs fileName with
  | None => (false, [Err ($"Error unable to read file " ++ fileName)], s)
  | Some inputData =>
      ask (anonymous clientConfig) (PutObjectRequest bucketName fileName (Some inputData))
        (fun _ m => [Err ($"Error: PutObject: " ++ m)])
        (fun _ => [Info ($"Added object '" ++ fileName ++ $"' to bucket '" ++ bucketName ++ $"'.")]) s
  end.

(** A request that is carried out later, with the id of its context. *)
Definition queued : Type := request * str.

(** src/utils/aws/s3/helper.cpp:389-421, [helper::PutObjectAsync]. What is returned
    and what is queued. *)
Definition PutObjectAsync (fs : FileSys.t) (bucketName fileName : str) : bool * list line * option queued :=
  match FileSys.read fs fileName with
  | None => (false, [Err ($"Error: unable to open file " ++ fileName)], None)
  | Some input_data => (true, [], Some (PutObjectRequest bucketName fileName (Some input_data), fileName))
  end.

(** src/utils/aws/s3/helper.cpp:359-376, [helper::PutObjectAsyncFinished]. Who waits
    is woken. *)
Definition PutObjectAsyncFinished (o : outcome) (uuid : str) : list line :=
  match o with
  | Success _ => [Info ($"Success: PutObjectAsyncFinished: Finished uploading '" ++ uuid ++ $"'.")]
  | Failure _ m => [Err ($"Error: PutObjectAsyncFinished: " ++ m)]
  end.

(** A string as a C string. *)
Fixpoint c_str (s : str) : str :=
  match s with
  | [] => []
  | c :: s' => if decide (c = Ascii.zero) then [] else c :: c_str s'
  end.

(** src/utils/aws/s3/helper.cpp:433-463, [helper::PutObjectBuffer]. *)
Definition PutObjectBuffer (bucketName objectName objectContent : str) (clientConfig : configuration) :
    S -> bool * list line * S :=
  ask (anonymous clientConfig) (PutObjectRequest bucketName objectName (Some (c_str objectContent)))
    (fun _ m => [Err ($"Error: PutObjectBuffer: " ++ m)])
    (fun _ => [Info ($"Success: Object '" ++ objectName ++ $"' with content '" ++ objectContent
                     ++ $"' uploaded to bucket '" ++ bucketName ++ $"'.")]).

(** src/utils/aws/s3/helper.cpp:475-509, [helper::PutWebsiteConfig]. *)
Definition PutWebsiteConfig (bucketName indexPage errorPage : str) (clientConfig : configuration) :
    S -> bool * list line * S :=
  ask (anonymous clientConfig) (PutBucketWebsiteRequest bucketName indexPage errorPage)
    (fun _ m => [Err ($"Error: PutBucketWebsite: " ++ m)])
    (fun _ => [Info ($"Success: Set website configuration for bucket '" ++ bucketName ++ $"'.")]).

(** src/utils/aws/s3/helper.cpp:520-541, [helper::DeleteBucketWebsite]. *)
Definition DeleteBucketWebsite (bucketName : str) (clientConfig : configuration) : S -> bool * list line * S :=
  ask (anonymous clientConfig) (DeleteBucketWebsiteRequest bucketName)
    (named $"Error: DeleteBucketWebsite: ") (fun _ => [Info $"Website configuration was removed."]).

(** src/utils/aws/s3/helper.cpp:1092-1104, [helper::SetGranteePermission]. *)
Definition SetGranteePermission (access : str) : permission :=
  if decide (access = $"FULL_CONTROL") then FULL_CONTROL
  else if decide (access = $"WRITE") then WRITE
  else if decide (access = $"READ") then READ
  else if decide (access = $"WRITE_ACP") then WRITE_ACP
  else if decide (access = $"READ_ACP") then READ_ACP
  else NOT_SET.

(** src/utils/aws/s3/helper.cpp:1112-1120, [helper::SetGranteeType]. *)
Definition SetGranteeType (type : str) : grantee_type :=
  if decide (type = $"Amazon customer by email") then AmazonCustomerByEmail
  else if decide (type = $"Canonical user") then CanonicalUser
  else if decide (type = $"Group") then Group
  else TypeNotSet.

(** src/utils/aws/s3/helper.cpp:1128-1141, [helper::GetGranteeTypeString]. *)
Definition GetGranteeTypeString (type : grantee_type) : str :=
  match type with
  | AmazonCustomerByEmail => $"Email address of an AWS account"
  | CanonicalUser => $"Canonical user ID of an AWS account"
  | Group => $"Predefined Amazon S3 group"
  | TypeNotSet => $"Not set"
  | OtherType => $"Type unknown"
  end.

(** src/utils/aws/s3/helper.cpp:1149-1170, [helper::GetPermissionString]. *)
Definition GetPermissionString (permission : permission) : str :=
  match permission with
  | FULL_CONTROL => $"Can list objects in this bucket, create/overwrite/delete objects in this bucket, and read/write this bucket's permissions"
  | NOT_SET => $"Permission not set"
  | READ => $"Can list objects in this bucket"
  | READ_ACP => $"Can read this bucket's permissions"
  | WRITE => $"Can create, overwrite, and delete objects in this bucket"
  | WRITE_ACP => $"Can write this bucket's permissions"
  | OtherPermission => $"Permission unknown"
  end.

(** What is said of what has been set. *)
Definition if_set (what : str) (o : option str) : list line :=
  match o with Some x => [Info (what ++ x)] | None => [] end.

(** src/utils/aws/s3/helper.cpp:545-611, [helper::GetBucketAcl]. *)
Definition GetBucketAcl (bucketName : str) (clientConfig : configuration) : S -> bool * list line * S :=
  ask (anonymous clientConfig) (GetBucketAclRequest bucketName) (named $"Error: GetBucketAcl: ")
    (fun a => match a with
              | Grants grants => concat (map (fun g =>
                  [Info ($"For bucket " ++ bucketName)]
                  ++ if_set $"Type:" (GetGranteeTypeString <$> gr_type (gt_grantee g))
                  ++ if_set $"Display name: " (gr_display (gt_grantee g))
                  ++ if_set $"Email address: " (gr_email (gt_grantee g))
                  ++ if_set $"ID:" (gr_id (gt_grantee g))
                  ++ if_set $"URI:" (gr_uri (gt_grantee g))
                  ++ [Info ($" Permission: " ++ GetPermissionString (gt_permission g))]) grants)
              | _ => []
              end).

(** src/utils/aws/s3/helper.cpp:621-650, [helper::GetBucketPolicy]. Of the policy
    the first word is read. *)
Definition GetBucketPolicy (bucketName : str) (clientConfig : configuration) : S -> bool * list line * S :=
  ask (anonymous clientConfig) (GetBucketPolicyRequest bucketName) (named $"Error: GetBucketPolicy: ")
    (fun a => match a with
              | Policy p => [Info ($"Retrieve the policy for bucket '" ++ bucketName ++ $"':" ++ (word (lskip p)).1)]
              | _ => []
              end).

(** src/utils/aws/s3/helper.cpp:661-686, [helper::GetObject]. *)
Definition GetObject (objectKey fromBucket : str) (clientConfig : configuration) : S -> bool * list line * S :=
  ask (anonymous clientConfig) (GetObjectRequest fromBucket objectKey) (named $"Error: GetObject: ")
    (fun _ => [Info ($"Successfully retrieved '" ++ objectKey ++ $"' from '" ++ fromBucket ++ $"'.")]).

(** src/utils/aws/s3/helper.cpp:697-731, [helper::GetWebsiteConfig]. *)
Definition GetWebsiteConfig (bucketName : str) (clientConfig : configuration) : S -> bool * list line * S :=
  ask (anonymous clientConfig) (GetBucketWebsiteRequest bucketName)
    (fun _ m => [Err ($"Error: GetBucketWebsite: " ++ m)])
    (fun a => match a with
              | Website index error =>
                  [Info ($"Success: GetBucketWebsite: For bucket '" ++ bucketName ++ $"' Index page :" ++ index
                         ++ $" Error page:" ++ error)]
              | _ => []
              end).

(** [std::endl] behind each. *)
Definition names_of (a : answer) : list str := match a with Names l => l | _ => [] end.
Definition printed (l : list str) : list line := map (fun x => Out (x ++ [newline])) l.

(** src/utils/aws/s3/helper.cpp:740-760, [helper::ListBuckets]. An error is printed
    by the library. *)
Definition ListBuckets (show_error : str -> str -> str) (clientConfig : configuration) : S -> bool * list line * S :=
  ask (anonymous clientConfig) ListBucketsRequest
    (fun e m => [Cerr ($"Failed with error: " ++ show_error e m ++ [newline])])
    (fun a => Info ($"Found " ++ to_strz (Z.of_nat (length (names_of a))) ++ $" buckets") :: printed (names_of a)).

(** src/utils/aws/s3/helper.cpp:770-794, [helper::ListObjects]. *)
Definition ListObjects (bucketName : str) (clientConfig : configuration) : S -> bool * list line * S :=
  ask (anonymous clientConfig) (ListObjectsRequest bucketName)
    (fun _ m => [Err ($"Error: ListObjects: " ++ m)]) (fun a => printed (names_of a)).

(** What is set unless it is empty. *)
Definition unless_empty (s : str) : option str := match s with [] => None | _ => Some s end.

(** src/utils/aws/s3/helper.cpp:812-850, [helper::PutBucketAcl]. The one grant. *)
Definition one_grant (granteePermission granteeType granteeID granteeDisplayName granteeEmailAddress granteeURI : str) :
    list grant :=
  [mkGrant (mkGrantee (Some (SetGranteeType granteeType)) (unless_empty granteeDisplayName)
              (unless_empty granteeEmailAddress) (unless_empty granteeID) (unless_empty granteeURI))
     (SetGranteePermission granteePermission)].

(** src/utils/aws/s3/helper.cpp:812-877, [helper::PutBucketAcl]. *)
Definition PutBucketAcl (bucketName ownerID granteePermission granteeType granteeID : str) (clientConfig : configuration)
    (granteeDisplayName granteeEmailAddress granteeURI : str) : S -> bool * list line * S :=
  ask (anonymous clientConfig)
    (PutBucketAclRequest bucketName ownerID
       (one_grant granteePermission granteeType granteeID granteeDisplayName granteeEmailAddress granteeURI))
    (fun e m => [Err ($"Error: PutBucketAcl: " ++ e ++ $" - " ++ m)])
    (fun _ => [Info ($"Successfully added an ACL to the bucket '" ++ bucketName ++ $"'.")]).

(** src/utils/aws/s3/helper.cpp:888-917, [helper::PutBucketPolicy]. *)
Definition PutBucketPolicy (bucketName policyBody : str) (clientConfig : configuration) : S -> bool * list line * S :=
  ask (anonymous clientConfig) (PutBucketPolicyRequest bucketName policyBody)
    (fun _ m => [Err ($"Error: PutBucketPolicy: " ++ m)])
    (fun _ => [Info ($"Set the following policy body for the bucket '" ++ bucketName ++ $"':" ++ policyBody)]).

(** src/utils/aws/s3/helper.cpp:928-996, [helper::GetObjectAcl]. *)
Definition GetObjectAcl (bucketName objectKey : str) (clientConfig : configuration) : S -> bool * list line * S :=
  ask (anonymous clientConfig) (GetObjectAclRequest bucketName objectKey) (named $"Error: GetObjectAcl: ")
    (fun a => match a with
              | Grants grants => concat (map (fun g =>
                  [Info ($"For object: " ++ objectKey)]
                  ++ if_set $"Type:" (GetGranteeTypeString <$> gr_type (gt_grantee g))
                  ++ if_set $"Display name:" (gr_display (gt_grantee g))
                  ++ if_set $"Email address: " (gr_email (gt_grantee g))
                  ++ if_set $"ID: " (gr_id (gt_grantee g))
                  ++ if_set $"URI:" (gr_uri (gt_grantee g))
                  ++ [Info ($"Permission: " ++ GetPermissionString (gt_permission g))]) grants)
              | _ => []
              end).

(** src/utils/aws/s3/helper.cpp:1018-1084, [helper::PutObjectAcl]. *)
Definition PutObjectAcl (bucketName objectKey ownerID granteePermission granteeType granteeID : str)
    (clientConfig : configuration) (granteeDisplayName granteeEmailAddress granteeURI : str) : S -> bool * list line * S :=
  ask (anonymous clientConfig)
    (PutObjectAclRequest bucketName objectKey ownerID
       (one_grant granteePermission granteeType granteeID granteeDisplayName granteeEmailAddress granteeURI))
    (fun e m => [Err ($"Error: PutObjectAcl: " ++ e ++ $"-" ++ m)])
    (fun _ => [Info ($"Successfully added an ACL to the object '" ++ objectKey ++ $"' in the bucket '" ++ bucketName ++ $"'.")]).

(** src/utils/aws/s3/helper.cpp:1172-1196, [helper::uploadfile]. Whether the file
    could be opened is not asked. *)
Definition uploadfile (h : helper) (fs : FileSys.t) (BucketName objectKey pathkey : str) : S -> bool * list line * S :=
  ask (own h) (PutObjectRequest (c_str BucketName) (c_str objectKey) (FileSys.read fs (c_str pathkey)))
    (fun e m => [Err ($"PutObject error: " ++ e ++ $" " ++ m ++ $" with  BucketName:" ++ BucketName
                      ++ $",objectKey:" ++ objectKey)])
    (fun _ => [Info ($"Put S3 file susscess: BucketName:" ++ BucketName ++ $",objectKey:" ++ objectKey)]).

(** src/utils/aws/s3/helper.cpp:1197-1223, [helper::downloadfile]. Whether the file
    could be opened is not asked. *)
Definition downloadfile (h : helper) (fs : FileSys.t) (BucketName objectKey pathkey : str) (s : S) :
    bool * list line * S * FileSys.t :=
  match call (own h) (GetObjectRequest (c_str BucketName) (c_str objectKey)) s with
  | (Success a, s') =>
      let body := match a with Body b => b | _ => [] end in
      (true, [Info ($"Get S3 file susscess: BucketName:" ++ BucketName ++ $",objectKey:" ++ objectKey)], s',
       default fs (FileSys.write fs (c_str pathkey) body))
  | (Failure e m, s') => (false, [Info ($"GetObject error: " ++ e ++ $" " ++ m)], s', fs)
  end.

End Functions.

(** ** The one helper of the program *)

(** What the pointer to the helper points to. *)
Inductive pointer := Unset | Live (h : helper) | Deleted.

(** src/utils/aws/s3/S3Singleton.h:8-46, [S3Singleton]. *)
Record S3Singleton := mkSingleton { hasInit : bool; s3_helper_ : pointer }.

Definition new_S3Singleton : S3Singleton := mkSingleton false Unset.

(** src/utils/aws/s3/S3Singleton.cpp:4-24, [S3Singleton::init]. *)
Definition init (st : S3Singleton) (default_region endpointUrl accessKey secretKey : str) : bool * S3Singleton :=
  if hasInit st then (true, st)
  else
    let cfg := mkConfiguration endpointUrl false false default_region in
    (true, mkSingleton true (Live (new_helper cfg accessKey secretKey))).

(** src/utils/aws/s3/S3Singleton.cpp:26-37, [S3Singleton::uinit]. [None]: the helper
    is deleted a second time. *)
Definition uinit (st : S3Singleton) : option S3Singleton :=
  if hasInit st then
    match s3_helper_ st with
    | Live _ => Some (mkSingleton (hasInit st) Deleted)
    | _ => None
    end
  else Some st.

(** ** The commands of a node *)

Section Tools.
Context {S : Type} `{!Service S}.

(** What the file commands ask of the helper, with its own configuration; the rest of the tools as they are. *)
Definition s3_tools (h : helper) (base : Tools unit) : Tools S := {|
  empty_exists := @empty_exists unit base;
  copyTo := @copyTo unit base;
  archive := @archive unit base;
  archive_dir := @archive_dir unit base;
  unpack := @unpack unit base;
  mtime := @mtime unit base;
  FileCmd.downloadfile s fs b k p := let '(ok, _, s', fs') := downloadfile h fs b k p s in (ok, s', fs');
  FileCmd.uploadfile s fs b k p := let '(ok, _, s') := uploadfile h fs b k p s in (ok, s');
  FileCmd.DeleteObject s k b := let '(ok, _, s') := DeleteObject k b (config h) s in (ok, s');
  FileCmd.ListObjects s b := let '(ok, _, s') := ListObjects b (config h) s in (ok, s');
|}.

End Tools.

(** ** What the service promises *)

(** The objects of the service: an object that was put is there, the others are as
    they were; what is got is the object, and nothing changes. *)
Class StoreLaws (S : Type) `{!Service S} := {
  objects : S -> str -> str -> option str;
  put_stored : forall cl b k d s a s', call cl (PutObjectRequest b k (Some d)) s = (Success a, s') ->
    objects s' b k = Some d
    /\ forall b' k', (b', k') <> (b, k) -> objects s' b' k' = objects s b' k';
  get_answers : forall cl b k s a s', call cl (GetObjectRequest b k) s = (Success a, s') ->
    (exists d, objects s b k = Some d /\ a = Body d) /\ forall b' k', objects s' b' k' = objects s b' k';
}.

Lemma write_read fs p d fs' : FileSys.write fs p d = Some fs' -> FileSys.read fs' p = Some d.
Proof.
  unfold FileSys.write, FileSys.writep, FileSys.read. destruct (_ || _); [done|]. intros [= <-].
  rewrite (FileSys.resolve_cwd _ fs) by done. cbn. by rewrite lookup_insert_eq.
Qed.

(** A command was answered with success. *)
Definition succeeded {T E} (w : FileCmd.world (T := T) (E := E)) (res : FileCmd.ending * FileCmd.world (T := T) (E := E)) : Prop :=
  exists a, FileCmd.w_out res.2 = FileCmd.w_out w ++ [a] /\ r_status a = SUCCESS.

Section Commands.
Context {S E : Type} `{!Service S} `{!StoreLaws S} (h : helper) (base : Tools unit).
Notation world := (FileCmd.world (T := S) (E := E)).

Definition bucket_of (c : NodeCmd) : str := c_str (StrUtil.cutFisrtLeftStr (c_cmd c) $"/").
Definition key_of (c : NodeCmd) : str := c_str (StrUtil.cutFisrtRightstr (c_cmd c) $"/").

Lemma failed_reply (w w' : world) r :
  FileCmd.w_out w' = FileCmd.w_out w -> r_status r <> SUCCESS -> ~ succeeded w (FileCmd.reply w' r).
Proof.
  intros Ew Hr (a & Ha & Hs). cbn in Ha. rewrite Ew in Ha. apply app_inj_tail in Ha as [_ <-]. done.
Qed.

Lemma not_answered (w w' : world) e : FileCmd.w_out w' = FileCmd.w_out w -> ~ succeeded w (e, w').
Proof.
  intros Ew (a & Ha & _). cbn in Ha. rewrite Ew in Ha. apply (f_equal length) in Ha. rewrite length_app in Ha. simpl in Ha. lia.
Qed.

Lemma list_into_world (P : world -> Prop) (w : world) r dir k :
  P w -> (forall r', P (k r').2) -> P (@FileCmd.list_into S E (s3_tools h base) w r dir k).2.
Proof. intros Hw Hk. unfold FileCmd.list_into. destruct (FileCmd.getFileInfos _ _); [apply Hk|done]. Qed.

Definition put (id name : str) : world -> NodeCmd -> NodeCmdReply -> FileCmd.ending * world :=
  @FileCmd.put_s3 S E (s3_tools h base) id name.
Definition get (id name : str) : world -> NodeCmd -> NodeCmdReply -> FileCmd.ending * world :=
  @FileCmd.get_s3 S E (s3_tools h base) id name.

(** Success is answered only if the service has taken the object. *)
Lemma put_success id name w c r :
  r_status r <> SUCCESS -> succeeded w (put id name w c r) ->
  exists a, call (own h) (PutObjectRequest (bucket_of c) (key_of c) (FileSys.read (FileCmd.w_fs w) (c_str (c_paras c))))
              (FileCmd.w_s3 w) = (Success a, FileCmd.w_s3 (put id name w c r).2).
Proof.
  intros Hr Hs. unfold put, FileCmd.put_s3 in *. destruct (_ && _); [|by apply failed_reply in Hs].
  cbn [FileCmd.uploadfile s3_tools] in *. unfold uploadfile, ask in *. fold (bucket_of c) (key_of c) in *.
  destruct (call _ _ _) as [[a|e m] s']; [|by apply failed_reply in Hs].
  exists a. do 2 f_equal. symmetry. by apply (list_into_world (fun w' => FileCmd.w_s3 w' = s')).
Qed.

(** And only if it has given the object out. *)
Lemma get_success id name w c r :
  r_status r <> SUCCESS -> succeeded w (get id name w c r) ->
  exists a fs s', call (own h) (GetObjectRequest (bucket_of c) (key_of c)) (FileCmd.w_s3 w) = (Success a, s')
    /\ (fs = FileCmd.w_fs w \/ FileSplit.mkdir (FileCmd.w_fs w) (FileCmd.parent (StrUtil.formatPath (c_paras c))) = Some fs)
    /\ let body := match a with Body b => b | _ => [] end in
       FileCmd.w_fs (get id name w c r).2 = default fs (FileSys.write fs (c_str (c_paras c)) body).
Proof.
  intros Hr Hs. unfold get, FileCmd.get_s3 in *. destruct (_ && _); [|by apply failed_reply in Hs].
  destruct (FileCmd.poco_exists _ _) as [found|]; [|by apply not_answered in Hs].
  destruct (if found then _ else _) as [fs|] eqn:Ef; [|by apply not_answered in Hs].
  cbn [FileCmd.downloadfile s3_tools] in *. unfold downloadfile in *. fold (bucket_of c) (key_of c) in *.
  destruct (call _ _ _) as [[a|e m] s']; [|by apply failed_reply in Hs].
  exists a, fs, s'. split; [done|]. split; [destruct found; [left; congruence|by right]|].
  by apply (list_into_world (fun w' => FileCmd.w_fs w' = _)).
Qed.

(** C32. A file that one node puts into the store and another gets is the same
    file: if both commands are answered with success, the file could be read on the
    one and can be written on the other node, and the object was not changed
    meanwhile, then the other node has it with the same content. *)
Theorem s3_moves_file id1 name1 id2 name2 w1 c1 r1 w2 c2 r2 d
  (Hr1 : r_status r1 <> SUCCESS) (Hr2 : r_status r2 <> SUCCESS) (Hc : c_cmd c2 = c_cmd c1)
  (Hput : succeeded w1 (put id1 name1 w1 c1 r1))
  (Hread : FileSys.read (FileCmd.w_fs w1) (c_str (c_paras c1)) = Some d)
  (Hkept : objects (FileCmd.w_s3 w2) (bucket_of c1) (key_of c1)
           = objects (FileCmd.w_s3 (put id1 name1 w1 c1 r1).2) (bucket_of c1) (key_of c1))
  (Hget : succeeded w2 (get id2 name2 w2 c2 r2))
  (Hwrite : forall fs, fs = FileCmd.w_fs w2
              \/ FileSplit.mkdir (FileCmd.w_fs w2) (FileCmd.parent (StrUtil.formatPath (c_paras c2))) = Some fs ->
            is_Some (FileSys.write fs (c_str (c_paras c2)) d)) :
  FileSys.read (FileCmd.w_fs (get id2 name2 w2 c2 r2).2) (c_str (c_paras c2)) = Some d.
Proof.
  destruct (put_success id1 name1 w1 c1 r1 Hr1 Hput) as [a1 H1]. rewrite Hread in H1.
  destruct (put_stored _ _ _ _ _ _ _ H1) as [Ho _].
  destruct (get_success id2 name2 w2 c2 r2 Hr2 Hget) as (a2 & fs & s' & H2 & Hfs & Hw). cbv zeta in Hw.
  assert (bucket_of c2 = bucket_of c1 /\ key_of c2 = key_of c1) as [Eb Ek] by (unfold bucket_of, key_of; by rewrite Hc).
  destruct (get_answers _ _ _ _ _ _ H2) as [(d' & Hd & ->) _]. rewrite Eb, Ek, Hkept, Ho in Hd. injection Hd as <-.
  rewrite Hw. destruct (Hwrite fs Hfs) as [fs' Hfs']. rewrite Hfs'. cbn [default]. by apply (write_read fs).
Qed.

(** The command that deletes an object and the one that lists them ask with a
    client that has no keys: a service that wants keys refuses both, though it
    accepts those of the helper. *)
Theorem delete_without_keys (s : S) key bucket e m s'
  (Hk : forall r, call (anonymous (config h)) r s = (Failure e m, s')) :
  DeleteObject key bucket (config h) s = (false, named $"Error: DeleteObject: " e m, s')
  /\ ListObjects bucket (config h) s = (false, [Err ($"Error: ListObjects: " ++ m)], s').
Proof. unfold DeleteObject, ListObjects, ask. by rewrite !Hk. Qed.

End Commands.

(** A small service: keys it accepts, and objects. *)
Record store := mkStore { accepted : list (str * str); objs : gmap (str * str) str }.
#[export] Instance small_service : Service store := fun cl r s =>
  if bool_decide (c_keys cl ∈ map Some (accepted s)) then
    match r with
    | PutObjectRequest b k (Some d) => (Success Empty, mkStore (accepted s) (<[(b, k) := d]> (objs s)))
    | GetObjectRequest b k =>
        match objs s !! (b, k) with
        | Some d => (Success (Body d), s)
        | None => (Failure $"NoSuchKey" $"The specified key does not exist.", s)
        end
    | DeleteObjectRequest k b => (Success Empty, mkStore (accepted s) (delete (b, k) (objs s)))
    | _ => (Failure $"NotImplemented" [], s)
    end
  else (Failure $"AccessDenied" $"Access Denied.", s).

#[export] Program Instance small_laws : StoreLaws store := {| objects s b k := objs s !! (b, k) |}.
Next Obligation.
  intros cl b k d s a s'. unfold call, small_service. destruct (bool_decide _); [|done]. intros [= _ <-]. cbn.
  split; [apply lookup_insert_eq|]. intros b' k' Hne. by apply lookup_insert_ne.
Qed.
Next Obligation.
  intros cl b k s a s'. unfold call, small_service. destruct (bool_decide _); [|done].
  destruct (objs s !! (b, k)) as [d|] eqn:E; [|done]. intros [= <- <-]. eauto.
Qed.

Definition our_helper : helper := new_helper (mkConfiguration $"10.4.1.241:31239" false false []) $"key" $"secret".
Definition our_store : store := mkStore [($"key", $"secret")] ∅.
Definition at_node (st : store) : FileCmd.world (T := store) (E := unit) :=
  FileCmd.mkWorld FileCmd.demo_fs tt st (FileWatcher.FileWatcher.mkFactory [] false) [].
Definition s3_cmd (paras : str) : NodeCmd := mkNodeCmd $"c1" $"mgr" $"manager" $"n1" [] 0 0 $"backup/logs/x" paras [] [].
Definition no_reply : NodeCmdReply := mkNodeCmdReply [] [] [] [] [] [] 0 INVALID [] [] [].
Definition after_put := (put our_helper FileCmd.no_tools $"n1" $"edge" (at_node our_store) (s3_cmd $"d/a") no_reply).2.

Lemma s3_moves_file_witness :
  FileSys.read (FileCmd.w_fs (get our_helper FileCmd.no_tools $"n2" $"edge2" (at_node (FileCmd.w_s3 after_put))
    (s3_cmd $"d/copy") no_reply).2) $"d/copy" = Some $"x".
Proof.
  apply (s3_moves_file our_helper FileCmd.no_tools $"n1" $"edge" $"n2" $"edge2" (at_node our_store) (s3_cmd $"d/a") no_reply
    (at_node (FileCmd.w_s3 after_put)) (s3_cmd $"d/copy") no_reply $"x").
  - done.
  - done.
  - reflexivity.
  - eexists. split; vm_compute; reflexivity.
  - vm_compute. reflexivity.
  - reflexivity.
  - eexists. split; vm_compute; reflexivity.
  - intros fs [->|H]; [eexists; vm_compute; reflexivity|].
    vm_compute in H. injection H as <-. eexists. vm_compute. reflexivity.
Defined.

Lemma delete_without_keys_witness :
  (DeleteObject $"x" $"backup" (config our_helper) our_store).1.1 = false
  /\ (ListObjects $"backup" (config our_helper) our_store).1.1 = false.
Proof.
  destruct (delete_without_keys our_helper our_store $"x" $"backup" $"AccessDenied" $"Access Denied." our_store) as [-> ->];
    [|done]. intros r. vm_compute. reflexivity.
Defined.

(** The permissions that can be named, and what is said of a kind of grantee is
    none of the names it is set with. *)
Theorem permission_named access p :
  p <> NOT_SET ->
  SetGranteePermission access = p <->
  (access, p) ∈ [($"FULL_CONTROL", FULL_CONTROL); ($"WRITE", WRITE); ($"READ", READ); ($"WRITE_ACP", WRITE_ACP);
                 ($"READ_ACP", READ_ACP)].
Proof.
  intros Hp. unfold SetGranteePermission. split.
  - intros <-. repeat case_decide; subst; try (by repeat constructor).
  - rewrite !elem_of_cons, elem_of_nil. intuition; simplify_eq; reflexivity.
Qed.

Lemma permission_named_witness : SetGranteePermission $"WRITE" = WRITE.
Proof. apply (permission_named $"WRITE" WRITE); [done|]. right. left. Defined.

Theorem grantee_strings_differ t : SetGranteeType (GetGranteeTypeString t) = TypeNotSet.
Proof. by destruct t. Qed.

(** ** The one helper *)

(** The helper is made once; later settings are ignored. *)
Theorem init_once st r e a k r' e' a' k' :
  let '(_, st1) := init st r e a k in init st1 r' e' a' k' = (true, st1).
Proof. unfold init. destruct (hasInit st) eqn:E; [by rewrite E|done]. Qed.

(** After it was deleted it is said to be there still: the next use is one of a
    deleted object, and to delete it again is undefined. *)
Theorem deleted_stays_initialised st r e a k r' e' a' k' :
  hasInit st = false ->
  exists st1, uinit (init st r e a k).2 = Some st1 /\ init st1 r' e' a' k' = (true, st1)
    /\ s3_helper_ st1 = Deleted /\ uinit st1 = None.
Proof. intros H. unfold init. rewrite H. eexists. split; [reflexivity|]. done. Qed.

Lemma deleted_stays_initialised_witness :
  exists st1, uinit (init new_S3Singleton [] $"10.4.1.241:31239" $"a" $"k").2 = Some st1
    /\ init st1 [] $"10.4.1.241:31239" $"a" $"k" = (true, st1) /\ s3_helper_ st1 = Deleted /\ uinit st1 = None.
Proof. by apply deleted_stays_initialised. Defined.

End S3Client.
