(* ===== verification/Node.v ===== *)
(** * A node: the queues and the two workers together

    [NodeCmdTopic] sorts the commands of the bus into the file queue and the
    main queue; [FileTopic] and [NodeCmdWorker] take them from there. What the
    two workers promise is an interface, [Responder], which both implement; the
    node's theorems use nothing else of them. *)

From S2P Require Import Prelude Messages NodeCmd ProcessManager Exec Podman Worker FileTransfer FileCmd.
Import Messages.

(** How a worker's turn ends: the next command; an exception that the loop
    catches; the worker queues its reply, sleeps and then calls [exit]; it waits
    for ever; or the behaviour is undefined. *)
Inductive verdict := Handled | Threw | Exits | Stuck | Undefined.

Definition replied (v : verdict) : bool :=
  match v with Handled | Exits => true | _ => false end.

(** A worker: it handles a command, with a fresh uuid for the reply. *)
Class Responder (W : Type) := {
  respond : str -> W -> NodeCmd -> verdict * W;
  replies : W -> list NodeCmdReply;
  accepts : NodeCmd -> bool;
  respond_one id w c : accepts c = true -> replied (fst (respond id w c)) = true ->
    exists r, replies (snd (respond id w c)) = replies w ++ [r] /\ r_uuid r = id /\
      r_cmd_reply_uuid r = c_uuid c /\ r_to_node_id r = c_src_node_id c /\ r_cmd_type r = c_cmd_type c;
  respond_none id w c : accepts c = false \/ replied (fst (respond id w c)) = false ->
    replies (snd (respond id w c)) = replies w;
}.

#[local] Obligation Tactic := idtac.

Section Main.
Context {O X F P J : Type} `{OsO : Os O, ShX : !Exec.Shell X, FwF : !Framework F, HoP : !Podman.Host P J}.
Context (path_exists : O -> str -> option bool) (stringify : list str -> str)
  (stringify_procs : list (str * bool) -> str) (no_child : Z) (isRunning : Z -> bool)
  (windows : bool) (nodeId nodeName podmanBaseUrl : str) (now : Z).

(** src/node/src/NodeCmdWorker.cpp:213-826, [NodeCmdWorker::worker]. What a case of
    the switch is for the node: a [RESTART] (224-242) sleeps 5 s after its reply and
    ends the process. *)
Definition main_respond (id : str) (w : Worker.world) (c : NodeCmd) : verdict * Worker.world :=
    match Worker.dispatch (O := O) (X := X) (F := F) (P := P) (J := J) path_exists stringify
            stringify_procs no_child isRunning windows nodeId nodeName podmanBaseUrl now id w c with
    | (Worker.Next, w') => (Handled, w')
    | (Worker.Thrown, w') => (Threw, w')
    | (Worker.Exited, w') => (Exits, w')
    | (Worker.Undefined, w') => (Undefined, w')
    end.

Program Definition main_responder : Responder Worker.world := {|
  respond := main_respond;
  replies := Worker.w_replies;
  accepts c := negb (Worker.silent c);
|}.
Next Obligation.
  intros id w c Ha. unfold main_respond in *. apply negb_true_iff in Ha.
  pose proof (Worker.dispatch_answers path_exists stringify stringify_procs no_child isRunning
    windows nodeId nodeName podmanBaseUrl now id w c) as Hd. rewrite Ha in Hd.
  destruct (Worker.dispatch _ _ _ _ _ _ _ _ _ _ _ _ _) as [[] w']; cbn in *; try done;
    intros _; destruct Hd as (r & E & ? & ? & ? & ? & ? & ? & ?); exists r; by split_and!.
Qed.
Next Obligation.
  intros id w c Ha. unfold main_respond in *.
  pose proof (Worker.dispatch_answers path_exists stringify stringify_procs no_child isRunning
    windows nodeId nodeName podmanBaseUrl now id w c) as Hd.
  destruct (Worker.silent c); [by rewrite Hd|]. destruct Ha as [Ha|Ha]; [done|].
  by destruct (Worker.dispatch _ _ _ _ _ _ _ _ _ _ _ _ _) as [[] w']; cbn in *.
Qed.

End Main.

Section File.
Context {T E : Type} `{TT : !Tools T}.
Context (net : E -> FileData -> bool * list FileDataReply * E) (cfg : FileTransfer.config)
  (nodeId nodeName : str) (fuel : nat).

(** src/node/src/FileTopic.cpp:144-150, [FileTopic::writer_worker]. The file worker. *)
Definition file_respond (id : str) (w : FileCmd.world) (c : NodeCmd) : verdict * FileCmd.world :=
    match FileCmd.process_node_cmd (T := T) (E := E) net cfg nodeId nodeName fuel id w c with
    | (FileCmd.Done, w') => (Handled, w')
    | (FileCmd.Thrown, w') => (Threw, w')
    | (FileCmd.Hangs, w') => (Stuck, w')
    | (FileCmd.Undefined, w') => (Undefined, w')
    end.

Program Definition file_responder : Responder FileCmd.world := {|
  respond := file_respond;
  replies := FileCmd.w_out;
  accepts c := FileCmd.known (c_cmd_type c);
|}.
Next Obligation.
  intros id w c Ha. unfold file_respond in *.
  pose proof (FileCmd.process_answers net cfg nodeId nodeName fuel id w c) as Hd. rewrite Ha in Hd.
  destruct (FileCmd.process_node_cmd _ _ _ _ _ _ _ _) as [[] w']; cbn in *; try done.
  intros _. destruct Hd as (r & E1 & ? & ? & ? & ? & ?). exists r. by split_and!.
Qed.
Next Obligation.
  intros id w c Ha. unfold file_respond in *.
  pose proof (FileCmd.process_answers net cfg nodeId nodeName fuel id w c) as Hd.
  destruct (FileCmd.known (c_cmd_type c)); [|by rewrite Hd].
  destruct Ha as [Ha|Ha]; [done|].
  by destruct (FileCmd.process_node_cmd _ _ _ _ _ _ _ _) as [[] w']; cbn in *.
Qed.

End File.

Module Node.
Section Node.
Context {M W : Type} (main : Responder M) (file : Responder W).

(** The process is there, and its two workers take commands. *)
Record life := mkLife { up : bool; main_takes : bool; file_takes : bool }.

Definition all_up : life := mkLife true true true.

(** The workers, the messages in the queues, and what runs. *)
Record node := mkNode {
  n_main : M; n_file : W; n_queues : NodeCmdTopic.queues; n_life : life }.

(** The steps of a node: a command arrives, a worker takes one; or the process
    ends, as it does 5 s after a [RESTART] and at any time for any other reason. *)
Inductive event := Arrive (c : NodeCmd) | TakeMain (id : str) | TakeFile (id : str) | Ends.

(** What runs after a turn of a worker. Of a process whose behaviour is undefined
    nothing more is said. *)
Definition after_main (v : verdict) (l : life) : life :=
  match v with
  | Handled | Threw => l
  | Exits | Stuck => mkLife (up l) false (file_takes l)
  | Undefined => mkLife false (main_takes l) (file_takes l)
  end.
Definition after_file (v : verdict) (l : life) : life :=
  match v with
  | Handled | Threw => l
  | Exits | Stuck => mkLife (up l) (main_takes l) false
  | Undefined => mkLife false (main_takes l) (file_takes l)
  end.

(** src/node/src/NodeCmdTopic.cpp:205-246, [NodeCmdTopic::handle_cmd]. With
    [NodeCmdWorker::worker] and [FileTopic::writer_worker] taking from the
    queues. To a process that has ended nothing happens. *)
Definition step (nodeId : str) (s : node) (e : event) : node :=
  if negb (up (n_life s)) then s
  else match e with
  | Arrive c =>
      mkNode (n_main s) (n_file s) (NodeCmdTopic.handle_cmd true nodeId c (n_queues s)) (n_life s)
  | TakeMain id =>
      match NodeCmdTopic.mainCmdQueueIn_ (n_queues s) with
      | c :: q =>
          if main_takes (n_life s) then
            let '(v, w) := respond (Responder := main) id (n_main s) c in
            mkNode w (n_file s) (NodeCmdTopic.mkQueues (NodeCmdTopic.fileDataQueueIn_ (n_queues s)) q)
              (after_main v (n_life s))
          else s
      | [] => s
      end
  | TakeFile id =>
      match NodeCmdTopic.fileDataQueueIn_ (n_queues s) with
      | c :: q =>
          if file_takes (n_life s) then
            let '(v, w) := respond (Responder := file) id (n_file s) c in
            mkNode (n_main s) w (NodeCmdTopic.mkQueues q (NodeCmdTopic.mainCmdQueueIn_ (n_queues s)))
              (after_file v (n_life s))
          else s
      | [] => s
      end
  | Ends => mkNode (n_main s) (n_file s) (n_queues s)
              (mkLife false (main_takes (n_life s)) (file_takes (n_life s)))
  end.

Definition run (nodeId : str) (s : node) (es : list event) : node := foldl (step nodeId) s es.

(** The uuids of the commands a node has answered. *)
Definition answered (s : node) : list str :=
  map r_cmd_reply_uuid (replies (Responder := main) (n_main s) ++ replies (Responder := file) (n_file s)).
(** Those waiting. *)
Definition waiting (s : node) : list str :=
  map c_uuid (NodeCmdTopic.mainCmdQueueIn_ (n_queues s) ++ NodeCmdTopic.fileDataQueueIn_ (n_queues s)).
(** Those that arrived for the node. *)
Definition arrived (nodeId : str) (es : list event) : list str :=
  omap (fun e => match e with
                 | Arrive c => if decide (nodeId = c_to_node_id c) then Some (c_uuid c) else None
                 | _ => None
                 end) es.

(** A command that a worker knows and never fails on, and after which it goes on. *)
Definition good {A} (R : Responder A) (c : NodeCmd) : Prop :=
  accepts (Responder := R) c = true /\
  forall id w, fst (respond (Responder := R) id w c) = Handled.

Lemma respond_at_most_one {A} (R : Responder A) id w c :
  exists l, replies (Responder := R) (snd (respond (Responder := R) id w c))
            = replies (Responder := R) w ++ l /\
    (map r_cmd_reply_uuid l = [] /\ ~ good R c \/ map r_cmd_reply_uuid l = [c_uuid c]).
Proof.
  destruct (accepts (Responder := R) c) eqn:Ea;
    [destruct (replied (fst (respond (Responder := R) id w c))) eqn:Er|].
  - destruct (respond_one (Responder := R) id w c Ea Er) as (r & -> & _ & Hr & _).
    exists [r]. split; [done|]. right. cbn. by rewrite Hr.
  - exists []. rewrite (respond_none (Responder := R) id w c (or_intror Er)), app_nil_r.
    split; [done|left]. split; [done|]. intros [_ Hg]. by rewrite Hg in Er.
  - exists []. rewrite (respond_none (Responder := R) id w c (or_introl Ea)), app_nil_r.
    split; [done|left]. split; [done|]. intros [Hg _]. by rewrite Hg in Ea.
Qed.

(** The process is there, and its workers are good for the commands that wait. *)
Definition all_good (s : node) : Prop :=
  up (n_life s) = true /\
  Forall (good main) (NodeCmdTopic.mainCmdQueueIn_ (n_queues s)) /\
  Forall (good file) (NodeCmdTopic.fileDataQueueIn_ (n_queues s)).
Definition good_event (nodeId : str) (e : event) : Prop :=
  match e with
  | Arrive c => nodeId = c_to_node_id c ->
      if NodeCmdTopic.to_file_queue (c_cmd_type c) then good file c else good main c
  | Ends => False
  | _ => True
  end.

Lemma arrived_arrive nodeId c :
  arrived nodeId [Arrive c] = if decide (nodeId = c_to_node_id c) then [c_uuid c] else [].
Proof. unfold arrived. cbn. by case_decide. Qed.

(** What a step does: a command that arrives waits; one that is taken is
    answered at most once. *)
Lemma step_spec nodeId s e :
  exists gone, answered s ++ waiting s ++ arrived nodeId [e]
               ≡ₚ gone ++ answered (step nodeId s e) ++ waiting (step nodeId s e) /\
    (all_good s -> gone = []).
Proof.
  unfold step. destruct (up (n_life s)) eqn:Eup; cbn [negb].
  2:{ exists (arrived nodeId [e]). split; [|by intros [? _]; congruence].
      rewrite (assoc_L (++)). apply Permutation_app_comm. }
  destruct e as [c|id|id|]; try (change (arrived nodeId _) with (@nil str); rewrite app_nil_r).
  - exists []. split; [|done]. rewrite arrived_arrive. cbn [app]. unfold answered, waiting.
    cbn [n_main n_file n_queues]. unfold NodeCmdTopic.handle_cmd. cbn [andb].
    case_decide as Hd; [rewrite bool_decide_true by done|rewrite bool_decide_false, app_nil_r by done; reflexivity].
    f_equiv. destruct (NodeCmdTopic.to_file_queue _);
      cbn [NodeCmdTopic.fileDataQueueIn_ NodeCmdTopic.mainCmdQueueIn_]; rewrite !map_app; cbn [map].
    + by rewrite (assoc_L (++)).
    + rewrite <- !(assoc_L (++)). f_equiv. apply Permutation_app_comm.
  - destruct (NodeCmdTopic.mainCmdQueueIn_ (n_queues s)) as [|c q] eqn:Eq; [by exists []|].
    destruct (main_takes _); [|by exists []].
    pose proof (respond_at_most_one main id (n_main s) c) as Hr.
    destruct (respond id (n_main s) c) as [v w]. cbn [snd] in Hr.
    unfold answered, waiting. rewrite Eq. cbn [n_main n_file n_queues NodeCmdTopic.fileDataQueueIn_ NodeCmdTopic.mainCmdQueueIn_].
    destruct Hr as (l & -> & [[Hl Hg]|Hl]);
      rewrite !map_app, Hl; [exists [c_uuid c]|exists []]; cbn [map app]; rewrite ?app_nil_r;
      (split; [|intros (_ & Hg1 & Hg2); first [done | exfalso; apply Hg; rewrite Eq in Hg1; by apply Forall_cons in Hg1 as [? _]]]).
    + symmetry. cbn [app]. apply Permutation_middle.
    + rewrite <- !(assoc_L (++)). apply Permutation_app_head. symmetry. cbn [app]. apply Permutation_middle.
  - destruct (NodeCmdTopic.fileDataQueueIn_ (n_queues s)) as [|c q] eqn:Eq; [by exists []|].
    destruct (file_takes _); [|by exists []].
    pose proof (respond_at_most_one file id (n_file s) c) as Hr.
    destruct (respond id (n_file s) c) as [v w]. cbn [snd] in Hr.
    unfold answered, waiting. rewrite Eq. cbn [n_main n_file n_queues NodeCmdTopic.fileDataQueueIn_ NodeCmdTopic.mainCmdQueueIn_].
    destruct Hr as (l & -> & [[Hl Hg]|Hl]);
      rewrite !map_app, Hl; [exists [c_uuid c]|exists []]; cbn [map app]; rewrite ?app_nil_r;
      (split; [|intros (_ & Hg1 & Hg2); first [done | exfalso; apply Hg; rewrite Eq in Hg2; by apply Forall_cons in Hg2 as [? _]]]).
    + rewrite !(assoc_L (++)). symmetry. cbn [app]. apply Permutation_middle.
    + rewrite <- !(assoc_L (++)). do 2 apply Permutation_app_head. symmetry. cbn [app]. apply Permutation_middle.
  - by exists [].
Qed.

Lemma step_good nodeId s e : all_good s -> good_event nodeId e -> all_good (step nodeId s e).
Proof.
  intros (Hu & Hm & Hf) He. unfold step. rewrite Hu. cbn [negb].
  destruct e as [c|id|id|]; [| | |done].
  - unfold all_good. cbn [n_queues n_life]. split; [done|]. unfold NodeCmdTopic.handle_cmd. cbn [andb].
    case_bool_decide as Hd; [|done]. cbn in He. specialize (He Hd).
    destruct (NodeCmdTopic.to_file_queue _); (split; [|]); cbn; try done;
      apply Forall_app; split; try done; by apply Forall_singleton.
  - destruct (NodeCmdTopic.mainCmdQueueIn_ (n_queues s)) as [|c q] eqn:Eq;
      [by split_and!; rewrite ?Eq|]. destruct (main_takes _); [|split_and!; rewrite ?Eq; done].
    apply Forall_cons in Hm as [[_ Hg] Hm]. specialize (Hg id (n_main s)).
    destruct (respond _ _ _) as [v w]. cbn in Hg. subst v. by split_and!.
  - destruct (NodeCmdTopic.fileDataQueueIn_ (n_queues s)) as [|c q] eqn:Eq;
      [by split_and!; rewrite ?Eq|]. destruct (file_takes _); [|split_and!; rewrite ?Eq; done].
    apply Forall_cons in Hf as [[_ Hg] Hf]. specialize (Hg id (n_file s)).
    destruct (respond _ _ _) as [v w]. cbn in Hg. subst v. by split_and!.
Qed.

Lemma run_snoc nodeId s es e : run nodeId s (es ++ [e]) = step nodeId (run nodeId s es) e.
Proof. unfold run. by rewrite foldl_app. Qed.

(** ** Properties *)

(** C5. Whatever arrives and in whatever order the workers run, a node answers
    a command at most once and only commands addressed to it: the commands that
    arrived for it are those for which a reply was queued, those that wait (or
    waited when the process ended, as it does after a [RESTART]), and those gone
    without a reply. None is gone as long as the process runs and its workers are
    good for the commands they get: they know them, neither throw nor hang on
    them, and do not end the process. *)
Theorem answered_at_most_once nodeId s es :
  exists gone,
    answered s ++ waiting s ++ arrived nodeId es
    ≡ₚ gone ++ answered (run nodeId s es) ++ waiting (run nodeId s es) /\
    (all_good s -> Forall (good_event nodeId) es -> gone = []).
Proof.
  enough (exists gone,
    answered s ++ waiting s ++ arrived nodeId es
    ≡ₚ gone ++ answered (run nodeId s es) ++ waiting (run nodeId s es) /\
    (all_good s -> Forall (good_event nodeId) es -> gone = [] /\ all_good (run nodeId s es))) as (g & H1 & H2).
  { exists g. split; [done|]. intros. by apply H2. }
  induction es as [|e es IH] using rev_ind.
  - exists []. cbn. by rewrite app_nil_r.
  - destruct IH as (gone & IH & Hgood). rewrite run_snoc.
    destruct (step_spec nodeId (run nodeId s es) e) as (gone' & Hs & Hg').
    exists (gone ++ gone'). split.
    + unfold arrived in *. rewrite omap_app, !(assoc_L (++)).
      rewrite !(assoc_L (++)) in IH, Hs. rewrite IH, <- !(assoc_L (++)). apply Permutation_app_head.
      rewrite (assoc_L (++)). by rewrite Hs, <- ?(assoc_L (++)).
    + intros Hall Hes. apply Forall_app in Hes as [Hes He].
      rewrite Forall_singleton in He.
      destruct (Hgood Hall Hes) as [-> Hr]. rewrite (Hg' Hr). split; [done|].
      by apply step_good.
Qed.

End Node.

(** ** Which commands are answered *)

(** The queue a command goes to and the worker that knows it agree, but for
    two: [LSS3BUCKETS] goes to the file worker, which does not know it, and
    [LSS3DIR], which the file worker knows, goes to the main worker. *)
Theorem queue_matches_worker z :
  NodeCmdTopic.to_file_queue z = FileCmd.known z <-> z <> 22 /\ z <> 23.
Proof.
  unfold NodeCmdTopic.to_file_queue, FileCmd.known.
  destruct (cmd_of_Z z) as [c|] eqn:Ec.
  - apply Z_of_cmd_of_Z in Ec as <-. by destruct c; vm_compute; split; intros; try split; try done;
      naive_solver.
  - split; [|done]. intros _. split; by intros ->.
Qed.

(** ** An example *)

#[local] Existing Instance ProcessManager.toy_os.
#[local] Existing Instance Exec.toy_shell.
#[local] Existing Instance Podman.broken_host.
#[local] Existing Instance Worker.no_framework.
#[local] Existing Instance FileCmd.no_tools.

Definition demo_main : Responder Worker.world :=
  main_responder (O := ProcessManager.toy) (X := Z) (F := unit) (P := unit) (J := str)
    (fun _ path => Some false) (fun l => concat l) (fun l => concat (map fst l)) (-1) (fun _ => true)
    false $"n1" $"node 1" $"http://h" 100.
Definition demo_file : Responder FileCmd.world :=
  file_responder (T := unit) (E := unit) FileCmd.no_net FileCmd.demo_cfg $"n1" $"node1" 100.
Definition demo_node : node :=
  mkNode (Worker.toy_world [] []) FileCmd.demo_world (NodeCmdTopic.mkQueues [] []) all_up.

(** A listing of "d" arrives, and an unknown command; both are taken. Then a
    [RESTART] and a command of the same turn: the [RESTART] is answered, the other
    waits for ever, and what comes after the end of the process is gone. *)
Definition demo_events : list event :=
  [Arrive (FileCmd.file_cmd 3 $"d"); TakeMain $"r1"; Arrive (Worker.app_cmd 77 $"what");
   TakeFile $"r2"; TakeMain $"r3"].
Definition restart_events : list event :=
  [Arrive (Worker.app_cmd 2 $"RESTART"); Arrive (Worker.app_cmd 77 $"what"); TakeMain $"r4";
   TakeMain $"r5"; Ends; Arrive (Worker.app_cmd 77 $"late"); TakeMain $"r6"].

Lemma restart_ends_answers :
  let s := run demo_main demo_file $"n1" demo_node restart_events in
  length (answered demo_main demo_file s) = 1%nat /\ length (waiting s) = 1%nat /\ up (n_life s) = false.
Proof. vm_compute. by split_and!. Qed.

Lemma known_good : good demo_main (Worker.app_cmd 77 $"what") /\ good demo_file (FileCmd.file_cmd (Z_of_cmd LSS3WATCH) []).
Proof. split; (split; [vm_compute; reflexivity|]); intros id w; vm_compute; reflexivity. Qed.

(** Two commands on which no worker fails: none is gone. *)
Definition good_events : list event :=
  [Arrive (FileCmd.file_cmd (Z_of_cmd LSS3WATCH) []); TakeMain $"r1"; Arrive (Worker.app_cmd 77 $"what"); TakeFile $"r2"].

Lemma answered_at_most_once_witness :
  let s := run demo_main demo_file $"n1" demo_node good_events in
  answered demo_main demo_file demo_node ++ waiting demo_node ++ arrived $"n1" good_events
  ≡ₚ answered demo_main demo_file s ++ waiting s.
Proof.
  intros s.
  destruct (answered_at_most_once demo_main demo_file $"n1" demo_node good_events) as (gone & H & Hg).
  rewrite (Hg ltac:(by split_and!; [reflexivity|constructor..])) in H; [exact H|].
  destruct known_good as [H1 H2].
  repeat apply Forall_cons_2; [intros _; exact H2|exact I|intros _; exact H1|exact I|constructor].
Defined.

End Node.
