(* ===== verification/Proto.v ===== *)
(** * Protobuf messages

    The messages of the camera application and of the machine state have some
    hundred types with some thousand fields; the handlers only read them,
    through the generated getters. A message is therefore its fields by name,
    the name being that of the getter, and the getters are those of proto3: a
    field that is not set reads as zero, the empty text, the empty message or
    the empty list; [has_x()] is [has m "x"]. *)

From Stdlib Require Import SpecFloat.
From S2P Require Import Prelude.

Module Proto.

Inductive msg :=
  | Msg (fields : list (string * value))
with value :=
  | VInt (z : Z)            (* integers, booleans and enumerations *)
  | VText (s : str)
  | VReal (d : spec_float)
  | VSub (m : msg)
  | VRep (l : list msg)
  | VInts (l : list Z).

Definition fields (m : msg) : list (string * value) := match m with Msg fs => fs end.

Fixpoint lookup_field (f : string) (fs : list (string * value)) : option value :=
  match fs with
  | [] => None
  | (g, v) :: fs' => if String.eqb f g then Some v else lookup_field f fs'
  end.

Definition get (m : msg) (f : string) : option value := lookup_field f (fields m).

Definition int (m : msg) (f : string) : Z :=
  match get m f with Some (VInt z) => z | _ => 0 end.
Definition text (m : msg) (f : string) : str :=
  match get m f with Some (VText s) => s | _ => [] end.
Definition real (m : msg) (f : string) : spec_float :=
  match get m f with Some (VReal d) => d | _ => S754_zero false end.
Definition sub (m : msg) (f : string) : msg :=
  match get m f with Some (VSub x) => x | _ => Msg [] end.
Definition rep (m : msg) (f : string) : list msg :=
  match get m f with Some (VRep l) => l | _ => [] end.
Definition ints (m : msg) (f : string) : list Z :=
  match get m f with Some (VInts l) => l | _ => [] end.
Definition has (m : msg) (f : string) : bool :=
  match get m f with Some (VSub _) => true | _ => false end.

(** [m.a().b()]. *)
Infix "~>" := sub (at level 15, left associativity) : sadip_scope.

(** What a local variable set to [0] or [""] holds behind
    [if (c) x = e;]. *)
Definition opt_int (c : bool) (z : Z) : Z := if c then z else 0.
Definition opt_text (c : bool) (s : str) : str := if c then s else [].

(** Every text in a message has at most [n] chars. *)
Fixpoint short (n : nat) (m : msg) : bool :=
  match m with Msg fs => forallb (fun kv => short_value n kv.2) fs end
with short_value (n : nat) (v : value) : bool :=
  match v with
  | VText s => (length s <=? n)%nat
  | VSub m => short n m
  | VRep l => forallb (short n) l
  | _ => true
  end.

(** ** Lemmas *)

Lemma get_short n m f v : short n m = true -> get m f = Some v -> short_value n v = true.
Proof.
  destruct m as [fs]. unfold get. simpl. induction fs as [|[g w] fs IH]; simpl; [done|].
  intros [Hw Hfs]%andb_true_iff. destruct (String.eqb f g); [by intros [= <-]|by apply IH].
Qed.

Lemma short_sub n m f : short n m = true -> short n (m ~> f) = true.
Proof.
  intros H. unfold sub. destruct (get m f) as [[]|] eqn:E; try done. by eapply get_short in E.
Qed.

Lemma short_rep n m f x : short n m = true -> x ∈ rep m f -> short n x = true.
Proof.
  intros H. unfold rep.
  destruct (get m f) as [[]|] eqn:E; try (by intros Hx%not_elem_of_nil).
  apply (get_short n) in E; [|done]. simpl in E. rewrite forallb_forall in E.
  intros Hx. by apply E, list_elem_of_In.
Qed.

Lemma short_text n m f : short n m = true -> (length (text m f) <= n)%nat.
Proof.
  intros H. unfold text. destruct (get m f) as [[]|] eqn:E; simpl; try lia.
  apply (get_short n) in E; [|done]. by apply Nat.leb_le.
Qed.

End Proto.
