(* ===== verification/Insert.v ===== *)
(** * Handlers that write rows

    The handlers of [src/cam-app/src/DataInsert.cpp] and of the topics of the
    node turn a message into statements for the data base: they draw ids, print
    rows into fixed buffers, collect the rows of a table in a string and execute
    it. [excuteSql] reports a failure by its result, which is only logged, so
    what a handler does is the list of the statements it executes. It stops
    where C++ leaves the rest undefined. *)

From S2P Require Import Prelude SnowFlake Printf Proto.
Import Printf Proto.

(** A source of ids; [None]: the call does not return. *)
Class Gen (E : Type) := next_id : E -> option (Z * E).

#[export] Instance snowflake_gen : Gen (SnowFlake.t * list SnowFlake.timeval) := fun '(s, clk) =>
  match SnowFlake.nextId s clk with
  | SnowFlake.Id id s' clk' => Some (id, (s', clk'))
  | _ => None
  end.

Module Insert.

(** Why a handler does not get to its end: arguments that do not fit their
    format, a text that is longer than its buffer, an index that is out of
    range, no id, more turns of a loop than it was given. *)
Inductive stop := BadFormat | Overrun | OutOfRange | NoId | Endless.
#[export] Instance stop_eq_dec : EqDecision stop.
Proof. solve_decision. Defined.

Section Monad.
Context {E : Type} `{!Gen E}.

Record st := mkSt { gen : E; sqls : list str }.

Definition M (A : Type) : Type := st -> (A + stop) * st.

#[export] Instance M_ret : MRet M := fun A a s => (inl a, s).
#[export] Instance M_bind : MBind M := fun A B f m s =>
  match m s with
  | (inl a, s') => f a s'
  | (inr e, s') => (inr e, s')
  end.

Definition stopped {A} (e : stop) : M A := fun s => (inr e, s).

(** [g_sf->nextId()]. *)
Definition next : M Z := fun s =>
  match next_id (gen s) with
  | Some (id, g) => (inl id, mkSt g (sqls s))
  | None => (inr NoId, s)
  end.

(** [db->excuteSql(sql)]. *)
Definition excute (sql : str) : M () := fun s => (inl (), mkSt (gen s) (sqls s ++ [sql])).

(** [sprintf] into a buffer of [size] bytes. *)
Definition sprintf (size : Z) (fmt : str) (args : list arg) : M str :=
  match format fmt args with
  | None => stopped BadFormat
  | Some s => if Z.of_nat (length s) <? size then mret s else stopped Overrun
  end.

(** The literal of a format, line by line. *)
Definition lines (ls : list string) : str := concat (map list_ascii_of_string ls).

(** [list(i)], a repeated field read by index. *)
Definition nth_msg (l : list msg) (i : nat) : M msg :=
  match l !! i with Some x => mret x | None => stopped OutOfRange end.

(** [for (int i = 0; i < list_size(); i++)], with the string the loop adds
    to. *)
Fixpoint for_from {A} (i : nat) (l : list msg) (f : nat -> msg -> A -> M A) (a : A) : M A :=
  match l with
  | [] => mret a
  | x :: l' => a' ← f i x a; for_from (S i) l' f a'
  end.
Definition for_ {A} (l : list msg) (f : nat -> msg -> A -> M A) (a : A) : M A := for_from 0 l f a.

(** [while (cond) body], at most [turns] times. *)
Fixpoint while_ {X} (turns : nat) (cond : X -> M bool) (body : X -> M X) (x : X) : M X :=
  c ← cond x;
  if (c : bool) then
    match turns with
    | O => stopped Endless
    | S turns' => x' ← body x; while_ turns' cond body x'
    end
  else mret x.

Definition when_ (c : bool) (m : M ()) : M () := if c then m else mret ().

(** src/cam-app/src/DataInsert.cpp:240-255, [DataInsert::camInsert]. A row:
    before the first one, the head of the statement. The same lines for every
    table. *)
Definition row (i : nat) (size : Z) (header fmt : str) (args : list arg) (acc : str) : M str :=
  acc' ← (if (i =? 0)%nat then h ← sprintf size header []; mret (acc ++ h) else mret acc);
  r ← sprintf size fmt args;
  mret (acc' ++ r).

(** src/cam-app/src/DataInsert.cpp:258-261, [DataInsert::camInsert]. The last
    char of the rows becomes a semicolon. *)
Definition close (acc : str) : str :=
  if (0 <? length acc)%nat then removelast acc ++ $";" else acc.

(** src/cam-app/src/DataInsert.cpp:258-271, [DataInsert::camInsert]. The end of
    a table. The same lines for every table. *)
Definition flush (acc : str) : M () :=
  let acc' := close acc in
  if (10 <? length acc')%nat then excute acc' else mret ().

(** A table whose rows all come from one list. *)
Definition table (l : list msg) (f : nat -> msg -> str -> M str) : M () :=
  acc ← for_ l f []; flush acc.

End Monad.

Arguments M E A : clear implicits.
Arguments st E : clear implicits.

(** ** What can stop a handler *)

Section Stops.
Context {E : Type} `{!Gen E}.

(** [m] returns something in [Q] or stops for a reason in [P]. *)
Definition ends {A} (P : stop -> Prop) (Q : A -> Prop) (m : M E A) : Prop :=
  forall s, match fst (m s) with inl a => Q a | inr e => P e end.

(** [m] stops, if at all, for a reason in [P]. *)
Definition stops_only {A} (P : stop -> Prop) (m : M E A) : Prop := ends P (fun _ => True) m.

Context (P : stop -> Prop).

Lemma ends_ret {A} (Q : A -> Prop) (a : A) : Q a -> ends P Q (mret a).
Proof. by intros H s. Qed.

Lemma ends_bind {A B} (R : A -> Prop) (Q : B -> Prop) (m : M E A) (f : A -> M E B) :
  ends P R m -> (forall a, R a -> ends P Q (f a)) -> ends P Q (m ≫= f).
Proof.
  intros Hm Hf s. cbv [mbind M_bind]. specialize (Hm s).
  destruct (m s) as [[a|e'] s']; simpl in *; [by apply Hf|done].
Qed.

Lemma ends_then {A B} (Q : B -> Prop) (m : M E A) (f : A -> M E B) :
  stops_only P m -> (forall a, ends P Q (f a)) -> ends P Q (m ≫= f).
Proof. intros Hm Hf. apply (ends_bind (fun _ => True)); auto. Qed.

Lemma ends_weaken {A} (Q R : A -> Prop) (m : M E A) :
  (forall a, Q a -> R a) -> ends P Q m -> ends P R m.
Proof. intros HQ Hm s. specialize (Hm s). destruct (fst (m s)); auto. Qed.

Lemma ends_stopped {A} (Q : A -> Prop) e : P e -> ends P Q (@stopped E A e).
Proof. by intros HP s. Qed.

Lemma ends_nth l i : P OutOfRange -> ends P (fun x => l !! i = Some x) (nth_msg l i).
Proof.
  intros HP. unfold nth_msg. destruct (l !! i); [by apply ends_ret|by apply ends_stopped].
Qed.

(** A loop whose measure falls ends within its turns: [Go] is what the test
    says when it holds, [Exit] when it does not. *)
Lemma ends_while {X} (Inv Go Exit : X -> Prop) (mu : X -> nat) cond body :
  (forall x, Inv x ->
    ends P (fun c : bool => if c then Go x /\ (0 < mu x)%nat else Exit x) (cond x)) ->
  (forall x, Inv x -> Go x -> ends P (fun x' => Inv x' /\ (mu x' < mu x)%nat) (body x)) ->
  forall turns x, Inv x -> (mu x <= turns)%nat ->
  ends P (fun x' => Inv x' /\ Exit x') (while_ turns cond body x).
Proof.
  intros Hc Hb turns. induction turns as [|turns IH]; intros x Hx Hmu; simpl.
  all: eapply ends_bind; [by apply Hc|]; intros [] Hpos; [|by apply ends_ret].
  - lia.
  - eapply ends_bind; [by apply Hb, Hpos|]. intros x' [Hx' Hlt]. apply IH; [done|lia].
Qed.

(** A list may be read at [i]. *)
Definition readable (l : list msg) (i : nat) : Prop := P OutOfRange \/ (i < length l)%nat.

Lemma ends_read l i : readable l i -> ends P (fun x => l !! i = Some x) (nth_msg l i).
Proof.
  intros [?|[x Hx]%lookup_lt_is_Some]; [by apply ends_nth|].
  unfold nth_msg. rewrite Hx. by apply ends_ret.
Qed.

Lemma stops_ret {A} (a : A) : stops_only P (mret a).
Proof. by apply ends_ret. Qed.

Lemma stops_bind {A B} (m : M E A) (f : A -> M E B) :
  stops_only P m -> (forall a, stops_only P (f a)) -> stops_only P (m ≫= f).
Proof. apply ends_then. Qed.

(** There is an id, or it may be missing. *)
Definition ids : Prop := P NoId \/ forall g : E, next_id g <> None.

Lemma stops_next : ids -> stops_only P next.
Proof. intros [HP|HP] s; unfold next; try specialize (HP (gen s)); by destruct (next_id _) as [[id g]|]. Qed.

Lemma stops_excute sql : stops_only P (excute sql).
Proof. by intros s. Qed.

Lemma stops_stopped {A} e : P e -> stops_only P (@stopped E A e).
Proof. apply ends_stopped. Qed.

Lemma stops_nth l i : P OutOfRange -> stops_only P (nth_msg l i).
Proof. intros HP. eapply ends_weaken; [|by apply ends_nth]. done. Qed.

Lemma stops_when c m : stops_only P m -> stops_only P (when_ c m).
Proof. destruct c; [done|intros; apply stops_ret]. Qed.

Lemma stops_if {A} (c : bool) (m1 m2 : M E A) :
  stops_only P m1 -> stops_only P m2 -> stops_only P (if c then m1 else m2).
Proof. by destruct c. Qed.

Lemma stops_for {A} l (f : nat -> msg -> A -> M E A) a :
  (forall i x a, x ∈ l -> stops_only P (f i x a)) -> stops_only P (for_ l f a).
Proof.
  unfold for_. generalize 0%nat. revert a. induction l as [|x l IH]; intros a i H; simpl.
  - apply stops_ret.
  - apply stops_bind; [apply H; set_solver|]. intros a'. apply IH. intros; apply H; set_solver.
Qed.

Lemma ends_for {A} (Inv : A -> Prop) l (f : nat -> msg -> A -> M E A) a :
  (forall i x a, x ∈ l -> Inv a -> ends P Inv (f i x a)) -> Inv a -> ends P Inv (for_ l f a).
Proof.
  unfold for_. generalize 0%nat. revert a. induction l as [|x l IH]; intros a i H Ha; simpl.
  - by apply ends_ret.
  - eapply ends_bind; [apply H; [set_solver|done]|]. intros a'. apply IH.
    intros; apply H; [set_solver|done].
Qed.

(** Texts are at most [n] chars long, or overrunning a buffer is allowed. *)
Context (n : nat).

Definition fine (x : msg) : Prop := P Overrun \/ short n x = true.
Definition arg_fine (a : arg) : Prop := P Overrun \/ arg_short n a.

Lemma fine_sub x f : fine x -> fine (x ~> f).
Proof. intros [?|?]; [by left|right]. by apply short_sub. Qed.

Lemma fine_rep x f y : fine x -> y ∈ rep x f -> fine y.
Proof. intros [?|?] ?; [by left|right]. by eapply short_rep. Qed.

Lemma arg_fine_text x f : fine x -> arg_fine (Printf.P (text x f)).
Proof. intros [?|?]; [by left|right]. by apply short_text. Qed.

Lemma arg_fine_opt c s : arg_fine (Printf.P s) -> arg_fine (Printf.P (opt_text c s)).
Proof. intros [?|?]; [by left|right]. destruct c; simpl in *; [done|lia]. Qed.

Lemma arg_fine_int z : arg_fine (D z) /\ arg_fine (L z).
Proof. split; by right. Qed.

Lemma args_short args : Forall arg_fine args -> P Overrun \/ Forall (arg_short n) args.
Proof. induction 1 as [|a args [?|?] _ [?|?]]; auto. Qed.

Lemma stops_sprintf size fmt args :
  fits fmt (map class_of args) = true -> Z.of_nat (bound n fmt) < size ->
  Forall arg_fine args -> stops_only P (sprintf size fmt args).
Proof.
  intros Hf Hb Ha. unfold sprintf. destruct (format_fits _ _ Hf) as [s Hs]. rewrite Hs.
  destruct (Z.ltb_spec (Z.of_nat (length s)) size); [apply stops_ret|].
  apply stops_stopped.
  destruct (args_short args Ha) as [HP|Hsh]; [done|].
  pose proof (format_length n _ _ _ Hsh Hs). lia.
Qed.

Lemma sprintf_fits size fmt args s :
  fits fmt (map class_of args) = true -> Z.of_nat (bound n fmt) < size ->
  Forall (arg_short n) args -> exists sql, @sprintf E size fmt args s = (inl sql, s).
Proof.
  intros Hf Hb Ha. unfold sprintf. destruct (format_fits _ _ Hf) as [t Ht]. rewrite Ht.
  pose proof (format_length n _ _ _ Ha Ht).
  destruct (Z.ltb_spec (Z.of_nat (length t)) size); [by exists t|lia].
Qed.

Lemma stops_sprintf_any size fmt args :
  P Overrun -> fits fmt (map class_of args) = true -> stops_only P (sprintf size fmt args).
Proof.
  intros HP Hf. unfold sprintf. destruct (format_fits _ _ Hf) as [s ->].
  destruct (_ <? _); [apply stops_ret|by apply stops_stopped].
Qed.

Lemma stops_row_any i size header fmt args acc :
  P Overrun -> fits header [] = true -> fits fmt (map class_of args) = true ->
  stops_only P (row i size header fmt args acc).
Proof.
  intros HP Hh Hf. apply stops_bind; [apply stops_if|]; try apply stops_ret.
  all: intros; apply stops_bind; [by apply stops_sprintf_any|intros; apply stops_ret].
Qed.

Lemma stops_row i size header fmt args acc :
  fits header [] = true -> Z.of_nat (bound n header) <? size = true ->
  fits fmt (map class_of args) = true -> Z.of_nat (bound n fmt) <? size = true ->
  Forall arg_fine args -> stops_only P (row i size header fmt args acc).
Proof.
  intros Hh Hbh%Z.ltb_lt Hf Hb%Z.ltb_lt Ha. unfold row.
  apply stops_bind; [apply stops_if|]; try apply stops_ret.
  - apply stops_bind; [by apply stops_sprintf|intros; apply stops_ret].
  - intros a. apply stops_bind; [by apply stops_sprintf|intros; apply stops_ret].
Qed.

Lemma stops_flush acc : stops_only P (flush acc).
Proof. apply stops_if; [apply stops_excute|apply stops_ret]. Qed.

(** Nothing is returned. *)
Lemma never_bind {A B} (Q : B -> Prop) (m : M E A) (f : A -> M E B) :
  ends P (fun _ => False) m -> ends P Q (m ≫= f).
Proof. intros H. eapply ends_bind; [done|]. by intros ? []. Qed.

Lemma never_for {A} l x (f : nat -> msg -> A -> M E A) a :
  x ∈ l -> (forall i y a, y ∈ l -> stops_only P (f i y a)) ->
  (forall i a, ends P (fun _ => False) (f i x a)) -> ends P (fun _ => False) (for_ l f a).
Proof.
  intros Hx Hf Hn. unfold for_. generalize 0%nat. revert a Hx Hf.
  induction l as [|y l IH]; intros a Hx Hf i; [by apply not_elem_of_nil in Hx|]. simpl.
  apply elem_of_cons in Hx as [->|Hx]; [by apply never_bind|].
  apply ends_then; [apply Hf; set_solver|]. intros a'. apply IH; [done|].
  intros; apply Hf; set_solver.
Qed.

Lemma stops_table l (f : nat -> msg -> str -> M E str) :
  (forall i x a, x ∈ l -> stops_only P (f i x a)) -> stops_only P (table l f).
Proof. intros H. apply stops_bind; [by apply stops_for|apply stops_flush]. Qed.

End Stops.

(** [stops] proves that a handler stops only for a reason in [P]: it uses the
    lemmas of the hints [stops], unfolds the other definitions a handler calls,
    and runs every format on the classes of its arguments. *)
Create HintDb stops.

Ltac head_of m := lazymatch m with ?f _ => head_of f | _ => m end.

(** A side condition on what may stop a handler. *)
Ltac side := first [assumption | solve [eauto with stops]].

Ltac fine_arg :=
  match goal with
  | |- fine _ _ (_ ~> _) => apply fine_sub; fine_arg
  | |- fine _ _ _ => first [side | eapply fine_rep; [|eassumption]; fine_arg]
  | |- arg_fine _ _ (D _) => apply arg_fine_int
  | |- arg_fine _ _ (L _) => apply arg_fine_int
  | |- arg_fine _ _ (Printf.P (text _ _)) => apply arg_fine_text; fine_arg
  | |- arg_fine _ _ (Printf.P (opt_text _ _)) => apply arg_fine_opt; fine_arg
  | |- Forall _ (_ :: _) => apply Forall_cons; split; [fine_arg|fine_arg]
  | |- Forall _ [] => apply Forall_nil; exact I
  | |- Forall _ (_ ++ _) => apply Forall_app; split; [fine_arg|fine_arg]
  | |- arg_fine _ _ _ => left; side
  | |- Forall _ ?l => let h := head_of l in unfold h; cbv zeta; fine_arg
  | _ => eauto with stops
  end.

Ltac stops :=
  lazymatch goal with
  | |- stops_only _ (mret _) => apply stops_ret
  | |- stops_only _ (row _ _ _ _ _ _) =>
      first [ apply stops_row_any; [side|vm_compute; reflexivity ..]
            | apply (stops_row _ 500); [vm_compute; reflexivity .. | fine_arg] ]
  | |- stops_only _ (sprintf _ _ _) =>
      first [ apply stops_sprintf_any; [side|vm_compute; reflexivity]
            | match goal with H : fine _ ?n _ |- _ =>
                apply (stops_sprintf _ n); [vm_compute; reflexivity .. | fine_arg]
              end
            | apply (stops_sprintf _ 500); [vm_compute; reflexivity .. | fine_arg] ]
  | |- stops_only _ (table [] _) => apply stops_flush
  | |- stops_only _ (table _ _) => apply stops_table; intros; stops
  | |- stops_only _ (when_ _ _) => apply stops_when; stops
  | |- stops_only _ next => apply stops_next; side
  | |- stops_only _ (if _ then _ else _) => apply stops_if; stops
  | |- stops_only _ (nth_msg _ _) => apply stops_nth; side
  | |- stops_only _ (flush _) => apply stops_flush
  | |- stops_only _ (excute _) => apply stops_excute
  | |- stops_only _ (_ ≫= _) => apply stops_bind; [stops|intros; cbv zeta; stops]
  | |- stops_only _ (let _ := _ in _) => cbv zeta; stops
  | |- stops_only _ ?m =>
      first [solve [eauto with stops] | let h := head_of m in unfold h; cbv beta zeta; stops]
  | |- _ => fine_arg
  end.

End Insert.
