(* ===== verification/CamObjects.v ===== *)
(** * The objects of a camera message

    The tables [DataInsert::camInsert] of [src/cam-app/src/DataInsert.cpp]
    writes for the participants, the detected regions, the obstacles and the
    vehicles' own messages. For each loop of the function there is the
    definition of its turn, with the variables of the function it reads as
    parameters; the names of the variables are those of C++. *)

From S2P Require Import Prelude Printf Proto Insert.
Import Printf Proto Insert.

Module CamObjects.

Section Rows.
Context {E : Type} `{!Gen E}.

(** ** Participants *)

(** src/cam-app/src/DataInsert.cpp:207-222, [DataInsert::camInsert]. *)
Definition poly_row (splitId : Z) (ptclistId : Z) (j : nat) (q : msg) (acc : str) : M E str :=
  polyId ← next;
  acc ← row j 40960
    (lines ["INSERT INTO `participant_data_position_3_d`(`id`,`split_id`,`lat`,`lon`,`ele`,`participant_data_id`)";
    "					VALUES"])
    (lines ["(%lld,%d,%d,%d,%d,%lld),"])
    [L polyId; D splitId; D (int q "lat"); D (int q "lon"); D (int q "ele"); L ptclistId] acc;
  mret acc.

(** src/cam-app/src/DataInsert.cpp:242-274, [DataInsert::camInsert]. *)
Definition pathHistory_row (splitId : Z) (ptclistId : Z) (k : nat) (h : msg) (acc : str) : M E
  str :=
  pathHistoryId ← next;
  let pathLat := opt_int (has h "pos") (int (h ~> "pos") "lat") in
  let pathLon := opt_int (has h "pos") (int (h ~> "pos") "lon") in
  let pathEle := opt_int (has h "pos") (int (h ~> "pos") "ele") in
  let pathPosConfid := opt_int (has h "posconfid") (int (h ~> "posconfid") "posconfid") in
  let pathEleConfid := opt_int (has h "posconfid") (int (h ~> "posconfid") "eleconfid") in
  acc ← row k 40960
    (lines ["INSERT INTO `path_history_point`(`id`,`split_id`,`lat`,`lon`,`ele`,";
    "				`time_offset`,`speed`,`heading`,`pos_confid_id`,`ele_confid_id`,`participant_data_id`)VALUES"])
    (lines ["(%lld,%d,%d,%d,%d,%d,%d,%d,%d,%d,%lld),"])
    [L pathHistoryId; D splitId; D pathLat; D pathLon; D pathEle; D (int h "timeoffset");
     D (int h "speed"); D (int h "heading"); D pathPosConfid; D pathEleConfid; L ptclistId] acc;
  mret acc.

(** src/cam-app/src/DataInsert.cpp:72-202, [DataInsert::camInsert]. *)
Definition ptclist_row (splitId : Z) (camId : Z) (camData : msg) (i : nat) (p : msg)
  (acc : str) : M E str :=
  ptclistId ← (if int p "id" =? 0 then next else mret (int p "id"));
  let ptclistLat := opt_int (has p "ptcpos") (int (p ~> "ptcpos") "lat") in
  let ptclistLon := opt_int (has p "ptcpos") (int (p ~> "ptcpos") "lon") in
  let ptclistEle := opt_int (has p "ptcpos") (int (p ~> "ptcpos") "ele") in
  let maplocation := p ~> "maplocation" in
  let nodeid := maplocation ~> "nodeid" in
  let has_nodeid := has p "maplocation" && has maplocation "nodeid" in
  let upstreamnodeid := maplocation ~> "upstreamnodeid" in
  let has_upstreamnodeid := has p "maplocation" && has maplocation "upstreamnodeid" in
  let sectionId := opt_int (has p "maplocation") (int maplocation "sectionid") in
  let laneId := opt_int (has p "maplocation") (int maplocation "laneid") in
  let linkName := opt_text (has p "maplocation") (text maplocation "linkname") in
  let regionId := opt_int has_nodeid (int nodeid "region") in
  let nodeId := opt_int has_nodeid (int nodeid "nodeid") in
  let upstreamRegionId := opt_int has_upstreamnodeid (int upstreamnodeid "region") in
  let upstreamNodeId := opt_int has_upstreamnodeid (int upstreamnodeid "nodeid") in
  let ptclistPosconfid := opt_int (has p "posconfid") (int (p ~> "posconfid") "posconfid") in
  let ptclistEleconfid := opt_int (has p "posconfid") (int (p ~> "posconfid") "eleconfid") in
  let ptclistSpeedCfd := opt_int (has p "motionconfid") (int (p ~> "motionconfid") "speedcfd") in
  let ptclistHeadingCfd := opt_int (has p "motionconfid")
    (int (p ~> "motionconfid") "headingcfd") in
  let ptclistSteerCfd := opt_int (has p "motionconfid") (int (p ~> "motionconfid") "steercfd") in
  let acceLat := opt_int (has p "accelset") (int (p ~> "accelset") "lat") in
  let acceLon := opt_int (has p "accelset") (int (p ~> "accelset") "lon") in
  let acceVert := opt_int (has p "accelset") (int (p ~> "accelset") "vert") in
  let acceYaw := opt_int (has p "accelset") (int (p ~> "accelset") "yaw") in
  let latAcceConfid := opt_int (has p "accelerationconfid")
    (int (p ~> "accelerationconfid") "lataccelconfid") in
  let lonAcceConfid := opt_int (has p "accelerationconfid")
    (int (p ~> "accelerationconfid") "lonaccelconfid") in
  let vertAcceConfid := opt_int (has p "accelerationconfid")
    (int (p ~> "accelerationconfid") "verticalaccelconfid") in
  let yawAcceConfid := opt_int (has p "accelerationconfid")
    (int (p ~> "accelerationconfid") "yawrateconfid") in
  let ptclistWidth := opt_int (has p "ptcsize") (int (p ~> "ptcsize") "width") in
  let ptclistLength := opt_int (has p "ptcsize") (int (p ~> "ptcsize") "length") in
  let ptclistHeight := opt_int (has p "ptcsize") (int (p ~> "ptcsize") "height") in
  let ptclistWidthConfid := opt_int (has p "ptcsizeconfid")
    (int (p ~> "ptcsizeconfid") "widthconfid") in
  let ptclistLengthConfid := opt_int (has p "ptcsizeconfid")
    (int (p ~> "ptcsizeconfid") "lengthconfid") in
  let ptclistHeightConfid := opt_int (has p "ptcsizeconfid")
    (int (p ~> "ptcsizeconfid") "heightconfid") in
  acc ← row i 40960
    (lines ["INSERT INTO `participant_data` (`id`,`split_id`,`ptc_id`,`ptc_type_id`,`data_source_id`,";
    "			`device_id_list`,`timestamp`,`lat`,`lon`,`ele`,";
    "			`link_name`,`section_id`,`lane_id`,`pos_confid_id`,`ele_confid_id`,";
    "			`speed`,`heading`,`speed_cfd_id`,`heading_cfd_id`,`steer_cfd_id`,";
    "			`acceleration_lat`,`acceleration_lon`,`acceleration_vert`,`acceleration_yaw`,`lon_accel_confid_id`,";
    "			`lat_accel_confid_id`,`vertical_accel_confid_id`,`yaw_rate_confid_id`,`width`,`length`,";
    "			`height`,`vehicle_band`,`vehicle_type_id`,`plate_no`,`plate_type_id`,";
    "			`plate_color_id`,`vehicle_color_id`,`width_confid_id`,`length_confid_id`,`height_confid_id`,";
    "			`ptc_type_ext_id`,`ptc_type_ext_confid`,`status_duration`,`tracking`,`cam_data_id`,";
    "			`node_region_id`,`node_id`,`upstream_node_region_id`,`upstream_node_node_id`,`time_confidence_id`,`device_id`)";
    "			VALUES"])
    (lines ["(%lld,%d,%lld,%d,%d,'%s',%lld,%d,%d,%d,'%s',%d,%d,%d,%d,%d,%d,%d,%d,%d,%d,%d,%d,%d,%d,";
    "		%d,%d,%d,%d,%d,%d,'%s',%d,'%s',%d,%d,%d,%d,%d,%d,%d,%d,%d,%d,%lld,%d,%d,%d,%d,%d,'%s'),"])
    [L ptclistId; D splitId; L (int p "ptcid"); D (int p "ptctype"); D (int p "datasource");
     P (text p "deviceidlist"); L (int p "timestamp"); D ptclistLat; D ptclistLon;
     D ptclistEle; P linkName; D sectionId; D laneId; D ptclistPosconfid; D ptclistEleconfid;
     D (int p "speed"); D (int p "heading"); D ptclistSpeedCfd; D ptclistHeadingCfd;
     D ptclistSteerCfd; D acceLat; D acceLon; D acceVert; D acceYaw; D lonAcceConfid;
     D latAcceConfid; D vertAcceConfid; D yawAcceConfid; D ptclistWidth; D ptclistLength;
     D ptclistHeight; P (text p "vehicleband"); D (int p "vehicletype"); P (text p "plateno");
     D (int p "platetype"); D (int p "platecolor"); D (int p "vehiclecolor");
     D ptclistWidthConfid; D ptclistLengthConfid; D ptclistHeightConfid;
     D (int p "ptctypeext"); D (int p "ptctypeextconfid"); D (int p "statusduration");
     D (int p "tracking"); L camId; D regionId; D nodeId; D upstreamRegionId; D upstreamNodeId;
     D (int p "timeconfidence"); P (text camData "deviceid")] acc;
  let polygon := p ~> "polygon" in
  _ ← when_ (has p "polygon")
    (table (rep polygon "pos") (poly_row splitId ptclistId));
  _ ← table (rep p "pathhistory") (pathHistory_row splitId ptclistId);
  mret acc.

(** src/cam-app/src/DataInsert.cpp:292-306, [DataInsert::camInsert]. The loop from
    line 72 and the end of the table. *)
Definition participants (splitId : Z) (camId : Z) (camData : msg) : M E () :=
  table (rep camData "ptclist") (ptclist_row splitId camId camData).

(** ** Detected regions *)

(** src/cam-app/src/DataInsert.cpp:1773-1790, [DataInsert::camInsert]. *)
Definition camPolygonPos_row (splitId : Z) (camPolygonId : Z) (j : nat) (q : msg) (acc : str) :
  M E str :=
  camPolygonPosId ← next;
  let camPolygonPosLon := int q "lon" in
  let camPolygonPosLat := int q "lat" in
  let camPolygonPosEle := int q "ele" in
  acc ← row j 10240
    (lines ["INSERT INTO `cam_data_polygon_position_3_d`";
    "				(`id`,`split_id`,`lon`,`lat`,`ele`,`cam_data_polygon_id`)VALUES"])
    (lines ["(%lld,%d,%d,%d,%d,%lld),"])
    [L camPolygonPosId; D splitId; D camPolygonPosLon; D camPolygonPosLat; D camPolygonPosEle;
     L camPolygonId] acc;
  mret acc.

(** src/cam-app/src/DataInsert.cpp:1753-1769, [DataInsert::camInsert]. *)
Definition camPolygon_row (splitId : Z) (camId : Z) (i : nat) (reg : msg) (acc : str) : M E str :=
  camPolygonId ← next;
  acc ← row i 10240
    (lines ["INSERT INTO `cam_data_polygon`";
    "			(`id`,`split_id`,`cam_data_id`)VALUES"])
    (lines ["(%lld,%d,%lld),"])
    [L camPolygonId; D splitId; L camId] acc;
  _ ← table (rep reg "pos") (camPolygonPos_row splitId camPolygonId);
  mret acc.

(** src/cam-app/src/DataInsert.cpp:1808-1821, [DataInsert::camInsert]. The loop from
    line 1753 and the end of the table. *)
Definition regions (splitId : Z) (camId : Z) (camData : msg) : M E () :=
  table (rep camData "detectedregion") (camPolygon_row splitId camId).

(** ** Obstacles *)

(** src/cam-app/src/DataInsert.cpp:1941-1955, [DataInsert::camInsert]. *)
Definition obspoly_row (splitId : Z) (obslistId : Z) (j : nat) (q : msg) (acc : str) : M E str :=
  obspolyId ← next;
  acc ← row j 4096
    (lines ["INSERT INTO `obstacle_data_position_3_d`(`id`,`split_id`,`lat`,`lon`,`ele`,`obstacle_data_id`)VALUES"])
    (lines ["(%lld,%d,%d,%d,%d,%lld),"])
    [L obspolyId; D splitId; D (int q "lat"); D (int q "lon"); D (int q "ele"); L obslistId] acc;
  mret acc.

(** src/cam-app/src/DataInsert.cpp:1824-1936, [DataInsert::camInsert]. *)
Definition obslist_row (splitId : Z) (camId : Z) (i : nat) (ob : msg) (acc : str) : M E str :=
  obslistId ← next;
  let obsLat := opt_int (has ob "obspos") (int (ob ~> "obspos") "lat") in
  let obsLon := opt_int (has ob "obspos") (int (ob ~> "obspos") "lon") in
  let obsEle := opt_int (has ob "obspos") (int (ob ~> "obspos") "ele") in
  let obsPosconfid := opt_int (has ob "posconfid") (int (ob ~> "posconfid") "posconfid") in
  let obsEleconfid := opt_int (has ob "posconfid") (int (ob ~> "posconfid") "eleconfid") in
  let maplocation := ob ~> "maplocation" in
  let nodeid := maplocation ~> "nodeid" in
  let has_nodeid := has ob "maplocation" && has maplocation "nodeid" in
  let upstreamnodeid := maplocation ~> "upstreamnodeid" in
  let has_upstreamnodeid := has ob "maplocation" && has maplocation "upstreamnodeid" in
  let obsSectionId := opt_int (has ob "maplocation") (int maplocation "sectionid") in
  let obsLaneId := opt_int (has ob "maplocation") (int maplocation "laneid") in
  let obsLinkName := opt_text (has ob "maplocation") (text maplocation "linkname") in
  let obsRegionId := opt_int has_nodeid (int nodeid "region") in
  let obsNodeId := opt_int has_nodeid (int nodeid "nodeid") in
  let obsUpstreamRegionId := opt_int has_upstreamnodeid (int upstreamnodeid "region") in
  let obsUpstreamNodeId := opt_int has_upstreamnodeid (int upstreamnodeid "nodeid") in
  let obsSpeedCfd := opt_int (has ob "motionconfid") (int (ob ~> "motionconfid") "speedcfd") in
  let obsHeadingCfd := opt_int (has ob "motionconfid")
    (int (ob ~> "motionconfid") "headingcfd") in
  let obsSteerCfd := opt_int (has ob "motionconfid") (int (ob ~> "motionconfid") "steercfd") in
  let obsAcceLat := opt_int (has ob "acceleration") (int (ob ~> "acceleration") "lat") in
  let obsAcceLon := opt_int (has ob "acceleration") (int (ob ~> "acceleration") "lon") in
  let obsAcceVert := opt_int (has ob "acceleration") (int (ob ~> "acceleration") "vert") in
  let obsAcceYaw := opt_int (has ob "acceleration") (int (ob ~> "acceleration") "yaw") in
  let obsWidth := opt_int (has ob "size") (int (ob ~> "size") "width") in
  let obsLength := opt_int (has ob "size") (int (ob ~> "size") "length") in
  let obsHeight := opt_int (has ob "size") (int (ob ~> "size") "height") in
  let obsWidthConfid := opt_int (has ob "obssizeconfid")
    (int (ob ~> "obssizeconfid") "widthconfid") in
  let obsLengthConfid := opt_int (has ob "obssizeconfid")
    (int (ob ~> "obssizeconfid") "lengthconfid") in
  let obsHeightConfid := opt_int (has ob "obssizeconfid")
    (int (ob ~> "obssizeconfid") "heightconfid") in
  acc ← row i 40960
    (lines ["INSERT INTO `obstacle_data`(`id`,`split_id`,`obs_id`,`obs_type_cfd`,`timestamp`,";
    "			`device_id_list`,`lat`,`lon`,`ele`,`node_region_id`,";
    "			`node_id`,`link_name`,`upstream_node_region_id`,`upstream_node_node_id`,`section_id`,";
    "			`lane_id`,`speed`,`heading`,`ver_speed`,`acceleration_lon`,";
    "			`acceleration_lat`,`acceleration_vert`,`acceleration_yaw`,`width`,`length`,";
    "			`height`,`tracking`,`obs_type_id`,`obs_source_id`,`pos_confid_id`,";
    "			`ele_confid_id`,`speed_cfd_id`,`heading_cfd_id`,`steer_cfd_id`,`ver_speed_confid_id`,";
    "			`width_confid_id`,`length_confid_id`,`height_confid_id`,`cam_data_id`)VALUES"])
    (lines ["(%lld,%d,%lld,%d,%lld,";
    "		'%s',%d,%d,%d,%d,";
    "		%d,'%s',%d,%d,%d,";
    "		%d,%d,%d,%d,%d,";
    "		%d,%d,%d,%d,%d,";
    "		%d,%d,%d,%d,%d,";
    "		%d,%d,%d,%d,%d,";
    "		%d,%d,%d,%lld),"])
    [L obslistId; D splitId; L (int ob "obsid"); D (int ob "obstype"); L (int ob "timestamp");
     P (text ob "deviceidlist"); D obsLat; D obsLon; D obsEle; D obsRegionId; D obsNodeId;
     P obsLinkName; D obsUpstreamRegionId; D obsUpstreamNodeId; D obsSectionId; D obsLaneId;
     D (int ob "speed"); D (int ob "heading"); D (int ob "verspeed"); D obsAcceLon;
     D obsAcceLat; D obsAcceVert; D obsAcceYaw; D obsWidth; D obsLength; D obsHeight;
     D (int ob "tracking"); D (int ob "obstype"); D (int ob "obssource"); D obsPosconfid;
     D obsEleconfid; D obsSpeedCfd; D obsHeadingCfd; D obsSteerCfd;
     D (int ob "verspeedconfid"); D obsWidthConfid; D obsLengthConfid; D obsHeightConfid;
     L camId] acc;
  let polygon := ob ~> "polygon" in
  _ ← when_ (has ob "polygon")
    (table (rep polygon "pos") (obspoly_row splitId obslistId));
  mret acc.

(** src/cam-app/src/DataInsert.cpp:1973-1986, [DataInsert::camInsert]. The loop from
    line 1824 and the end of the table. *)
Definition obstacles (splitId : Z) (camId : Z) (camData : msg) : M E () :=
  table (rep camData "obstaclelist") (obslist_row splitId camId).

(** ** Messages of vehicles *)

(** src/cam-app/src/DataInsert.cpp:1990-2138, [DataInsert::camInsert]. *)
Definition bsm_row (splitId : Z) (camId : Z) (i : nat) (b : msg) (acc : str) : M E str :=
  bsmId ← next;
  let obuId := text b "obuid" in
  let plateNo := text b "plateno" in
  let bsmTimestamp := int b "timestamp" in
  let bsmLon := opt_int (has b "pos") (int (b ~> "pos") "lon") in
  let bsmLat := opt_int (has b "pos") (int (b ~> "pos") "lat") in
  let bsmEle := opt_int (has b "pos") (int (b ~> "pos") "ele") in
  let bsmPosConfidId := opt_int (has b "posconfid") (int (b ~> "posconfid") "posconfid") in
  let bsmEleConfidId := opt_int (has b "posconfid") (int (b ~> "posconfid") "eleconfid") in
  let semiMajor := opt_int (has b "posaccuracy") (int (b ~> "posaccuracy") "semimajor") in
  let semiMinor := opt_int (has b "posaccuracy") (int (b ~> "posaccuracy") "semiminor") in
  let orientation := opt_int (has b "posaccuracy") (int (b ~> "posaccuracy") "orientation") in
  let bsmAccelerationLon := opt_int (has b "acceleration") (int (b ~> "acceleration") "lon") in
  let bsmAccelerationLat := opt_int (has b "acceleration") (int (b ~> "acceleration") "lat") in
  let bsmAccelerationVert := opt_int (has b "acceleration") (int (b ~> "acceleration") "vert") in
  let bsmAccelerationYaw := opt_int (has b "acceleration") (int (b ~> "acceleration") "yaw") in
  let transmission := int b "transmission" in
  let bsmSpeed := int b "speed" in
  let bsmHeading := int b "heading" in
  let steeringWheelAngle := int b "steeringwheelangle" in
  let bsmSpeedCfd := opt_int (has b "motionconfid") (int (b ~> "motionconfid") "speedcfd") in
  let bsmHeadingCfd := opt_int (has b "motionconfid") (int (b ~> "motionconfid") "headingcfd") in
  let bsmSteerCfd := opt_int (has b "motionconfid") (int (b ~> "motionconfid") "steercfd") in
  let brakePadel := opt_int (has b "brakes") (int (b ~> "brakes") "brakepadel") in
  let wheelBrakes := opt_int (has b "brakes") (int (b ~> "brakes") "wheelbrakes") in
  let traction := opt_int (has b "brakes") (int (b ~> "brakes") "traction") in
  let abs := opt_int (has b "brakes") (int (b ~> "brakes") "abs") in
  let scs := opt_int (has b "brakes") (int (b ~> "brakes") "scs") in
  let brakeBoost := opt_int (has b "brakes") (int (b ~> "brakes") "brakeboost") in
  let auxBrakes := opt_int (has b "brakes") (int (b ~> "brakes") "auxbrakes") in
  let brakeControl := opt_int (has b "brakes") (int (b ~> "brakes") "brakecontrol") in
  let throttleControl := opt_int (has b "throttle") (int (b ~> "throttle") "thorttlecontrol") in
  let throttlePadel := opt_int (has b "throttle") (int (b ~> "throttle") "throttlepadel") in
  let wheelThrottles := opt_int (has b "throttle") (int (b ~> "throttle") "wheelthrottles") in
  let bsmVehicleSizeWidth := opt_int (has b "size") (int (b ~> "size") "width") in
  let bsmVehicleSizeLength := opt_int (has b "size") (int (b ~> "size") "length") in
  let bsmVehicleSizeHeight := opt_int (has b "size") (int (b ~> "size") "height") in
  let bsmVehicleType := int b "vehicletype" in
  let bsmFuelType := int b "fueltype" in
  let driveModedriveStatus := int b "drivemodedrivestatus" in
  let emergencyStatus := int b "emergencystatus" in
  let bsmLight := int b "light" in
  let bsmWiper := int b "wiper" in
  let bsmOutofControl := int b "outofcontrol" in
  let bsmEndurance := int b "endurance" in
  acc ← row i 10240
    (lines ["INSERT INTO `bsm_data`";
    "			(`id`,`split_id`,`obu_id`,`plate_no`,`timestamp`,";
    "			`lat`,`lon`,`ele`,`semi_major`,`semi_minor`,";
    "			`orientation`,`acceleration_lon`,`acceleration_lat`,`acceleration_vert`,`acceleration_yaw`,";
    "			`speed`,`heading`,`steering_wheel_angle`,`wheel_brakes`,`brake_control`,";
    "			`throttle_control`,`wheel_throttles`,`width`,`length`,`height`,";
    "			`light`,`endurance`,`pos_confid_id`,`ele_confid_id`,`transmission_id`,";
    "			`speed_cfd_id`,`heading_cfd_id`,`steer_cfd_id`,`brake_padel_id`,`traction_id`,";
    "			`abs_id`,`scs_id`,`brake_boost_id`,`aux_brakes_id`,`throttle_padel_id`,";
    "			`vehicle_type_id`,`fuel_type_id`,`drive_modedrive_status_id`,`emergency_status_id`,`wiper_id`,";
    "			`outof_control_id`,`cam_data_id`)VALUES"])
    (lines ["(%lld,%d,'%s','%s',%lld,";
    "        %d,%d,%d,%d,%d,";
    "        %d,%d,%d,%d,%d,";
    "        %d,%d,%d,%d,%d,";
    "        %d,%d,%d,%d,%d,";
    "        %d,%d,%d,%d,%d,";
    "        %d,%d,%d,%d,%d,";
    "        %d,%d,%d,%d %d,";
    "        %d,%d,%d,%d,%d,%d,%lld),"])
    [L bsmId; D splitId; P obuId; P plateNo; L bsmTimestamp; D bsmLat; D bsmLon; D bsmEle;
     D semiMajor; D semiMinor; D orientation; D bsmAccelerationLon; D bsmAccelerationLat;
     D bsmAccelerationVert; D bsmAccelerationYaw; D bsmSpeed; D bsmHeading;
     D steeringWheelAngle; D wheelBrakes; D brakeControl; D throttleControl; D wheelThrottles;
     D bsmVehicleSizeWidth; D bsmVehicleSizeLength; D bsmVehicleSizeHeight; D bsmLight;
     D bsmEndurance; D bsmPosConfidId; D bsmEleConfidId; D transmission; D bsmSpeedCfd;
     D bsmHeadingCfd; D bsmSteerCfd; D brakePadel; D traction; D abs; D scs; D brakeBoost;
     D auxBrakes; D throttlePadel; D bsmVehicleType; D bsmFuelType; D driveModedriveStatus;
     D emergencyStatus; D bsmWiper; D bsmOutofControl; L camId] acc;
  mret acc.

(** src/cam-app/src/DataInsert.cpp:2140-2153, [DataInsert::camInsert]. The loop from
    line 1990 and the end of the table. *)
Definition bsms (splitId : Z) (camId : Z) (camData : msg) : M E () :=
  table (rep camData "bsmlist") (bsm_row splitId camId).

End Rows.
End CamObjects.
