(* ===== verification/CamEvents.v ===== *)
(** * The traffic events and signs of a camera message

    The tables [DataInsert::camInsert] of [src/cam-app/src/DataInsert.cpp]
    writes for [rtelist] and [rtslist]. *)

From S2P Require Import Prelude Printf Proto Insert.
Import Printf Proto Insert.

Module CamEvents.

Section Rows.
Context {E : Type} `{!Gen E}.

(** ** Events *)

(** src/cam-app/src/DataInsert.cpp:423-441, [DataInsert::camInsert]. *)
Definition rteActivepath_row (splitId : Z) (rteReferencePathId : Z) (k : nat) (a : msg)
  (acc : str) : M E str :=
  activepathId ← next;
  let activepathLon := int a "lon" in
  let activepathLat := int a "lat" in
  let activepathEle := int a "ele" in
  acc ← row k 10240
    (lines ["INSERT INTO `rte_data_reference_path_position_3_d`";
    "					(`id`,`split_id`,`lon`,`lat`,`ele`,`rte_data_reference_path_id`)VALUES"])
    (lines ["(%lld,%d,%d,%d,%d,%lld),"])
    [L activepathId; D splitId; D activepathLon; D activepathLat; D activepathEle;
     L rteReferencePathId] acc;
  mret acc.

(** src/cam-app/src/DataInsert.cpp:403-419, [DataInsert::camInsert]. *)
Definition rteReferencePath_row (splitId : Z) (rteDataId : Z) (forwardRteDataId : Z) (j : nat)
  (r : msg) (acc : str) : M E str :=
  rteReferencePathId ← next;
  let pathRadius := int r "pathradius" in
  acc ← row j 10240
    (lines ["INSERT INTO `rte_data_reference_path` ";
    "				(`id`,`split_id`,`path_radius`,`rte_data_id`,`forward_rte_data_id`)VALUES"])
    (lines ["(%lld,%d,%d,%lld,%lld),"])
    [L rteReferencePathId; D splitId; D pathRadius; L rteDataId; L forwardRteDataId] acc;
  _ ← table (rep r "activepath") (rteActivepath_row splitId rteReferencePathId);
  mret acc.

(** src/cam-app/src/DataInsert.cpp:473-509, [DataInsert::camInsert]. *)
Definition rteReferenceLink_row (splitId : Z) (rteDataId : Z) (forwardRteDataId : Z) (j : nat)
  (l : msg) (acc : str) : M E str :=
  rteReferenceLinkId ← next;
  let upstreamNodeRegionId := opt_int (has l "upstreamnodeid")
    (int (l ~> "upstreamnodeid") "region") in
  let upstreamNodeId := opt_int (has l "upstreamnodeid") (int (l ~> "upstreamnodeid") "nodeid") in
  let downstreamNodeRegionId := opt_int (has l "upstreamnodeid")
    (int (l ~> "downstreamnodeid") "region") in
  let downstreamNodeId := opt_int (has l "upstreamnodeid")
    (int (l ~> "downstreamnodeid") "nodeid") in
  let referenceLanes := opt_int (has l "referencelanes")
    (int (l ~> "referencelanes") "referencelanes") in
  acc ← row j 10240
    (lines ["INSERT INTO `rte_data_reference_link`";
    "				(`id`,`split_id`,`upstream_node_region_id`,`upstream_node_id`,`downstream_node_region_id`,";
    "				`downstream_node_id`,`reference_lanes`,`rte_data_id`,`forward_rte_data_id`)VALUES"])
    (lines ["(%lld,%d,%d,%d,%d,%d,%d,%lld,%lld),"])
    [L rteReferenceLinkId; D splitId; D upstreamNodeRegionId; D upstreamNodeId;
     D downstreamNodeRegionId; D downstreamNodeId; D referenceLanes; L rteDataId;
     L forwardRteDataId] acc;
  mret acc.

(** src/cam-app/src/DataInsert.cpp:528-549, [DataInsert::camInsert]. *)
Definition rteEventObjId_row (splitId : Z) (rteDataId : Z) (forwardRteDataId : Z) (j : nat)
  (o : msg) (acc : str) : M E str :=
  eventObjIdId ← next;
  let ptcId := int o "ptcid" in
  let obsId := int o "obsid" in
  let roleId := int o "role" in
  acc ← row j 10240
    (lines ["INSERT INTO `obj_id_value`";
    "				(`id`,`split_id`,`ptc_id`,`obs_id`,`role_id`,";
    "				`rte_data_id`,`forward_rte_data_id`VALUES"])
    (lines ["(%lld,%d,%lld,%lld,%d,%lld,%lld),"])
    [L eventObjIdId; D splitId; L ptcId; L obsId; D roleId; L rteDataId; L forwardRteDataId] acc;
  mret acc.

(** src/cam-app/src/DataInsert.cpp:311-398, [DataInsert::camInsert]. *)
Definition rte_row (splitId : Z) (camId : Z) (camData : msg) (i : nat) (e : msg) (acc : str) : M
  E str :=
  if (int e "datasource" =? 9) || (int e "datasource" =? 12) then mret acc else
  rteDataId ← (if int e "id" =? 0 then next else mret (int e "id"));
  let rteId := int e "rteid" in
  let rteType := int e "rtetype" in
  let description := text e "description" in
  let deviceIdList := text e "deviceidlist" in
  let lat := opt_int (has e "rtepos") (int (e ~> "rtepos") "lat") in
  let lon := opt_int (has e "rtepos") (int (e ~> "rtepos") "lon") in
  let ele := opt_int (has e "rtepos") (int (e ~> "rtepos") "ele") in
  let nodeRegionId := opt_int (has e "maplocation")
    (int (e ~> "maplocation" ~> "nodeid") "region") in
  let nodeId := opt_int (has e "maplocation") (int (e ~> "maplocation" ~> "nodeid") "nodeid") in
  let linkName := opt_text (has e "maplocation") (text (e ~> "maplocation") "linkname") in
  let upstreamNodeRegionId := opt_int (has e "maplocation")
    (int (e ~> "maplocation" ~> "upstreamnodeid") "region") in
  let upstreamNodeNodeId := opt_int (has e "maplocation")
    (int (e ~> "maplocation" ~> "upstreamnodeid") "nodeid") in
  let sectionId := opt_int (has e "maplocation") (int (e ~> "maplocation") "sectionid") in
  let laneId := opt_int (has e "maplocation") (int (e ~> "maplocation") "laneid") in
  let eventRadius := int e "eventradius" in
  let startTime := opt_int (has e "timedetails") (int (e ~> "timedetails") "starttime") in
  let endTime := opt_int (has e "timedetails") (int (e ~> "timedetails") "endtime") in
  let endTimeConfidenceId := opt_int (has e "timedetails")
    (int (e ~> "timedetails") "endtimeconfidence") in
  let priority := text e "priority" in
  let eventConfid := int e "eventconfid" in
  let eventImages := text e "eventimages" in
  let eventVideos := text e "eventvideos" in
  let eventSourceId := int e "eventsource" in
  let dataSourceId := int e "datasource" in
  acc ← row i 10240
    (lines ["INSERT INTO `rte_data` (`id`,`split_id`,`rte_id`,`rte_type`,`description`,";
    "			`device_id_list`,`lat`,`lon`,`ele`,`node_region_id`,";
    "			`node_id`,`link_name`,`upstream_node_region_id`,`upstream_node_node_id`,`section_id`,";
    "			`lane_id`,`event_radius`,`start_time`,`end_time`,`priority`,";
    "			`event_confid`,`event_images`,`event_videos`,`event_source_id`,`data_source_id`,";
    "			`end_time_confidence_id`,`cam_data_id`,`device_id`)VALUES"])
    (lines ["(%lld,%d,%d,%d,'%s',";
    "		'%s',%d,%d,%d,%d,";
    "		%d,'%s',%d,%d,%d,";
    "		%d,%d,%lld,%lld,'%s',";
    "		%d,'%s','%s',%d,%d,";
    "		%d,%lld,'%s'),"])
    [L rteDataId; D splitId; D rteId; D rteType; P description; P deviceIdList; D lat; D lon;
     D ele; D nodeRegionId; D nodeId; P linkName; D upstreamNodeRegionId; D upstreamNodeNodeId;
     D sectionId; D laneId; D eventRadius; L startTime; L endTime; P priority; D eventConfid;
     P eventImages; P eventVideos; D eventSourceId; D dataSourceId; D endTimeConfidenceId;
     L camId; P (text camData "deviceid")] acc;
  forwardRteDataId ← next;
  _ ← table (rep e "referencepath") (rteReferencePath_row splitId rteDataId forwardRteDataId);
  _ ← table (rep e "referencelinks") (rteReferenceLink_row splitId rteDataId forwardRteDataId);
  _ ← table (rep e "eventobjid") (rteEventObjId_row splitId rteDataId forwardRteDataId);
  mret acc.

(** src/cam-app/src/DataInsert.cpp:566-579, [DataInsert::camInsert]. The loop from
    line 311 and the end of the table. *)
Definition events (splitId : Z) (camId : Z) (camData : msg) : M E () :=
  table (rep camData "rtelist") (rte_row splitId camId camData).

(** ** Signs *)

(** src/cam-app/src/DataInsert.cpp:657-676, [DataInsert::camInsert]. The point is
    that of the entry [i] of [rtelist], not of [rtslist]. *)
Definition rtsActivepath_row (splitId : Z) (camData : msg) (i j : nat) (rtsReferencePathId : Z)
  (k : nat) (_ : msg) (acc : str) : M E str :=
  activepathId ← next;
  e ← nth_msg (rep camData "rtelist") i;
  r ← nth_msg (rep e "referencepath") j;
  a ← nth_msg (rep r "activepath") k;
  let activepathLon := int a "lon" in
  let activepathLat := int a "lat" in
  let activepathEle := int a "ele" in
  acc ← row k 10240
    (lines ["INSERT INTO `rts_data_reference_path_position_3_d`";
    "					(`id`,`split_id`,`lon`,`lat`,`ele`,`rts_data_reference_path_id`)VALUES"])
    (lines ["(%lld,%d,%d,%d,%d,%lld),"])
    [L activepathId; D splitId; D activepathLon; D activepathLat; D activepathEle;
     L rtsReferencePathId] acc;
  mret acc.

(** src/cam-app/src/DataInsert.cpp:636-653, [DataInsert::camInsert]. *)
Definition rtsReferencePath_row (splitId : Z) (camData : msg) (i : nat) (rtsDataId : Z)
  (forwardRtsDataId : Z) (j : nat) (r : msg) (acc : str) : M E str :=
  rtsReferencePathId ← next;
  let pathRadius := int r "pathradius" in
  acc ← row j 10240
    (lines ["INSERT INTO `rts_data_reference_path`";
    "				(`id`,`split_id`,`path_radius`,`rts_data_id`,`forward_rts_data_id`)VALUES"])
    (lines ["(%lld,%d,%d,%lld,%lld),"])
    [L rtsReferencePathId; D splitId; D pathRadius; L rtsDataId; L forwardRtsDataId] acc;
  _ ← table (rep r "activepath") (rtsActivepath_row splitId camData i j rtsReferencePathId);
  mret acc.

(** src/cam-app/src/DataInsert.cpp:710-747, [DataInsert::camInsert]. *)
Definition rtsReferenceLink_row (splitId : Z) (rtsDataId : Z) (forwardRtsDataId : Z) (j : nat)
  (l : msg) (acc : str) : M E str :=
  rtsReferenceLinkId ← next;
  let upstreamNodeRegionId := opt_int (has l "upstreamnodeid")
    (int (l ~> "upstreamnodeid") "region") in
  let upstreamNodeId := opt_int (has l "upstreamnodeid") (int (l ~> "upstreamnodeid") "nodeid") in
  let downstreamNodeRegionId := opt_int (has l "upstreamnodeid")
    (int (l ~> "downstreamnodeid") "region") in
  let downstreamNodeId := opt_int (has l "upstreamnodeid")
    (int (l ~> "downstreamnodeid") "nodeid") in
  let referenceLanes := opt_int (has l "referencelanes")
    (int (l ~> "referencelanes") "referencelanes") in
  acc ← row j 10240
    (lines ["INSERT INTO `rts_data_reference_link`";
    "				(`id`,`split_id`,`upstream_node_region_id`,`upstream_node_id`,`downstream_node_region_id`,";
    "				`downstream_node_id`,`reference_lanes`,`rts_data_id`,`forward_rts_data_id`)VALUES"])
    (lines ["(%lld,%d,%d,%d,%d,%d,%d,%lld,%lld),"])
    [L rtsReferenceLinkId; D splitId; D upstreamNodeRegionId; D upstreamNodeId;
     D downstreamNodeRegionId; D downstreamNodeId; D referenceLanes; L rtsDataId;
     L forwardRtsDataId] acc;
  mret acc.

(** src/cam-app/src/DataInsert.cpp:583-631, [DataInsert::camInsert]. *)
Definition rtsData_row (splitId : Z) (camId : Z) (camData : msg) (i : nat) (e : msg)
  (acc : str) : M E str :=
  if (int e "datasource" =? 9) || (int e "datasource" =? 12) then mret acc else
  rtsDataId ← next;
  let rtsId := int e "rtsid" in
  let rtsType := int e "rtstype" in
  let dataSource := int e "datasource" in
  let priority := text e "priority" in
  let lat := opt_int (has e "rtspos") (int (e ~> "rtspos") "lat") in
  let lon := opt_int (has e "rtspos") (int (e ~> "rtspos") "lon") in
  let ele := opt_int (has e "rtspos") (int (e ~> "rtspos") "ele") in
  let startTime := opt_int (has e "timedetails") (int (e ~> "timedetails") "starttime") in
  let endTime := opt_int (has e "timedetails") (int (e ~> "timedetails") "endtime") in
  let endTimeConfidence := opt_int (has e "timedetails")
    (int (e ~> "timedetails") "endtimeconfidence") in
  let description := text e "description" in
  let pathRadius := int e "pathradius" in
  acc ← row i 10240
    (lines ["INSERT INTO `rts_data`";
    "			(`id`,`split_id`,`rts_id`,`rts_type`,`priority`,";
    "			`lat`,`lon`,`ele`,`start_time`,`end_time`,";
    "			`description`,`path_radius`,`data_source_id`,`end_time_confidence_id`,`cam_data_id`,`device_id`)VALUES"])
    (lines ["(%lld,%d,%d,%d,'%s',%d,%d,%d,%lld,%lld,'%s',%d,%lld,%d,%lld,'%s'),"])
    [L rtsDataId; D splitId; D rtsId; D rtsType; P priority; D lat; D lon; D ele; L startTime;
     L endTime; P description; D pathRadius; L dataSource; D endTimeConfidence; L camId;
     P (text camData "deviceid")] acc;
  forwardRtsDataId ← next;
  _ ← table (rep e "refpathlist") (rtsReferencePath_row splitId camData i rtsDataId forwardRtsDataId);
  _ ← table (rep e "reflinklist") (rtsReferenceLink_row splitId rtsDataId forwardRtsDataId);
  mret acc.

(** src/cam-app/src/DataInsert.cpp:764-777, [DataInsert::camInsert]. The loop from
    line 583 and the end of the table. *)
Definition signs (splitId : Z) (camId : Z) (camData : msg) : M E () :=
  table (rep camData "rtslist") (rtsData_row splitId camId camData).

End Rows.
End CamEvents.
