(* ===== verification/CamFlow.v ===== *)
(** * The traffic flow of a camera message

    The tables [DataInsert::camInsert] of [src/cam-app/src/DataInsert.cpp]
    writes for [trafficflow]. The many variables of a statistic are set in the
    branches of one chain of [else if]; each group of them that is printed in
    a row has a definition. *)

From S2P Require Import Prelude Printf Proto Insert.
Import Printf Proto Insert.

Module CamFlow.

Section Rows.
Context {E : Type} `{!Gen E}.

(** src/cam-app/src/DataInsert.cpp:913-932, [DataInsert::camInsert]. *)
Definition trafficFlowStatPos_row (splitId : Z) (trafficFlowStatId : Z) (k : nat) (q : msg)
  (acc : str) : M E str :=
  trafficFlowStatPosId ← next;
  let trafficFlowStatPosLon := int q "lon" in
  let trafficFlowStatPosLat := int q "lat" in
  let trafficFlowStatPosEle := int q "ele" in
  acc ← row k 10240
    (lines ["INSERT INTO `traffic_flow_stat_position_3_d`";
    "								(`id`,`split_id`,`lon`,`lat`,`ele`,`traffic_flow_stat_id`)VALUES"])
    (lines ["(%lld,%d,%d,%d,%d,%lld),"])
    [L trafficFlowStatPosId; D splitId; D trafficFlowStatPosLon; D trafficFlowStatPosLat;
     D trafficFlowStatPosEle; L trafficFlowStatId] acc;
  mret acc.

(** src/cam-app/src/DataInsert.cpp:1132-1157, [DataInsert::camInsert]. *)
Definition laneIndexAdd_row (splitId : Z) (trafficFlowStatId : Z) (k : nat) (x : msg)
  (acc : str) : M E str :=
  laneIndexAddId ← next;
  let laneIndexAddTimestamp := int x "timestamp" in
  let laneCapacity := int x "lanecapacity" in
  let laneSaturation := int x "lanesaturation" in
  let laneSpaceOccupy := int x "lanespaceoccupy" in
  let laneTimeOccupy := int x "lanetimeoccupy" in
  let laneAvgGrnQueue := int x "laneavggrnqueue" in
  let laneGrnUtilization := int x "lanegrnutilization" in
  acc ← row k 10240
    (lines ["INSERT INTO `lane_index_added`";
    "						(`id`,`split_id`,`timestamp`,`lane_capacity`,`lane_saturation`,";
    "						`lane_time_occupy`,`lane_space_occupy`,`lane_avg_grn_queue`,`lane_grn_utilization`,`traffic_flow_stat_id`)VALUES"])
    (lines ["(%lld,%d,%lld,%d,%d,%d,%d,%d,%d,%lld),"])
    [L laneIndexAddId; D splitId; L laneIndexAddTimestamp; D laneCapacity; D laneSaturation;
     D laneTimeOccupy; D laneSpaceOccupy; D laneAvgGrnQueue; D laneGrnUtilization;
     L trafficFlowStatId] acc;
  mret acc.

(** src/cam-app/src/DataInsert.cpp:1176-1201, [DataInsert::camInsert]. *)
Definition linkIndexAdd_row (splitId : Z) (trafficFlowStatId : Z) (k : nat) (x : msg)
  (acc : str) : M E str :=
  linkIndexAddId ← next;
  let linkIndexAddTimestamp := int x "timestamp" in
  let linkCapacity := int x "linkcapacity" in
  let linkSaturation := int x "linksaturation" in
  let linkSpaceOccupy := int x "linkspaceoccupy" in
  let linkTimeOccupy := int x "linktimeoccupy" in
  let linkAvgGrnQueue := int x "linkavggrnqueue" in
  let linkGrnUtilization := int x "linkgrnutilization" in
  acc ← row k 10240
    (lines ["INSERT INTO `link_index_added`";
    "						(`id`,`split_id`,`timestamp`,`link_capacity`,`link_saturation`,";
    "						`link_time_occupy`,`link_space_occupy`,`link_avg_grn_queue`,`link_grn_utilization`,`traffic_flow_stat_id`)VALUES"])
    (lines ["(%lld,%d,%lld,%d,%d,%d,%d,%d,%d,%lld),"])
    [L linkIndexAddId; D splitId; L linkIndexAddTimestamp; D linkCapacity; D linkSaturation;
     D linkTimeOccupy; D linkSpaceOccupy; D linkAvgGrnQueue; D linkGrnUtilization;
     L trafficFlowStatId] acc;
  mret acc.

(** src/cam-app/src/DataInsert.cpp:1220-1245, [DataInsert::camInsert]. *)
Definition movementIndexAdd_row (splitId : Z) (trafficFlowStatId : Z) (k : nat) (x : msg)
  (acc : str) : M E str :=
  movementIndexAddId ← next;
  let movementIndexAddTimestamp := int x "timestamp" in
  let movementCapacity := int x "movementcapacity" in
  let movementSaturation := int x "movementsaturation" in
  let movementSpaceOccupy := int x "movementspaceoccupy" in
  let movementTimeOccupy := int x "movementtimeoccupy" in
  let movementAvgGrnQueue := int x "movementavggrnqueue" in
  let movementGrnUtilization := int x "movementgrnutilization" in
  acc ← row k 10240
    (lines ["INSERT INTO `movement_index_added`";
    "						(`id`,`split_id`,`timestamp`,`movement_capacity`,`movement_saturation`,";
    "						`movement_time_occupy`,`movement_space_occupy`,`movement_avg_grn_queue`,`movement_grn_utilization`,`traffic_flow_stat_id`)VALUES"])
    (lines ["(%lld,%d,%lld,%d,%d,%d,%d,%d,%d,%lld),"])
    [L movementIndexAddId; D splitId; L movementIndexAddTimestamp; D movementCapacity;
     D movementSaturation; D movementTimeOccupy; D movementSpaceOccupy; D movementAvgGrnQueue;
     D movementGrnUtilization; L trafficFlowStatId] acc;
  mret acc.

(** src/cam-app/src/DataInsert.cpp:1264-1294, [DataInsert::camInsert]. *)
Definition nodeIndexAdd_row (splitId : Z) (trafficFlowStatId : Z) (k : nat) (x : msg)
  (acc : str) : M E str :=
  nodeIndexAddId ← next;
  let nodeIndexAddTimestamp := int x "timestamp" in
  let nodeCapacity := int x "nodecapacity" in
  let nodeSaturation := int x "nodesaturation" in
  let nodeSpaceOccupy := int x "nodespaceoccupy" in
  let nodeTimeOccupy := int x "nodetimeoccupy" in
  let nodeAvgGrnQueue := int x "nodeavggrnqueue" in
  let nodeGrnUtilization := int x "nodegrnutilization" in
  let demandIndex := int x "demandindex" in
  let supplyIndex := int x "supplyindex" in
  let theoryIndex := int x "theoryindex" in
  acc ← row k 10240
    (lines ["INSERT INTO `node_index_added`";
    "						(`id`,`split_id`,`timestamp`,`node_capacity`,`node_saturation`,";
    "						`node_time_occupy`,`node_space_occupy`,`node_avg_grn_queue`,`node_grn_utilization`,`demand_index`,";
    "						`supply_index`,`theory_index`,`traffic_flow_stat_id`)VALUES"])
    (lines ["(%lld,%d,%lld,%d,%d,%d,%d,%d,%d,%d,%d,%d,%lld),"])
    [L nodeIndexAddId; D splitId; L nodeIndexAddTimestamp; D nodeCapacity; D nodeSaturation;
     D nodeTimeOccupy; D nodeSpaceOccupy; D nodeAvgGrnQueue; D nodeGrnUtilization;
     D demandIndex; D supplyIndex; D theoryIndex; L trafficFlowStatId] acc;
  mret acc.

(** src/cam-app/src/DataInsert.cpp:1313-1335, [DataInsert::camInsert]. *)
Definition signalIndexAdd_row (splitId : Z) (trafficFlowStatId : Z) (k : nat) (x : msg)
  (acc : str) : M E str :=
  signalIndexAddId ← next;
  let signalPhaseId := int x "phaseid" in
  let signalGreenStartQueue := int x "greenstartqueue" in
  let signalRedStartQueue := int x "redstartqueue" in
  let signalGreenUtilization := int x "greenutilization" in
  acc ← row k 10240
    (lines ["INSERT INTO `signal_control_index_added`";
    "						(`id`,`split_id`,`phase_id`,`green_start_queue`,`red_start_queue`,";
    "						`green_utilization`,`traffic_flow_stat_id`)VALUES"])
    (lines ["(%lld,%d,%d,%d,%d,%d,%lld),"])
    [L signalIndexAddId; D splitId; D signalPhaseId; D signalGreenStartQueue;
     D signalRedStartQueue; D signalGreenUtilization; L trafficFlowStatId] acc;
  mret acc.

(** The element of the map a statistic is about, the branch the code takes
    for it: its tag, and the message in it. *)

(** src/cam-app/src/DataInsert.cpp:895-1043, [DataInsert::camInsert]. *)
Definition mapElementType (sta : msg) : Z :=
  let el := sta ~> "mapelement" in
  if negb (has sta "mapelement") then 0
  else if has el "detectorarea" then 1
  else if has el "lanestatinfo" then 2
  else if has el "sectionstatinfo" then 3
  else if has el "linkstatinfo" then 4
  else if has el "nodestatinfo" then 5
  else if has el "movementstatinfo" then 6
  else 0.

(** src/cam-app/src/DataInsert.cpp:897-906, [DataInsert::camInsert]. The
    arguments from [areaId] to [detectorAreaLaneId]. *)
Definition detector_args (sta : msg) : list arg :=
  let c := mapElementType sta =? 1 in
  let area := sta ~> "mapelement" ~> "detectorarea" in
  let c_node := c && has area "nodeid" in
  [D (opt_int c (int area "areaid"));
   L (opt_int c (int area "settime"));
   D (opt_int c_node (int (area ~> "nodeid") "region"));
   D (opt_int c_node (int (area ~> "nodeid") "nodeid"));
   D (opt_int c (int area "laneid"))].

(** src/cam-app/src/DataInsert.cpp:950-990, [DataInsert::camInsert]. The
    arguments from [laneId] to [laneExtId]. *)
Definition lane_args (sta : msg) : list arg :=
  let c := mapElementType sta =? 2 in
  let lane := sta ~> "mapelement" ~> "lanestatinfo" in
  let link := lane ~> "linkstatinfo" in
  let c_link := c && has lane "linkstatinfo" in
  let c_up := c_link && has link "upstreamnodeid" in
  let c_node := c_link && has link "nodestatinfo" in
  let section := lane ~> "sectionstatinfo" in
  let c_section := c && has lane "sectionstatinfo" in
  let slink := section ~> "linkstatinfo" in
  let c_slink := c_section && has section "linkstatinfo" in
  let c_sup := c_slink && has slink "upstreamnodeid" in
  let c_snode := c_slink && has slink "nodestatinfo" in
  [D (opt_int c (int lane "laneid"));
   D (opt_int c_up (int (link ~> "upstreamnodeid") "region"));
   D (opt_int c_up (int (link ~> "upstreamnodeid") "nodeid"));
   P (opt_text c_link (text link "name"));
   D (opt_int c_node (int (link ~> "nodestatinfo" ~> "nodeid") "region"));
   D (opt_int c_node (int (link ~> "nodestatinfo" ~> "nodeid") "nodeid"));
   P (opt_text c_link (text link "extid"));
   D (opt_int c_section (int section "sectionid"));
   D (opt_int c_sup (int (slink ~> "upstreamnodeid") "region"));
   D (opt_int c_sup (int (slink ~> "upstreamnodeid") "nodeid"));
   P (opt_text c_slink (text slink "name"));
   D (opt_int c_snode (int (slink ~> "nodestatinfo" ~> "nodeid") "region"));
   D (opt_int c_snode (int (slink ~> "nodestatinfo" ~> "nodeid") "nodeid"));
   P (opt_text c_slink (text slink "extid"));
   P (opt_text c_section (text section "extid"));
   P (opt_text c (text lane "extid"))].

(** src/cam-app/src/DataInsert.cpp:992-1012, [DataInsert::camInsert]. The
    arguments from [sectionId] to [sectionExtId]. *)
Definition section_args (sta : msg) : list arg :=
  let c := mapElementType sta =? 3 in
  let section := sta ~> "mapelement" ~> "sectionstatinfo" in
  let link := section ~> "linkstatinfo" in
  let c_link := c && has section "linkstatinfo" in
  let c_up := c_link && has link "upstreamnodeid" in
  let c_node := c_link && has link "nodestatinfo" in
  [D (opt_int c (int section "sectionid"));
   D (opt_int c_up (int (link ~> "upstreamnodeid") "region"));
   D (opt_int c_up (int (link ~> "upstreamnodeid") "nodeid"));
   P (opt_text c_link (text link "name"));
   D (opt_int c_node (int (link ~> "nodestatinfo" ~> "nodeid") "region"));
   D (opt_int c_node (int (link ~> "nodestatinfo" ~> "nodeid") "nodeid"));
   P (opt_text c_link (text link "extid"));
   P (opt_text c (text section "extid"))].

(** src/cam-app/src/DataInsert.cpp:1014-1029, [DataInsert::camInsert]. The
    arguments from [linkUpstreamNodeRegionId] to [linkExtId]. *)
Definition link_args (sta : msg) : list arg :=
  let c := mapElementType sta =? 4 in
  let link := sta ~> "mapelement" ~> "linkstatinfo" in
  let c_up := c && has link "upstreamnodeid" in
  let c_node := c && has link "nodestatinfo" in
  [D (opt_int c_up (int (link ~> "upstreamnodeid") "region"));
   D (opt_int c_up (int (link ~> "upstreamnodeid") "nodeid"));
   P (opt_text c (text link "name"));
   D (opt_int c_node (int (link ~> "nodestatinfo" ~> "nodeid") "region"));
   D (opt_int c_node (int (link ~> "nodestatinfo" ~> "nodeid") "nodeid"));
   P (opt_text c (text link "extid"))].

(** src/cam-app/src/DataInsert.cpp:1031-1039, [DataInsert::camInsert]. *)
Definition node_args (sta : msg) : list arg :=
  let node := sta ~> "mapelement" ~> "nodestatinfo" in
  let c := (mapElementType sta =? 5) && has node "nodeid" in
  [D (opt_int c (int (node ~> "nodeid") "region"));
   D (opt_int c (int (node ~> "nodeid") "nodeid"))].

(** src/cam-app/src/DataInsert.cpp:1041-1054, [DataInsert::camInsert]. The
    arguments from [movementRemoteIntersectionNodeRegionId] to
    [movementExtId]. *)
Definition movement_args (sta : msg) : list arg :=
  let c := mapElementType sta =? 6 in
  let move := sta ~> "mapelement" ~> "movementstatinfo" in
  let c_remote := c && has move "remoteintersection" in
  let c_node := c && has move "nodestatinfo" in
  [D (opt_int c_remote (int (move ~> "remoteintersection") "region"));
   D (opt_int c_remote (int (move ~> "remoteintersection") "nodeid"));
   D (opt_int c_node (int (move ~> "nodestatinfo" ~> "nodeid") "region"));
   D (opt_int c_node (int (move ~> "nodestatinfo" ~> "nodeid") "nodeid"));
   P (opt_text c (text move "extid"))].

(** src/cam-app/src/DataInsert.cpp:1055-1055, [DataInsert::camInsert]. *)
Definition turnDirection (sta : msg) : Z :=
  opt_int (mapElementType sta =? 6)
    (int (sta ~> "mapelement" ~> "movementstatinfo") "turndirection").

(** src/cam-app/src/DataInsert.cpp:1058-1079, [DataInsert::camInsert]. The
    arguments from [timestamp] to [stopNums]. *)
Definition volume_args (sta : msg) : list arg :=
  [L (int sta "timestamp"); D (int sta "volume"); D (int sta "speedpoint");
   D (int sta "speedarea"); D (int sta "density"); D (int sta "traveltime");
   D (int sta "delay"); D (int sta "queuelength"); D (int sta "queueint");
   D (int sta "congestion"); D (int sta "timeheadway"); D (int sta "spaceheadway");
   D (int sta "stopnums")].

(** src/cam-app/src/DataInsert.cpp:1129-1351, [DataInsert::camInsert]. The five
    tables of an extension. *)
Definition extension (splitId : Z) (trafficFlowStatId : Z) (x : msg) : M E () :=
  _ ← table (rep x "laneindex") (laneIndexAdd_row splitId trafficFlowStatId);
  _ ← table (rep x "linkindex") (linkIndexAdd_row splitId trafficFlowStatId);
  _ ← table (rep x "movementindex") (movementIndexAdd_row splitId trafficFlowStatId);
  _ ← table (rep x "nodeindex") (nodeIndexAdd_row splitId trafficFlowStatId);
  table (rep x "signalindex") (signalIndexAdd_row splitId trafficFlowStatId).

(** src/cam-app/src/DataInsert.cpp:908-947, [DataInsert::camInsert]. *)
Definition detector_polygon (splitId : Z) (trafficFlowStatId : Z) (sta : msg) : M E () :=
  let area := sta ~> "mapelement" ~> "detectorarea" in
  when_ ((mapElementType sta =? 1) && has area "polygon")
    (table (rep (area ~> "polygon") "pos") (trafficFlowStatPos_row splitId trafficFlowStatId)).

(** src/cam-app/src/DataInsert.cpp:1081-1128, [DataInsert::camInsert]. *)
Definition trafficFlowStat_row (splitId : Z) (camData : msg) (trafficFlowId : Z) (j : nat)
  (sta : msg) (acc : str) : M E str :=
  trafficFlowStatId ← next;
  _ ← detector_polygon splitId trafficFlowStatId sta;
  acc ← row j 10240
    (lines ["INSERT INTO `traffic_flow_stat`";
    "				(`id`,`split_id`,`area_id`,`set_time`,`detector_area_node_region_id`,";
    "				`detector_area_node_node_id`,`detector_area_lane_id`,`lane_id`,`lane_link_upstream_node_region_id`,`lane_link_upstream_node_node_id`,";
    "				`lane_link_name`, `lane_link_node_region_id`,`lane_link_node_node_id`, `lane_link_ext_id`,";
    "				`lane_section_id`,  `lane_section_link_upstream_node_region_id`, `lane_section_link_upstream_node_node_id`,`lane_section_link_name`, `lane_section_link_node_region_id`,";
    "				`lane_section_link_node_node_id`, `lane_section_link_ext_id`, `lane_section_ext_id`,`lane_ext_id`, `section_id`,";
    "				`section_link_upstream_node_region_id`, `section_link_upstream_node_node_id`, `section_link_name`,`section_link_node_region_id`, `section_link_node_node_id`,";
    "				`section_link_ext_id`,`section_ext_id`, `link_upstream_node_region_id`, `link_upstream_node_node_id`,`link_name`, `link_node_region_id`,";
    "				`link_node_node_id`, `link_ext_id`, `node_region_id`,`node_id`, `movement_remote_intersection_node_region_id`,";
    "				`movement_remote_intersection_node_id`, `movement_node_region_id`, `movement_node_node_id`,`movement_ext_id`, `timestamp`,";
    "				`volume`,`speed_point`,`speed_area`,`density`,`travel_time`,";
    "				`delay`,`queue_length`,`queue_int`,`congestion`,`time_headway`,";
    "				`space_headway`,`stop_nums`,`ptc_type_id`,`vehicle_type_id`,`maneuver_id`,";
    "				`map_element_type_id`,`traffic_flow_id`,`device_id`)VALUES"])
    (lines ["(%lld,%d,%d,%lld,%d,";
    "			%d,%d,%d,'%d',%d,";
    "			'%s',%d,%d,'%s',";
    "			%d,%d,%d,'%s',%d,";
    "			%d,'%s','%s','%s',%d,";
    "			%d,%d,'%s',%d,%d,";
    "			'%s','%s',%d,%d,'%s',%d,";
    "			%d,'%s',%d,%d,%d,";
    "			%d,%d,%d,'%s',%lld,";
    "			%d,%d,%d,%d,%d,";
    "			%d,%d,%d,%d,%d,";
    "			%d,%d,%lld,%lld,%lld,%lld,%lld,'%s'),"])
    ([L trafficFlowStatId; D splitId]
     ++ detector_args sta ++ lane_args sta ++ section_args sta ++ link_args sta
     ++ node_args sta ++ movement_args sta ++ volume_args sta
     ++ [L (int sta "ptctype"); L (int sta "vehicletype"); L (turnDirection sta);
         L (mapElementType sta); L trafficFlowId; P (text camData "deviceid")]) acc;
  _ ← when_ (has sta "trafficflowextension")
    (extension splitId trafficFlowStatId (sta ~> "trafficflowextension"));
  mret acc.

(** src/cam-app/src/DataInsert.cpp:781-824, [DataInsert::camInsert]. *)
Definition trafficFlow_row (splitId : Z) (camId : Z) (camData : msg) (i : nat) (fl : msg)
  (acc : str) : M E str :=
  trafficFlowId ← next;
  let nodeRegionId := opt_int (has fl "nodeid") (int (fl ~> "nodeid") "region") in
  let nodeId := opt_int (has fl "nodeid") (int (fl ~> "nodeid") "nodeid") in
  let genTime := int fl "gentime" in
  let stattype := fl ~> "stattype" in
  let interval := stattype ~> "interval" in
  let has_interval := has fl "stattype" && has stattype "interval" in
  let sequence := stattype ~> "sequence" in
  let has_sequence := has fl "stattype" && has stattype "sequence" in
  let jhiInterval := opt_int has_interval (int interval "interval") in
  let cycleStartTime := opt_int has_sequence (int sequence "cyclestarttime") in
  let cycleEndTime := opt_int has_sequence (int sequence "cycleendtime") in
  let cycleTime := opt_int has_sequence (int sequence "cycletime") in
  acc ← row i 10240
    (lines ["INSERT INTO `traffic_flow`";
    "			(`id`,`split_id`,`node_region_id`,`node_id`,`gen_time`,";
    "			`jhi_interval`,`cycle_start_time`,`cycle_end_time`,`cycle_time`,`cam_data_id`,`device_id`)VALUES"])
    (lines ["(%lld,%d,%d,%d,%lld,%d,%lld,%lld,%d,%lld,'%s'),"])
    [L trafficFlowId; D splitId; D nodeRegionId; D nodeId; L genTime; D jhiInterval;
     L cycleStartTime; L cycleEndTime; D cycleTime; L camId; P (text camData "deviceid")] acc;
  _ ← table (rep fl "stats") (trafficFlowStat_row splitId camData trafficFlowId);
  mret acc.

(** src/cam-app/src/DataInsert.cpp:1368-1381, [DataInsert::camInsert]. The loop
    from line 781 and the end of the table. *)
Definition flows (splitId : Z) (camId : Z) (camData : msg) : M E () :=
  table (rep camData "trafficflow") (trafficFlow_row splitId camId camData).

End Rows.
End CamFlow.
