(* ===== verification/CamSignal.v ===== *)
(** * The signals of a camera message

    The tables [DataInsert::camInsert] of [src/cam-app/src/DataInsert.cpp]
    writes for [roadsignalstate] and [signalschemelist]. *)

From S2P Require Import Prelude Printf Proto Insert.
Import Printf Proto Insert.

Module CamSignal.

Section Rows.
Context {E : Type} `{!Gen E}.

(** ** States of the signals *)

(** src/cam-app/src/DataInsert.cpp:1440-1475, [DataInsert::camInsert]. *)
Definition phaseState_row (splitId : Z) (camData : msg) (phaseDataId : Z) (k : nat) (phs : msg)
  (acc : str) : M E str :=
  phaseStateId ← next;
  let lightId := int phs "light" in
  let startTime := opt_int (has phs "timing") (int (phs ~> "timing") "starttime") in
  let minEndTime := opt_int (has phs "timing") (int (phs ~> "timing") "minendtime") in
  let maxEndTime := opt_int (has phs "timing") (int (phs ~> "timing") "maxendtime") in
  let likelyEndTime := opt_int (has phs "timing") (int (phs ~> "timing") "likelyendtime") in
  let phasesStateTimeConfidence := opt_int (has phs "timing")
    (int (phs ~> "timing") "timeconfidence") in
  let nextStartTime := opt_int (has phs "timing") (int (phs ~> "timing") "nextstarttime") in
  let nextDuration := opt_int (has phs "timing") (int (phs ~> "timing") "nextduration") in
  acc ← row k 10240
    (lines ["INSERT INTO `phase_state`";
    "						(`id`,`split_id`,`start_time`,`min_end_time`,`max_end_time`,";
    "						`likely_end_time`,`next_start_time`,`next_duration`,`light_id`,`time_confidence_id`,`phase_id`,`device_id`)VALUES"])
    (lines ["(%lld,%d,%d,%d,%d,%d,%d,%d,%lld,%lld,%lld,'%s'),"])
    [L phaseStateId; D splitId; D startTime; D minEndTime; D maxEndTime; D likelyEndTime;
     D nextStartTime; D nextDuration; L lightId; L phasesStateTimeConfidence; L phaseDataId;
     P (text camData "deviceid")] acc;
  mret acc.

(** src/cam-app/src/DataInsert.cpp:1419-1436, [DataInsert::camInsert]. *)
Definition phaseData_row (splitId : Z) (camData : msg) (intersectionStateId : Z) (j : nat)
  (ph : msg) (acc : str) : M E str :=
  phaseDataId ← next;
  let phaseId := int ph "id" in
  acc ← row j 10240
    (lines ["INSERT INTO `phase`";
    "					(`id`,`split_id`,`phase_id`,`intersection_state_id`,`device_id`)VALUES"])
    (lines ["(%lld,%d,%d,%lld,'%s'),"])
    [L phaseDataId; D splitId; D phaseId; L intersectionStateId; P (text camData "deviceid")] acc;
  _ ← table (rep ph "phasestates") (phaseState_row splitId camData phaseDataId);
  mret acc.

(** src/cam-app/src/DataInsert.cpp:1387-1415, [DataInsert::camInsert]. *)
Definition intersectionState_row (splitId : Z) (camId : Z) (camData : msg) (i : nat)
  (isec : msg) (acc : str) : M E str :=
  intersectionStateId ← next;
  let nodeRegionId := opt_int (has isec "intersectionid")
    (int (isec ~> "intersectionid") "region") in
  let nodeId := opt_int (has isec "intersectionid") (int (isec ~> "intersectionid") "nodeid") in
  let status := text isec "status" in
  let intersectionStateTimestamp := int isec "timestamp" in
  let intersectionStateTimeConfidence := int isec "timeconfidence" in
  acc ← row i 10240
    (lines ["INSERT INTO `intersection_state`";
    "				(`id`,`split_id`,`node_region_id`,`node_id`,`status`,";
    "				`timestamp`,`time_confidence_id`,`cam_data_id`,`device_id`)VALUES"])
    (lines ["(%lld,%d,%d,%d,'%s',%lld,%lld,%lld,'%s'),"])
    [L intersectionStateId; D splitId; D nodeRegionId; D nodeId; P status;
     L intersectionStateTimestamp; L intersectionStateTimeConfidence; L camId;
     P (text camData "deviceid")] acc;
  _ ← table (rep isec "phases") (phaseData_row splitId camData intersectionStateId);
  mret acc.

(** src/cam-app/src/DataInsert.cpp:1505-1519, [DataInsert::camInsert]. The loop from
    line 1387 and the end of the table. *)
Definition signals (splitId : Z) (camId : Z) (camData : msg) : M E () :=
  when_ (has camData "roadsignalstate")
    (table (rep (camData ~> "roadsignalstate") "intersections")
      (intersectionState_row splitId camId camData)).

(** ** Schemes *)

(** src/cam-app/src/DataInsert.cpp:1663-1690, [DataInsert::camInsert]. *)
Definition movements_row (splitId : Z) (camData : msg) (optimPhaseId : Z) (m : nat) (mv : msg)
  (acc : str) : M E str :=
  movementsId ← next;
  let movementsNodeRegionId := opt_int (has mv "remoteintersection")
    (int (mv ~> "remoteintersection") "region") in
  let movementsNodeId := opt_int (has mv "remoteintersection")
    (int (mv ~> "remoteintersection") "nodeid") in
  let movementsPhaseId := int mv "phaseid" in
  let movementsTurnDirectionId := int mv "turndirection" in
  acc ← row m 10240
    (lines ["INSERT INTO `optim_phase_movement_ex`";
    "						(`id`,`split_id`,`node_region_id`,`node_id`,`phase_id`,";
    "						`turn_direction_id`,`optim_phase_id`,`device_id`)VALUES"])
    (lines ["(%lld,%d,%d,%d,%d,%lld,%lld,'%s'),"])
    [L movementsId; D splitId; D movementsNodeRegionId; D movementsNodeId; D movementsPhaseId;
     L movementsTurnDirectionId; L optimPhaseId; P (text camData "deviceid")] acc;
  mret acc.

(** src/cam-app/src/DataInsert.cpp:1631-1658, [DataInsert::camInsert]. *)
Definition optimPhase_row (splitId : Z) (camData : msg) (optimId : Z) (k : nat) (oph : msg)
  (acc : str) : M E str :=
  optimPhaseId ← next;
  let phaseId := int oph "phaseid" in
  let phaseOrder := int oph "order" in
  let phaseTime := int oph "phasetime" in
  let phaseGreen := int oph "green" in
  let phaseYellowTime := int oph "phaseyellowtime" in
  let phaseAllRedTime := int oph "phaseallredtime" in
  let phaseMinGreen := int oph "mingreen" in
  let phaseMaxGreen := int oph "maxgreen" in
  acc ← row k 10240
    (lines ["INSERT INTO `optim_phase`";
    "					(`id`,`split_id`,`phase_id`,`jhi_order`,`phase_time`,";
    "					`green`,`phase_yellow_time`,`phase_all_red_time`,`min_green`,`max_green`,`optim_data_id`,`device_id`)VALUES"])
    (lines ["(%lld,%d,%d,%d,%d,";
    "                %d,%d,%d,%d,%d,%lld,'%s'),"])
    [L optimPhaseId; D splitId; D phaseId; D phaseOrder; D phaseTime; D phaseGreen;
     D phaseYellowTime; D phaseAllRedTime; D phaseMinGreen; D phaseMaxGreen; L optimId;
     P (text camData "deviceid")] acc;
  _ ← table (rep oph "movementid") (movements_row splitId camData optimPhaseId);
  mret acc.

(** src/cam-app/src/DataInsert.cpp:1554-1626, [DataInsert::camInsert]. *)
Definition optim_row (splitId : Z) (camData : msg) (signalSchemeId : Z) (j : nat) (opt : msg)
  (acc : str) : M E str :=
  optimId ← next;
  let optimtimetype := opt ~> "optimtimetype" in
  let single := optimtimetype ~> "single" in
  let has_single := has opt "optimtimetype" && has optimtimetype "single" in
  let periodic := optimtimetype ~> "periodic" in
  let has_periodic := has opt "optimtimetype" && has optimtimetype "periodic" in
  let fromtimepoint := periodic ~> "fromtimepoint" in
  let has_fromtimepoint := has_periodic && has periodic "fromtimepoint" in
  let totimepoint := periodic ~> "totimepoint" in
  let has_totimepoint := has_periodic && has periodic "totimepoint" in
  let optimStartTime := opt_int has_single (int single "starttime") in
  let optimEndTime := opt_int has_single (int single "endtime") in
  let monthFilter := opt_int has_periodic (int periodic "monthfilter") in
  let dayFilter := opt_int has_periodic (int periodic "dayfilter") in
  let weekdayFilter := opt_int has_periodic (int periodic "weekdayfilter") in
  let fromhh := opt_int has_fromtimepoint (int fromtimepoint "hh") in
  let frommm := opt_int has_fromtimepoint (int fromtimepoint "mm") in
  let fromss := opt_int has_fromtimepoint (int fromtimepoint "ss") in
  let tohh := opt_int has_totimepoint (int totimepoint "hh") in
  let tomm := opt_int has_totimepoint (int totimepoint "mm") in
  let toss := opt_int has_totimepoint (int totimepoint "ss") in
  let optimCycleTime := int opt "optimcycletime" in
  let minCycleTime := int opt "mincycletime" in
  let maxCycleTime := int opt "maxcycletime" in
  let coorPhase := text opt "coorphase" in
  let offset := int opt "offset" in
  acc ← row j 10240
    (lines ["INSERT INTO `optim_data`";
    "				(`id`,`split_id`,`start_time`,`end_time`,`month_filter`,";
    "				`day_filter`,`weekday_filter`,`fromhh`,`frommm`,`fromss`,";
    "				`tohh`,`tomm`,`toss`,`optim_cycle_time`,`min_cycle_time`,";
    "				`max_cycle_time`,`coor_phase`,`offset`,`signal_scheme_id`,`device_id`)VALUES"])
    (lines ["(%lld,%d,%lld,%lld,%d,";
    "            %d,%d,%d,%d,%d,";
    "            %d,%d,%d,%d,%d,";
    "            %d,'%s',%d,%lld,'%s'),"])
    [L optimId; D splitId; L optimStartTime; L optimEndTime; D monthFilter; D dayFilter;
     D weekdayFilter; D fromhh; D frommm; D fromss; D tohh; D tomm; D toss; D optimCycleTime;
     D minCycleTime; D maxCycleTime; P coorPhase; D offset; L signalSchemeId;
     P (text camData "deviceid")] acc;
  _ ← table (rep opt "optimphaselist") (optimPhase_row splitId camData optimId);
  mret acc.

(** src/cam-app/src/DataInsert.cpp:1524-1549, [DataInsert::camInsert]. *)
Definition signalScheme_row (splitId : Z) (camId : Z) (camData : msg) (i : nat) (sch : msg)
  (acc : str) : M E str :=
  signalSchemeId ← next;
  let signalSchemeNodeRegionId := opt_int (has sch "nodeid") (int (sch ~> "nodeid") "region") in
  let signalSchemeNodeId := opt_int (has sch "nodeid") (int (sch ~> "nodeid") "nodeid") in
  let optimType := int sch "optimtype" in
  let signalSchemetimestamp := int sch "timestamp" in
  acc ← row i 10240
    (lines ["INSERT INTO `signal_scheme`";
    "			(`id`,`split_id`,`node_region_id`,`node_id`,`optim_type`,`timestamp`,`cam_data_id`,`device_id`)VALUES"])
    (lines ["(%lld,%d,%d,%d,%d,%lld,%lld,'%s'),"])
    [L signalSchemeId; D splitId; D signalSchemeNodeRegionId; D signalSchemeNodeId; D optimType;
     L signalSchemetimestamp; L camId; P (text camData "deviceid")] acc;
  _ ← table (rep sch "optimdatalist") (optim_row splitId camData signalSchemeId);
  mret acc.

(** src/cam-app/src/DataInsert.cpp:1737-1749, [DataInsert::camInsert]. The loop from
    line 1524 and the end of the table. *)
Definition schemes (splitId : Z) (camId : Z) (camData : msg) : M E () :=
  table (rep camData "signalschemelist") (signalScheme_row splitId camId camData).

End Rows.
End CamSignal.
