(* ===== verification/CamRsc.v ===== *)
(** * The coordination messages of a camera message

    The tables [DataInsert::camInsert] of [src/cam-app/src/DataInsert.cpp]
    writes for [rsclist]. *)

From S2P Require Import Prelude Printf Proto Insert.
Import Printf Proto Insert.

Module CamRsc.

Section Rows.
Context {E : Type} `{!Gen E}.

(** src/cam-app/src/DataInsert.cpp:2224-2239, [DataInsert::camInsert]. *)
Definition rscDriveSugPos_row (splitId : Z) (rsclistId : Z) (j : nat) (a : msg) (acc : str) : M
  E str :=
  rscDriveSugPosId ← next;
  acc ← row j 4096
    (lines ["INSERT INTO `rsc_data_drive_suggestion_position_3_d`(`id`,`split_id`,`lat`,`lon`,`ele`,`rsc_data_id`)VALUES"])
    (lines ["(%lld,%d,%d,%d,%d,%lld),"])
    [L rscDriveSugPosId; D splitId; D (int a "lat"); D (int a "lon"); D (int a "ele");
     L rsclistId] acc;
  mret acc.

(** src/cam-app/src/DataInsert.cpp:2260-2349, [DataInsert::camInsert]. *)
Definition rscPathPlanning_row (splitId : Z) (rsclistId : Z) (k : nat) (pp : msg) (acc : str) :
  M E str :=
  rscPathPlanningId ← next;
  let rscPathPlanningLat := opt_int (has pp "pos") (int (pp ~> "pos") "lat") in
  let rscPathPlanningLon := opt_int (has pp "pos") (int (pp ~> "pos") "lon") in
  let rscPathPlanningEle := opt_int (has pp "pos") (int (pp ~> "pos") "ele") in
  let rscposConfidPosCfd := opt_int (has pp "posconfid") (int (pp ~> "posconfid") "posconfid") in
  let rscposConfidEleCfd := opt_int (has pp "posconfid") (int (pp ~> "posconfid") "eleconfid") in
  let rscAcceSetLat := opt_int (has pp "acceleration") (int (pp ~> "acceleration") "lat") in
  let rscAcceSetLon := opt_int (has pp "acceleration") (int (pp ~> "acceleration") "lon") in
  let rscAcceSetVert := opt_int (has pp "acceleration") (int (pp ~> "acceleration") "vert") in
  let rscAcceSetYaw := opt_int (has pp "acceleration") (int (pp ~> "acceleration") "yaw") in
  let rscAcceSetLatCfd := opt_int (has pp "accelerationconfid")
    (int (pp ~> "accelerationconfid") "lataccelconfid") in
  let rscAcceSetLonCfd := opt_int (has pp "accelerationconfid")
    (int (pp ~> "accelerationconfid") "lonaccelconfid") in
  let rscAcceSetVertCfd := opt_int (has pp "accelerationconfid")
    (int (pp ~> "accelerationconfid") "verticalaccelconfid") in
  let rscAcceSetYawCfd := opt_int (has pp "accelerationconfid")
    (int (pp ~> "accelerationconfid") "yawrateconfid") in
  let posinmap := pp ~> "posinmap" in
  let upstreamnodeid := posinmap ~> "upstreamnodeid" in
  let has_upstreamnodeid := has pp "posinmap" && has posinmap "upstreamnodeid" in
  let downstreamnodeid := posinmap ~> "downstreamnodeid" in
  let has_downstreamnodeid := has pp "posinmap" && has posinmap "downstreamnodeid" in
  let referencelanes := posinmap ~> "referencelanes" in
  let has_referencelanes := has pp "posinmap" && has posinmap "referencelanes" in
  let pathPlanningUpstreamNodeRegionId := opt_int has_upstreamnodeid
    (int upstreamnodeid "region") in
  let pathPlanningUpstreamNodeId := opt_int has_upstreamnodeid (int upstreamnodeid "nodeid") in
  let pathPlanningDownstreamNodeRegionId := opt_int has_downstreamnodeid
    (int downstreamnodeid "region") in
  let pathPlanningDownstreamNodeId := opt_int has_downstreamnodeid
    (int downstreamnodeid "nodeid") in
  let pathPlanningReferenceLanes := opt_int has_referencelanes
    (int referencelanes "referencelanes") in
  acc ← row k 10240
    (lines ["INSERT INTO `rsc_data_path_planning_point`(`id`,`split_id`,`lat`,`lon`,`ele`,";
    "						`upstream_node_region_id`,`upstream_node_id`,`downstream_node_region_id`,`downstream_node_id`,`reference_lanes`,";
    "						`speed`,`heading`,`acceleration_lon`,`acceleration_lat`,`acceleration_vert`,";
    "						`acceleration_yaw`,`estimated_time`,`pos_confid_id`,`ele_confid_id`,`speed_confid_id`,";
    "						`heading_confid_id`,`lon_accel_confid_id`,`lat_accel_confid_id`,`vertical_accel_confid_id`,`yaw_rate_confid_id`,";
    "						`time_confidence_id`,`rsc_data_id`)VALUES"])
    (lines ["(%lld,%d,%d,%d,%d,";
    "					%d,%d,%d,%d,%d,";
    "					%d,%d,%d,%d,%d,";
    "					%d,%d,%d,%d,%d,";
    "					%d,%d,%d,%d,%d,%d,%lld),"])
    [L rscPathPlanningId; D splitId; D rscPathPlanningLat; D rscPathPlanningLon;
     D rscPathPlanningEle; D pathPlanningUpstreamNodeRegionId; D pathPlanningUpstreamNodeId;
     D pathPlanningDownstreamNodeRegionId; D pathPlanningDownstreamNodeId;
     D pathPlanningReferenceLanes; D (int pp "speed"); D (int pp "heading"); D rscAcceSetLon;
     D rscAcceSetLat; D rscAcceSetVert; D rscAcceSetYaw; D (int pp "estimatedtime");
     D rscposConfidPosCfd; D rscposConfidEleCfd; D (int pp "speedconfid");
     D (int pp "headingconfid"); D rscAcceSetLonCfd; D rscAcceSetLatCfd; D rscAcceSetVertCfd;
     D rscAcceSetYawCfd; D (int pp "timeconfidence"); L rsclistId] acc;
  mret acc.

(** src/cam-app/src/DataInsert.cpp:2394-2409, [DataInsert::camInsert]. *)
Definition rscLaneCoorPos_row (splitId : Z) (rsclistId : Z) (m : nat) (a : msg) (acc : str) : M
  E str :=
  rscLaneCoorPosId ← next;
  acc ← row m 10240
    (lines ["INSERT INTO `rsc_data_lane_coordination_position_3_d`(`id`,`split_id`,`lat`,`lon`,`ele`,`rsc_data_id`)VALUES"])
    (lines ["(%lld,%d,%d,%d,%d,%lld),"])
    [L rscLaneCoorPosId; D splitId; D (int a "lat"); D (int a "lon"); D (int a "ele");
     L rsclistId] acc;
  mret acc.

(** src/cam-app/src/DataInsert.cpp:2193-2223, [DataInsert::camInsert]. The
    arguments from [vehId] to [driveSuggestionPathRadius]. *)
Definition suggestion_args (rs : msg) : list arg :=
  let c := has rs "coordinates" in
  let co := rs ~> "coordinates" in
  let sug := co ~> "drivesuggestion" in
  let c_sug := c && has co "drivesuggestion" in
  let link := sug ~> "relatedlink" in
  let c_link := c_sug && has sug "relatedlink" in
  let c_up := c_link && has link "upstreamnodeid" in
  let c_down := c_link && has link "downstreamnodeid" in
  [P (opt_text c (text co "vehid"));
   D (opt_int (c_sug && has sug "suggestion") (int (sug ~> "suggestion") "drivebehavior"));
   D (opt_int c_sug (int sug "timeoffset"));
   D (opt_int c_up (int (link ~> "upstreamnodeid") "region"));
   D (opt_int c_up (int (link ~> "upstreamnodeid") "nodeid"));
   D (opt_int c_down (int (link ~> "downstreamnodeid") "region"));
   D (opt_int c_down (int (link ~> "downstreamnodeid") "nodeid"));
   D (opt_int (c_link && has link "referencelanes")
     (int (link ~> "referencelanes") "referencelanes"));
   D (opt_int (c_sug && has sug "relatedpath") (int (sug ~> "relatedpath") "pathradius"))].

(** src/cam-app/src/DataInsert.cpp:2371-2440, [DataInsert::camInsert]. The
    arguments from [laneCoordinatioUpstreamNodeRegionId] to [description]. *)
Definition lane_coordination_args (rs : msg) : list arg :=
  let c := has rs "lanecoordinates" in
  let lc := rs ~> "lanecoordinates" in
  let lane := lc ~> "targetlane" in
  let c_lane := c && has lc "targetlane" in
  let c_up := c_lane && has lane "upstreamnodeid" in
  let c_down := c_lane && has lane "downstreamnodeid" in
  [D (opt_int c_up (int (lane ~> "upstreamnodeid") "region"));
   D (opt_int c_up (int (lane ~> "upstreamnodeid") "nodeid"));
   D (opt_int c_down (int (lane ~> "downstreamnodeid") "region"));
   D (opt_int c_down (int (lane ~> "downstreamnodeid") "nodeid"));
   D (opt_int (c_lane && has lane "referencelanes")
     (int (lane ~> "referencelanes") "referencelanes"));
   D (opt_int (c && has lc "relatedpath") (int (lc ~> "relatedpath") "pathradius"));
   L (opt_int c (int lc "tbegin"));
   L (opt_int c (int lc "tend"));
   D (opt_int c (int lc "recommendedspeed"));
   D (opt_int (c && has lc "recommendedbehavior")
     (int (lc ~> "recommendedbehavior") "drivebehavior"));
   D (opt_int (c && has lc "info") (int (lc ~> "info") "coordinationinfo"));
   P (opt_text c (text lc "description"))].

(** src/cam-app/src/DataInsert.cpp:2220-2362, [DataInsert::camInsert]. The
    tables of the coordination of a vehicle. *)
Definition suggestion_tables (splitId : Z) (rsclistId : Z) (rs : msg) : M E () :=
  let co := rs ~> "coordinates" in
  let sug := co ~> "drivesuggestion" in
  when_ (has rs "coordinates")
    (_ ← when_ (has co "drivesuggestion" && has sug "relatedpath")
       (table (rep (sug ~> "relatedpath") "activepath") (rscDriveSugPos_row splitId rsclistId));
     when_ (has co "pathguidance")
       (table (rep (co ~> "pathguidance") "pathplanning") (rscPathPlanning_row splitId rsclistId))).

(** src/cam-app/src/DataInsert.cpp:2390-2424, [DataInsert::camInsert]. The
    table of the coordination of a lane. *)
Definition lane_tables (splitId : Z) (rsclistId : Z) (rs : msg) : M E () :=
  let lc := rs ~> "lanecoordinates" in
  when_ (has rs "lanecoordinates" && has lc "relatedpath")
    (table (rep (lc ~> "relatedpath") "activepath") (rscLaneCoorPos_row splitId rsclistId)).

(** src/cam-app/src/DataInsert.cpp:2441-2466, [DataInsert::camInsert].
    [vehicleCoordinationInfo] stays 0. *)
Definition rsc_row (splitId : Z) (camId : Z) (i : nat) (rs : msg) (acc : str) : M E str :=
  rsclistId ← next;
  let vehicleCoordinationInfo := 0 in
  let rscLat := opt_int (has rs "pos") (int (rs ~> "pos") "lat") in
  let rscLon := opt_int (has rs "pos") (int (rs ~> "pos") "lon") in
  let rscEle := opt_int (has rs "pos") (int (rs ~> "pos") "ele") in
  _ ← suggestion_tables splitId rsclistId rs;
  _ ← lane_tables splitId rsclistId rs;
  acc ← row i 40960
    (lines ["INSERT INTO `rsc_data`(`id`,`split_id`,`msg_cnt`,`rsu_id`,`timestamp`,";
    "			`lat`,`lon`,`ele`,`veh_id`,`drive_suggestion_suggestion`,";
    "			`time_offset`,`drive_suggestion_upstream_node_region_id`,`drive_suggestion_upstream_node_id`,`drive_suggestion_downstream_node_region_id`,`drive_suggestion_downstream_node_id`,";
    "			`drive_suggestion_reference_lanes`,`drive_suggestion_path_radius`,`coordinates_info`,`lane_coordinatio_upstream_node_region_id`,`lane_coordinatio_upstream_node_id`,";
    "			`lane_coordinatio_downstream_node_region_id`,`lane_coordinatio_downstream_node_id`,`lane_coordinatio_reference_lanes`,`path_radius`,`t_begin`,";
    "			`t_end`,`recommended_speed`,`recommended_behavior`,`lane_coordinates_info`,`description`,";
    "			`cam_data_id`)VALUES"])
    (lines ["(%lld,%d,%d,'%s',%lld,";
    "		%d,%d,%d,'%s',%d,";
    "		%d,%d,%d,%d,%d,";
    "		%d,%d,%d,%d,%d,";
    "		%d,%d,%d,%d,%lld,";
    "		%lld,%d,%d,%d,'%s',%lld),"])
    ([L rsclistId; D splitId; D (int rs "msgcnt"); P (text rs "rsuid"); L (int rs "timestamp");
      D rscLat; D rscLon; D rscEle]
     ++ suggestion_args rs ++ [D vehicleCoordinationInfo] ++ lane_coordination_args rs
     ++ [L camId]) acc;
  mret acc.

(** src/cam-app/src/DataInsert.cpp:2468-2480, [DataInsert::camInsert]. The loop
    from line 2157 and the end of the table. *)
Definition rscs (splitId : Z) (camId : Z) (camData : msg) : M E () :=
  table (rep camData "rsclist") (rsc_row splitId camId).

End Rows.
End CamRsc.
