(* ===== verification/CamVir.v ===== *)
(** * The requests of vehicles in a camera message

    The tables [DataInsert::camInsert] of [src/cam-app/src/DataInsert.cpp]
    writes for [virlist]. The innermost of its loops, over the points of a
    sensor area, tests and counts up the variable [i] of the outermost loop
    and leaves its own variable [m] at 0; so [i] is part of the state of every
    loop here, and the message is read at the [i] of the moment. *)

From S2P Require Import Prelude Printf Proto Insert.
Import Printf Proto Insert.

Module CamVir.

Section Rows.
Context {E : Type} `{!Gen E}.

(** src/cam-app/src/DataInsert.cpp:2625-2728, [DataInsert::camInsert]. *)
Definition virPath_row (splitId : Z) (virId : Z) (j : nat) (pp : msg) (acc : str) : M E str :=
  virPathId ← next;
  let virPathSpeed := int pp "speed" in
  let virPathHeading := int pp "heading" in
  let virPathSpeedConfid := int pp "speedconfid" in
  let virPathHeadingConfid := int pp "headingconfid" in
  let virPathEstimatedTime := int pp "estimatedtime" in
  let virPathTimeConfidence := int pp "timeconfidence" in
  let virPathPosLat := opt_int (has pp "pos") (int (pp ~> "pos") "lat") in
  let virPathPosLon := opt_int (has pp "pos") (int (pp ~> "pos") "lon") in
  let virPathPosEle := opt_int (has pp "pos") (int (pp ~> "pos") "ele") in
  let virPathPosConfid := opt_int (has pp "posconfid") (int (pp ~> "posconfid") "posconfid") in
  let virPathEleConfid := opt_int (has pp "posconfid") (int (pp ~> "posconfid") "eleconfid") in
  let virPathAcclerationLon := opt_int (has pp "acceleration")
    (int (pp ~> "acceleration") "lon") in
  let virPathAcclerationLat := opt_int (has pp "acceleration")
    (int (pp ~> "acceleration") "lat") in
  let virPathAcclerationVert := opt_int (has pp "acceleration")
    (int (pp ~> "acceleration") "vert") in
  let virPathAcclerationYaw := opt_int (has pp "acceleration")
    (int (pp ~> "acceleration") "yaw") in
  let virPathLonAccelConfid := opt_int (has pp "accelerationconfid")
    (int (pp ~> "accelerationconfid") "lonaccelconfid") in
  let virPathLatAccelConfid := opt_int (has pp "accelerationconfid")
    (int (pp ~> "accelerationconfid") "lataccelconfid") in
  let virPathVertAccelConfid := opt_int (has pp "accelerationconfid")
    (int (pp ~> "accelerationconfid") "verticalaccelconfid") in
  let virPathYawAccelConfid := opt_int (has pp "accelerationconfid")
    (int (pp ~> "accelerationconfid") "yawrateconfid") in
  let posinmap := pp ~> "posinmap" in
  let referencelanes := posinmap ~> "referencelanes" in
  let has_referencelanes := has pp "posinmap" && has posinmap "referencelanes" in
  let upstreamnodeid := posinmap ~> "upstreamnodeid" in
  let has_upstreamnodeid := has pp "posinmap" && has posinmap "upstreamnodeid" in
  let downstreamnodeid := posinmap ~> "downstreamnodeid" in
  let has_downstreamnodeid := has pp "posinmap" && has posinmap "downstreamnodeid" in
  let virPathReferenceLanes := opt_int has_referencelanes (int referencelanes "referencelanes") in
  let virPathUpstreamNodeRegionId := opt_int has_upstreamnodeid (int upstreamnodeid "region") in
  let virPathUpstreamNodeId := opt_int has_upstreamnodeid (int upstreamnodeid "nodeid") in
  let virPathDownstreamNodeRegionId := opt_int has_downstreamnodeid
    (int downstreamnodeid "region") in
  let virPathDownstreamNodeId := opt_int has_downstreamnodeid (int downstreamnodeid "nodeid") in
  acc ← row j 10240
    (lines ["INSERT INTO `vir_data_path_planning_point`";
    "				(`id`,`split_id`,`lat`,`lon`,`ele`,";
    "				`upstream_node_region_id`,`upstream_node_id`,`downstream_node_region_id`,`downstream_node_id`,`reference_lanes`,";
    "				`speed`,`heading`,`acceleration_lon`,`acceleration_lat`,`acceleration_vert`,";
    "				`acceleration_yaw`,`estimated_time`,`pos_confid_id`,`ele_confid_id`,`speed_confid_id`,";
    "				`heading_confid_id`,`lon_accel_confid_id`,`lat_accel_confid_id`,`vertical_accel_confid_id`,`yaw_rate_confid_id`,";
    "				`time_confidence_id`,`vir_data_id`)VALUES"])
    (lines ["(%lld,%d,%d,%d,%d,";
    "			%d,%d,%d,%d,%d,";
    "			%d,%d,%d,%d,%d,";
    "			%d,%d,%d,%d,%d,";
    "        		%d,%d,%d,%d,%d,%d,%lld),"])
    [L virPathId; D splitId; D virPathPosLat; D virPathPosLon; D virPathPosEle;
     D virPathUpstreamNodeRegionId; D virPathUpstreamNodeId; D virPathDownstreamNodeRegionId;
     D virPathDownstreamNodeId; D virPathReferenceLanes; D virPathSpeed; D virPathHeading;
     D virPathAcclerationLon; D virPathAcclerationLat; D virPathAcclerationVert;
     D virPathAcclerationYaw; D virPathEstimatedTime; D virPathPosConfid; D virPathEleConfid;
     D virPathSpeedConfid; D virPathHeadingConfid; D virPathLonAccelConfid;
     D virPathLatAccelConfid; D virPathVertAccelConfid; D virPathYawAccelConfid;
     D virPathTimeConfidence; L virId] acc;
  mret acc.

(** ** Reading the message at [i] and [j] *)

Definition reqs (v : msg) : list msg := rep (v ~> "intandreq") "reqs".
Definition areas (rq : msg) : list msg := rep (rq ~> "info" ~> "sensorsharing") "detectorarea".

Definition request (virlist : list msg) (i j : nat) : M E msg :=
  v ← nth_msg virlist i; nth_msg (reqs v) j.

(** More turns than the loops over requests and areas can take. *)
Definition most_reqs (virlist : list msg) : nat := max_list_with (length ∘ reqs) virlist.
Definition most_areas (virlist : list msg) : nat :=
  max_list_with (fun v => max_list_with (length ∘ areas) (reqs v)) virlist.

(** ** Points of a sensor area *)

(** src/cam-app/src/DataInsert.cpp:2917-2917, [DataInsert::camInsert]. The test
    of the loop. *)
Definition point_more (virlist : list msg) (j : nat) : nat * str -> M E bool := fun '(i, _) =>
  rq ← request virlist i j;
  mret (i <? length (areas rq))%nat.

(** src/cam-app/src/DataInsert.cpp:2918-2942, [DataInsert::camInsert]. A turn. *)
Definition point_row (splitId : Z) (driveReqRefId : Z) (virlist : list msg) (j k : nat) :
  nat * str -> M E (nat * str) := fun '(i, acc) =>
  driveReqRefPosId ← next;
  rq ← request virlist i j;
  da ← nth_msg (areas rq) k;
  let q := default (Msg []) (head (rep da "activepath")) in
  acc ← row 0 10240
    (lines ["INSERT INTO `drive_request_reference_path_position_3_d`";
    "						(`id`,`split_id`,`lon`,`lat`,`ele`,`drive_request_reference_path_id`)VALUES"])
    (lines ["(%lld,%d,%d,%d,%d,%lld),"])
    [L driveReqRefPosId; D splitId; D (int q "lon"); D (int q "lat"); D (int q "ele");
     L driveReqRefId] acc;
  mret (S i, acc).

(** ** Sensor areas of a request *)

(** src/cam-app/src/DataInsert.cpp:2896-2896, [DataInsert::camInsert]. The test
    of the loop. *)
Definition area_more (virlist : list msg) (j : nat) : nat * nat * str -> M E bool :=
  fun '(k, i, _) =>
  rq ← request virlist i j;
  mret (k <? length (areas rq))%nat.

(** src/cam-app/src/DataInsert.cpp:2897-2957, [DataInsert::camInsert]. A turn. *)
Definition area_row (splitId : Z) (virReqsId : Z) (virlist : list msg) (j : nat) :
  nat * nat * str -> M E (nat * nat * str) := fun '(k, i, acc) =>
  driveReqRefId ← next;
  rq ← request virlist i j;
  da ← nth_msg (areas rq) k;
  let driveReqRefPathRadius := int da "pathradius" in
  acc ← row k 10240
    (lines ["INSERT INTO `drive_request_reference_path`";
    "					(`id`,`split_id`,`path_radius`,`drive_request_id`)VALUES"])
    (lines ["(%lld,%d,%d,%lld),"])
    [L driveReqRefId; D splitId; D driveReqRefPathRadius; L virReqsId] acc;
  '(i, points) ← while_ (length virlist) (point_more virlist j)
    (point_row splitId driveReqRefId virlist j k) (i, []);
  _ ← flush points;
  mret (S k, i, acc).

(** ** Requests *)

(** src/cam-app/src/DataInsert.cpp:2749-2891, [DataInsert::camInsert]. The row
    of a request; [laneChangeDownStreamNodeId] stays 0, the node's id goes to
    [laneChangeDownStreamNodeRegionId]. *)
Definition virReqs_row (splitId : Z) (virId : Z) (virReqsId : Z) (j : nat) (rq : msg) (acc : str) :
  M E str :=
  let laneChangeDownStreamNodeId := 0 in
  let reqId := int rq "reqid" in
  let reqStatus := int rq "status" in
  let reqPriority := text rq "reqpriority" in
  let targetVeh := text rq "targetveh" in
  let targetRsu := text rq "targetrsu" in
  let reqLifeTime := int rq "lifetime" in
  let info := rq ~> "info" in
  let lanechange := info ~> "lanechange" in
  let has_lanechange := has rq "info" && has info "lanechange" in
  let upstreamnode := lanechange ~> "upstreamnode" in
  let has_upstreamnode := has_lanechange && has lanechange "upstreamnode" in
  let downstreamnode := lanechange ~> "downstreamnode" in
  let has_downstreamnode := has_lanechange && has lanechange "downstreamnode" in
  let cleartheway := info ~> "cleartheway" in
  let has_cleartheway := has rq "info" && has info "cleartheway" in
  let cleartheway_upstreamnode := cleartheway ~> "upstreamnode" in
  let has_cleartheway_upstreamnode := has_cleartheway && has cleartheway "upstreamnode" in
  let cleartheway_downstreamnode := cleartheway ~> "downstreamnode" in
  let has_cleartheway_downstreamnode := has_cleartheway && has cleartheway "downstreamnode" in
  let signalpriority := info ~> "signalpriority" in
  let has_signalpriority := has rq "info" && has info "signalpriority" in
  let intersectionid := signalpriority ~> "intersectionid" in
  let has_intersectionid := has_signalpriority && has signalpriority "intersectionid" in
  let requiredmove := signalpriority ~> "requiredmove" in
  let has_requiredmove := has_signalpriority && has signalpriority "requiredmove" in
  let remoteintersection := requiredmove ~> "remoteintersection" in
  let has_remoteintersection := has_requiredmove && has requiredmove "remoteintersection" in
  let parking := info ~> "parking" in
  let has_parking := has rq "info" && has info "parking" in
  let req := parking ~> "req" in
  let has_req := has_parking && has parking "req" in
  let parkingtype := parking ~> "parkingtype" in
  let has_parkingtype := has_parking && has parking "parkingtype" in
  let laneChangeUpStreamNodeRegionId := opt_int has_upstreamnode (int upstreamnode "region") in
  let laneChangeUpStreamNodeId := opt_int has_upstreamnode (int upstreamnode "nodeid") in
  let laneChangeDownStreamNodeRegionId := opt_int has_downstreamnode
    (int downstreamnode "nodeid") in
  let laneChangeTargetLane := opt_int has_lanechange (int lanechange "targetlane") in
  let clearTheWayUpStreamNodeRegionId := opt_int has_cleartheway_upstreamnode
    (int cleartheway_upstreamnode "region") in
  let clearTheWayUpStreamNodeId := opt_int has_cleartheway_upstreamnode
    (int cleartheway_upstreamnode "nodeid") in
  let clearTheWayDownStreamNodeRegionId := opt_int has_cleartheway_downstreamnode
    (int cleartheway_downstreamnode "region") in
  let clearTheWayDownStreamNodeId := opt_int has_cleartheway_downstreamnode
    (int cleartheway_downstreamnode "nodeid") in
  let clearTheWayTargetLane := opt_int has_cleartheway (int cleartheway "targetlane") in
  let estimatedArrivalTime := opt_int has_signalpriority
    (int signalpriority "estimatedarrivaltime") in
  let distance2Intersection := opt_int has_signalpriority
    (int signalpriority "distance2intersection") in
  let intersectionNodeRegionId := opt_int has_intersectionid (int intersectionid "region") in
  let intersectionNodeId := opt_int has_intersectionid (int intersectionid "nodeid") in
  let movementStatInfoNodeRegionId := opt_int has_remoteintersection
    (int remoteintersection "region") in
  let movementStatInfoNodeId := opt_int has_remoteintersection
    (int remoteintersection "nodeid") in
  let movementStatTurnDirection := opt_int has_requiredmove (int requiredmove "turndirection") in
  let reqParkingVehicleType := opt_int has_parking (int parking "vehicletype") in
  let reqParkingRequest := opt_int has_req (int req "req") in
  let reqParkingType := opt_int has_parkingtype (int parkingtype "parkingtype") in
  let expectedParkingSlotId := opt_int has_parking (int parking "expectedparkingslotid") in
  acc ← row j 10240
    (lines ["INSERT INTO `drive_request`";
    "				(`id`,`split_id`,`req_id`,`req_priority`,`target_veh`,";
    "				`targer_rsu`,`lane_change_up_stream_node_region_id`,`lane_change_up_stream_node_id`,`lane_change_down_stream_node_region_id`,`lane_change_down_stream_node_id`,";
    "				`lane_change_target_lane`,`clear_the_way_up_stream_node_region_id`,`clear_the_way_up_stream_node_id`,`clear_the_way_down_stream_node_region_id`,`clear_the_way_down_stream_node_id`,";
    "				`clear_the_way_target_lane`,`intersection_node_region_id`,`intersection_node_id`,`movement_stat_info_node_region_id`,`movement_stat_info_node_id`,";
    "				`estimated_arrival_time`,`distance_2_intersection`,`req`,`parking_type`,`expected_parking_slot_id`,";
    "				`life_time`,`status_id`,`vehicle_type_id`,`turn_direction_id`,`vir_data_id`)VALUES"])
    (lines ["(%lld,%d,%d,'%s','%s',";
    "            '%s',%d,%d,%d,%d,";
    "            %d,%d,%d,%d,%d,";
    "            %d,%d,%d,%d,%d,";
    "            %d,%d,%d,%d,%d,";
    "            %d,%d,%d,%d,%lld),"])
    [L virReqsId; D splitId; D reqId; P reqPriority; P targetVeh; P targetRsu;
     D laneChangeUpStreamNodeRegionId; D laneChangeUpStreamNodeId;
     D laneChangeDownStreamNodeRegionId; D laneChangeDownStreamNodeId; D laneChangeTargetLane;
     D clearTheWayUpStreamNodeRegionId; D clearTheWayUpStreamNodeId;
     D clearTheWayDownStreamNodeRegionId; D clearTheWayDownStreamNodeId;
     D clearTheWayTargetLane; D intersectionNodeRegionId; D intersectionNodeId;
     D movementStatInfoNodeRegionId; D movementStatInfoNodeId; D estimatedArrivalTime;
     D distance2Intersection; D reqParkingRequest; D reqParkingType; D expectedParkingSlotId;
     D reqLifeTime; D reqStatus; D reqParkingVehicleType; D movementStatTurnDirection; L virId]
     acc;
  mret acc.

(** src/cam-app/src/DataInsert.cpp:2748-2748, [DataInsert::camInsert]. The test
    of the loop. *)
Definition req_more (virlist : list msg) : nat * nat * str -> M E bool := fun '(j, i, _) =>
  v ← nth_msg virlist i;
  mret (j <? length (reqs v))%nat.

(** src/cam-app/src/DataInsert.cpp:2893-2972, [DataInsert::camInsert]. A turn. *)
Definition req_turn (splitId : Z) (virId : Z) (virlist : list msg) :
  nat * nat * str -> M E (nat * nat * str) := fun '(j, i, acc) =>
  virReqsId ← next;
  rq ← request virlist i j;
  acc ← virReqs_row splitId virId virReqsId j rq acc;
  '(_, i, refs) ← while_ (most_areas virlist) (area_more virlist j)
    (area_row splitId virReqsId virlist j) (O, i, []);
  _ ← flush refs;
  mret (S j, i, acc).

(** ** Messages *)

(** src/cam-app/src/DataInsert.cpp:2484-2620, [DataInsert::camInsert]. The row
    of a message. *)
Definition vir_row (splitId : Z) (camId : Z) (virId : Z) (i : nat) (v : msg) (acc : str) :
  M E str :=
  let virMsgCnt := int v "msgcnt" in
  let virVehicleId := text v "vehicleid" in
  let virTimestamp := int v "timestamp" in
  let virLat := opt_int (has v "pos") (int (v ~> "pos") "lat") in
  let virLon := opt_int (has v "pos") (int (v ~> "pos") "lon") in
  let virEle := opt_int (has v "pos") (int (v ~> "pos") "ele") in
  let intandreq := v ~> "intandreq" in
  let currentpos := intandreq ~> "currentpos" in
  let has_currentpos := has v "intandreq" && has intandreq "currentpos" in
  let pos := currentpos ~> "pos" in
  let has_pos := has_currentpos && has currentpos "pos" in
  let posconfid := currentpos ~> "posconfid" in
  let has_posconfid := has_currentpos && has currentpos "posconfid" in
  let acceleration := currentpos ~> "acceleration" in
  let has_acceleration := has_currentpos && has currentpos "acceleration" in
  let accelerationconfid := currentpos ~> "accelerationconfid" in
  let has_accelerationconfid := has_currentpos && has currentpos "accelerationconfid" in
  let posinmap := currentpos ~> "posinmap" in
  let has_posinmap := has_currentpos && has currentpos "posinmap" in
  let referencelanes := posinmap ~> "referencelanes" in
  let has_referencelanes := has_posinmap && has posinmap "referencelanes" in
  let upstreamnodeid := posinmap ~> "upstreamnodeid" in
  let has_upstreamnodeid := has_posinmap && has posinmap "upstreamnodeid" in
  let downstreamnodeid := posinmap ~> "downstreamnodeid" in
  let has_downstreamnodeid := has_posinmap && has posinmap "downstreamnodeid" in
  let currentBehavior := opt_int (has v "intandreq")
    (int (intandreq ~> "currentbehavior") "drivebehavior") in
  let virSpeed := opt_int has_currentpos (int currentpos "speed") in
  let virHeading := opt_int has_currentpos (int currentpos "heading") in
  let virSpeedConfid := opt_int has_currentpos (int currentpos "speedconfid") in
  let virHeadingConfid := opt_int has_currentpos (int currentpos "headingconfid") in
  let virEstimatedTime := opt_int has_currentpos (int currentpos "estimatedtime") in
  let virTimeConfidence := opt_int has_currentpos (int currentpos "timeconfidence") in
  let currentPosLat := opt_int has_pos (int pos "lat") in
  let currentPosLon := opt_int has_pos (int pos "lon") in
  let currentPosEle := opt_int has_pos (int pos "ele") in
  let virPosConfid := opt_int has_posconfid (int posconfid "posconfid") in
  let virEleConfid := opt_int has_posconfid (int posconfid "eleconfid") in
  let virAcclerationLon := opt_int has_acceleration (int acceleration "lon") in
  let virAcclerationLat := opt_int has_acceleration (int acceleration "lat") in
  let virAcclerationVert := opt_int has_acceleration (int acceleration "vert") in
  let virAcclerationYaw := opt_int has_acceleration (int acceleration "yaw") in
  let virLonAccelConfid := opt_int has_accelerationconfid
    (int accelerationconfid "lonaccelconfid") in
  let virLatAccelConfid := opt_int has_accelerationconfid
    (int accelerationconfid "lataccelconfid") in
  let virVertAccelConfid := opt_int has_accelerationconfid
    (int accelerationconfid "verticalaccelconfid") in
  let virYawAccelConfid := opt_int has_accelerationconfid
    (int accelerationconfid "yawrateconfid") in
  let virReferenceLanes := opt_int has_referencelanes (int referencelanes "referencelanes") in
  let virUpstreamNodeRegionId := opt_int has_upstreamnodeid (int upstreamnodeid "region") in
  let virUpstreamNodeId := opt_int has_upstreamnodeid (int upstreamnodeid "nodeid") in
  let virDownstreamNodeRegionId := opt_int has_downstreamnodeid (int downstreamnodeid "region") in
  let virDownstreamNodeId := opt_int has_downstreamnodeid (int downstreamnodeid "nodeid") in
  acc ← row i 10240
    (lines ["INSERT INTO `vir_data`";
    "			(`id`,`split_id`,`msg_cnt`,`vehicle_id`,`timestamp`,";
    "			`lat`,`lon`,`ele`,`current_pos_lat`,`current_pos_lon`,";
    "			`current_pos_ele`,`upstream_node_region_id`,`upstream_node_id`,`downstream_node_region_id`,`downstream_node_id`,";
    "			`reference_lanes`,`speed`,`heading`,`acceleration_lon`,`acceleration_lat`,";
    "			`acceleration_vert`,`acceleration_yaw`,`estimated_time`,`current_behavior`,`pos_confid_id`,";
    "			`ele_confid_id`,`speed_confid_id`,`heading_confid_id`,`lon_accel_confid_id`,`lat_accel_confid_id`,";
    "			`vertical_accel_confid_id`,`yaw_rate_confid_id`,`time_confidence_id`,`cam_data_id`)VALUES"])
    (lines ["(%lld,%d,%d,'%s',%lld,";
    "        %d,%d,%d,%d,%d,";
    "        %d,%d,%d,%d,%d,";
    "        %d,%d,%d,%d,%d,";
    "        %d,%d,%d,%d,%d,";
    "        %d,%d,%d,%d,%d,";
    "        %d,%d,%d,%lld),"])
    [L virId; D splitId; D virMsgCnt; P virVehicleId; L virTimestamp; D virLat; D virLon;
     D virEle; D currentPosLat; D currentPosLon; D currentPosEle; D virUpstreamNodeRegionId;
     D virUpstreamNodeId; D virDownstreamNodeRegionId; D virDownstreamNodeId;
     D virReferenceLanes; D virSpeed; D virHeading; D virAcclerationLon; D virAcclerationLat;
     D virAcclerationVert; D virAcclerationYaw; D virEstimatedTime; D currentBehavior;
     D virPosConfid; D virEleConfid; D virSpeedConfid; D virHeadingConfid; D virLonAccelConfid;
     D virAcclerationLat; D virVertAccelConfid; D virYawAccelConfid; D virTimeConfidence;
     L camId] acc;
  mret acc.

(** src/cam-app/src/DataInsert.cpp:2974-2987, [DataInsert::camInsert]. A turn. *)
Definition vir_turn (splitId : Z) (camId : Z) (virlist : list msg) :
  nat * str -> M E (nat * str) := fun '(i, acc) =>
  virId ← next;
  v ← nth_msg virlist i;
  acc ← vir_row splitId camId virId i v acc;
  _ ← table (rep (v ~> "intandreq" ~> "pathplanning") "pathplanning") (virPath_row splitId virId);
  '(_, i, requests) ← while_ (most_reqs virlist) (req_more virlist)
    (req_turn splitId virId virlist) (O, i, []);
  _ ← flush requests;
  mret (S i, acc).

(** src/cam-app/src/DataInsert.cpp:2988-3002, [DataInsert::camInsert]. The loop
    from line 2484 and the end of the table. *)
Definition virs (splitId : Z) (camId : Z) (camData : msg) : M E () :=
  let virlist := rep camData "virlist" in
  '(_, acc) ← while_ (length virlist) (fun '(i, _) => mret (i <? length virlist)%nat)
    (vir_turn splitId camId virlist) (O, []);
  flush acc.

End Rows.
End CamVir.
