(* ===== verification/CamInsert.v ===== *)
(** * Storing a camera message

    [DataInsert::camInsert], [DataInsert::cameraInsert] and
    [DataInsert::radarInsert] of [src/cam-app/src/DataInsert.cpp]: the first
    writes the row of the message and then the tables of its parts, in the
    order of the files [CamObjects] to [CamVir]; the other two write the paths
    seen by cameras and radars, with the times printed. *)

From Stdlib Require Import SpecFloat.
From stdpp Require Import gmap.
From S2P Require Import Prelude Printf Proto Insert.
From S2P Require Import CamObjects CamEvents CamFlow CamSignal CamRsc CamVir.
Import Printf Proto Insert CamObjects CamEvents CamFlow CamSignal CamRsc CamVir.

Module CamInsert.

(** ** Times *)

(** What [gmtime] breaks a time into; the year from 0, the month from 1. *)
Record tm := mkTm { year : Z; mon : Z; mday : Z; hour : Z; min : Z; sec : Z }.

(** The date of a day counted from 1970-01-01, in the Gregorian calendar: years
    start in March, in eras of 400 years. *)
Definition civil (days : Z) : Z * Z * Z :=
  let z := days + 719468 in
  let era := z `div` 146097 in
  let doe := z `mod` 146097 in
  let yoe := (doe - doe `div` 1460 + doe `div` 36524 - doe `div` 146096) `div` 365 in
  let doy := doe - (365 * yoe + yoe `div` 4 - yoe `div` 100) in
  let mp := (5 * doy + 2) `div` 153 in
  let d := doy - (153 * mp + 2) `div` 5 + 1 in
  let m := if mp <? 10 then mp + 3 else mp - 9 in
  (yoe + era * 400 + (if m <=? 2 then 1 else 0), m, d).

(** [std::gmtime]. *)
Definition gmtime (tt : Z) : tm :=
  let '(y, m, d) := civil (tt `div` 86400) in
  let s := tt `mod` 86400 in
  mkTm y m d (s `div` 3600) (s `div` 60 `mod` 60) (s `mod` 60).

(** src/cam-app/src/DataInsert.cpp:5-14, [DataInsert::gettm]. [to_time_t]
    truncates to seconds. *)
Definition gettm (timestamp : Z) : tm :=
  let milli := timestamp + 8 * 60 * 60 * 1000 in
  gmtime (Z.quot milli 1000).

Section Inserts.
Context {E : Type} `{!Gen E}.

(** src/cam-app/src/DataInsert.cpp:3011-3016, [DataInsert::cameraInsert]. A
    time, printed into 25 bytes. The same lines for every time. *)
Definition print_time (timestamp : Z) : M E str :=
  let ms := Z.rem timestamp 1000 * 1000 in
  let t := gettm timestamp in
  sprintf 25 (lines ["%d-%02d-%02d %02d:%02d:%02d.%06d"])
    [D (year t); D (mon t); D (mday t); D (hour t); D (min t); D (sec t); D ms].

(** ** [camInsert] *)

(** src/cam-app/src/DataInsert.cpp:31-59, [DataInsert::camInsert]. The row of
    the message. *)
Definition cam_sql (splitId : Z) (camId : Z) (camData : msg) : M E str :=
  let camLat := opt_int (has camData "refpos") (int (camData ~> "refpos") "lat") in
  let camLon := opt_int (has camData "refpos") (int (camData ~> "refpos") "lon") in
  let camEle := opt_int (has camData "refpos") (int (camData ~> "refpos") "ele") in
  let spatMsgcnt := opt_int (has camData "roadsignalstate")
    (int (camData ~> "roadsignalstate") "msgcnt") in
  let spatTimestamp := opt_int (has camData "roadsignalstate")
    (int (camData ~> "roadsignalstate") "timestamp") in
  sprintf 4096
    (lines ["INSERT INTO `cam_data`(`id`,`split_id`,`type`,`ver`,`msg_cnt`,";
    "	`timestamp`,`device_id`,`map_device_id`,`lat`,`lon`,";
    "	`ele`,`scene_type_id`,`spat_msg_cnt`,`spat_timestamp`,`to_algorithm_time`,";
    "	`to_databus_time`,`to_cloud_time`)";
    "	VALUE";
    "	(%lld,%d,%d,'%s',%d,";
    "	%lld,'%s','%s',%d,%d,";
    "	%d,%d,%d,%lld,%lld,";
    "	%lld,%lld);"])
    [L camId; D splitId; D (int camData "type"); P (text camData "ver");
     D (int camData "msgcnt"); L (int camData "timestamp"); P (text camData "deviceid");
     P (text camData "mapdeviceid"); D camLat; D camLon; D camEle; D (int camData "scenetype");
     D spatMsgcnt; L spatTimestamp; L (int camData "toalgorithmtime");
     L (int camData "todatabustime"); L (int camData "tocloudtime")].

(** src/cam-app/src/DataInsert.cpp:16-67, [DataInsert::camInsert]. The rest of
    the function writes the tables. [rand] is what [rand()] returns. *)
Definition camInsert (rand : Z) (camData : msg) : M E () :=
  camId ← (if int camData "id" =? 0 then next else mret (int camData "id"));
  let splitId := Z.rem rand 10000 in
  camSql ← cam_sql splitId camId camData;
  _ ← excute camSql;
  _ ← participants splitId camId camData;
  _ ← events splitId camId camData;
  _ ← signs splitId camId camData;
  _ ← flows splitId camId camData;
  _ ← signals splitId camId camData;
  _ ← schemes splitId camId camData;
  _ ← regions splitId camId camData;
  _ ← obstacles splitId camId camData;
  _ ← bsms splitId camId camData;
  _ ← rscs splitId camId camData;
  virs splitId camId camData.

(** ** [cameraInsert] *)

(** src/cam-app/src/DataInsert.cpp:3004-3024, [DataInsert::cameraInsert]. The
    head of the function, which [radarInsert] repeats: the row of the message;
    its id. *)
Definition multi_path (splitId : Z) (data : msg) : M E Z :=
  multiPathId ← next;
  sendTime ← print_time (int data "sendtime");
  multiPathSql ← sprintf 4096
    (lines ["INSERT INTO `multi_path_datas` (`id`,`split_id`,`send_time`)VALUES(%lld,%d,'%s');"])
    [L multiPathId; D splitId; P sendTime];
  _ ← excute multiPathSql;
  mret multiPathId.

(** src/cam-app/src/DataInsert.cpp:3065-3128, [DataInsert::cameraInsert]. *)
Definition cameraPath_row (splitId : Z) (cameraPathListId : Z) (processtime commtime datatime : str)
  (l : msg) (j : nat) (x : msg) (acc : str) : M E str :=
  cameraPathId ← next;
  let deviceType := 200 in
  let deviceId := text l "deviceid" in
  let vehColor := text x "vehcolor" in
  let g := x ~> "globalspaceinfo" in
  let c := has x "globalspaceinfo" in
  let c_gnss := c && has g "position_gnss" in
  let c_utm := c && has g "position_utm" in
  let zero := S754_zero false in
  let longitude := if c_gnss then real (g ~> "position_gnss") "longitude" else zero in
  let latitude := if c_gnss then real (g ~> "position_gnss") "latitude" else zero in
  let utm_x := if c_utm then real (g ~> "position_utm") "x" else zero in
  let utm_y := if c_utm then real (g ~> "position_utm") "y" else zero in
  let objOri := opt_int c (int g "objori") in
  let objWidth := opt_int c (int g "objwidth") in
  let objLength := opt_int c (int g "objlength") in
  let objHeight := opt_int c (int g "objheight") in
  let speedX := opt_int c (int g "speedx") in
  let speedY := opt_int c (int g "speedy") in
  let speedZ := opt_int c (int g "speedz") in
  let speed := opt_int c (int g "speed") in
  acc ← row j 40960
    (lines ["INSERT INTO `camera_path`(`id`,`split_id`,`device_id`,`obj_id`,`lane_no`,";
    "				`plate_color`,`plate_no`,`veh_type`,`veh_color`,`obj_x`,`obj_y`,`obj_dist_x`,`obj_dist_y`,`obj_bottom_mid_x`,`obj_bottom_mid_y`,";
    "				`longitude`,`latitude`,`x`,`y`,`obj_ori`,`obj_width`,`obj_length`,`obj_height`,`speed_x`,`speed_y`,";
    "				`speed_z`,`speed`,`obj_cf`,`obj_kind`,`obj_img_top`,`obj_img_left`,`obj_img_right`,`obj_img_bottom`,`device_type_id`,`camera_path_list_id`,`process_time`,`comm_rcv_time`,`data_time`)VALUES"])
    (lines ["(%lld,%d,'%s',%d,%d,";
    "			%d,'%s',%d,'%s',%d,%d,%d,%d,%d,%d,";
    "			%lf,%lf,%lf,%lf,%d,%d,%d,%d,%d,%d,";
    "			%d,%d,%d,%d,%d,%d,%d,%d,%ld,%lld,'%s','%s','%s'),"])
    [L cameraPathId; D splitId; P deviceId; D (int x "objid"); D (int x "laneno");
     D (int x "platecolor"); P (text x "plateno"); D (int x "vehtype"); P vehColor;
     D (int x "objx"); D (int x "objy"); D (int x "objdistx"); D (int x "objdisty");
     D (int x "objbottommidx"); D (int x "objbottommidy"); F longitude; F latitude; F utm_x; F utm_y;
     D objOri; D objWidth; D objLength; D objHeight; D speedX; D speedY; D speedZ; D speed;
     D (int x "objcf"); D (int x "objkind"); D (int x "objimgtop"); D (int x "objimgleft");
     D (int x "objimgright"); D (int x "objimgbottom"); L deviceType; L cameraPathListId;
     P processtime; P commtime; P datatime] acc;
  mret acc.

(** src/cam-app/src/DataInsert.cpp:3028-3060, [DataInsert::cameraInsert]. The
    time of the data is printed in the table as a number. *)
Definition cameraPathList_row (splitId : Z) (multiPathId : Z) (i : nat) (l : msg) (acc : str) :
  M E str :=
  cameraPathListId ← next;
  processtime ← print_time (int l "processtime");
  commtime ← print_time (int l "commrcvtime");
  datatime ← print_time (int l "datatime");
  acc ← row i 40960
    (lines ["INSERT INTO `camera_path_list`(`id`,`split_id`,`data_time`,`device_id`,`cap_type`,";
    "			`obj_count`,`process_time`,`comm_rcv_time`,`multi_path_datas_id`)VALUE"])
    (lines ["(%lld,%d,%lld,'%s',%d,%d,'%s','%s',%lld),"])
    [L cameraPathListId; D splitId; L (int l "datatime"); P (text l "deviceid");
     D (int l "captype"); D (int l "objcount"); P processtime; P commtime; L multiPathId] acc;
  _ ← table (rep l "camerapathlist")
    (cameraPath_row splitId cameraPathListId processtime commtime datatime l);
  mret acc.

(** src/cam-app/src/DataInsert.cpp:3145-3156, [DataInsert::cameraInsert]. The
    whole function, the loop being from line 3028. *)
Definition cameraInsert (rand : Z) (cameraData : msg) : M E () :=
  let splitId := Z.rem rand 10000 in
  multiPathId ← multi_path splitId cameraData;
  table (rep cameraData "camerapathlist") (cameraPathList_row splitId multiPathId).

(** ** [radarInsert] *)

(** src/cam-app/src/DataInsert.cpp:3223-3259, [DataInsert::radarInsert]. *)
Definition radarPath_row (splitId : Z) (radarDevPathListId : Z)
  (processtime commtime datatime : str) (l : msg) (j : nat) (x : msg) (acc : str) : M E str :=
  radarpathId ← next;
  let deviceType := 203 in
  acc ← row j 10960
    (lines ["INSERT INTO `millimeter_wave_radar_path`(`id`,`split_id`,`device_id`,`obj_id`,`longitude`,";
    "				`lattitude`,`elevation`,`obj_x`,`obj_y`,`obj_z`,";
    "				`obj_enu_x`,`obj_enu_y`,`obj_enu_z`,`speed`,`speed_x`,";
    "				`speed_y`,`speed_z`,`speed_enu_x`,`speed_enu_y`,`speed_enu_z`,";
    "				`obj_ori`,`speed_heading`,`obj_width`,`obj_length`,`obj_height`,";
    "				`aclr`,`aclr_angle`,`aclr_x`,`aclr_y`,`aclr_z`,";
    "				`aclr_enu_x`,`aclr_enu_y`,`aclr_enu_z`,`obj_state`,`obj_cf`,";
    "				`obj_type`,`obj_kind`,`obj_dist`,`device_type_id`,`millimeter_wave_radar_path_list_id`,`process_time`,`comm_rcv_time`,`data_time`)VALUES"])
    (lines ["(%lld,%d,'%s',%d,%lf,";
    "			%lf,%d,%f,%f,%f,";
    "			%f,%f,%f,%d,%d,";
    "			%d,%d,%d,%d,%d,";
    "			%d,%d,%d,%d,%d,";
    "			%d,%d,%d,%d,%d,";
    "			%d,%d,%d,%d,%d,";
    "			%d,%d,%f,%d,%lld,'%s','%s','%s'),"])
    [L radarpathId; D splitId; P (text l "deviceid"); D (int x "objid"); F (real x "longitude");
     F (real x "lattitude"); D (int x "elevation"); F (real x "objx"); F (real x "objy");
     F (real x "objz"); F (real x "obj_enu_x"); F (real x "obj_enu_y"); F (real x "obj_enu_z");
     D (int x "speed"); D (int x "speedx"); D (int x "speedy"); D (int x "speedz");
     D (int x "speed_enu_x"); D (int x "speed_enu_y"); D (int x "speed_enu_z");
     D (int x "objori"); D (int x "speedheading"); D (int x "objwidth"); D (int x "objlength");
     D (int x "objheight"); D (int x "aclr"); D (int x "aclrangle"); D (int x "aclr_x");
     D (int x "aclr_y"); D (int x "aclr_z"); D (int x "aclr_enu_x"); D (int x "aclr_enu_y");
     D (int x "aclr_enu_z"); D (int x "objstate"); D (int x "objcf"); D (int x "objtype");
     D (int x "objkind"); F (real x "objdist"); D deviceType; L radarDevPathListId;
     P processtime; P commtime; P datatime] acc;
  mret acc.

(** src/cam-app/src/DataInsert.cpp:3182-3219, [DataInsert::radarInsert]. *)
Definition radarDevPathList_row (splitId : Z) (multiPathId : Z) (i : nat) (l : msg) (acc : str) :
  M E str :=
  radarDevPathListId ← next;
  datatime ← print_time (int l "datatime");
  processtime ← print_time (int l "processtime");
  commtime ← print_time (int l "commrcvtime");
  acc ← row i 40960
    (lines ["INSERT INTO `millimeter_wave_radar_path_list`(`id`,`split_id`,`data_time`,`device_id`,`area_no`,";
    "			`process_time`,`comm_rcv_time`,`multi_path_datas_id`)VALUES"])
    (lines ["(%lld,%d,'%s','%s',%d,'%s','%s',%lld),"])
    [L radarDevPathListId; D splitId; P datatime; P (text l "deviceid"); D (int l "areano");
     P processtime; P commtime; L multiPathId] acc;
  _ ← table (rep l "radarpathlist")
    (radarPath_row splitId radarDevPathListId processtime commtime datatime l);
  mret acc.

(** src/cam-app/src/DataInsert.cpp:3158-3180, [DataInsert::radarInsert]. Only
    the paths of [lidarpathlist] are stored. *)
Definition radarInsert (rand : Z) (radarData : msg) : M E () :=
  let splitId := Z.rem rand 10000 in
  multiPathId ← multi_path splitId radarData;
  table (rep radarData "lidarpathlist") (radarDevPathList_row splitId multiPathId).

End Inserts.

(** ** The maps of the devices *)

(** src/cam-app/src/DataInsert.cpp:3290-3316, [DataMap::deviceCodeMap]. The
    rows up to the one that throws, if any; a null is [None]. The function
    [nodeMatchMap] is the same over other columns. *)
Definition deviceCodeMap (rows : list (option str * option str)) (devMap : gmap str str) :
  gmap str str :=
  foldl (fun m row => <[default [] row.1 := default [] row.2]> m) devMap rows.

(** src/cam-app/src/DataInsert.cpp:3318-3342, [DataMap::nodeMatchMap]. *)
Definition nodeMatchMap (rows : list (option str * option str)) (nodeMap : gmap str str) :
  gmap str str := deviceCodeMap rows nodeMap.

End CamInsert.
