(* ===== verification/CamCorrect.v ===== *)
(** * Storing a camera message: theorems

    What can stop [camInsert], that it returns, what it stores. *)

From S2P Require Import Prelude SnowFlake Printf Proto Insert.
From S2P Require Import CamObjects CamEvents CamFlow CamSignal CamRsc CamVir CamInsert.
Import Printf Proto Insert CamObjects CamEvents CamFlow CamSignal CamRsc CamVir CamInsert.

Module CamCorrect.

Lemma max_list_with_le {A} (f : A -> nat) l x : x ∈ l -> (f x <= max_list_with f l)%nat.
Proof. induction 1; simpl; lia. Qed.

Lemma most_reqs_le virlist v : v ∈ virlist -> (length (reqs v) <= most_reqs virlist)%nat.
Proof. apply (max_list_with_le (length ∘ reqs)). Qed.

Lemma most_areas_le virlist v rq :
  v ∈ virlist -> rq ∈ reqs v -> (length (areas rq) <= most_areas virlist)%nat.
Proof.
  intros Hv Hr. etransitivity; [by apply (max_list_with_le (length ∘ areas))|].
  by apply (max_list_with_le (fun v => max_list_with (length ∘ areas) (reqs v))).
Qed.

(** ** The loops over the requests of vehicles *)

Section Virs.
Context {E : Type} `{!Gen E} (P : stop -> Prop) (HN : ids P).
Context (virlist : list msg) (Hv : forall v, v ∈ virlist -> fine P 500 v).

(** A read of [reqs(j)] of [virlist(i)]. *)
Lemma ends_request i j :
  (P OutOfRange \/ exists v, virlist !! i = Some v /\ (j < length (reqs v))%nat) ->
  @ends E _ P (fun rq => exists v, virlist !! i = Some v /\ reqs v !! j = Some rq)
    (request virlist i j).
Proof.
  intros H. unfold request. eapply ends_bind.
  - apply ends_read. destruct H as [?|(v & H & _)]; [by left|right; by eapply lookup_lt_Some].
  - intros w Hw. eapply ends_weaken; [|apply ends_read].
    + intros rq Hrq. by exists w.
    + destruct H as [?|(v & H & Hj)]; [by left|right]. rewrite Hw in H. by injection H as ->.
Qed.

Lemma fine_request i j v rq :
  virlist !! i = Some v -> reqs v !! j = Some rq -> fine P 500 rq.
Proof.
  intros H%list_elem_of_lookup_2%Hv Hr%list_elem_of_lookup_2. eapply fine_rep; [|done].
  by apply fine_sub.
Qed.

Lemma fine_area rq k da : fine P 500 rq -> areas rq !! k = Some da -> fine P 500 da.
Proof. intros H Hk%list_elem_of_lookup_2. eapply fine_rep; [|done]. by do 2 apply fine_sub. Qed.

Lemma point_row_ends splitId id j k i acc :
  P OutOfRange ->
  ends P (fun x => x.1 = S i) (point_row splitId id virlist j k (i, acc)).
Proof.
  intros HO. unfold point_row. apply ends_then; [stops|intros pid].
  eapply ends_bind; [apply ends_request; by left|]. intros rq (v & Hi & Hj).
  eapply ends_bind; [by apply ends_nth|]. intros da Hk. cbv zeta.
  apply ends_then; [stops|]. intros. by apply ends_ret.
Qed.

Lemma point_loop_ends splitId id j k i :
  P OutOfRange ->
  ends P (fun x => i <= x.1)%nat (while_ (length virlist) (point_more virlist j)
    (point_row splitId id virlist j k) (i, [])).
Proof.
  intros HO. eapply ends_weaken; [|apply (ends_while _ (fun x => i <= x.1)%nat
    (fun x => x.1 < length virlist)%nat (fun _ => True) (fun x => length virlist - x.1)%nat)];
    simpl; [by intros x [? _]|..|done|lia].
  - intros [i' acc] _. unfold point_more. eapply ends_bind; [apply ends_request; by left|].
    intros rq (w & Hw%lookup_lt_Some & _). apply ends_ret. case_match; simpl; [lia|done].
  - intros [i' acc] Hle Hi. eapply ends_weaken; [|by apply point_row_ends].
    simpl in *. intros [i'' ?] ->. simpl. lia.
Qed.

(** The messages may be read out of range, or they have no areas, and then
    [i] stays; it never goes back. *)
Context (HO : P OutOfRange \/ most_areas virlist = O).

Definition at_ (i i' : nat) : Prop := (i <= i')%nat /\ (P OutOfRange \/ i' = i).

Lemma area_row_ends splitId id j k i acc :
  (0 < most_areas virlist)%nat ->
  ends P (fun x => P OutOfRange /\ x.1.1 = S k /\ i <= x.1.2)%nat (area_row splitId id virlist j (k, i, acc)).
Proof.
  intros Hm. destruct HO as [HO'|]; [|lia]. unfold area_row.
  apply ends_then; [stops|intros rid].
  eapply ends_bind; [apply ends_request; by left|]. intros rq (v & Hi & Hj).
  eapply ends_bind; [by apply ends_nth|]. intros da Hk. cbv zeta.
  apply ends_then; [stops|intros acc'].
  eapply ends_bind; [by apply point_loop_ends|]. intros [i' points] Hle. simpl in Hle.
  apply ends_then; [stops|]. intros. by apply ends_ret.
Qed.

Lemma area_loop_ends splitId id j i v :
  virlist !! i = Some v -> (j < length (reqs v))%nat ->
  ends P (fun x => at_ i x.1.2) (while_ (most_areas virlist) (area_more virlist j)
    (area_row splitId id virlist j) (O, i, [])).
Proof.
  intros Hi Hj. eapply ends_weaken; [|apply (ends_while _ (fun x => at_ i x.1.2)
    (fun x => x.1.1 < most_areas virlist)%nat (fun _ => True)
    (fun x => most_areas virlist - x.1.1)%nat)];
    simpl; [by intros x [? _]|..|by split; [|right]|lia].
  - intros [[k i'] acc] Hat. unfold area_more. simpl in *. eapply ends_bind.
    + apply ends_request. destruct Hat as [_ [?| ->]]; [by left|right; by exists v].
    + intros rq (w & Hw%list_elem_of_lookup_2 & Hr%list_elem_of_lookup_2). apply ends_ret.
      pose proof (most_areas_le _ _ _ Hw Hr).
      destruct (Nat.ltb_spec k (length (areas rq))); simpl; [lia|done].
  - intros [[k i'] acc] Hat Hk. simpl in Hk. eapply ends_weaken; [|apply area_row_ends; lia].
    simpl in *. intros [[k' i''] ?] (? & -> & ?). simpl in *. destruct Hat as [? _].
    split; [split; [lia|by left]|lia].
Qed.

Lemma virReqs_row_stops splitId virId id j rq acc :
  fine P 500 rq -> @stops_only E _ P (virReqs_row splitId virId id j rq acc).
Proof. intros. stops. Qed.

Lemma req_turn_ends splitId virId i v j acc :
  virlist !! i = Some v -> (j < length (reqs v))%nat ->
  ends P (fun x => at_ i x.1.2 /\ x.1.1 = S j) (req_turn splitId virId virlist (j, i, acc)).
Proof.
  intros Hi Hj. unfold req_turn. apply ends_then; [stops|intros id].
  eapply ends_bind; [apply ends_request; right; by exists v|]. intros rq (w & Hw & Hrq).
  apply ends_then; [eapply virReqs_row_stops, fine_request; eassumption|]. intros acc'.
  eapply ends_bind; [by apply (area_loop_ends _ _ _ _ v)|]. intros [[k i'] refs] Hat. simpl in Hat.
  apply ends_then; [stops|]. intros _. by apply ends_ret.
Qed.

Lemma req_loop_ends splitId virId i v :
  virlist !! i = Some v ->
  ends P (fun x => at_ i x.1.2) (while_ (most_reqs virlist) (req_more virlist)
    (req_turn splitId virId virlist) (O, i, [])).
Proof.
  intros Hi. eapply ends_weaken; [|apply (ends_while _ (fun x => at_ i x.1.2)
    (fun x => exists w, virlist !! x.1.2 = Some w /\ x.1.1 < length (reqs w))%nat (fun _ => True)
    (fun x => most_reqs virlist - x.1.1)%nat)];
    simpl; [by intros x [? _]|..|by split; [|right]|lia].
  - intros [[j i'] acc] Hat. simpl in *. unfold req_more. eapply ends_bind.
    + apply ends_read. destruct Hat as [_ [?| ->]]; [by left|right; by eapply lookup_lt_Some].
    + intros w Hw. apply ends_ret. pose proof (most_reqs_le _ _ (list_elem_of_lookup_2 _ _ _ Hw)).
      destruct (Nat.ltb_spec j (length (reqs w))); simpl; [|done]. split; [by exists w|lia].
  - intros [[j i'] acc] Hat (w & Hw & Hj). simpl in *.
    pose proof (most_reqs_le _ _ (list_elem_of_lookup_2 _ _ _ Hw)).
    eapply ends_weaken; [|by apply (req_turn_ends _ _ _ w)].
    simpl. intros [[j' i''] ?] [[? Hat'] ->]. simpl in *. destruct Hat as [? Hat].
    split; [split; [lia|]|lia]. destruct Hat as [?| ->]; [by left|done].
Qed.

Lemma vir_turn_ends splitId camId i acc :
  (i < length virlist)%nat ->
  ends P (fun x => i < x.1)%nat (vir_turn splitId camId virlist (i, acc)).
Proof.
  intros Hlt. unfold vir_turn. apply ends_then; [stops|intros id].
  eapply ends_bind; [apply ends_read; by right|]. intros w Hw.
  pose proof (Hv w (list_elem_of_lookup_2 _ _ _ Hw)) as Hf.
  apply ends_then; [stops|intros acc']. apply ends_then; [stops|intros _].
  eapply ends_bind; [by apply (req_loop_ends _ _ _ w)|]. intros [[j i'] rs] Hat. simpl in Hat.
  apply ends_then; [stops|]. intros _. apply ends_ret. destruct Hat. simpl. lia.
Qed.

Lemma vir_loop_stops splitId camId :
  stops_only P (while_ (length virlist) (fun '(i, _) => mret (i <? length virlist)%nat)
    (vir_turn splitId camId virlist) (O, [])).
Proof.
  eapply ends_weaken; [|apply (ends_while _ (fun _ => True) (fun x => x.1 < length virlist)%nat
    (fun _ => True) (fun x => length virlist - x.1)%nat)]; simpl; [done|..|done|lia].
  - intros [i acc] _. apply ends_ret. destruct (Nat.ltb_spec i (length virlist)); simpl; [lia|done].
  - intros [i acc] _ Hi. eapply ends_weaken; [|by apply vir_turn_ends].
    simpl in *. intros [i' ?]. simpl. lia.
Qed.

End Virs.

(** ** [camInsert] *)

(** No sensor areas, no points on the paths of signs. *)
Definition regular (d : msg) : Prop :=
  most_areas (rep d "virlist") = O
  /\ forall e r, e ∈ rep d "rtslist" -> r ∈ rep e "refpathlist" -> rep r "activepath" = [].

Section Cam.
Context {E : Type} `{!Gen E} (P : stop -> Prop) (HN : ids P).
Context (d : msg) (Hd : fine P 500 d) (HO : P OutOfRange \/ regular d).

Lemma signs_stops splitId camId : stops_only P (signs splitId camId d).
Proof.
  destruct HO as [HO'|[_ Hr]]; [stops|].
  unfold signs. apply stops_table. intros i e acc He.
  assert (fine P 500 e) by fine_arg. unfold rtsData_row.
  apply stops_if; [stops|]. cbv zeta.
  apply stops_bind; [stops|intros id]. apply stops_bind; [stops|intros acc'].
  apply stops_bind; [stops|intros fid].
  apply stops_bind; [|intros; stops].
  apply stops_table. intros j r acc'' Hin. unfold rtsReferencePath_row.
  rewrite (Hr e r He Hin). stops.
Qed.

Lemma virs_stops splitId camId : stops_only P (virs splitId camId d).
Proof.
  unfold virs. apply stops_bind.
  - apply vir_loop_stops; [done|intros; fine_arg|]. destruct HO as [?|[? _]]; auto.
  - intros [i acc]. stops.
Qed.

Lemma camInsert_stops rand : stops_only P (camInsert rand d).
Proof.
  unfold camInsert. apply stops_bind; [stops|intros camId]. cbv zeta.
  apply stops_bind; [stops|intros sql].
  do 3 (apply stops_bind; [stops|intros _]). apply stops_bind; [apply signs_stops|intros _].
  do 7 (apply stops_bind; [stops|intros _]). apply virs_stops.
Qed.

End Cam.

Lemma multi_stops {E} `{!Gen E} (P : stop -> Prop) rand d :
  ids P -> P Overrun ->
  stops_only P (cameraInsert rand d) /\ stops_only P (radarInsert rand d).
Proof. intros HN HP. split; stops. Qed.

(** ** What stops the handlers *)

(** A source of ids that counts up, for examples. *)
Definition count : Gen nat := fun n => Some (Z.of_nat n, S n).
#[local] Existing Instance count.

(** A message with a region, a request message with an area, a sign with a
    point. *)
Definition a_region : msg := Msg [("pos", VRep [Msg [("lon", VInt 7)]; Msg []])].
Definition a_request : msg :=
  Msg [("info", VSub (Msg [("sensorsharing", VSub (Msg [("detectorarea", VRep [Msg []])]))]))].
Definition a_vir : msg := Msg [("intandreq", VSub (Msg [("reqs", VRep [Msg []; a_request])]))].
Definition a_path : msg := Msg [("activepath", VRep [Msg []])].
Definition a_sign : msg := Msg [("refpathlist", VRep [a_path])].
Definition a_message : msg :=
  Msg [("id", VInt 5); ("deviceid", VText $"cam-1"); ("detectedregion", VRep [a_region; Msg []])].

(** For every message, every
    call of [sprintf] in the three handlers is given arguments of the types its
    format asks for. *)
Theorem cam_formats_fit {E} `{!Gen E} (rand : Z) (d : msg) (s : st E) :
  fst (camInsert rand d s) <> inr BadFormat
  /\ fst (cameraInsert rand d s) <> inr BadFormat
  /\ fst (radarInsert rand d s) <> inr BadFormat.
Proof.
  assert (ids (E := E) (fun e => e <> BadFormat)) as HN by (by left).
  assert (forall m : M E (), stops_only (fun e => e <> BadFormat) m -> fst (m s) <> inr BadFormat) as H.
  { intros m Hm. specialize (Hm s). destruct (fst (m s)); congruence. }
  split; [|split]; apply H; try (by apply multi_stops).
  apply camInsert_stops; [done|by left|by left].
Qed.

(** C12. With texts of at most 500 chars no buffer is overrun and every loop ends:
    [camInsert] stops, if at all, at an index out of range or without an id. *)
Theorem cam_within_buffers {E} `{!Gen E} (rand : Z) (d : msg) :
  short 500 d = true ->
  stops_only (fun e => e = OutOfRange \/ e = NoId) (camInsert (E := E) rand d).
Proof. intros Hd. apply camInsert_stops; [left; by right|by right|left; by left]. Qed.

Lemma cam_within_buffers_witness :
  short 500 a_message = true
  /\ stops_only (fun e => e = OutOfRange \/ e = NoId) (camInsert (E := nat) 12345 a_message).
Proof. split; [reflexivity|apply (cam_within_buffers 12345 a_message); reflexivity]. Defined.

Lemma camInsert_returns {E} `{!Gen E} (rand : Z) (d : msg) (s : st E) :
  short 500 d = true -> regular d -> (forall g : E, next_id g <> None) ->
  exists s', camInsert rand d s = (inl (), s').
Proof.
  intros Hd Hr Hg.
  assert (stops_only (fun _ => False) (camInsert (E := E) rand d)) as H
    by (apply camInsert_stops; by right).
  specialize (H s). destruct (camInsert rand d s) as [[[]|e] s']; [by exists s'|done].
Qed.

(** When the texts are short and the message is regular, an id is all that can be
    missing. *)
Lemma camInsert_needs_ids {E} `{!Gen E} (rand : Z) (d : msg) :
  short 500 d = true -> regular d -> stops_only (fun e => e = NoId) (camInsert (E := E) rand d).
Proof. intros Hd Hr. apply camInsert_stops; [by left|by right|by right]. Qed.

(** C13. With texts of at most 500 chars, without sensor areas and points on the
    paths of signs, and with a source of ids that never fails, [camInsert]
    returns. *)
Theorem cam_returns {E} `{!Gen E} (rand : Z) (d : msg) (s : st E) :
  short 500 d = true -> regular d -> (forall g : E, next_id g <> None) ->
  exists s', camInsert rand d s = (inl (), s').
Proof. apply camInsert_returns. Qed.

Lemma cam_returns_witness :
  exists s', camInsert 12345 a_message (mkSt 1%nat []) = (inl (), s').
Proof.
  apply (cam_returns 12345 a_message); [reflexivity| |done].
  split; [reflexivity|]. intros e r He%not_elem_of_nil. destruct He.
Defined.

(** The exact length of what a [sprintf] writes decides whether it overruns. *)
Lemma sprintf_overruns {E} `{!Gen E} size fmt ps args (s : st E) :
  parse fmt = Some ps -> fits fmt (map class_of args) = true ->
  size <= Z.of_nat (width ps args) -> sprintf size fmt args s = (inr Overrun, s).
Proof.
  intros Hp Hf Hw. unfold sprintf. destruct (format_fits _ _ Hf) as [t Ht]. rewrite Ht.
  pose proof (format_width _ _ _ _ Hp Ht). destruct (Z.ltb_spec (Z.of_nat (length t)) size); [lia|done].
Qed.

Ltac width_ge :=
  lazymatch goal with
  | |- (?x <= S _)%nat => apply le_S; width_ge
  | |- (?x <= ?y + ?z)%nat =>
      first [apply Nat.le_add_r | transitivity z; [width_ge|apply Nat.le_add_l]]
  end.

(** The statement of a message whose id of the device has 4096 chars or more
    does not fit its buffer: nothing is stored. *)
Theorem cam_overruns {E} `{!Gen E} (rand : Z) (d : msg) (s : st E) :
  4096 <= Z.of_nat (length (text d "deviceid")) -> int d "id" <> 0 ->
  camInsert rand d s = (inr Overrun, s).
Proof.
  intros Hlen Hid. apply Z.eqb_neq in Hid.
  assert (cam_sql (Z.rem rand 10000) (int d "id") d s = (inr Overrun, s)) as H.
  { unfold cam_sql. cbv zeta. eapply sprintf_overruns; [vm_compute; reflexivity..|].
    etransitivity; [exact Hlen|]. apply inj_le. cbn [width show from_option id]. width_ge. }
  unfold camInsert. rewrite Hid. cbv [mbind M_bind mret M_ret]. by rewrite H.
Qed.

Lemma cam_overruns_witness :
  camInsert 0 (Msg [("id", VInt 5); ("deviceid", VText (replicate 4096 "x"%char))]) (mkSt 1%nat [])
  = (inr Overrun, mkSt 1%nat []).
Proof. apply (cam_overruns 0 (Msg [("id", VInt 5); ("deviceid", VText (replicate 4096 "x"%char))])); vm_compute; congruence. Defined.

(** ** Times *)

Lemma year_of_era doe :
  0 <= doe < 146097 ->
  0 <= (doe - doe `div` 1460 + doe `div` 36524 - doe `div` 146096) `div` 365 <= 399.
Proof.
  intros H. assert (0 <= doe - doe `div` 1460 + doe `div` 36524 - doe `div` 146096 < 146000).
  { pose proof (Z.div_mod doe 1460 ltac:(lia)).
    pose proof (Z.mod_pos_bound doe 1460 ltac:(lia)).
    pose proof (Z.div_mod doe 36524 ltac:(lia)).
    pose proof (Z.mod_pos_bound doe 36524 ltac:(lia)).
    pose proof (Z.div_mod doe 146096 ltac:(lia)).
    pose proof (Z.mod_pos_bound doe 146096 ltac:(lia)). nia. }
  split; [apply Z.div_pos; lia|]. apply Zlt_succ_le, Z.div_lt_upper_bound; lia.
Qed.

Lemma civil_year days : 0 <= days < 1628907 -> 1600 <= (civil days).1.1 <= 6800.
Proof.
  intros H. unfold civil. simpl.
  assert (4 <= (days + 719468) `div` 146097 <= 16) as Hera
    by (split; [apply Z.div_le_lower_bound|apply Zlt_succ_le, Z.div_lt_upper_bound]; lia).
  pose proof (Z.mod_pos_bound (days + 719468) 146097 ltac:(lia)) as Hdoe.
  pose proof (year_of_era _ Hdoe). case_match; lia.
Qed.

(** A time from 1970 up to the year 6429 is printed into 25 bytes with 26 chars,
    which do not fit. *)
Lemma print_time_overruns {E} `{!Gen E} ts (s : st E) :
  0 <= ts < 2 ^ 47 -> print_time ts s = (inr Overrun, s).
Proof.
  intros Hts. unfold print_time. cbv zeta.
  eapply sprintf_overruns; [vm_compute; reflexivity..|].
  cbn [width show from_option id].
  assert (1600 <= year (gettm ts) <= 6800) as Hy.
  { unfold gettm, gmtime. pose proof (civil_year (Z.quot (ts + 8 * 60 * 60 * 1000) 1000 `div` 86400)) as Hc.
    destruct (civil _) as [[y m] dd]. simpl in *. apply Hc.
    rewrite Z.quot_div_nonneg by lia. split; [apply Z.div_pos; [apply Z.div_pos; lia|lia]|].
    apply Z.div_lt_upper_bound; [lia|]. apply Z.div_lt_upper_bound; lia. }
  assert (swrap 32 (year (gettm ts)) = year (gettm ts)) as ->
    by (apply swrap_small; lia).
  pose proof (length_show_d_ge 3 (year (gettm ts)) ltac:(lia)).
  repeat match goal with |- context [length (show_d ?w ?z)] =>
    lazymatch goal with H : (_ <= length (show_d w z))%nat |- _ => fail | _ =>
      pose proof (length_show_d w z) end end.
  lia.
Qed.

(** Neither the paths of cameras nor those of radars are ever stored: the time
    of sending, printed first, overruns its 25 bytes, and nothing has been
    executed then. *)
Theorem paths_overrun {E} `{!Gen E} (rand : Z) (d : msg) (g g' : E) (sql : list str) id :
  0 <= int d "sendtime" < 2 ^ 47 -> next_id g = Some (id, g') ->
  cameraInsert rand d (mkSt g sql) = (inr Overrun, mkSt g' sql)
  /\ radarInsert rand d (mkSt g sql) = (inr Overrun, mkSt g' sql).
Proof.
  intros Hts Hg. unfold cameraInsert, radarInsert, multi_path. cbv zeta.
  cbv [mbind M_bind next]. cbn [gen sqls]. rewrite Hg. by rewrite print_time_overruns.
Qed.

Lemma paths_overrun_witness :
  cameraInsert 0 (Msg [("sendtime", VInt 1691985600123)]) (mkSt 1%nat []) = (inr Overrun, mkSt 2%nat []).
Proof.
  apply (paths_overrun 0 (Msg [("sendtime", VInt 1691985600123)]) 1%nat 2%nat [] 1);
    [vm_compute; split; congruence|reflexivity].
Defined.

(** ** A message with a sensor area *)

Section Never.
Context {E : Type} `{!Gen E} (v : msg).

Definition any : stop -> Prop := fun _ => True.

Lemma any_stop e : any e.
Proof. exact I. Qed.

Lemma any_ids : ids (E := E) any.
Proof. by left. Qed.

Lemma any_fine w : fine any 500 w.
Proof. by left. Qed.

#[local] Hint Resolve any_ids any_fine any_stop : stops core.

Lemma never_weaken {A} (Q : A -> Prop) (m : M E A) : ends any (fun _ => False) m -> ends any Q m.
Proof. by apply ends_weaken. Qed.

Lemma request_one i j :
  @ends E _ any (fun rq => i = O /\ reqs v !! j = Some rq) (request [v] i j).
Proof.
  eapply ends_weaken; [|apply ends_request; left; exact I].
  intros rq (w & Hw & Hrq). destruct i as [|i]; [|done]. by injection Hw as <-.
Qed.

(** A turn counts [i] up to 1, where there is no message. *)
Lemma point_loop_never splitId id j k i rq :
  reqs v !! j = Some rq -> areas rq <> [] ->
  @ends E _ any (fun _ => False)
    (while_ 1 (point_more [v] j) (point_row splitId id [v] j k) (i, [])).
Proof.
  intros Hrq Ha. eapply ends_weaken; [|apply (ends_while _ (fun _ => True) (fun x => x.1 = O)
    (fun _ => False) (fun x => 1 - x.1)%nat)]; simpl; [by intros x [_ []]|..|done|lia].
  - intros [i' acc] _. unfold point_more. eapply ends_bind; [apply request_one|].
    intros rq' [-> Hrq']. apply ends_ret. simplify_eq.
    revert Ha. destruct (areas rq); simpl; [done|]. split; [done|lia].
  - intros [i' acc] _ Hi. simpl in Hi. subst. eapply ends_weaken; [|apply point_row_ends; eauto with stops; done].
    intros [i'' ?] [= ->]. simpl. split; [done|lia].
Qed.

Lemma area_row_never splitId id j k i acc rq :
  reqs v !! j = Some rq -> areas rq <> [] ->
  @ends E _ any (fun _ => False) (area_row splitId id [v] j (k, i, acc)).
Proof.
  intros Hrq Ha. unfold area_row. apply ends_then; [stops|intros rid].
  eapply ends_bind; [apply request_one|]. intros rq' [-> Hrq'].
  eapply ends_bind; [by apply ends_nth|]. intros da Hk. cbv zeta.
  apply ends_then; [stops|intros acc'].
  apply never_bind. by apply (point_loop_never _ _ _ _ _ rq).
Qed.

Lemma area_loop_one splitId id j rq :
  reqs v !! j = Some rq ->
  @ends E _ any (fun x => x.1.2 = O /\ areas rq = []) (while_ (most_areas [v]) (area_more [v] j)
    (area_row splitId id [v] j) (O, O, [])).
Proof.
  intros Hrq. eapply ends_weaken; [|apply (ends_while _ (fun x => x.1 = (O, O))
    (fun _ => areas rq <> []) (fun _ => areas rq = []) (fun x => most_areas [v] - x.1.1)%nat)];
    simpl; [by intros [[k i] acc] [[= -> ->] Ha]|..|done|lia].
  - intros [[k i] acc] [= -> ->]. unfold area_more. eapply ends_bind; [apply request_one|].
    intros rq' [_ Hrq']. simplify_eq. apply ends_ret.
    pose proof (most_areas_le [v] v rq ltac:(set_solver) (list_elem_of_lookup_2 _ _ _ Hrq)).
    destruct (areas rq); simpl in *; [done|]. split; [done|lia].
  - intros [[k i] acc] _ Ha. apply never_weaken. by apply (area_row_never _ _ _ _ _ _ rq).
Qed.

Lemma req_turn_one splitId virId j acc rq :
  reqs v !! j = Some rq ->
  @ends E _ any (fun x => x.1 = (S j, O) /\ areas rq = []) (req_turn splitId virId [v] (j, O, acc)).
Proof.
  intros Hrq. unfold req_turn. apply ends_then; [stops|intros id].
  eapply ends_bind; [apply request_one|]. intros rq' [_ Hrq']. simplify_eq.
  apply ends_then; [apply virReqs_row_stops; eauto with stops|intros acc'].
  eapply ends_bind; [by apply area_loop_one|]. intros [[k i] refs] [Hi Ha]. simpl in Hi. subst.
  apply ends_then; [stops|]. intros _. by apply ends_ret.
Qed.

Lemma req_loop_never splitId virId rq :
  rq ∈ reqs v -> areas rq <> [] ->
  @ends E _ any (fun _ => False)
    (while_ (most_reqs [v]) (req_more [v]) (req_turn splitId virId [v]) (O, O, [])).
Proof.
  intros [j0 Hj0]%list_elem_of_lookup_1 Ha.
  eapply ends_weaken; [|apply (ends_while _ (fun x => x.1.2 = O /\ x.1.1 <= j0)%nat
    (fun x => x.1.1 < length (reqs v))%nat (fun _ => False) (fun x => most_reqs [v] - x.1.1)%nat)];
    simpl; [by intros x [_ []]|..|split; [done|lia]|lia].
  - intros [[j i] acc] [Hi Hj]. simpl in *. subst. unfold req_more. simpl. apply ends_ret.
    pose proof (most_reqs_le [v] v ltac:(set_solver)). apply lookup_lt_Some in Hj0.
    destruct (Nat.ltb_spec j (length (reqs v))); simpl in *; lia.
  - intros [[j i] acc] [Hi Hj] [rq' Hrq']%lookup_lt_is_Some. simpl in *. subst.
    pose proof (most_reqs_le [v] v ltac:(set_solver)) as Hle.
    pose proof (lookup_lt_Some _ _ _ Hrq'). simpl in Hle.
    eapply ends_weaken; [|by apply req_turn_one]. intros [[j' i'] ?] [[= -> ->] Ha']. simpl.
    destruct (decide (j = j0)) as [->|]; [congruence|]. split; [split; [done|]|]; lia.
Qed.

Lemma virs_never splitId camId d rq :
  rep d "virlist" = [v] -> rq ∈ reqs v -> areas rq <> [] ->
  @ends E _ any (fun _ => False) (virs splitId camId d).
Proof.
  intros Hd Hrq Ha. unfold virs. rewrite Hd. apply never_bind. cbn [length while_].
  eapply (ends_bind _ (fun c => c = true)); [by apply ends_ret|]. intros ? ->.
  apply never_bind. unfold vir_turn. apply ends_then; [stops|intros id].
  eapply ends_bind; [apply ends_nth; done|]. intros w [= <-].
  apply ends_then; [stops|intros acc]. apply ends_then; [stops|intros _].
  apply never_bind. by apply (req_loop_never _ _ rq).
Qed.

(** The points of a sign's path are read from the events. *)
Lemma signs_never splitId camId d e r :
  rep d "rtelist" = [] -> e ∈ rep d "rtslist" ->
  int e "datasource" <> 9 -> int e "datasource" <> 12 ->
  r ∈ rep e "refpathlist" -> rep r "activepath" <> [] ->
  @ends E _ any (fun _ => False) (signs splitId camId d).
Proof.
  intros Hd He H9 H12 Hr Ha. apply Z.eqb_neq in H9, H12.
  unfold signs. apply never_bind, (never_for _ _ e); [done|intros; stops|]. intros i acc.
  unfold rtsData_row. rewrite H9, H12. cbn [orb]. cbv zeta.
  apply ends_then; [stops|intros id]. apply ends_then; [stops|intros acc'].
  apply ends_then; [stops|intros fid].
  apply never_bind, never_bind, (never_for _ _ r); [done|intros; stops|]. intros j acc''.
  unfold rtsReferencePath_row. apply ends_then; [stops|intros pid]. cbv zeta.
  apply ends_then; [stops|intros acc3].
  destruct (rep r "activepath") as [|x l]; [done|].
  apply never_bind, never_bind, (never_for _ _ x); [set_solver|intros; stops|]. intros k acc4.
  unfold rtsActivepath_row. apply ends_then; [stops|intros aid].
  eapply ends_bind; [by apply ends_nth|]. rewrite Hd. done.
Qed.

End Never.

(** [camInsert] does not return when the message has one request message and a
    request in it has a sensor area: the loop over the points of the area
    counts up the variable of the outermost loop and then reads the message
    after the last. *)
Theorem sensor_area_never_returns {E} `{!Gen E} (rand : Z) (d v rq : msg) (s : st E) :
  rep d "virlist" = [v] -> rq ∈ reqs v -> areas rq <> [] ->
  exists e, fst (camInsert rand d s) = inr e.
Proof.
  intros Hd Hrq Ha.
  assert (@ends E _ any (fun _ => False) (camInsert rand d)) as H.
  { pose proof (any_ids (E := E)). pose proof (any_fine d). pose proof (any_stop Overrun).
    pose proof (any_stop OutOfRange). unfold camInsert.
    apply ends_then; [stops|intros camId]. cbv zeta.
    apply ends_then; [stops|intros sql].
    do 11 (apply ends_then; [stops|intros _]). by apply (virs_never v _ _ d rq). }
  specialize (H s). destruct (fst (camInsert rand d s)) as [|e]; [done|by exists e].
Qed.

Lemma sensor_area_never_returns_witness :
  exists e, fst (camInsert 0 (Msg [("virlist", VRep [a_vir])]) (mkSt 1%nat [])) = inr e.
Proof.
  apply (sensor_area_never_returns 0 _ a_vir a_request);
    [reflexivity|apply list_elem_of_further, list_elem_of_here|done].
Defined.

(** Nor does it return when a sign that is not skipped has a path with a point
    and the message has no events: the point is looked up in the events. *)
Theorem sign_path_needs_event {E} `{!Gen E} (rand : Z) (d e r : msg) (s : st E) :
  rep d "rtelist" = [] -> e ∈ rep d "rtslist" ->
  int e "datasource" <> 9 -> int e "datasource" <> 12 ->
  r ∈ rep e "refpathlist" -> rep r "activepath" <> [] ->
  exists x, fst (camInsert rand d s) = inr x.
Proof.
  intros Hd He H9 H12 Hr Ha.
  assert (@ends E _ any (fun _ => False) (camInsert rand d)) as H.
  { pose proof (any_ids (E := E)). pose proof (any_fine d). pose proof any_stop.
    unfold camInsert. apply ends_then; [stops|intros camId]. cbv zeta.
    apply ends_then; [stops|intros sql].
    do 3 (apply ends_then; [stops|intros _]). apply never_bind. by eapply signs_never. }
  specialize (H s). destruct (fst (camInsert rand d s)) as [|x]; [done|by exists x].
Qed.

Lemma sign_path_needs_event_witness :
  exists x, fst (camInsert 0 (Msg [("rtslist", VRep [a_sign])]) (mkSt 1%nat [])) = inr x.
Proof.
  apply (sign_path_needs_event 0 _ a_sign a_path);
    [reflexivity|apply list_elem_of_here|done|done|apply list_elem_of_here|done].
Defined.

End CamCorrect.
