(* ===== verification/CamStored.v ===== *)
(** * Storing a camera message: the statements

    What the tables of a message are in the data base: for the detected regions
    in full, for the events when the first one is skipped. *)

From S2P Require Import Prelude SnowFlake Printf Proto Insert CamObjects CamEvents.
Import Printf Proto Insert CamObjects CamEvents.

Module CamStored.

(** ** Statements *)

(** Rows, between commas. *)
Fixpoint commas (rows : list str) : str :=
  match rows with
  | [] => []
  | [r] => r
  | r :: rows' => r ++ $"," ++ commas rows'
  end.

(** A row of values. *)
Definition tuple (vals : list str) : str := $"(" ++ commas vals ++ $")".

(** The statement of a table, if it has rows. *)
Definition statement (header : str) (rows : list str) : list str :=
  match rows with [] => [] | _ => [header ++ commas rows ++ $";"] end.

Lemma commas_close r rows :
  removelast (concat (map (fun r => r ++ $",") (r :: rows))) = commas (r :: rows).
Proof.
  revert r. induction rows as [|r' rows IH]; intros r.
  - simpl. rewrite app_nil_r. apply removelast_last.
  - change (concat (map (fun r => r ++ $",") (r :: r' :: rows)))
      with ((r ++ $",") ++ concat (map (fun r => r ++ $",") (r' :: rows))).
    rewrite removelast_app, IH; [by rewrite <- app_assoc|].
    simpl. by destruct r'.
Qed.

(** What [close] makes of rows that each end in a comma. *)
Lemma close_rows header r rows :
  close (header ++ concat (map (fun r => r ++ $",") (r :: rows)))
  = header ++ commas (r :: rows) ++ $";".
Proof.
  assert (concat (map (fun r => r ++ $",") (r :: rows)) <> []) as Hne by (by destruct r).
  unfold close. rewrite length_app, removelast_app, commas_close by done.
  destruct (concat _); [done|]. simpl. rewrite Nat.add_succ_r. simpl. by rewrite <- app_assoc.
Qed.

Section Tables.
Context {E : Type} `{!Gen E}.

(** The next id, and the generator after it; after so many ids; and that so many
    can be had. *)
Definition draw (g : E) : Z * E := default (0, g) (next_id g).
Fixpoint after (n : nat) (g : E) : E :=
  match n with O => g | S n' => after n' (draw g).2 end.
Fixpoint gives (n : nat) (g : E) : Prop :=
  match n with O => True | S n' => is_Some (next_id g) /\ gives n' (draw g).2 end.

Lemma after_app a b g : after (a + b) g = after b (after a g).
Proof. revert g. induction a as [|a IH]; intros g; [done|]. apply IH. Qed.

Lemma gives_app a b g : gives (a + b) g -> gives a g /\ gives b (after a g).
Proof.
  revert g. induction a as [|a IH]; intros g; [done|]. intros [H1 H2]. destruct (IH _ H2). by split.
Qed.

(** A turn of a loop, when it returns: the text it adds, the statements it
    executes on the way, the generator after it. *)
Record turn := mkTurn { row_text : str; executed : list str; gen_after : E }.

Definition turns (t : msg -> E -> turn) (l : list msg) (g : E) : list str * list str * E :=
  foldl (fun '(rows, out, g) x =>
    (rows ++ [row_text (t x g)], out ++ executed (t x g), gen_after (t x g))) ([], [], g) l.

(** [f] is a turn that prints the header before the first row, and draws [cost] ids. *)
Definition prints (header : str) (t : msg -> E -> turn) (cost : msg -> nat)
  (f : nat -> msg -> str -> M E str) : Prop :=
  forall i x acc g q, gives (cost x) g ->
    gen_after (t x g) = after (cost x) g /\
    f i x acc (mkSt g q) =
      (inl (acc ++ (if (i =? 0)%nat then header else []) ++ row_text (t x g) ++ $","),
       mkSt (gen_after (t x g)) (q ++ executed (t x g))).

Definition turns_from (t : msg -> E -> turn) (l : list msg) (a : list str * list str * E) :=
  foldl (fun '(rows, out, g) x =>
    (rows ++ [row_text (t x g)], out ++ executed (t x g), gen_after (t x g))) a l.

(** The ids that a list takes. *)
Definition costs (cost : msg -> nat) (l : list msg) : nat := sum_list (map cost l).

Lemma for_prints header t cost l f i acc g q rows0 out0 :
  prints header t cost f -> (0 < i)%nat -> gives (costs cost l) g ->
  let '(rows, out, g') := turns_from t l (rows0, out0, g) in
  exists rows' out', rows = rows0 ++ rows' /\ out = out0 ++ out' /\ g' = after (costs cost l) g /\
  for_from i l f acc (mkSt g q)
  = (inl (acc ++ concat (map (fun r => r ++ $",") rows')), mkSt g' (q ++ out')).
Proof.
  revert i acc g q rows0 out0.
  induction l as [|x l IH]; intros i acc g q rows0 out0 Hf Hi Hg; cbn [turns_from foldl for_from].
  - exists [], []. cbn [map concat]. by rewrite !app_nil_r.
  - apply gives_app in Hg as [Hx Hl]. destruct (Hf i x acc g q Hx) as [Hgx Hrun].
    cbv [mbind M_bind]. rewrite Hrun. clear Hrun.
    destruct (i =? 0)%nat eqn:E0; [apply Nat.eqb_eq in E0; lia|]. rewrite app_nil_l.
    specialize (IH (S i) (acc ++ row_text (t x g) ++ $",") (gen_after (t x g))
      (q ++ executed (t x g)) (rows0 ++ [row_text (t x g)]) (out0 ++ executed (t x g))).
    unfold turns_from in *. destruct (foldl _ _ _) as [[rows out] g'].
    destruct IH as (rows' & out' & -> & -> & -> & Hrun); [done|lia|by rewrite Hgx|].
    exists (row_text (t x g) :: rows'), (executed (t x g) ++ out'). rewrite Hrun. cbn [map concat].
    rewrite <- !app_assoc. split_and!; [done..| |done]. change (costs cost (x :: l)) with (cost x + costs cost l)%nat.
    by rewrite after_app, Hgx.
Qed.

(** A table of printed rows executes what its turns execute and then one
    statement with all its rows. *)
Lemma table_prints header t cost l f g q :
  prints header t cost f -> (10 < length header)%nat -> gives (costs cost l) g ->
  let '(rows, out, g') := turns t l g in
  g' = after (costs cost l) g /\
  table l f (mkSt g q) = (inl (), mkSt g' (q ++ out ++ statement header rows)).
Proof.
  intros Hf Hh Hg. unfold turns, table, for_. destruct l as [|x l].
  - simpl. by rewrite app_nil_r.
  - cbn [foldl for_from]. apply gives_app in Hg as [Hx Hl]. destruct (Hf 0%nat x [] g q Hx) as [Hgx Hrun].
    cbv [mbind M_bind]. rewrite Hrun. clear Hrun.
    cbn [Nat.eqb app].
    pose proof (for_prints header t cost l f 1 (header ++ row_text (t x g) ++ $",")
      (gen_after (t x g)) (q ++ executed (t x g)) [row_text (t x g)] (executed (t x g))) as H.
    unfold turns_from in H. destruct (foldl _ _ _) as [[rows out] g'].
    destruct H as (rows' & out' & -> & -> & -> & ->); [done|lia|by rewrite Hgx|].
    change (costs cost (x :: l)) with (cost x + costs cost l)%nat. rewrite after_app, Hgx. split; [done|].
    assert ((header ++ row_text (t x g) ++ $",") ++ concat (map (fun r => r ++ $",") rows')
      = header ++ concat (map (fun r => r ++ $",") (row_text (t x g) :: rows'))) as ->
      by (cbn [map concat]; by rewrite <- !app_assoc).
    unfold flush. rewrite close_rows.
    destruct (Nat.ltb_spec 10 (length (header ++ commas (row_text (t x g) :: rows') ++ $";")));
      [|rewrite length_app in *; lia].
    unfold excute. cbn [gen sqls]. by rewrite <- !app_assoc.
Qed.

Lemma row_run i size header fmt args acc (s : st E) t :
  format header [] = Some header -> Z.of_nat (length header) <? size = true ->
  format fmt args = Some t -> Z.of_nat (length t) < size ->
  row i size header fmt args acc s
  = (inl (acc ++ (if (i =? 0)%nat then header else []) ++ t), s).
Proof.
  intros Hh Hlh Hf Ht%Z.ltb_lt. unfold row. cbv [mbind M_bind].
  destruct (i =? 0)%nat.
  - unfold sprintf at 1. rewrite Hh, Hlh. cbv [mret M_ret].
    unfold sprintf. rewrite Hf, Ht. cbv [mret M_ret]. by rewrite <- app_assoc.
  - unfold sprintf. cbv [mret M_ret]. by rewrite Hf, Ht.
Qed.

(** ** The detected regions *)

Lemma next_run g q : is_Some (next_id g) -> next (mkSt g q) = (inl (draw g).1, mkSt (draw g).2 q).
Proof. unfold next, draw. cbn [gen sqls]. by intros [[id g'] ->]. Qed.

(** Numbers as the statements have them. *)
Definition num (z : Z) : str := show_d 0 (swrap 32 z).
Definition lnum (z : Z) : str := to_strz (swrap 64 z).

Definition point_header : str :=
  lines ["INSERT INTO `cam_data_polygon_position_3_d`";
    "				(`id`,`split_id`,`lon`,`lat`,`ele`,`cam_data_polygon_id`)VALUES"].

Definition region_header : str :=
  lines ["INSERT INTO `cam_data_polygon`"; "			(`id`,`split_id`,`cam_data_id`)VALUES"].

Definition point_turn (splitId regionId : Z) (x : msg) (g : E) : turn :=
  mkTurn (tuple [lnum (draw g).1; num splitId; num (int x "lon"); num (int x "lat");
    num (int x "ele"); lnum regionId]) [] (draw g).2.

Definition region_turn (splitId camId : Z) (x : msg) (g : E) : turn :=
  let id := (draw g).1 in
  let '(points, out, g') := turns (point_turn splitId id) (rep x "pos") (draw g).2 in
  mkTurn (tuple [lnum id; num splitId; lnum camId]) (out ++ statement point_header points) g'.

(** What numbers print fits any of the buffers. *)
Lemma numbers_fit size fmt args t :
  format fmt args = Some t -> Forall (arg_short 0) args ->
  Z.of_nat (bound 0 fmt) <? size = true -> Z.of_nat (length t) < size.
Proof. intros Hf Ha Hb%Z.ltb_lt. pose proof (format_length _ _ _ _ Ha Hf). lia. Qed.

(** A point takes an id, and a region one more than it has points. *)
Definition point_cost (x : msg) : nat := 1.
Definition region_cost (x : msg) : nat := S (costs point_cost (rep x "pos")).

Lemma points_print splitId regionId :
  prints point_header (point_turn splitId regionId) point_cost (camPolygonPos_row splitId regionId).
Proof.
  intros i x acc g q [Hg _]. split; [done|].
  unfold camPolygonPos_row. cbv [mbind M_bind]. rewrite next_run by done. cbv zeta.
  assert (format (lines ["(%lld,%d,%d,%d,%d,%lld),"])
    [L (draw g).1; D splitId; D (int x "lon"); D (int x "lat"); D (int x "ele"); L regionId]
    = Some (row_text (point_turn splitId regionId x g) ++ $",")) as Hf
    by (cbn [row_text point_turn]; unfold tuple, commas; rewrite <- !app_assoc; reflexivity).
  rewrite (row_run _ _ _ _ _ _ _ (row_text (point_turn splitId regionId x g) ++ $","));
    [|vm_compute; reflexivity|vm_compute; reflexivity|exact Hf
     |eapply numbers_fit; [exact Hf|repeat constructor|vm_compute; reflexivity]].
  cbv [mret M_ret]. by rewrite app_nil_r.
Qed.

Lemma regions_print splitId camId :
  prints region_header (region_turn splitId camId) region_cost (camPolygon_row splitId camId).
Proof.
  intros i x acc g q [Hg Hpts]. unfold camPolygon_row. cbv [mbind M_bind]. rewrite next_run by done.
  cbv zeta. unfold region_turn. set (id := (draw g).1).
  assert (format (lines ["(%lld,%d,%lld),"]) [L id; D splitId; L camId]
    = Some (tuple [lnum id; num splitId; lnum camId] ++ $",")) as Hf
    by (unfold tuple, commas; rewrite <- !app_assoc; reflexivity).
  rewrite (row_run _ _ _ _ _ _ _ (tuple [lnum id; num splitId; lnum camId] ++ $","));
    [|vm_compute; reflexivity|vm_compute; reflexivity|exact Hf
     |eapply numbers_fit; [exact Hf|repeat constructor|vm_compute; reflexivity]].
  pose proof (table_prints _ _ _ _ _ (draw g).2 q (points_print splitId id)
    ltac:(vm_compute; lia) Hpts) as H.
  destruct (turns _ _ _) as [[points out] g']. destruct H as [-> H]. split; [done|].
  by rewrite H.
Qed.

(** C20. Detected regions, when the generator gives as many ids as there are regions
    and points: for each region in turn its points are stored in one statement, if
    it has any, and then all regions in one statement; the ids are drawn in this
    order, each region's before those of its points. *)
Theorem regions_stored (splitId camId : Z) (d : msg) (g : E) (q : list str) :
  gives (costs region_cost (rep d "detectedregion")) g ->
  regions splitId camId d (mkSt g q) =
    let '(rows, out, g') := turns (region_turn splitId camId) (rep d "detectedregion") g in
    (inl (), mkSt g' (q ++ out ++ statement region_header rows)).
Proof.
  intros Hg. pose proof (table_prints _ _ _ _ _ g q (regions_print splitId camId)
    ltac:(vm_compute; lia) Hg) as H.
  unfold regions. destruct (turns _ _ _) as [[rows out] g']. by destruct H.
Qed.

End Tables.

(** An example with two regions, the first with a point. *)
Definition count : Gen nat := fun n => Some (Z.of_nat n, S n).
#[local] Existing Instance count.

Definition two_regions : msg :=
  Msg [("detectedregion", VRep [Msg [("pos", VRep [Msg [("lon", VInt 7)]])]; Msg []])].

(** Three ids of the program's own generator, with a clock that moves on. *)
Definition some_clock : list SnowFlake.timeval :=
  [SnowFlake.tv 1700000000 0; SnowFlake.tv 1700000001 0; SnowFlake.tv 1700000002 0].
Definition some_flake : SnowFlake.t := SnowFlake.mk 1 1 0 0.

Lemma regions_stored_witness :
  regions 2345 5 two_regions (mkSt 1%nat [])
  = (inl (), mkSt 4%nat
      [point_header ++ $"(2,2345,7,0,0,1);"; region_header ++ $"(1,2345,5),(3,2345,5);"]) /\
  length (sqls (snd (regions 2345 5 two_regions (mkSt (some_flake, some_clock) [])))) = 2%nat.
Proof.
  split.
  - etransitivity; [apply (regions_stored 2345 5 two_regions 1%nat []); vm_compute; eauto 10|vm_compute; reflexivity].
  - rewrite (regions_stored (E := SnowFlake.t * list SnowFlake.timeval)); [vm_compute; reflexivity|].
    vm_compute. eauto 10.
Defined.

(** ** Events behind a skipped one *)

Section Skipped.
Context {E : Type} `{!Gen E}.

(** Events that were sent down by hand are not stored. *)
Definition skipped (e : msg) : bool := (int e "datasource" =? 9) || (int e "datasource" =? 12).

Fixpoint literals (ps : list piece) : nat :=
  match ps with
  | [] => O
  | Lit _ :: ps' => S (literals ps')
  | _ :: ps' => literals ps'
  end.

Lemma width_literals ps args : is_Some (print ps args) -> (literals ps <= width ps args)%nat.
Proof.
  revert args. induction ps as [|p ps IH]; intros args [s Hs]; [simpl; lia|].
  destruct (class_of_piece p) as [c|] eqn:Ep.
  - destruct args as [|a args]; [by destruct p|].
    assert (literals (p :: ps) = literals ps) as -> by (by destruct p).
    assert (print (p :: ps) (a :: args) = (t ← show p a; app t <$> print ps args)) as Hp
      by (by destruct p).
    assert (width (p :: ps) (a :: args) = (length (default [] (show p a)) + width ps args)%nat) as ->
      by (by destruct p).
    rewrite Hp in Hs. destruct (show p a) as [t|]; [|done]. simpl in Hs.
    destruct (print ps args) as [u|] eqn:Eu; [|done].
    specialize (IH args ltac:(by eexists)). lia.
  - destruct p; try done. simpl in *. destruct (print ps args) as [u|] eqn:Eu; [|done].
    specialize (IH args ltac:(by eexists)). lia.
Qed.

(** A row after the first adds a text that starts like its format. *)
Lemma later_row_ends i size header fmt args acc ps :
  parse fmt = Some (Lit "("%char :: ps) ->
  @ends E _ (fun _ => True)
    (fun a => exists t, a = acc ++ "("%char :: t /\ (literals ps <= length t)%nat)
    (row (S i) size header fmt args acc).
Proof.
  intros Hp. unfold row. cbn [Nat.eqb]. eapply (ends_bind _ (fun a => a = acc)); [by apply ends_ret|].
  intros ? ->. unfold sprintf, format. rewrite Hp. cbn [mbind option_bind print].
  destruct (print ps args) as [t|] eqn:Ht; cbn [fmap option_fmap option_map].
  - case_match; [|by apply never_bind, ends_stopped].
    eapply (ends_bind _ (fun r => r = "("%char :: t)); [by apply ends_ret|]. intros ? ->.
    apply ends_ret. exists t. split; [done|].
    rewrite (print_width _ _ _ Ht). apply width_literals. by eexists.
  - apply never_bind. by apply ends_stopped.
Qed.

(** What is collected while no header is printed. *)
Definition headless (acc : str) : Prop :=
  exists t, acc = "("%char :: t /\ (10 < length t)%nat.

Lemma headless_app acc t : headless acc -> headless (acc ++ t).
Proof. intros (u & -> & Hu). exists (u ++ t). rewrite length_app. split; [done|lia]. Qed.

Lemma flush_headless acc (s : st E) :
  headless acc -> exists t, flush acc s = (inl (), mkSt (gen s) (sqls s ++ ["("%char :: t])).
Proof.
  intros (t & -> & Ht). destruct t as [|c t]; [simpl in Ht; lia|].
  exists (removelast (c :: t) ++ $";"). unfold flush.
  assert (close ("("%char :: c :: t) = "("%char :: removelast (c :: t) ++ $";") as -> by reflexivity.
  destruct (Nat.ltb_spec 10 (length ("("%char :: removelast (c :: t) ++ $";"))) as [|Hlen];
    [reflexivity|]. exfalso. revert Hlen Ht. cbn [length]. rewrite length_app.
  rewrite removelast_firstn_len, length_firstn. simpl. lia.
Qed.

Lemma later_event_ends splitId camId d i e acc :
  acc = [] \/ headless acc ->
  @ends E _ (fun _ => True)
    (fun a => if skipped e then a = acc else headless a) (rte_row splitId camId d (S i) e acc).
Proof.
  intros Hacc. unfold rte_row, skipped. destruct (_ || _); [by apply ends_ret|].
  assert (ids (E := E) (fun _ => True)) by (by left).
  assert (fine (fun _ => True) 500 e) by (by left).
  apply ends_then; [stops|intros id]. cbv zeta.
  eapply ends_bind; [by eapply later_row_ends; vm_compute; reflexivity|].
  intros a (t & -> & Ht). apply ends_then; [stops|intros fid].
  do 3 (apply ends_then; [stops|intros _]). apply ends_ret.
  destruct Hacc as [->|Hacc]; [|by apply headless_app].
  exists t. split; [done|]. eapply Nat.lt_le_trans; [|exact Ht]. vm_compute. lia.
Qed.

Lemma later_events_end splitId camId d i l acc :
  acc = [] \/ headless acc ->
  @ends E _ (fun _ => True)
    (fun a => (forallb skipped l = true -> a = acc) /\ (forallb skipped l = false -> headless a)
       /\ (headless acc -> headless a))
    (for_from (S i) l (rte_row splitId camId d) acc).
Proof.
  revert i acc. induction l as [|e l IH]; intros i acc Hacc; cbn [for_from forallb].
  - by apply ends_ret.
  - eapply ends_bind; [by apply later_event_ends|]. intros a Ha.
    destruct (skipped e); simpl; [subst; by apply IH|].
    eapply ends_weaken; [|apply IH; by right]. intros a' (_ & _ & H).
    split; [done|]. split; intros _; by apply H.
Qed.

(** When the first of the events is one that is skipped and another one is not,
    the statement for the table of events has no head: it starts with the
    bracket of its first row. *)
Theorem skipped_event_headless (splitId camId : Z) (d e0 : msg) (l : list msg) (s s' : st E) :
  rep d "rtelist" = e0 :: l -> skipped e0 = true -> forallb skipped l = false ->
  events splitId camId d s = (inl (), s') ->
  exists sql t, last (sqls s') = Some sql /\ sql = "("%char :: t.
Proof.
  intros Hd H0 Hl. unfold events, table, for_. rewrite Hd. cbn [for_from].
  assert (rte_row splitId camId d 0 e0 [] = mret []) as ->
    by (unfold rte_row; unfold skipped in H0; by rewrite H0).
  cbv [mbind M_bind mret M_ret].
  pose proof (later_events_end splitId camId d 0 l [] (or_introl eq_refl) s) as H.
  destruct (for_from _ _ _ _ _) as [[a|x] s1]; [|done]. simpl in H.
  destruct H as (_ & H & _). destruct (flush_headless a s1 (H Hl)) as [t ->].
  intros [= <-]. eexists _, _. split; [cbn [sqls]; by rewrite last_snoc|reflexivity].
Qed.

End Skipped.

Definition skipped_then_stored : msg :=
  Msg [("rtelist", VRep [Msg [("datasource", VInt 9)]; Msg [("id", VInt 3)]])].

Lemma skipped_event_headless_witness :
  let s' := snd (events 2345 5 skipped_then_stored (mkSt 1%nat [])) in
  exists sql t, last (sqls s') = Some sql /\ sql = "("%char :: t.
Proof.
  apply (skipped_event_headless 2345 5 skipped_then_stored (Msg [("datasource", VInt 9)])
    [Msg [("id", VInt 3)]] (mkSt 1%nat [])); vm_compute; reflexivity.
Defined.
End CamStored.
