(* ===== verification/Shape.v ===== *)
(** * The shape of statements

    An insert statement names columns and has rows of values. [scan] reads a
    statement from left to right and fails where a row has not as many values
    as there are columns; [balanced] is what the data base needs of a
    statement to accept it. A format is read the same way, so that for every
    table it is a computation on its two literals that shows that all the
    statements it prints are balanced, as long as the texts in them hold no
    quote and no backslash: the program does not escape them. *)

From S2P Require Import Prelude Printf Proto Insert.
Import Printf Proto Insert.

Module Shape.

(** ** Reading a statement *)

(** The number of columns, once known; whether there was a row; the values so
    far of the group that is open; whether a text is open. *)
Record sc := mkSc { columns : option nat; some_row : bool; open_group : option nat; in_text : bool }.
#[export] Instance sc_eq_dec : EqDecision sc.
Proof. solve_decision. Defined.

Definition init : sc := mkSc None false None false.

(** A group of values ends: the first one is the columns. *)
Definition end_group (n : nat) (st : sc) : option sc :=
  match columns st with
  | None => Some (mkSc (Some n) false None false)
  | Some k => if (n =? k)%nat then Some (mkSc (Some k) true None false) else None
  end.

(** The chars that mean something outside of a text. *)
Definition inert (c : ascii) : bool := bool_decide (c ∉ $"'(),`").

Definition scan_char (st : sc) (c : ascii) : option sc :=
  if in_text st then
    Some (if decide (c = "'"%char) then mkSc (columns st) (some_row st) (open_group st) false else st)
  else if inert c then Some st
  else if decide (c = "'"%char) then Some (mkSc (columns st) (some_row st) (open_group st) true)
  else match open_group st with
  | Some n =>
      if decide (c = ")"%char) then end_group n st
      else if decide (c = ","%char) then Some (mkSc (columns st) (some_row st) (Some (S n)) false)
      else if decide (c = "("%char) then None else Some st
  | None =>
      if decide (c = "("%char) then Some (mkSc (columns st) (some_row st) (Some 1%nat) false)
      else if decide (c = ","%char) then Some st
      else if decide (c = "`"%char) then (if columns st then None else Some st) else None
  end.

Fixpoint scan (st : sc) (s : str) : option sc :=
  match s with
  | [] => Some st
  | c :: s' => st' ← scan_char st c; scan st' s'
  end.

(** Between two rows of [k] values. *)
Definition between (k : nat) (rows : bool) : sc := mkSc (Some k) rows None false.

Definition balanced (sql : str) : bool :=
  match scan init sql with
  | Some (mkSc (Some _) true None false) => true
  | _ => false
  end.

Example balanced_insert : balanced $"INSERT INTO `t`(`a`,`b`)VALUES(1,'x, (y)'),(-2,'');" = true.
Proof. reflexivity. Qed.
Example unbalanced_insert : balanced $"INSERT INTO `t`(`a`,`b`)VALUES(1,2),(3);" = false.
Proof. reflexivity. Qed.

(** ** Reading a format *)

Definition scan_piece (st : sc) (p : piece) : option sc :=
  match p with
  | Lit c => scan_char st c
  | Cs => if in_text st then Some st else None
  | _ => Some st
  end.

Fixpoint scan_pieces (st : sc) (ps : list piece) : option sc :=
  match ps with
  | [] => Some st
  | p :: ps' => st' ← scan_piece st p; scan_pieces st' ps'
  end.

Definition scan_format (st : sc) (fmt : str) : option sc :=
  ps ← parse fmt; scan_pieces st ps.

(** The last char of a format. *)
Definition last_char (fmt : str) : option ascii :=
  ps ← parse fmt; match last ps with Some (Lit c) => Some c | _ => None end.

(** The two literals of a table fit each other: rows of [k] values for [k]
    columns, and a comma after each. *)
Definition matching (k : nat) (header fmt : str) : bool :=
  bool_decide (scan_format init header = Some (between k false))
  && bool_decide (scan_format (between k false) fmt = Some (between k true))
  && bool_decide (scan_format (between k true) fmt = Some (between k true))
  && bool_decide (last_char fmt = Some ","%char).

(** ** Texts without quotes *)

Definition quiet_char (c : ascii) : bool := bool_decide (c ∉ $"'\").
Definition quiet_text (s : str) : bool := forallb quiet_char s.
Definition quiet_arg (a : arg) : Prop := match a with P s => quiet_text s = true | _ => True end.

(** No text of a message has a quote. *)
Fixpoint quiet (m : msg) : bool :=
  match m with Msg fs => forallb (fun kv => quiet_value kv.2) fs end
with quiet_value (v : value) : bool :=
  match v with
  | VText s => quiet_text s
  | VSub m => quiet m
  | VRep l => forallb quiet l
  | _ => true
  end.

Lemma get_quiet m f v : quiet m = true -> get m f = Some v -> quiet_value v = true.
Proof.
  destruct m as [fs]. unfold get. simpl. induction fs as [|[g w] fs IH]; simpl; [done|].
  intros [Hw Hfs]%andb_true_iff. destruct (String.eqb f g); [by intros [= <-]|by apply IH].
Qed.

Lemma quiet_sub m f : quiet m = true -> quiet (m ~> f) = true.
Proof.
  intros H. unfold sub. destruct (get m f) as [[]|] eqn:E; try done. by eapply get_quiet in E.
Qed.

Lemma quiet_rep m f x : quiet m = true -> x ∈ rep m f -> quiet x = true.
Proof.
  intros H. unfold rep. destruct (get m f) as [[]|] eqn:E; try (by intros Hx%not_elem_of_nil).
  apply get_quiet in E; [|done]. simpl in E. rewrite forallb_forall in E.
  intros Hx. by apply E, list_elem_of_In.
Qed.

Lemma quiet_field m f : quiet m = true -> quiet_arg (P (text m f)).
Proof.
  intros H. unfold text. simpl. destruct (get m f) as [[]|] eqn:E; try done. by eapply get_quiet in E.
Qed.

Lemma quiet_opt c s : quiet_arg (P s) -> quiet_arg (P (opt_text c s)).
Proof. by destruct c. Qed.

(** ** Numbers are inert *)

Definition number_char (c : ascii) : bool := bool_decide (c ∈ $"0123456789-.naif").

Lemma number_inert c : number_char c = true -> inert c = true /\ quiet_char c = true.
Proof.
  intros H%bool_decide_eq_true. split; apply bool_decide_eq_true; revert c H; apply Forall_forall;
    by_decision.
Qed.

Definition number_text (s : str) : Prop := Forall (fun c => number_char c = true) s.

Lemma digit_number x : number_char (pretty_N_char x) = true.
Proof. unfold pretty_N_char. by repeat case_match. Qed.

Lemma number_go x s :
  number_text (list_ascii_of_string s) -> number_text (list_ascii_of_string (pretty_N_go x s)).
Proof.
  revert s. induction (N.lt_wf_0 x) as [x _ IH]. intros s Hs.
  destruct (decide (x = 0%N)) as [->|]; [by rewrite pretty_N_go_0|].
  rewrite pretty_N_go_step by lia. apply IH; [apply N.div_lt; lia|].
  simpl. by apply Forall_cons_2; [apply digit_number|].
Qed.

Lemma number_to_strz z : number_text (to_strz z).
Proof.
  assert (forall n : N, number_text (list_ascii_of_string (pretty n))) as H.
  { intros n. unfold pretty, pretty_N. case_decide; [by repeat constructor|]. apply number_go. constructor. }
  destruct z as [|p|p]; [by repeat constructor|apply H|].
  change (to_strz (Z.neg p)) with ("-"%char :: list_ascii_of_string (pretty (N.pos p))).
  by apply Forall_cons_2; [|apply H].
Qed.

Lemma number_pad w s : number_text s -> number_text (pad w s).
Proof. intros H. apply Forall_app. split; [|done]. by apply Forall_replicate. Qed.

Lemma number_show_d w z : number_text (show_d w z).
Proof.
  unfold show_d. destruct (z <? 0); [apply Forall_cons_2; [done|]|]; apply number_pad, number_to_strz.
Qed.

Lemma number_show_f d : number_text (show_f d).
Proof.
  destruct d as [s|s| |s m e]; simpl.
  - by destruct s; repeat constructor.
  - by destruct s; repeat constructor.
  - by repeat constructor.
  - apply Forall_app. split; [by destruct s; repeat constructor|].
    apply Forall_app. split; [apply number_to_strz|]. apply Forall_cons_2; [done|].
    apply number_pad, number_to_strz.
Qed.

(** What is printed for an argument: a number, or the text itself. *)
Lemma show_cases p a s :
  show p a = Some s -> number_text s /\ p <> Cs \/ p = Cs /\ a = P s.
Proof.
  destruct p, a; simpl; intros [= <-]; try (by right); left; (split; [|done]);
    first [apply number_show_d|apply number_to_strz|apply number_show_f].
Qed.

(** ** What a format prints *)

Lemma scan_app st a b : scan st (a ++ b) = (st' ← scan st a; scan st' b).
Proof.
  revert st. induction a as [|c a IH]; intros st; simpl; [done|].
  destruct (scan_char st c); simpl; [apply IH|done].
Qed.

Lemma scan_number st s : number_text s -> scan st s = Some st.
Proof.
  intros H. induction H as [|c s Hc Hs IH]; [done|]. simpl.
  apply number_inert in Hc as [Hi Hq]. unfold scan_char. rewrite Hi.
  destruct (in_text st); [|done]. rewrite decide_False; [done|].
  intros ->. by vm_compute in Hq.
Qed.

Lemma scan_text st s : in_text st = true -> quiet_text s = true -> scan st s = Some st.
Proof.
  intros Ht. induction s as [|c s IH]; [done|]. simpl. intros [Hc Hs]%andb_true_iff.
  unfold scan_char. rewrite Ht, decide_False; [by apply IH|]. intros ->. by vm_compute in Hc.
Qed.

Lemma scan_print ps : forall st st' args t,
  Forall quiet_arg args -> print ps args = Some t -> scan_pieces st ps = Some st' -> scan st t = Some st'.
Proof.
  induction ps as [|p ps IH]; intros st st' args t Ha Hp Hs; [simpl in *; by simplify_eq/=|].
  destruct (class_of_piece p) as [c|] eqn:Ep.
  - destruct args as [|a args]; [by destruct p|]. apply Forall_cons in Ha as [Ha Hargs].
    assert (print (p :: ps) (a :: args) = (s ← show p a; app s <$> print ps args)) as E by (by destruct p).
    rewrite E in Hp. clear E. destruct (show p a) as [s|] eqn:Es; [|done]. simpl in Hp.
    destruct (print ps args) as [u|] eqn:Eu; [|done]. simpl in Hp. simplify_eq. rewrite scan_app.
    simpl in Hs. destruct (scan_piece st p) as [st1|] eqn:E1; [|done]. simpl in Hs.
    apply show_cases in Es as [[Hn Hne]|[-> ->]].
    + rewrite scan_number by done. simpl. eapply IH; [done..|]. destruct p; simpl in *; by simplify_eq.
    + simpl in E1. destruct (in_text st) eqn:Et; [|done]. simplify_eq.
      rewrite scan_text by done. simpl. by eapply IH.
  - destruct p as [c| | | | |]; try done. simpl in Hp, Hs.
    destruct (print ps args) as [u|] eqn:Eu; [|done]. simpl in Hp. simplify_eq. simpl.
    destruct (scan_char st c); [|done]. simpl in *. by eapply IH.
Qed.

Lemma scan_formatted fmt args t st st' :
  Forall quiet_arg args -> format fmt args = Some t -> scan_format st fmt = Some st' -> scan st t = Some st'.
Proof.
  unfold format, scan_format. destruct (parse fmt) as [ps|]; [|done]. simpl. apply scan_print.
Qed.

(** The first piece prints a text, the others what is behind it. *)
Lemma print_first p ps args t :
  print (p :: ps) args = Some t -> exists s u args', t = s ++ u /\ print ps args' = Some u.
Proof.
  intros Hp. destruct p as [c| | | | |]; cbn [print] in Hp.
  1: { destruct (print ps args) as [u|] eqn:Eu; [|done]. simpl in Hp. simplify_eq. by exists [c], u, args. }
  all: destruct args as [|a args]; [done|].
  all: match type of Hp with (?sh ≫= _) = _ => destruct sh as [s|]; [|done] end.
  all: cbn in Hp; destruct (print ps args) as [u|] eqn:Eu; [|done]; cbn in Hp; simplify_eq.
  all: by exists s, u, args.
Qed.

Lemma print_last ps : forall args t c,
  print ps args = Some t -> last ps = Some (Lit c) -> last t = Some c.
Proof.
  induction ps as [|p ps IH]; intros args t c Hp Hl; [done|].
  destruct ps as [|p' ps].
  - simpl in Hl. simplify_eq. simpl in Hp. by simplify_eq.
  - destruct (print_first _ _ _ _ Hp) as (s & u & args' & -> & Hu).
    rewrite last_app. change (last (p :: p' :: ps)) with (last (p' :: ps)) in Hl.
    by rewrite (IH _ _ _ Hu Hl).
Qed.

Lemma formatted_last fmt args t c :
  format fmt args = Some t -> last_char fmt = Some c -> last t = Some c.
Proof.
  unfold format, last_char. destruct (parse fmt) as [ps|]; [|done]. simpl. intros Hp.
  destruct (last ps) as [[]|] eqn:E; intros; simplify_eq. by eapply print_last.
Qed.

(** Texts without quotes print texts without quotes. *)
Lemma number_quiet s : number_text s -> quiet_text s = true.
Proof.
  intros H. induction H as [|c s Hc _ IH]; [done|]. simpl. rewrite IH, andb_true_r.
  by apply number_inert.
Qed.

Lemma show_quiet p a s : quiet_arg a -> show p a = Some s -> quiet_text s = true.
Proof. intros Ha Hs. apply show_cases in Hs as [[Hn _]|[_ ->]]; [by apply number_quiet|done]. Qed.

Lemma quiet_app s t : quiet_text s = true -> quiet_text t = true -> quiet_text (s ++ t) = true.
Proof. unfold quiet_text. intros Hs Ht. by rewrite forallb_app, Hs, Ht. Qed.

Lemma print_quiet ps : forall args t,
  Forall quiet_arg args -> print ps args = Some t ->
  forallb (fun p => match p with Lit c => quiet_char c | _ => true end) ps = true -> quiet_text t = true.
Proof.
  induction ps as [|p ps IH]; intros args t Ha Hp Hq; [simpl in Hp; by simplify_eq|].
  cbn [forallb] in Hq. apply andb_true_iff in Hq as [Hc Hq].
  destruct p as [c| | | | |]; cbn [print] in Hp.
  1: { destruct (print ps args) as [u|] eqn:Eu; [|done]. simpl in Hp. simplify_eq.
       by apply (quiet_app [c]); [simpl; rewrite Hc|eapply IH]. }
  all: destruct args as [|a args]; [done|]; apply Forall_cons in Ha as [Ha Hargs].
  all: match type of Hp with (?sh ≫= _) = _ => destruct sh as [s|] eqn:Es; [|done] end.
  all: cbn in Hp; destruct (print ps args) as [u|] eqn:Eu; [|done]; cbn in Hp; simplify_eq.
  all: by apply quiet_app; [eapply show_quiet|eapply IH].
Qed.

(** ** Rows and tables *)

(** What was collected up to turn [i] of the loop over a table: nothing at
    first, later rows of as many values as the header has columns, with a
    comma behind them. *)
Definition rows_in (header : str) (i : nat) (acc : str) : Prop :=
  if (i =? 0)%nat then acc = []
  else exists k, scan_format init header = Some (between k false)
    /\ scan init acc = Some (between k true) /\ last acc = Some ","%char.

(** The rows of [fmt] fit the header. *)
Definition fits_header (header fmt : str) : bool :=
  match scan_format init header with
  | Some (mkSc (Some k) _ _ _) => matching k header fmt
  | _ => false
  end.

Lemma fits_header_matching header fmt :
  fits_header header fmt = true ->
  exists k, scan_format init header = Some (between k false)
    /\ (forall rows, scan_format (between k rows) fmt = Some (between k true))
    /\ last_char fmt = Some ","%char.
Proof.
  unfold fits_header. destruct (scan_format init header) as [[[k|] ? ? ?]|] eqn:E; try done.
  unfold matching. rewrite !andb_true_iff, !bool_decide_eq_true. intros [[[H1 H2] H3] H4].
  exists k. by split_and!; [congruence|intros []|].
Qed.

Lemma rows_next header fmt args h t i acc :
  fits_header header fmt = true -> Forall quiet_arg args ->
  ((i =? 0)%nat = true -> format header [] = Some h) -> format fmt args = Some t ->
  rows_in header i acc -> rows_in header (S i) (acc ++ (if (i =? 0)%nat then h else []) ++ t).
Proof.
  intros (k & Hk & Hrow & Hlast)%fits_header_matching Ha Hh Ht Hacc.
  pose proof (formatted_last _ _ _ _ Ht Hlast) as Hl.
  exists k. split; [done|]. split; [|by rewrite !last_app, Hl].
  unfold rows_in in Hacc. destruct (i =? 0)%nat.
  - subst acc. simpl. rewrite scan_app, (scan_formatted _ [] _ _ _ (Forall_nil_2 _) (Hh eq_refl) Hk).
    simpl. by eapply scan_formatted.
  - destruct Hacc as (k' & Hk' & Hs & _). rewrite Hk in Hk'. injection Hk' as <-.
    simpl. rewrite scan_app, Hs. simpl. by eapply scan_formatted.
Qed.

(** What [close] makes of the rows is a statement. *)
Lemma close_balanced k acc :
  scan init acc = Some (between k true) -> last acc = Some ","%char -> balanced (close acc) = true.
Proof.
  intros Hs [pre ->]%last_Some. unfold close. rewrite length_app, removelast_last, Nat.add_1_r.
  cbn [Nat.ltb Nat.leb]. unfold balanced. rewrite scan_app in *.
  destruct (scan init pre) as [[c r g [|]]|]; simpl in Hs; [done| |done].
  destruct g; [done|]. by injection Hs as -> ->.
Qed.

Section Sends.
Context {E : Type} `{!Gen E}.

(** [m] executes only balanced statements, and returns something in [R] if it
    returns. *)
Definition sends {A} (R : A -> Prop) (m : M E A) : Prop := forall s,
  (exists l, sqls (snd (m s)) = sqls s ++ l /\ Forall (fun q => balanced q = true) l)
  /\ match fst (m s) with inl a => R a | inr _ => True end.

Lemma sends_pure {A} (R : A -> Prop) (m : M E A) :
  (forall s, sqls (snd (m s)) = sqls s /\ match fst (m s) with inl a => R a | inr _ => True end) ->
  sends R m.
Proof. intros H s. destruct (H s) as [-> HR]. split; [|done]. exists []. by rewrite app_nil_r. Qed.

Lemma sends_ret {A} (R : A -> Prop) (a : A) : R a -> sends R (mret a).
Proof. intros H. by apply sends_pure. Qed.

Lemma sends_next : sends (fun _ => True) next.
Proof. apply sends_pure. intros s. unfold next. by destruct (next_id _) as [[]|]. Qed.

Lemma sends_nth l i : sends (fun x => x ∈ l) (nth_msg l i).
Proof.
  apply sends_pure. intros s. unfold nth_msg. destruct (l !! i) eqn:El; [|done].
  by apply list_elem_of_lookup_2 in El.
Qed.

Lemma sends_sprintf size fmt args : sends (fun t => format fmt args = Some t) (sprintf size fmt args).
Proof.
  apply sends_pure. intros s. unfold sprintf. destruct (format fmt args); [|done]. by destruct (_ <? _).
Qed.

Lemma sends_excute sql : balanced sql = true -> sends (fun _ => True) (excute sql).
Proof. intros H s. split; [|done]. exists [sql]. by repeat constructor. Qed.

Lemma sends_bind {A B} (R : A -> Prop) (Q : B -> Prop) (m : M E A) (f : A -> M E B) :
  sends R m -> (forall a, R a -> sends Q (f a)) -> sends Q (m ≫= f).
Proof.
  intros Hm Hf s. cbv [mbind M_bind]. destruct (Hm s) as [(l & Hl & Hbl) HR].
  destruct (m s) as [[a|e] s']; simpl in *; [|by eauto].
  destruct (Hf a HR s') as [(l' & Hl' & Hbl') HQ]. split; [|done].
  exists (l ++ l'). rewrite Hl', Hl, <- app_assoc. split; [done|]. by apply Forall_app.
Qed.

Lemma sends_weaken {A} (Q R : A -> Prop) (m : M E A) :
  (forall a, Q a -> R a) -> sends Q m -> sends R m.
Proof.
  intros HQ Hm s. destruct (Hm s) as [Hl HR]. split; [done|]. destruct (fst (m s)); auto.
Qed.

Lemma sends_when c m : sends (fun _ => True) m -> sends (fun _ => True) (when_ c m).
Proof. destruct c; [done|intros; by apply sends_ret]. Qed.

Lemma sends_if {A} (R : A -> Prop) (c : bool) (m1 m2 : M E A) :
  sends R m1 -> sends R m2 -> sends R (if c then m1 else m2).
Proof. by destruct c. Qed.

Lemma sends_row i size header fmt args acc :
  fits_header header fmt = true -> Forall quiet_arg args -> rows_in header i acc ->
  sends (rows_in header (S i)) (row i size header fmt args acc).
Proof.
  intros Hf Ha Hacc. unfold row.
  apply (sends_bind (fun a => exists h, ((i =? 0)%nat = true -> format header [] = Some h)
    /\ a = acc ++ if (i =? 0)%nat then h else [])).
  - destruct (i =? 0)%nat.
    + eapply sends_bind; [apply sends_sprintf|]. intros h Hh. apply sends_ret. by exists h.
    + apply sends_ret. exists []. by rewrite app_nil_r.
  - intros a (h & Hh & ->). eapply sends_bind; [apply sends_sprintf|]. intros t Ht.
    apply sends_ret. rewrite <- app_assoc. by eapply rows_next.
Qed.

Lemma sends_flush header i acc : rows_in header i acc -> sends (fun _ => True) (flush acc).
Proof.
  intros H. unfold flush. destruct (Nat.ltb_spec 10 (length (close acc))); [|by apply sends_ret].
  apply sends_excute. unfold rows_in in H. destruct (i =? 0)%nat; [subst; simpl in *; lia|].
  destruct H as (k & _ & Hs & Hl). by eapply close_balanced.
Qed.

Lemma sends_for_from {A} (Inv : nat -> A -> Prop) l (f : nat -> msg -> A -> M E A) : forall i a,
  (forall j x a, l !! (j - i)%nat = Some x -> (i <= j)%nat -> Inv j a -> sends (Inv (S j)) (f j x a)) ->
  Inv i a -> sends (fun a => Inv (i + length l)%nat a) (for_from i l f a).
Proof.
  induction l as [|x l IH]; intros i a H Ha; simpl.
  - rewrite Nat.add_0_r. by apply sends_ret.
  - eapply sends_bind; [apply H; [by rewrite Nat.sub_diag|done|done]|]. intros a' Ha'.
    rewrite Nat.add_succ_r. apply (IH (S i)); [|done]. intros j y b Hy Hj. apply H; [|lia].
    by replace (j - i)%nat with (S (j - S i)) by lia.
Qed.

Lemma sends_table header l (f : nat -> msg -> str -> M E str) :
  (forall i x acc, l !! i = Some x -> rows_in header i acc -> sends (rows_in header (S i)) (f i x acc)) ->
  sends (fun _ => True) (table l f).
Proof.
  intros H. eapply sends_bind; [|intros a; apply sends_flush].
  apply (sends_for_from (rows_in header)); [|done]. intros j x a Hx _. apply H. by rewrite Nat.sub_0_r in Hx.
Qed.

Lemma sends_empty (f : nat -> msg -> str -> M E str) : sends (fun _ => True) (table [] f).
Proof. by apply (sends_table []). Qed.

Lemma sends_while {X} (Inv : X -> Prop) cond body :
  (forall x, Inv x -> sends (fun _ => True) (cond x)) ->
  (forall x, Inv x -> sends Inv (body x)) ->
  forall turns x, Inv x -> sends Inv (while_ turns cond body x).
Proof.
  intros Hc Hb turns. induction turns as [|turns IH]; intros x Hx; simpl.
  all: eapply sends_bind; [by apply Hc|]; intros [] _; [|by apply sends_ret].
  - apply sends_pure. by intros s.
  - by eapply sends_bind; [apply Hb|].
Qed.

End Sends.

Lemma quiet_lookup m f i x : quiet m = true -> rep m f !! i = Some x -> quiet x = true.
Proof. intros H Hx%list_elem_of_lookup_2. by eapply quiet_rep. Qed.

(** [sends] proves that a handler of quiet messages executes only balanced
    statements: for a row, it computes whether its literals fit each other. *)
Create HintDb sends.

Ltac quiet_arg :=
  lazymatch goal with
  | |- quiet (_ ~> _) = true => apply quiet_sub; quiet_arg
  | |- quiet _ = true => first [assumption | eapply quiet_lookup; [|eassumption]; quiet_arg]
  | |- quiet_arg (P (text _ _)) => apply quiet_field; quiet_arg
  | |- quiet_arg (P (opt_text _ _)) => apply quiet_opt; quiet_arg
  | |- quiet_arg (P _) => first [assumption | reflexivity]
  | |- quiet_arg _ => exact I
  | |- Forall _ (_ :: _) => apply Forall_cons; split; [quiet_arg|quiet_arg]
  | |- Forall _ [] => apply Forall_nil; exact I
  | |- Forall _ (_ ++ _) => apply Forall_app; split; [quiet_arg|quiet_arg]
  | |- Forall _ ?l => let h := head_of l in unfold h; cbv zeta; quiet_arg
  end.

Ltac sends :=
  lazymatch goal with
  | |- sends _ (mret _) => apply sends_ret; first [exact I | eassumption]
  | |- sends _ (row _ _ _ _ _ _) =>
      apply sends_row; [vm_compute; reflexivity | quiet_arg | eassumption]
  | |- sends _ (table [] _) => apply sends_empty
  | |- sends _ (table _ _) => eapply sends_table; intros; sends
  | |- sends _ (when_ _ _) => apply sends_when; sends
  | |- sends _ next => apply sends_next
  | |- sends _ (if _ then _ else _) => apply sends_if; sends
  | |- sends _ (nth_msg _ _) => apply sends_nth
  | |- sends _ (flush _) => eapply sends_flush; eassumption
  | |- sends _ (_ ≫= _) => eapply sends_bind; [sends|intros; cbv beta zeta; sends]
  | |- sends _ (let _ := _ in _) => cbv zeta; sends
  | |- sends _ ?m => first [solve [eauto with sends] | let h := head_of m in unfold h; cbv beta zeta; sends]
  end.

End Shape.
