(* ===== verification/CamShape.v ===== *)
(** * Storing a camera message: the shape of the statements

    Each table is read by [Shape.sends], so that what [camInsert],
    [cameraInsert] and [radarInsert] execute is balanced; the tables where it
    is not are left out of the messages the theorem speaks of, with an example
    for each of them. *)

From S2P Require Import Prelude SnowFlake Printf Proto Insert Shape.
From S2P Require Import CamObjects CamEvents CamStored CamFlow CamSignal CamRsc CamVir CamInsert.
Import Printf Proto Insert Shape CamObjects CamEvents CamStored CamFlow CamSignal CamRsc CamVir CamInsert.

Module CamShape.

Section Sends.
Context {E : Type} `{!Gen E} (splitId camId : Z) (d : msg) (Hd : quiet d = true).

Lemma participants_send : sends (E := E) (fun _ => True) (participants splitId camId d).
Proof using Hd. sends. Qed.

Lemma flows_send : sends (E := E) (fun _ => True) (flows splitId camId d).
Proof using Hd. sends. Qed.

Lemma signals_send : sends (E := E) (fun _ => True) (signals splitId camId d).
Proof using Hd. sends. Qed.

Lemma schemes_send : sends (E := E) (fun _ => True) (schemes splitId camId d).
Proof using Hd. sends. Qed.

Lemma regions_send : sends (E := E) (fun _ => True) (regions splitId camId d).
Proof using Hd. sends. Qed.

Lemma obstacles_send : sends (E := E) (fun _ => True) (obstacles splitId camId d).
Proof using Hd. sends. Qed.

Lemma rscs_send : sends (E := E) (fun _ => True) (rscs splitId camId d).
Proof using Hd. sends. Qed.

End Sends.
(** ** Tables with turns that print nothing *)

(** The first of [l] is not skipped. *)
Definition starts_kept (l : list msg) : bool :=
  match l with [] => true | x :: _ => negb (skipped x) end.

Lemma kept_later l i x header acc :
  starts_kept l = true -> l !! i = Some x -> skipped x = true ->
  rows_in header i acc -> rows_in header (S i) acc.
Proof. destruct l as [|y l]; [done|]. destruct i; [|done]. simpl. intros Hy [= ->] Hx. by rewrite Hx in Hy. Qed.

Section Kept.
Context {E : Type} `{!Gen E} (splitId camId : Z) (d : msg) (Hd : quiet d = true).

(** No event names a participant or an obstacle. *)
Definition no_objects (d : msg) : bool :=
  forallb (fun e => bool_decide (rep e "eventobjid" = [])) (rep d "rtelist").

Lemma no_objects_event i e :
  no_objects d = true -> rep d "rtelist" !! i = Some e -> rep e "eventobjid" = [].
Proof.
  intros H He%list_elem_of_lookup_2. unfold no_objects in H. rewrite forallb_forall in H.
  by apply list_elem_of_In, H, bool_decide_eq_true in He.
Qed.

Lemma events_send :
  no_objects d = true -> starts_kept (rep d "rtelist") = true ->
  sends (E := E) (fun _ => True) (events splitId camId d).
Proof using Hd.
  intros Ho Hk. unfold events. eapply sends_table. intros i e acc He Hacc.
  pose proof (no_objects_event _ _ Ho He) as Hobj. unfold rte_row. rewrite Hobj.
  pose proof (fun header => kept_later _ _ _ header acc Hk He) as Hskip.
  unfold skipped in Hskip. destruct (_ || _) eqn:Es; [apply sends_ret; by eapply Hskip|]. sends.
Qed.

Lemma signs_send :
  starts_kept (rep d "rtslist") = true -> sends (E := E) (fun _ => True) (signs splitId camId d).
Proof using Hd.
  intros Hk. unfold signs. eapply sends_table. intros i e acc He Hacc.
  pose proof (fun header => kept_later _ _ _ header acc Hk He) as Hskip. unfold rtsData_row.
  unfold skipped in Hskip. destruct (_ || _) eqn:Es; [apply sends_ret; by eapply Hskip|]. sends.
Qed.

(** ** The requests of vehicles *)

Context (Hv : most_areas (rep d "virlist") = O).

Lemma request_send virlist i j :
  sends (E := E) (fun rq => exists v, v ∈ virlist /\ rq ∈ reqs v) (request virlist i j).
Proof.
  unfold request. eapply sends_bind; [apply sends_nth|]. intros v Hv'.
  eapply sends_weaken; [|apply sends_nth]. intros rq Hr. by exists v.
Qed.

Lemma no_area_turns virlist id j i :
  sends (E := E) (fun x => x = (O, i, []))
    (while_ O (area_more virlist j) (area_row splitId id virlist j) (O, i, [])).
Proof.
  simpl. eapply (sends_bind (fun _ => True)).
  - unfold area_more. eapply sends_bind; [apply request_send|]. intros; by apply sends_ret.
  - intros [] _; [|by apply sends_ret]. apply sends_pure. by intros s.
Qed.

Lemma quiet_vir v : v ∈ rep d "virlist" -> quiet v = true.
Proof using Hd. by apply quiet_rep. Qed.

Lemma quiet_request v rq : v ∈ rep d "virlist" -> rq ∈ reqs v -> quiet rq = true.
Proof using Hd. intros Hv' Hr. eapply quiet_rep; [|exact Hr]. by apply quiet_sub, quiet_vir. Qed.

(** The requests of a message: [j] of them are in the rows, and [i] stays. *)
Lemma requests_send virId i :
  exists header, sends (E := E) (fun x => rows_in header x.1.1 x.2 /\ x.1.2 = i)
    (while_ (most_reqs (rep d "virlist")) (req_more (rep d "virlist"))
      (req_turn splitId virId (rep d "virlist")) (O, i, [])).
Proof using Hd Hv.
  eexists. apply sends_while; [| |by split].
  - intros [[j i'] acc] _. simpl. eapply sends_bind; [apply sends_nth|]. intros; by apply sends_ret.
  - intros [[j i'] acc] [Hacc Hi]. unfold req_turn. rewrite Hv. simpl in Hacc, Hi.
    eapply sends_bind; [apply sends_next|]. intros id _.
    eapply sends_bind; [apply request_send|]. intros rq (v & Hv' & Hr).
    pose proof (quiet_request _ _ Hv' Hr) as Hq.
    eapply (sends_bind (rows_in _ (S j))); [sends|]. intros acc' Hacc'.
    eapply sends_bind; [apply no_area_turns|]. intros [[? ?] ?] [= -> -> ->].
    eapply sends_bind; [by apply (sends_flush [] 0)|]. intros. by apply sends_ret.
Qed.

Lemma vir_turn_sends :
  exists header, forall i acc, rows_in header i acc ->
    sends (E := E) (fun x => rows_in header x.1 x.2)
      (vir_turn splitId camId (rep d "virlist") (i, acc)).
Proof using Hd Hv.
  eexists. intros i acc Hacc. unfold vir_turn.
  eapply sends_bind; [apply sends_next|]. intros id _.
  eapply sends_bind; [apply sends_nth|]. intros v Hin%quiet_vir.
  eapply (sends_bind (rows_in _ (S i))); [sends|]. intros acc' Hacc'.
  eapply sends_bind; [sends|]. intros _ _.
  destruct (requests_send id i) as [header Hr].
  eapply sends_bind; [exact Hr|]. intros [[j i'] acc''] [Hreq Hi]. simpl in Hreq, Hi. subst i'.
  eapply sends_bind; [by eapply sends_flush|]. intros. by apply sends_ret.
Qed.

Lemma virs_send : sends (E := E) (fun _ => True) (virs splitId camId d).
Proof using Hd Hv.
  destruct vir_turn_sends as [header Hturn]. unfold virs. cbv zeta.
  eapply (sends_bind (fun x => rows_in header x.1 x.2)); [|intros [i acc]; apply sends_flush].
  apply sends_while; [| |done]; intros [i acc] Hacc; [by apply sends_ret|by apply Hturn].
Qed.

End Kept.

(** ** The handlers *)

(** A message whose tables all fit: no text in it has a quote or a backslash,
    no list of vehicles' messages, no participants of events, no sensor areas,
    and the first event and the first sign are not skipped. *)
Definition regular (d : msg) : bool :=
  quiet d && no_objects d
  && starts_kept (rep d "rtelist") && starts_kept (rep d "rtslist")
  && bool_decide (rep d "bsmlist" = []) && (most_areas (rep d "virlist") =? 0)%nat.

(** The statements a handler executes, started with none. *)
Definition executed_by {E : Type} (g : E) (m : M E ()) : list str := sqls (snd (m (mkSt g []))).

Section Handlers.
Context {E : Type} `{!Gen E}.

(** The row of the message is in a statement of its own. *)
Lemma sends_statement size fmt args :
  (exists k, scan_format init fmt = Some (between k true)) -> Forall quiet_arg args ->
  sends (E := E) (fun sql => balanced sql = true) (sprintf size fmt args).
Proof.
  intros [k Hk] Ha. eapply sends_weaken; [|apply sends_sprintf]. intros t Ht.
  unfold balanced. by rewrite (scan_formatted _ _ _ _ _ Ha Ht Hk).
Qed.

Lemma print_time_sends ts : sends (E := E) (fun t => quiet_arg (Printf.P t)) (print_time ts).
Proof.
  unfold print_time. cbv zeta. eapply sends_weaken; [|apply sends_sprintf]. intros t Ht.
  unfold format in Ht. destruct (parse _) as [ps|] eqn:Ep in Ht; [|done].
  eapply (print_quiet ps); [|exact Ht|]; [by repeat constructor|].
  vm_compute in Ep. by injection Ep as <-.
Qed.

Lemma cam_sql_sends splitId camId d :
  quiet d = true -> sends (E := E) (fun sql => balanced sql = true) (cam_sql splitId camId d).
Proof. intros Hd. apply sends_statement; [eexists; vm_compute; reflexivity|quiet_arg]. Qed.

Lemma multi_path_sends splitId d : sends (E := E) (fun _ => True) (multi_path splitId d).
Proof.
  unfold multi_path. eapply sends_bind; [apply sends_next|]. intros id _.
  eapply sends_bind; [apply print_time_sends|]. intros t Ht.
  eapply sends_bind; [apply sends_statement; [eexists; vm_compute; reflexivity|quiet_arg]|].
  intros sql Hsql. eapply sends_bind; [by apply sends_excute|]. intros. by apply sends_ret.
Qed.

Lemma camInsert_sends rand d :
  regular d = true -> sends (E := E) (fun _ => True) (camInsert rand d).
Proof.
  unfold regular. rewrite !andb_true_iff, bool_decide_eq_true, Nat.eqb_eq.
  intros [[[[[Hd Ho] Hke] Hks] Hb] Hv]. unfold camInsert.
  eapply (sends_bind (fun _ => True)); [sends|]. intros camId _. cbv zeta.
  eapply sends_bind; [by apply cam_sql_sends|]. intros sql Hsql.
  eapply sends_bind; [by apply sends_excute|]. intros _ _.
  eapply sends_bind; [by apply participants_send|]. intros _ _.
  eapply sends_bind; [by apply events_send|]. intros _ _.
  eapply sends_bind; [by apply signs_send|]. intros _ _.
  eapply sends_bind; [by apply flows_send|]. intros _ _.
  eapply sends_bind; [by apply signals_send|]. intros _ _.
  eapply sends_bind; [by apply schemes_send|]. intros _ _.
  eapply sends_bind; [by apply regions_send|]. intros _ _.
  eapply sends_bind; [by apply obstacles_send|]. intros _ _.
  eapply (sends_bind (fun _ => True)); [unfold bsms; rewrite Hb; apply sends_empty|]. intros _ _.
  eapply sends_bind; [by apply rscs_send|]. intros _ _. by apply virs_send.
Qed.

#[local] Hint Resolve print_time_sends multi_path_sends : sends.

Lemma cameraInsert_sends rand d :
  quiet d = true -> sends (E := E) (fun _ => True) (cameraInsert rand d).
Proof. intros Hd. sends. Qed.

Lemma radarInsert_sends rand d :
  quiet d = true -> sends (E := E) (fun _ => True) (radarInsert rand d).
Proof. intros Hd. sends. Qed.

Lemma sends_executed {A} (R : A -> Prop) (m : M E A) g :
  sends R m -> Forall (fun q => balanced q = true) (sqls (snd (m (mkSt g [])))).
Proof. intros H. by destruct (H (mkSt g [])) as [(l & -> & Hl) _]. Qed.

(** C16. Every statement that [camInsert] executes for a [regular] message has in
    each row as many values as it names columns, its texts and brackets closed; also
    those before the handler is stopped. Regular is a message in whose texts there are
    neither quotes nor backslashes, without vehicles' messages ("bsmlist"), without
    participants of its events ("eventobjid"), without sensor areas, and of whose
    events and signs the first one is not of the kind that is skipped. What is left
    out does not fit: see [bsm_unbalanced] and [obj_ids_unbalanced], and
    [CamStored.skipped_event_headless] for an event that is skipped. *)
Theorem statements_balanced (rand : Z) (d : msg) (g : E) :
  regular d = true -> Forall (fun q => balanced q = true) (executed_by g (camInsert rand d)).
Proof. intros Hd. unfold executed_by. eapply sends_executed. by apply camInsert_sends. Qed.

(** The same for the paths of cameras and radars, for which nothing is executed
    when the time of sending is one of our days ([CamCorrect.paths_overrun]). *)
Lemma paths_balanced (rand : Z) (d : msg) (g : E) :
  quiet d = true ->
  Forall (fun q => balanced q = true) (executed_by g (cameraInsert rand d))
  /\ Forall (fun q => balanced q = true) (executed_by g (radarInsert rand d)).
Proof.
  intros Hd. unfold executed_by. split; eapply sends_executed;
    [by apply cameraInsert_sends|by apply radarInsert_sends].
Qed.

End Handlers.

#[local] Existing Instance count.

(** A message with two regions and an event, for the theorem. *)
Definition some_message : msg :=
  Msg [("deviceid", VText $"dev1"); ("rtelist", VRep [Msg [("rteid", VInt 3)]]);
    ("detectedregion", VRep [Msg [("pos", VRep [Msg [("lon", VInt (-7))]])]; Msg []])].

Lemma statements_balanced_witness :
  length (executed_by 1%nat (camInsert 12345 some_message)) = 4%nat
  /\ Forall (fun q => balanced q = true) (executed_by 1%nat (camInsert 12345 some_message)).
Proof.
  split; [vm_compute; reflexivity|].
  apply (statements_balanced 12345 some_message 1%nat). vm_compute. reflexivity.
Defined.

(** ** Tables that do not fit *)

(** The table of vehicles' messages names 47 columns and prints 46 values: a
    comma is missing in its format. *)
Example bsm_unbalanced :
  executed_by 1%nat (bsms 1 2 (Msg [("bsmlist", VRep [Msg []])])) <> []
  /\ forallb balanced (executed_by 1%nat (bsms 1 2 (Msg [("bsmlist", VRep [Msg []])]))) = false.
Proof. split; [by vm_compute|vm_compute; reflexivity]. Qed.

(** The columns of the table of an event's participants are not closed. *)
Example obj_ids_unbalanced :
  forallb balanced (executed_by 1%nat (events 1 2
    (Msg [("rtelist", VRep [Msg [("eventobjid", VRep [Msg []])]])]))) = false.
Proof. vm_compute; reflexivity. Qed.

(** A quote in a text ends it. *)
Example quote_unbalanced :
  forallb balanced (executed_by 1%nat (participants 1 2
    (Msg [("ptclist", VRep [Msg [("plateno", VText $"a'b")]])]))) = false.
Proof. vm_compute; reflexivity. Qed.


End CamShape.
