(* ===== verification/CamCrc.v ===== *)
(** * The checksum of a frame

    [TcpRecv::N_CRC16] of [src/cam-app/src/TcpRecv.cpp] with its two tables of
    [src/cam-app/src/TcpRecv.h], against the shift register it stands for: the
    CRC with the reversed polynomial [0xA001] and the initial value [0xFFFF].
    Bytes are integers from 0 to 255. *)

From S2P Require Import Prelude.

Module CamCrc.

(** src/cam-app/src/TcpRecv.h:43-45, [TcpRecv::auchCRCHi]. *)
Definition auchCRCHi : list Z := [
   0x00; 0xC1; 0x81; 0x40; 0x01; 0xC0; 0x80; 0x41; 0x01; 0xC0; 0x80; 0x41; 0x00; 0xC1; 0x81; 0x40;
   0x01; 0xC0; 0x80; 0x41; 0x00; 0xC1; 0x81; 0x40; 0x00; 0xC1; 0x81; 0x40; 0x01; 0xC0; 0x80; 0x41;
   0x01; 0xC0; 0x80; 0x41; 0x00; 0xC1; 0x81; 0x40; 0x00; 0xC1; 0x81; 0x40; 0x01; 0xC0; 0x80; 0x41;
   0x00; 0xC1; 0x81; 0x40; 0x01; 0xC0; 0x80; 0x41; 0x01; 0xC0; 0x80; 0x41; 0x00; 0xC1; 0x81; 0x40;
   0x01; 0xC0; 0x80; 0x41; 0x00; 0xC1; 0x81; 0x40; 0x00; 0xC1; 0x81; 0x40; 0x01; 0xC0; 0x80; 0x41;
   0x00; 0xC1; 0x81; 0x40; 0x01; 0xC0; 0x80; 0x41; 0x01; 0xC0; 0x80; 0x41; 0x00; 0xC1; 0x81; 0x40;
   0x00; 0xC1; 0x81; 0x40; 0x01; 0xC0; 0x80; 0x41; 0x01; 0xC0; 0x80; 0x41; 0x00; 0xC1; 0x81; 0x40;
   0x01; 0xC0; 0x80; 0x41; 0x00; 0xC1; 0x81; 0x40; 0x00; 0xC1; 0x81; 0x40; 0x01; 0xC0; 0x80; 0x41;
   0x01; 0xC0; 0x80; 0x41; 0x00; 0xC1; 0x81; 0x40; 0x00; 0xC1; 0x81; 0x40; 0x01; 0xC0; 0x80; 0x41;
   0x00; 0xC1; 0x81; 0x40; 0x01; 0xC0; 0x80; 0x41; 0x01; 0xC0; 0x80; 0x41; 0x00; 0xC1; 0x81; 0x40;
   0x00; 0xC1; 0x81; 0x40; 0x01; 0xC0; 0x80; 0x41; 0x01; 0xC0; 0x80; 0x41; 0x00; 0xC1; 0x81; 0x40;
   0x01; 0xC0; 0x80; 0x41; 0x00; 0xC1; 0x81; 0x40; 0x00; 0xC1; 0x81; 0x40; 0x01; 0xC0; 0x80; 0x41;
   0x00; 0xC1; 0x81; 0x40; 0x01; 0xC0; 0x80; 0x41; 0x01; 0xC0; 0x80; 0x41; 0x00; 0xC1; 0x81; 0x40;
   0x01; 0xC0; 0x80; 0x41; 0x00; 0xC1; 0x81; 0x40; 0x00; 0xC1; 0x81; 0x40; 0x01; 0xC0; 0x80; 0x41;
   0x01; 0xC0; 0x80; 0x41; 0x00; 0xC1; 0x81; 0x40; 0x00; 0xC1; 0x81; 0x40; 0x01; 0xC0; 0x80; 0x41;
   0x00; 0xC1; 0x81; 0x40; 0x01; 0xC0; 0x80; 0x41; 0x01; 0xC0; 0x80; 0x41; 0x00; 0xC1; 0x81; 0x40].

(** src/cam-app/src/TcpRecv.h:47-49, [TcpRecv::auchCRCLo]. *)
Definition auchCRCLo : list Z := [
   0x00; 0xC0; 0xC1; 0x01; 0xC3; 0x03; 0x02; 0xC2; 0xC6; 0x06; 0x07; 0xC7; 0x05; 0xC5; 0xC4; 0x04;
   0xCC; 0x0C; 0x0D; 0xCD; 0x0F; 0xCF; 0xCE; 0x0E; 0x0A; 0xCA; 0xCB; 0x0B; 0xC9; 0x09; 0x08; 0xC8;
   0xD8; 0x18; 0x19; 0xD9; 0x1B; 0xDB; 0xDA; 0x1A; 0x1E; 0xDE; 0xDF; 0x1F; 0xDD; 0x1D; 0x1C; 0xDC;
   0x14; 0xD4; 0xD5; 0x15; 0xD7; 0x17; 0x16; 0xD6; 0xD2; 0x12; 0x13; 0xD3; 0x11; 0xD1; 0xD0; 0x10;
   0xF0; 0x30; 0x31; 0xF1; 0x33; 0xF3; 0xF2; 0x32; 0x36; 0xF6; 0xF7; 0x37; 0xF5; 0x35; 0x34; 0xF4;
   0x3C; 0xFC; 0xFD; 0x3D; 0xFF; 0x3F; 0x3E; 0xFE; 0xFA; 0x3A; 0x3B; 0xFB; 0x39; 0xF9; 0xF8; 0x38;
   0x28; 0xE8; 0xE9; 0x29; 0xEB; 0x2B; 0x2A; 0xEA; 0xEE; 0x2E; 0x2F; 0xEF; 0x2D; 0xED; 0xEC; 0x2C;
   0xE4; 0x24; 0x25; 0xE5; 0x27; 0xE7; 0xE6; 0x26; 0x22; 0xE2; 0xE3; 0x23; 0xE1; 0x21; 0x20; 0xE0;
   0xA0; 0x60; 0x61; 0xA1; 0x63; 0xA3; 0xA2; 0x62; 0x66; 0xA6; 0xA7; 0x67; 0xA5; 0x65; 0x64; 0xA4;
   0x6C; 0xAC; 0xAD; 0x6D; 0xAF; 0x6F; 0x6E; 0xAE; 0xAA; 0x6A; 0x6B; 0xAB; 0x69; 0xA9; 0xA8; 0x68;
   0x78; 0xB8; 0xB9; 0x79; 0xBB; 0x7B; 0x7A; 0xBA; 0xBE; 0x7E; 0x7F; 0xBF; 0x7D; 0xBD; 0xBC; 0x7C;
   0xB4; 0x74; 0x75; 0xB5; 0x77; 0xB7; 0xB6; 0x76; 0x72; 0xB2; 0xB3; 0x73; 0xB1; 0x71; 0x70; 0xB0;
   0x50; 0x90; 0x91; 0x51; 0x93; 0x53; 0x52; 0x92; 0x96; 0x56; 0x57; 0x97; 0x55; 0x95; 0x94; 0x54;
   0x9C; 0x5C; 0x5D; 0x9D; 0x5F; 0x9F; 0x9E; 0x5E; 0x5A; 0x9A; 0x9B; 0x5B; 0x99; 0x59; 0x58; 0x98;
   0x88; 0x48; 0x49; 0x89; 0x4B; 0x8B; 0x8A; 0x4A; 0x4E; 0x8E; 0x8F; 0x4F; 0x8D; 0x4D; 0x4C; 0x8C;
   0x44; 0x84; 0x85; 0x45; 0x87; 0x47; 0x46; 0x86; 0x82; 0x42; 0x43; 0x83; 0x41; 0x81; 0x80; 0x40].

Definition at_ (t : list Z) (i : Z) : Z := default 0 (t !! Z.to_nat i).

(** src/cam-app/src/TcpRecv.cpp:10-15, [TcpRecv::N_CRC16]. A turn of the loop. *)
Definition crc_step (hi lo b : Z) : Z * Z :=
  let uindex := Z.lxor hi b in
  (Z.lxor lo (at_ auchCRCHi uindex), at_ auchCRCLo uindex).

Definition crc_loop (s : Z * Z) (updata : list Z) : Z * Z :=
  foldl (fun '(hi, lo) b => crc_step hi lo b) s updata.

(** src/cam-app/src/TcpRecv.cpp:5-17, [TcpRecv::N_CRC16]. *)
Definition N_CRC16 (updata : list Z) : Z :=
  let '(hi, lo) := crc_loop (0xff, 0xff) updata in
  Z.lor (Z.shiftl hi 8) lo.

(** ** The shift register *)

(** One bit. *)
Definition shift (r : Z) : Z :=
  if Z.odd r then Z.lxor (Z.shiftr r 1) 0xA001 else Z.shiftr r 1.

Definition shift8 (r : Z) : Z :=
  shift (shift (shift (shift (shift (shift (shift (shift r))))))).

(** The register after a message, 16 bits. *)
Definition register (msg : list Z) : Z := foldl (fun r b => shift8 (Z.lxor r b)) 0xFFFF msg.

(** The two bytes of 16 bits, swapped. *)
Definition swap_bytes (r : Z) : Z := r `mod` 256 * 256 + r `div` 256.

Definition byte (b : Z) : Prop := 0 <= b < 256.
#[export] Instance byte_dec b : Decision (byte b).
Proof. unfold byte. apply _. Defined.

(** ** Lemmas *)

Lemma shift_lxor a b : shift (Z.lxor a b) = Z.lxor (shift a) (shift b).
Proof.
  unfold shift. rewrite <- !Z.bit0_odd, Z.lxor_spec, Z.shiftr_lxor.
  destruct (Z.testbit a 0), (Z.testbit b 0); simpl;
    apply Z.bits_inj'; intros n Hn; rewrite !Z.lxor_spec;
    destruct (Z.testbit (Z.shiftr a 1) n), (Z.testbit (Z.shiftr b 1) n), (Z.testbit 40961 n); done.
Qed.

Lemma shift8_lxor a b : shift8 (Z.lxor a b) = Z.lxor (shift8 a) (shift8 b).
Proof. unfold shift8. by rewrite !shift_lxor. Qed.

(** What holds for all bytes, by looking at each. *)
Lemma forall_bytes (P : Z -> bool) :
  forallb (fun n => P (Z.of_nat n)) (seq 0 256) = true -> forall b, byte b -> P b = true.
Proof.
  rewrite forallb_forall. intros H b Hb. specialize (H (Z.to_nat b)).
  rewrite Z2Nat.id in H by apply Hb. apply H, in_seq. unfold byte in Hb. lia.
Qed.

(** Both tables together are what the register makes of a byte. *)
Lemma tables_shift8 i :
  byte i -> shift8 i = Z.lxor (Z.shiftl (at_ auchCRCLo i) 8) (at_ auchCRCHi i).
Proof.
  intros Hi. apply Z.eqb_eq.
  apply (forall_bytes (fun i => shift8 i =? Z.lxor (Z.shiftl (at_ auchCRCLo i) 8) (at_ auchCRCHi i)));
    [vm_compute; reflexivity|done].
Qed.

(** Eight shifts of a value whose low byte is 0. *)
Lemma shift8_high b : byte b -> shift8 (Z.shiftl b 8) = b.
Proof.
  intros Hb. apply Z.eqb_eq.
  apply (forall_bytes (fun b => shift8 (Z.shiftl b 8) =? b)); [vm_compute; reflexivity|done].
Qed.

Lemma tables_byte i : byte i -> byte (at_ auchCRCHi i) /\ byte (at_ auchCRCLo i).
Proof.
  intros Hi.
  pose proof (forall_bytes (fun i => (0 <=? at_ auchCRCHi i) && (at_ auchCRCHi i <? 256)
    && (0 <=? at_ auchCRCLo i) && (at_ auchCRCLo i <? 256)) ltac:(vm_compute; reflexivity) i Hi) as H.
  cbv beta in H. unfold byte. lia.
Qed.

Lemma lxor_byte a b : byte a -> byte b -> byte (Z.lxor a b).
Proof.
  intros Ha Hb. unfold byte in *. split; [apply Z.lxor_nonneg; lia|].
  apply Z.log2_lt_cancel. eapply Z.le_lt_trans; [apply Z.log2_lxor; lia|].
  change (Z.log2 256) with 8.
  assert (forall x, 0 <= x < 256 -> Z.log2 x < 8) as H.
  { intros x Hx. destruct (decide (x = 0)) as [->|]; [done|]. apply Z.log2_lt_pow2; lia. }
  apply Z.max_lub_lt; by apply H.
Qed.

(** The register from the two variables: the one called high is its low byte. *)
Definition reg (s : Z * Z) : Z := Z.lxor (Z.shiftl s.2 8) s.1.

Lemma crc_step_reg hi lo b :
  byte hi -> byte lo -> byte b ->
  reg (crc_step hi lo b) = shift8 (Z.lxor (reg (hi, lo)) b)
  /\ byte (crc_step hi lo b).1 /\ byte (crc_step hi lo b).2.
Proof.
  intros Hh Hl Hb. assert (byte (Z.lxor hi b)) as Hi by by apply lxor_byte.
  destruct (tables_byte _ Hi) as [Ht1 Ht2]. unfold crc_step, reg. simpl.
  split; [|split; [by apply lxor_byte|done]].
  rewrite Z.lxor_assoc, shift8_lxor, shift8_high, tables_shift8 by done.
  rewrite (Z.lxor_comm lo), <- Z.lxor_assoc. apply Z.lxor_comm.
Qed.

Lemma crc_loop_reg s msg :
  byte s.1 -> byte s.2 -> Forall byte msg ->
  reg (crc_loop s msg) = foldl (fun r b => shift8 (Z.lxor r b)) (reg s) msg
  /\ byte (crc_loop s msg).1 /\ byte (crc_loop s msg).2.
Proof.
  unfold crc_loop. revert s. induction msg as [|b msg IH]; intros [hi lo] Hh Hl Hm; simpl in *; [done|].
  apply Forall_cons in Hm as [Hb Hm].
  destruct (crc_step_reg hi lo b Hh Hl Hb) as (<- & H1 & H2).
  by apply IH.
Qed.

(** ** The checksum *)

(** C26. The checksum is the register of the message with its two bytes swapped. *)
Theorem crc_is_register (msg : list Z) :
  Forall byte msg -> N_CRC16 msg = swap_bytes (register msg).
Proof.
  intros Hm. destruct (crc_loop_reg (0xff, 0xff) msg) as (Hr & H1 & H2);
    [by compute|by compute|done|]. unfold register.
  change 0xFFFF with (reg (0xff, 0xff)). rewrite <- Hr. unfold N_CRC16.
  destruct (crc_loop _ _) as [hi lo]. unfold reg, swap_bytes, byte in *. simpl in *.
  rewrite lor_shiftl_add by lia.
  assert (Z.lxor (Z.shiftl lo 8) hi = lo * 256 + hi) as ->.
  { rewrite Z.lxor_lor by (by apply land_shiftl_small). by rewrite lor_shiftl_add. }
  rewrite (Z.add_comm (lo * 256) hi), Z.mod_add, Z.mod_small, Z.div_add, Z.div_small by lia. lia.
Qed.

Lemma crc_is_register_witness :
  N_CRC16 [0x31; 0x32; 0x33; 0x34; 0x35; 0x36; 0x37; 0x38; 0x39]
  = swap_bytes (register [0x31; 0x32; 0x33; 0x34; 0x35; 0x36; 0x37; 0x38; 0x39]).
Proof. apply crc_is_register. by_decision. Defined.

Lemma crc_bound msg : Forall byte msg -> 0 <= N_CRC16 msg < 65536.
Proof.
  intros Hm. destruct (crc_loop_reg (0xff, 0xff) msg) as (_ & H1 & H2);
    [by compute|by compute|done|]. unfold N_CRC16.
  destruct (crc_loop _ _) as [hi lo]. unfold byte in *. simpl in *.
  rewrite lor_shiftl_add by lia. lia.
Qed.

(** The check value of this CRC, for the digits 1 to 9. *)
Example register_check :
  register [0x31; 0x32; 0x33; 0x34; 0x35; 0x36; 0x37; 0x38; 0x39] = 0x4B37.
Proof. reflexivity. Qed.

(** Different states stay different when the same byte is added. *)
Lemma at_lo_inj i j : byte i -> byte j -> at_ auchCRCLo i = at_ auchCRCLo j -> i = j.
Proof.
  intros Hi Hj H.
  assert (NoDup auchCRCLo) as Hnd by (by_decision).
  assert (forall k, byte k -> auchCRCLo !! Z.to_nat k = Some (at_ auchCRCLo k)) as Hat.
  { intros k Hk. unfold at_. destruct (lookup_lt_is_Some_2 auchCRCLo (Z.to_nat k)) as [x ->]; [|done].
    unfold byte in Hk. simpl. lia. }
  apply Z2Nat.inj; [by apply Hi|by apply Hj|].
  eapply NoDup_lookup; [done|by apply Hat|]. rewrite H. by apply Hat.
Qed.

Lemma crc_step_inj s s' b :
  byte s.1 -> byte s'.1 -> byte b ->
  crc_step s.1 s.2 b = crc_step s'.1 s'.2 b -> s = s'.
Proof.
  destruct s as [hi lo], s' as [hi' lo']. unfold crc_step. simpl. intros H1 H2 Hb [= Hhi Hlo].
  apply at_lo_inj in Hlo; [|by apply lxor_byte|by apply lxor_byte].
  rewrite Hlo in Hhi. f_equal.
  - rewrite <- (Z.lxor_0_r hi), <- (Z.lxor_nilpotent b), <- Z.lxor_assoc, Hlo.
    by rewrite Z.lxor_assoc, Z.lxor_nilpotent, Z.lxor_0_r.
  - set (t := at_ _ _) in Hhi.
    rewrite <- (Z.lxor_0_r lo), <- (Z.lxor_nilpotent t), <- Z.lxor_assoc, Hhi.
    by rewrite Z.lxor_assoc, Z.lxor_nilpotent, Z.lxor_0_r.
Qed.

Lemma crc_loop_inj s s' msg :
  byte s.1 -> byte s.2 -> byte s'.1 -> byte s'.2 -> Forall byte msg ->
  crc_loop s msg = crc_loop s' msg -> s = s'.
Proof.
  revert s s'. induction msg as [|b msg IH]; intros [h l] [h' l'] H1 H2 H3 H4 Hm; simpl in *; [done|].
  apply Forall_cons in Hm as [Hb Hm]. intros H.
  destruct (crc_step_reg h l b) as (_ & ? & ?); [done..|].
  destruct (crc_step_reg h' l' b) as (_ & ? & ?); [done..|].
  apply IH in H; [|done..]. by apply (crc_step_inj (h, l) (h', l') b).
Qed.

(** Two messages that differ in one byte have different checksums. *)
Theorem crc_detects_byte (l1 l2 : list Z) (b b' : Z) :
  Forall byte (l1 ++ b :: l2) -> byte b' -> b <> b' ->
  N_CRC16 (l1 ++ b :: l2) <> N_CRC16 (l1 ++ b' :: l2).
Proof.
  intros Hm Hb' Hne Heq. apply Forall_app in Hm as [H1 [Hb H2]%Forall_cons].
  assert (forall c, byte c -> Forall byte (l1 ++ c :: l2)) as Hall
    by (intros; apply Forall_app; split; [|constructor]; done).
  assert (crc_loop (255, 255) (l1 ++ b :: l2) = crc_loop (255, 255) (l1 ++ b' :: l2)) as H.
  { destruct (crc_loop_reg (255, 255) (l1 ++ b :: l2)) as (_ & ? & ?); [by compute|by compute|auto|].
    destruct (crc_loop_reg (255, 255) (l1 ++ b' :: l2)) as (_ & ? & ?); [by compute|by compute|auto|].
    unfold N_CRC16 in Heq. destruct (crc_loop _ _) as [x y], (crc_loop _ _) as [x' y'].
    unfold byte in *. simpl in *. rewrite !lor_shiftl_add in Heq by lia. f_equal; lia. }
  unfold crc_loop in H. rewrite !foldl_app in H. cbn [foldl] in H.
  fold (crc_loop (255, 255) l1) in H.
  destruct (crc_loop_reg (255, 255) l1) as (_ & Hh & Hl); [by compute|by compute|done|].
  destruct (crc_loop (255, 255) l1) as [h l]. simpl in Hh, Hl.
  destruct (crc_step_reg h l b) as (_ & ? & ?); [done..|].
  destruct (crc_step_reg h l b') as (_ & ? & ?); [done..|].
  apply (crc_loop_inj (crc_step h l b) (crc_step h l b')) in H; [|done..].
  unfold crc_step in H. injection H as _ H. apply at_lo_inj in H; [|by apply lxor_byte..].
  apply Hne. rewrite <- (Z.lxor_0_l b), <- (Z.lxor_nilpotent h), Z.lxor_assoc, H.
  by rewrite <- Z.lxor_assoc, Z.lxor_nilpotent, Z.lxor_0_l.
Qed.

Lemma crc_detects_byte_witness :
  N_CRC16 ([0x31; 0x32] ++ 0x33 :: [0x34]) <> N_CRC16 ([0x31; 0x32] ++ 0x35 :: [0x34]).
Proof.
  apply crc_detects_byte; [by_decision|by compute|done].
Defined.

End CamCrc.
