(* ===== verification/CamTcp.v ===== *)
(** * Reading a frame from the socket

    [UserServiceHandler::onSocketReadable] and [recvAllData] of
    [src/cam-app/src/UserTcpServer.cpp], with the packet structures of
    [src/cam-app/src/TcpRecv.h], up to the bytes of the message. What the
    socket gives is a list of segments: a read takes bytes of the first one
    only, and a segment with no bytes is a read that gives none. [CamFusion]
    continues with what is done with the bytes. *)

From S2P Require Import Prelude CamCrc.
Import CamCrc.

Module CamTcp.

(** ** The socket *)

Definition len {A} (l : list A) : Z := Z.of_nat (length l).

(** [Socket::receiveBytes]: the bytes, and what is left. *)
Definition receiveBytes (n : Z) (sock : list (list Z)) : list Z * list (list Z) :=
  match sock with
  | [] => ([], [])
  | seg :: rest =>
      (take (Z.to_nat n) seg, if n <? len seg then drop (Z.to_nat n) seg :: rest else rest)
  end.

(** What [recvAllData] leaves: [Filled] is [true] and [Short] is [false];
    [Overran] is a [memcpy] behind the end of [buffer]. *)
Inductive received :=
  | Filled (buffer : list Z) (sock : list (list Z))
  | Short (sock : list (list Z))
  | Overran.

(** src/cam-app/src/UserTcpServer.cpp:251-272, [UserServiceHandler::recvAllData].
    The first [recv_len_] bytes of [buffer] are its list; [left] is
    [try_count_max - try_count]. *)
Fixpoint recvAllData (left : nat) (limit : Z) (buffer : list Z) (sock : list (list Z)) : received :=
  if len buffer <? limit then
    let '(tmp_buffer, sock') := receiveBytes 65535 sock in
    if 65535 <? len buffer + len tmp_buffer then Overran
    else match left with
         | O => Short sock'
         | S left' => recvAllData left' limit (buffer ++ tmp_buffer) sock'
         end
  else Filled buffer sock.

(** ** The packet *)

(** A number in network order, and [ntohs]/[ntohl] after [memcpy]. *)
Definition be (l : list Z) : Z := foldl (fun a b => a * 256 + b) 0 l.
Definition field (off n : nat) (buffer : list Z) : list Z := take n (drop off buffer).

(** src/cam-app/src/TcpRecv.h:12-21, [PacketHeader_1]. *)
Record PacketHeader_1 := mkHeader {
  header : Z;
  protoType : Z;
  protoVersion : Z;
  fusionAlNums : list Z;
  msgNum : Z;
  token : Z;
  msgLength : Z;
}.

(** src/cam-app/src/TcpRecv.h:28-32, [PacketCheck]. *)
Record PacketCheck := mkCheck {
  checkCode : Z;
  endCode : Z;
}.

(** src/cam-app/src/UserTcpServer.cpp:127-139, [UserServiceHandler::onSocketReadable]. *)
Definition packetHead (buffer : list Z) : PacketHeader_1 := {|
  header := be (field 0 2 buffer);
  protoType := be (field 2 1 buffer);
  protoVersion := be (field 3 1 buffer);
  fusionAlNums := field 4 15 buffer;
  msgNum := be (field 19 1 buffer);
  token := be (field 20 2 buffer);
  msgLength := be (field 22 4 buffer);
|}.

(** src/cam-app/src/UserTcpServer.cpp:170-174, [UserServiceHandler::onSocketReadable]. *)
Definition checkStruct (h : PacketHeader_1) (buffer : list Z) : PacketCheck := {|
  checkCode := be (field (26 + Z.to_nat (msgLength h)) 2 buffer);
  endCode := be (field (26 + Z.to_nat (msgLength h) + 2) 2 buffer);
|}.

Inductive outcome :=
  | NoData
  | Incomplete
  | Overwritten          (* [buffer] was overrun *)
  | BadHeader
  | BadEnd
  | BadCheck
  | Got (fusion : list Z).

(** src/cam-app/src/UserTcpServer.cpp:146-146, [UserServiceHandler::onSocketReadable]. *)
Definition bad_header (h : PacketHeader_1) : bool :=
  negb (header h =? 0xFAEB) || (msgLength h <=? 0) || (65000 <? msgLength h).

(** src/cam-app/src/UserTcpServer.cpp:164-196, [UserServiceHandler::onSocketReadable].
    What is found in the filled buffer. *)
Definition judge (h : PacketHeader_1) (buffer : list Z) : outcome :=
  let fusion := field 26 (Z.to_nat (msgLength h)) buffer in
  let c := checkStruct h buffer in
  if negb (endCode c =? 0xECFD) then BadEnd
  else if negb (checkCode c =? N_CRC16 (take 26 buffer ++ fusion)) then BadCheck
  else Got fusion.

(** src/cam-app/src/UserTcpServer.cpp:100-196, [UserServiceHandler::onSocketReadable]. *)
Definition read_frame (sock : list (list Z)) : outcome * list (list Z) :=
  let '(buffer, sock) := receiveBytes 26 sock in
  if len buffer <=? 0 then (NoData, sock)
  else match recvAllData 100 26 buffer sock with
  | Overran => (Overwritten, [])
  | Short sock => (Incomplete, sock)
  | Filled buffer sock =>
      let h := packetHead buffer in
      if bad_header h then (BadHeader, sock)
      else match recvAllData 100 (26 + msgLength h + 4) buffer sock with
      | Overran => (Overwritten, [])
      | Short sock => (Incomplete, sock)
      | Filled buffer sock => (judge h buffer, sock)
      end
  end.

(** ** What a sender writes *)

(** [z] in [n] bytes, network order. *)
Fixpoint to_be (n : nat) (z : Z) : list Z :=
  match n with
  | O => []
  | S n' => to_be n' (z `div` 256) ++ [z `mod` 256]
  end.

(** The header of a message of [n] bytes; [mid] are the 20 bytes between its
    code and its length. *)
Definition head (mid : list Z) (n : Z) : list Z := [0xFA; 0xEB] ++ mid ++ to_be 4 n.

Definition frame (mid fusion : list Z) : list Z :=
  let data := head mid (len fusion) ++ fusion in
  data ++ to_be 2 (N_CRC16 data) ++ [0xEC; 0xFD].

(** What a sender may put into a frame. *)
Definition sendable (mid fusion : list Z) : Prop :=
  length mid = 20%nat /\ Forall byte (mid ++ fusion) /\ 0 < len fusion <= 65000.

#[export] Instance sendable_dec mid fusion : Decision (sendable mid fusion).
Proof. unfold sendable. apply _. Defined.

(** ** Lemmas: numbers *)

Lemma len_app {A} (l k : list A) : len (l ++ k) = len l + len k.
Proof. unfold len. rewrite length_app. lia. Qed.

Lemma len_nonneg {A} (l : list A) : 0 <= len l.
Proof. unfold len. lia. Qed.

Lemma length_to_be n z : length (to_be n z) = n.
Proof. revert z. induction n as [|n IH]; intros z; simpl; [done|]. rewrite length_app, IH. simpl. lia. Qed.

Lemma be_app l b : be (l ++ [b]) = be l * 256 + b.
Proof. unfold be. by rewrite foldl_app. Qed.

Lemma be_to_be n z : 0 <= z < 256 ^ Z.of_nat n -> be (to_be n z) = z.
Proof.
  revert z. induction n as [|n IH]; intros z Hz.
  - simpl in *. unfold be. simpl. lia.
  - rewrite Nat2Z.inj_succ, Z.pow_succ_r in Hz by lia. cbn [to_be]. rewrite be_app, IH.
    + pose proof (Z.div_mod z 256). lia.
    + split; [apply Z.div_pos; lia|]. apply Z.div_lt_upper_bound; lia.
Qed.

Lemma to_be_be l : Forall byte l -> to_be (length l) (be l) = l.
Proof.
  induction l as [|b l IH] using rev_ind; [done|]. intros [Hl [Hb _]%Forall_cons_1]%Forall_app.
  unfold byte in Hb. rewrite length_app, be_app.
  replace (length l + length [b])%nat with (S (length l)) by (simpl; lia).
  cbn [to_be]. rewrite Z.div_add_l, (Z.div_small b), Z.add_0_r by lia. rewrite IH by done.
  rewrite (Z.add_comm (be l * 256)), Z_mod_plus_full, Z.mod_small by lia. done.
Qed.

Lemma to_be_bytes n z : Forall byte (to_be n z).
Proof.
  revert z. induction n as [|n IH]; intros z; simpl; [by constructor|].
  apply Forall_app. split; [apply IH|]. constructor; [|done]. apply Z.mod_pos_bound. lia.
Qed.

(** ** Lemmas: fields *)

Lemma field_app l n m x r : length l = n -> length x = m -> field n m (l ++ x ++ r) = x.
Proof. intros <- <-. unfold field. by rewrite drop_app_length, take_app_length. Qed.

Lemma field_all off n l : (off + n <= length l)%nat -> length (field off n l) = n.
Proof. intros H. unfold field. rewrite length_take, length_drop. lia. Qed.

Lemma field_split off n l : l = take off l ++ field off n l ++ drop (off + n) l.
Proof. unfold field. by rewrite <- drop_drop, take_drop, take_drop. Qed.

Lemma length_head mid n : length mid = 20%nat -> length (head mid n) = 26%nat.
Proof. intros H. unfold head. rewrite !length_app, length_to_be, H. done. Qed.

Lemma frame_eq mid fusion :
  frame mid fusion = head mid (len fusion) ++ fusion ++
    to_be 2 (N_CRC16 (head mid (len fusion) ++ fusion)) ++ [0xEC; 0xFD].
Proof. unfold frame. cbv zeta. by rewrite <- !app_assoc. Qed.

Lemma len_frame mid fusion : length mid = 20%nat -> len (frame mid fusion) = len fusion + 30.
Proof.
  intros H. unfold len. rewrite frame_eq, !length_app, length_to_be, length_head by done. simpl. lia.
Qed.

Lemma packetHead_length mid n r :
  length mid = 20%nat -> 0 <= n < 256 ^ 4 -> msgLength (packetHead (head mid n ++ r)) = n.
Proof.
  intros Hm Hn. unfold packetHead, msgLength, head. rewrite <- (be_to_be 4 n Hn) at 2. f_equal.
  rewrite <- !app_assoc, (app_assoc [_; _] mid). apply field_app; [|apply length_to_be].
  by rewrite length_app, Hm.
Qed.

Lemma packetHead_code mid n r : header (packetHead (head mid n ++ r)) = 0xFAEB.
Proof. reflexivity. Qed.

Lemma head_good mid n r :
  length mid = 20%nat -> 0 < n <= 65000 -> bad_header (packetHead (head mid n ++ r)) = false.
Proof. intros Hm Hn. unfold bad_header. rewrite packetHead_code, packetHead_length by lia. lia. Qed.

(** ** Lemmas: reading *)

Definition full (sock : list (list Z)) : Prop := Forall (fun seg => seg <> []) sock.

Lemma receiveBytes_concat n sock chunk sock' :
  receiveBytes n sock = (chunk, sock') -> chunk ++ concat sock' = concat sock.
Proof.
  destruct sock as [|seg rest]; simpl; intros [= <- <-]; [done|].
  unfold len. destruct (Z.ltb_spec n (Z.of_nat (length seg))); simpl.
  - by rewrite app_assoc, take_drop.
  - by rewrite take_ge by lia.
Qed.

(** A read takes bytes of the first segment, and leaves those that follow. *)
Lemma receiveBytes_full n segs rest :
  0 < n -> full segs -> segs <> [] ->
  exists chunk segs', receiveBytes n (segs ++ rest) = (chunk, segs' ++ rest)
    /\ chunk ++ concat segs' = concat segs /\ 0 < len chunk <= n /\ full segs'
    /\ (length segs' < length segs \/ length segs' = length segs /\ len chunk = n)%nat.
Proof.
  unfold full. intros Hn Hf Hne. destruct segs as [|seg segs]; simpl; [done|]. unfold len.
  apply Forall_cons in Hf as [Hs Hr].
  assert (0 < length seg)%nat by (destruct seg; simpl; [done|lia]).
  destruct (Z.ltb_spec n (Z.of_nat (length seg))).
  - exists (take (Z.to_nat n) seg), (drop (Z.to_nat n) seg :: segs). split; [done|].
    split; [simpl; by rewrite app_assoc, take_drop|]. rewrite length_take. split; [lia|].
    split; [|right; simpl; lia]. constructor; [|done]. intros Hd%(f_equal length).
    rewrite length_drop in Hd. simpl in Hd. lia.
  - exists seg, segs. rewrite take_ge by lia. split; [done|]. split; [done|].
    split; [lia|]. split; [done|left; lia].
Qed.

Lemma concat_full_nil sock : full sock -> concat sock = [] -> sock = [].
Proof.
  destruct sock as [|seg rest]; [done|]. intros [Hs _]%Forall_cons.
  by destruct seg.
Qed.

(** No more than the bytes that are there, in order. *)
Lemma recvAllData_sound left limit buffer sock buffer' sock' :
  recvAllData left limit buffer sock = Filled buffer' sock' ->
  buffer' ++ concat sock' = buffer ++ concat sock /\ limit <= len buffer'
  /\ exists more, buffer' = buffer ++ more.
Proof.
  revert buffer sock. induction left as [|left IH]; intros buffer sock; simpl;
    destruct (Z.ltb_spec (len buffer) limit);
    try (intros [= <- <-]; split; [done|split; [lia|by exists []; rewrite app_nil_r]]);
    destruct (receiveBytes 65535 sock) as [chunk s] eqn:E;
    destruct (Z.ltb_spec 65535 (len buffer + len chunk)); try done.
  intros (Hc & Hl & more & ->)%IH. apply receiveBytes_concat in E. split; [|split; [done|]].
  - rewrite Hc, <- E. by rewrite app_assoc.
  - exists (chunk ++ more). by rewrite app_assoc.
Qed.

Lemma recvAllData_done left limit buffer sock :
  limit <= len buffer -> recvAllData left limit buffer sock = Filled buffer sock.
Proof. intros H. destruct left; simpl; by destruct (Z.ltb_spec (len buffer) limit); [lia|]. Qed.

(** A segment that is more than there is room for, or all that is needed. *)
Lemma recvAllData_once left limit buffer seg sock :
  0 < len buffer -> len buffer < limit <= len buffer + len seg ->
  recvAllData (S left) limit buffer (seg :: sock)
  = if 65535 <? len buffer + len seg then Overran else Filled (buffer ++ seg) sock.
Proof.
  intros H0 Hlim. cbn [recvAllData receiveBytes]. destruct (Z.ltb_spec (len buffer) limit); [|lia].
  assert (len (take (Z.to_nat 65535) seg) = Z.min 65535 (len seg)) as ->
    by (unfold len; rewrite length_take; lia).
  destruct (Z.ltb_spec 65535 (len buffer + len seg)),
    (Z.ltb_spec 65535 (len buffer + Z.min 65535 (len seg))); try lia; [done|].
  destruct (Z.ltb_spec 65535 (len seg)); [lia|].
  rewrite take_ge by (unfold len in *; lia). apply recvAllData_done. rewrite len_app. lia.
Qed.

(** Enough reads, when there are enough bytes in [segs] and room for them. *)
Lemma recvAllData_fills left limit buffer segs rest :
  full segs -> (length segs <= left)%nat ->
  limit <= len buffer + len (concat segs) -> len buffer + len (concat segs) <= 65535 ->
  exists buffer' segs', recvAllData left limit buffer (segs ++ rest) = Filled buffer' (segs' ++ rest)
    /\ buffer' ++ concat segs' = buffer ++ concat segs /\ limit <= len buffer'
    /\ full segs' /\ (length segs' <= length segs)%nat.
Proof.
  revert buffer segs. induction left as [|left IH]; intros buffer segs Hf Hle Hlim Hroom; simpl;
    (destruct (Z.ltb_spec (len buffer) limit) as [Hlt|]; [|by exists buffer, segs]).
  - destruct segs; simpl in *; [|lia]. unfold len in *. simpl in *. lia.
  - assert (segs <> []) as Hne by (intros ->; unfold len in *; simpl in *; lia).
    destruct (receiveBytes_full 65535 segs rest eq_refl Hf Hne) as (chunk & s & -> & Hc & Hpos & Hf' & Hs).
    rewrite <- Hc, len_app in Hlim, Hroom.
    destruct (Z.ltb_spec 65535 (len buffer + len chunk)).
    { pose proof (len_nonneg (concat s)). lia. }
    destruct (IH (buffer ++ chunk) s) as (b & s' & -> & Hc' & ? & ? & ?);
      [done|..|exists b, s'; split; [done|]; split; [by rewrite Hc', <- Hc, app_assoc|split; [done|split; [done|lia]]]].
    + destruct Hs as [|[_ ?]]; [lia|]. pose proof (len_nonneg buffer).
      destruct s as [|x s]; [simpl; lia|]. apply Forall_cons in Hf' as [Hx _].
      assert (0 < len (concat (x :: s))) by (simpl; rewrite len_app; destruct x;
        [done|unfold len; simpl; lia]). lia.
    + rewrite len_app. lia.
    + rewrite len_app. lia.
Qed.

(** ** Lemmas: a frame *)

Lemma field_prefix off n l r :
  (off + n <= length l)%nat -> field off n (l ++ r) = field off n l.
Proof.
  intros H. unfold field. rewrite drop_app_le by lia. apply take_app_le. rewrite length_drop. lia.
Qed.

(** The header is read from 26 bytes. *)
Lemma packetHead_prefix l r : length l = 26%nat -> packetHead (l ++ r) = packetHead l.
Proof. intros H. unfold packetHead. f_equal; rewrite field_prefix by lia; done. Qed.

Lemma prefix_of_26 (b rest hd tl : list Z) :
  b ++ rest = hd ++ tl -> length hd = 26%nat -> 26 <= len b ->
  exists x, b = hd ++ x /\ x ++ rest = tl.
Proof.
  unfold len. intros Heq Hhd Hb. exists (drop 26 b).
  assert (take 26 b = hd) as Ht.
  { rewrite <- (take_app_le b rest) by lia. rewrite Heq, <- Hhd. apply take_app_length. }
  rewrite <- Ht at 1. rewrite take_drop. split; [done|].
  apply (app_inv_head hd). rewrite <- Heq, <- Ht at 1. by rewrite app_assoc, take_drop.
Qed.

Lemma head_code_judged mid n x c e :
  length mid = 20%nat -> len x = n -> 0 <= n < 256 ^ 4 -> length c = 2%nat -> length e = 2%nat ->
  judge (packetHead (head mid n)) (head mid n ++ x ++ c ++ e)
  = if negb (be e =? 0xECFD) then BadEnd
    else if negb (be c =? N_CRC16 (head mid n ++ x)) then BadCheck else Got x.
Proof.
  unfold len. intros Hm Hx Hn Hc He. unfold judge, checkStruct.
  pose proof (packetHead_length mid n [] Hm Hn) as Hl. rewrite app_nil_r in Hl. rewrite Hl.
  pose proof (length_head mid n Hm) as Hh. cbn [checkCode endCode].
  rewrite (field_app _ 26) by lia.
  assert (field (26 + Z.to_nat n + 2) 2 (head mid n ++ x ++ c ++ e) = e) as ->.
  { rewrite <- (app_nil_r e) at 1. rewrite !app_assoc, <- (app_assoc _ e).
    apply field_app; rewrite ?length_app; lia. }
  assert (field (26 + Z.to_nat n) 2 (head mid n ++ x ++ c ++ e) = c) as ->.
  { rewrite app_assoc. apply field_app; rewrite ?length_app; lia. }
  by rewrite <- Hh, take_app_length.
Qed.

(** A header and the bytes it announces, in any segments; those that follow
    are left. *)
Lemma read_whole mid n tail segs rest :
  length mid = 20%nat -> 0 < n <= 65000 -> len tail = n + 4 ->
  full segs -> (length segs <= 100)%nat -> concat segs = head mid n ++ tail ->
  read_frame (segs ++ rest) = (judge (packetHead (head mid n)) (head mid n ++ tail), rest).
Proof.
  intros Hm Hn Ht Hf Hs Hc. pose proof (length_head mid n Hm) as Hh.
  assert (len (concat segs) = n + 30) as Htot by (rewrite Hc, len_app, Ht; unfold len; lia).
  unfold read_frame.
  assert (segs <> []) as Hne by (intros ->; unfold len in Htot; simpl in Htot; lia).
  destruct (receiveBytes_full 26 segs rest eq_refl Hf Hne) as (b0 & s0 & -> & Hc0 & Hb0 & Hf0 & Hl0).
  assert (len b0 + len (concat s0) = n + 30) as Htot0 by (rewrite <- len_app, Hc0; done).
  destruct (Z.leb_spec (len b0) 0); [lia|].
  destruct (recvAllData_fills 100 26 b0 s0 rest Hf0) as (b1 & s1 & -> & Hc1 & Hb1 & Hf1 & Hl1); [lia..|].
  assert (len b1 + len (concat s1) = n + 30) as Htot1 by (rewrite <- len_app, Hc1, len_app; done).
  rewrite Hc0, Hc in Hc1. destruct (prefix_of_26 _ _ _ _ Hc1 Hh Hb1) as (x & -> & Hx).
  rewrite head_good, packetHead_prefix by done.
  pose proof (packetHead_length mid n [] Hm ltac:(lia)) as Hpl. rewrite app_nil_r in Hpl. rewrite Hpl.
  destruct (recvAllData_fills 100 (26 + n + 4) (head mid n ++ x) s1 rest Hf1)
    as (b2 & s2 & -> & Hc2 & Hb2 & Hf2 & _); [lia..|].
  assert (len b2 + len (concat s2) = n + 30) as Htot2 by (rewrite <- len_app, Hc2, len_app; done).
  pose proof (len_nonneg (concat s2)).
  assert (concat s2 = []) as Hnil by (apply length_zero_iff_nil; unfold len in *; lia).
  rewrite (concat_full_nil s2), <- Hc1, <- Hc2, Hnil, app_nil_r by done. done.
Qed.

(** What [judge] accepts is a frame. *)
Lemma judge_got mid n x c e p :
  length mid = 20%nat -> len x = n -> 0 < n <= 65000 -> length c = 2%nat -> length e = 2%nat ->
  Forall byte (mid ++ x) -> Forall byte (c ++ e) ->
  judge (packetHead (head mid n)) (head mid n ++ x ++ c ++ e) = Got p ->
  p = x /\ sendable mid x /\ head mid n ++ x ++ c ++ e = frame mid x.
Proof.
  intros Hm Hx Hn Hc He Hmx Hce. rewrite head_code_judged by (lia || done).
  apply Forall_app in Hce as [Hcb Heb].
  destruct (Z.eqb_spec (be e) 0xECFD) as [Hbe|]; [|done]. cbn [negb].
  destruct (Z.eqb_spec (be c) (N_CRC16 (head mid n ++ x))) as [Hbc|]; [|done]. cbn [negb].
  intros [= <-]. split; [done|]. split; [split; [done|split; [done|lia]]|].
  rewrite frame_eq, Hx, <- Hbc. rewrite <- (to_be_be c), Hc at 1 by done.
  rewrite <- (to_be_be e), He, Hbe by done. done.
Qed.

Lemma head_bytes mid fusion n : Forall byte (mid ++ fusion) -> Forall byte (head mid n ++ fusion).
Proof.
  intros [Hb1 Hb2]%Forall_app. unfold head. rewrite !Forall_app.
  split; [split; [|split; [done|apply to_be_bytes]]|done].
  by_decision.
Qed.

Lemma judge_frame mid fusion :
  sendable mid fusion -> judge (packetHead (head mid (len fusion))) (frame mid fusion) = Got fusion.
Proof.
  intros (Hm & Hb & Hl). rewrite frame_eq.
  rewrite head_code_judged by (rewrite ?length_to_be; lia || done).
  rewrite be_to_be by by apply crc_bound, head_bytes.
  change (be [0xEC; 0xFD]) with 0xECFD. by rewrite !Z.eqb_refl.
Qed.

(** Bytes behind a frame are not looked at. *)
Lemma judge_prefix h l r :
  0 <= msgLength h -> 30 + msgLength h <= len l -> judge h (l ++ r) = judge h l.
Proof.
  unfold len. intros Hn Hl. unfold judge, checkStruct. cbn [endCode checkCode].
  by rewrite !field_prefix, take_app_le by lia.
Qed.

(** The 26 bytes of a header that is accepted. *)
Lemma head_parsed b :
  Forall byte b -> length b = 26%nat -> header (packetHead b) = 0xFAEB ->
  b = head (field 2 20 b) (msgLength (packetHead b)).
Proof.
  intros Hb Hl Hh. unfold packetHead, msgLength, header in *.
  assert (forall off n, (off + n <= 26)%nat ->
    field off n b = to_be n (be (field off n b))) as Hf.
  { intros off n Hle. rewrite <- (to_be_be (field off n b)) at 1.
    - by rewrite field_all by lia.
    - by apply Forall_take, Forall_drop. }
  unfold head. rewrite <- (Hf 22%nat 4%nat) by lia.
  change [0xFA; 0xEB] with (to_be 2 0xFAEB). rewrite <- Hh, <- Hf by lia.
  rewrite (field_split 0 2 b) at 1. rewrite (field_split 20 4 (drop _ _)) at 1.
  unfold field. rewrite !drop_drop, (drop_ge b (0 + 2 + (20 + 4))) by lia. by rewrite app_nil_r.
Qed.

Lemma split_tail n (l : list Z) :
  0 <= n -> n + 4 <= len l ->
  exists x c e r, l = x ++ c ++ e ++ r /\ len x = n /\ length c = 2%nat /\ length e = 2%nat.
Proof.
  unfold len. intros Hn Hl. exists (take (Z.to_nat n) l), (field (Z.to_nat n) 2 l),
    (field (Z.to_nat n + 2) 2 l), (drop (Z.to_nat n + 2 + 2) l).
  split; [|rewrite length_take, !field_all by lia; lia].
  rewrite (field_split (Z.to_nat n) 2 l) at 1. f_equal. f_equal.
  unfold field. rewrite <- (drop_drop l 2 (Z.to_nat n + 2)). by rewrite take_drop.
Qed.

(** The two buffers of a frame that was accepted. *)
Lemma parse_frame b1 b2 more fusion :
  Forall byte b2 -> b2 = b1 ++ more -> 26 <= len b1 ->
  bad_header (packetHead b1) = false -> 26 + msgLength (packetHead b1) + 4 <= len b2 ->
  judge (packetHead b1) b2 = Got fusion ->
  exists mid lost, sendable mid fusion /\ b2 = frame mid fusion ++ lost.
Proof.
  intros Hb Hm H26 Hh Hl Hj. unfold bad_header in Hh.
  apply orb_false_iff in Hh as [[Hh%negb_false_iff%Z.eqb_eq Hn1]%orb_false_iff Hn2].
  assert (exists hd x, b1 = hd ++ x /\ length hd = 26%nat) as (hd & x & -> & Ht).
  { exists (take 26 b1), (drop 26 b1). unfold len in H26.
    split; [by rewrite take_drop|rewrite length_take; lia]. }
  rewrite packetHead_prefix in * by done. rewrite <- app_assoc in Hm. subst b2.
  set (n := msgLength (packetHead hd)) in *. apply Forall_app in Hb as [Hbh Hbr].
  pose proof (head_parsed hd Hbh Ht Hh) as Hhd. fold n in Hhd.
  assert (length (field 2 20 hd) = 20%nat) as Hmid by (apply field_all; lia).
  assert (Forall byte (field 2 20 hd)) as Hmb by by apply Forall_take, Forall_drop.
  set (mid := field 2 20 hd) in *. exists mid.
  rewrite len_app in Hl. unfold len at 1 in Hl. rewrite Ht in Hl.
  destruct (split_tail n (x ++ more)) as (X & C & Z' & lost & Hr & HX & HC & HZ); [lia..|].
  exists lost. rewrite Hr in *. rewrite !Forall_app in Hbr. destruct Hbr as (? & ? & ? & _).
  assert (hd ++ X ++ C ++ Z' ++ lost = (hd ++ X ++ C ++ Z') ++ lost) as Hassoc
    by (by rewrite <- !app_assoc).
  rewrite Hassoc, judge_prefix in Hj; fold n; [|lia|unfold len in *; rewrite !length_app; lia].
  rewrite Hassoc. clearbody n mid. subst hd. apply judge_got in Hj as (-> & ? & <-); try done; [lia|..].
  - by apply Forall_app.
  - by apply Forall_app.
Qed.

(** ** The theorems *)

Lemma read_sent mid fusion segs rest :
  sendable mid fusion -> full segs -> (length segs <= 100)%nat ->
  concat segs = frame mid fusion -> read_frame (segs ++ rest) = (Got fusion, rest).
Proof.
  intros Hs Hf Hle Hc. pose proof Hs as (Hm & _ & Hl). pose proof (judge_frame _ _ Hs) as Hj.
  rewrite frame_eq in Hc, Hj.
  rewrite (fun Ht => read_whole mid (len fusion) _ segs rest Hm Hl Ht Hf Hle Hc)
    by (unfold len; rewrite !length_app, length_to_be; simpl; lia).
  by rewrite Hj.
Qed.

(** The socket becomes readable [n] times. *)
Fixpoint read_frames (n : nat) (sock : list (list Z)) : list outcome * list (list Z) :=
  match n with
  | O => ([], sock)
  | S n' => let '(o, sock1) := read_frame sock in
            let '(os, sock2) := read_frames n' sock1 in (o :: os, sock2)
  end.

(** C10. Frames are read however each of them comes in: when every frame has its own
    segments, at most 100 and none of them empty, the messages are those that
    were sent, in their order, and nothing is left. *)
Theorem frames_received (sent : list (list Z * list Z * list (list Z))) :
  Forall (fun '(mid, fusion, segs) => sendable mid fusion /\ full segs /\ (length segs <= 100)%nat
          /\ concat segs = frame mid fusion) sent ->
  read_frames (length sent) (concat (map snd sent)) = (map (fun x => Got x.1.2) sent, []).
Proof.
  induction 1 as [|[[mid fusion] segs] sent (Hs & Hf & Hle & Hc) _ IH]; [done|].
  cbn [length read_frames map concat snd fst]. by rewrite (read_sent mid fusion), IH.
Qed.

(** Twenty bytes and a message. *)
Definition a_mid : list Z := replicate 20 7.
Definition a_fusion : list Z := [1; 2; 3; 250].

Definition some_segments : list (list Z) :=
  [[0xFA; 0xEB; 7]; replicate 19 7 ++ to_be 4 4 ++ [1];
   [2; 3; 250] ++ to_be 2 (N_CRC16 (head a_mid 4 ++ a_fusion)) ++ [0xEC]; [0xFD]].

Lemma frames_received_witness :
  read_frames 2 (some_segments ++ [frame a_mid [9]] ++ []) = ([Got a_fusion; Got [9]], []).
Proof.
  apply (frames_received [(a_mid, a_fusion, some_segments); (a_mid, [9], [frame a_mid [9]])]).
  repeat (apply Forall_cons; split); [split_and!..|done];
    try (repeat constructor; discriminate); try (simpl; lia); try reflexivity;
    by_decision.
Defined.

(** C11. Nothing but a frame is accepted: when [read_frame] gives a message, the
    socket held its frame, from its first byte; some bytes that came with the
    end of the frame may be lost, the others are left. *)
Theorem got_is_framed (fusion : list Z) (sock sock' : list (list Z)) :
  Forall byte (concat sock) -> read_frame sock = (Got fusion, sock') ->
  exists mid lost, sendable mid fusion /\ concat sock = frame mid fusion ++ lost ++ concat sock'.
Proof.
  intros Hb. unfold read_frame. destruct (receiveBytes 26 sock) as [b0 s0] eqn:E0.
  apply receiveBytes_concat in E0. destruct (Z.leb_spec (len b0) 0); [done|].
  destruct (recvAllData 100 26 b0 s0) as [b1 s1| |] eqn:E1; [|done..].
  apply recvAllData_sound in E1 as (Hc1 & Hb1 & _).
  destruct (bad_header (packetHead b1)) eqn:Eh; [done|].
  destruct (recvAllData 100 (26 + msgLength (packetHead b1) + 4) b1 s1) as [b2 s2| |] eqn:E2; [|done..].
  apply recvAllData_sound in E2 as (Hc2 & Hb2 & more & Hmore).
  intros [= Hj <-]. rewrite <- E0, <- Hc1, <- Hc2 in Hb |- *.
  apply Forall_app in Hb as [Hb _].
  destruct (parse_frame b1 b2 more fusion) as (mid & lost & ? & ->); [done..|].
  exists mid, lost. split; [done|]. by rewrite app_assoc.
Qed.

Lemma got_is_framed_witness :
  exists mid lost, sendable mid a_fusion
  /\ concat [frame a_mid a_fusion ++ [5]; [6]] = frame mid a_fusion ++ lost ++ concat [[6]].
Proof.
  apply (got_is_framed a_fusion [frame a_mid a_fusion ++ [5]; [6]] [[6]]);
    [by_decision|vm_compute; reflexivity].
Defined.

(** C25. A byte of the message that arrives changed is noticed. *)
Theorem changed_byte_refused (mid l1 l2 : list Z) (b b' : Z) (segs : list (list Z)) :
  sendable mid (l1 ++ b :: l2) -> byte b' -> b <> b' ->
  full segs -> (length segs <= 100)%nat ->
  let data := head mid (len (l1 ++ b :: l2)) in
  concat segs = data ++ (l1 ++ b' :: l2) ++ to_be 2 (N_CRC16 (data ++ l1 ++ b :: l2)) ++ [0xEC; 0xFD] ->
  read_frame segs = (BadCheck, []).
Proof.
  intros (Hm & Hb & Hl) Hb' Hne Hf Hs data Hc. subst data.
  assert (len (l1 ++ b' :: l2) = len (l1 ++ b :: l2)) as Hlen by (rewrite !len_app; done).
  rewrite <- (app_nil_r segs), (fun Ht => read_whole mid (len (l1 ++ b :: l2)) _ segs [] Hm Hl Ht Hf Hs Hc)
    by (rewrite len_app, Hlen; unfold len; rewrite !length_app, length_to_be; simpl; lia).
  rewrite head_code_judged by (rewrite ?length_to_be; lia || done).
  pose proof (head_bytes mid _ (len (l1 ++ b :: l2)) Hb) as Hall.
  rewrite be_to_be by by apply crc_bound.
  change (be [0xEC; 0xFD]) with 0xECFD. rewrite Z.eqb_refl. cbn [negb].
  rewrite app_assoc in Hall |- *. rewrite (app_assoc _ l1 (b' :: l2)).
  pose proof (crc_detects_byte _ _ _ _ Hall Hb' Hne) as Hd%Z.eqb_neq. by rewrite Hd.
Qed.

Lemma changed_byte_refused_witness :
  read_frame [head a_mid 4 ++ [1; 2; 9; 250] ++ to_be 2 (N_CRC16 (head a_mid 4 ++ a_fusion)) ++ [0xEC; 0xFD]]
  = (BadCheck, []).
Proof.
  apply (changed_byte_refused a_mid [1; 2] [250] 3 9);
    [by_decision|by compute|done| |simpl; lia|reflexivity].
  repeat constructor; discriminate.
Defined.

(** What comes in one segment with a frame is lost with it, a second frame
    too; and when the segment has more than 65535 bytes the buffer is
    overrun. *)
Theorem rest_of_segment_lost (mid fusion extra : list Z) (sock : list (list Z)) :
  sendable mid fusion ->
  read_frame ((frame mid fusion ++ extra) :: sock)
  = if 65535 <? len (frame mid fusion ++ extra) then (Overwritten, []) else (Got fusion, sock).
Proof.
  intros (Hm & Hb & Hl). pose proof (length_head mid (len fusion) Hm) as Hh.
  rewrite frame_eq. set (n := len fusion) in *. set (check := to_be 2 _ ++ [0xEC; 0xFD]).
  assert (len check = 4) as Hcheck by reflexivity.
  rewrite <- !app_assoc. set (tail := fusion ++ check ++ extra).
  assert (n + 4 <= len tail) as Htail by (unfold tail; rewrite !len_app; fold n;
    pose proof (len_nonneg extra); lia).
  assert (len (head mid n ++ tail) = 26 + len tail) as Hlen by (rewrite len_app; unfold len; lia).
  assert (len (head mid n) = 26) as Hlh by (unfold len; lia).
  assert (receiveBytes 26 ((head mid n ++ tail) :: sock) = (head mid n, tail :: sock)) as Hrecv.
  { unfold receiveBytes. rewrite Hlen. destruct (Z.ltb_spec 26 (26 + len tail)); [|lia].
    change (Z.to_nat 26) with 26%nat. by rewrite <- Hh, take_app_length, drop_app_length. }
  pose proof (head_good mid n [] Hm Hl) as Hg. pose proof (packetHead_length mid n [] Hm ltac:(lia)) as Hn.
  rewrite app_nil_r in Hg, Hn. unfold read_frame. rewrite Hrecv, recvAllData_done, Hg, Hn, Hlh by lia.
  change (26 <=? 0) with false. cbv iota zeta.
  rewrite (recvAllData_once 99), Hlh, Hlen by lia.
  destruct (Z.ltb_spec 65535 (26 + len tail)); [done|].
  unfold tail. rewrite (app_assoc fusion check), (app_assoc (head mid n)).
  rewrite judge_prefix by (rewrite ?len_app; lia).
  f_equal. unfold check, n. rewrite <- frame_eq. by apply judge_frame.
Qed.

Lemma rest_of_segment_lost_witness :
  read_frame ((frame a_mid a_fusion ++ frame a_mid [5; 6]) :: [[7]]) = (Got a_fusion, [[7]]).
Proof.
  rewrite (rest_of_segment_lost a_mid a_fusion);
    [reflexivity|by_decision].
Defined.

End CamTcp.
