(* ===== verification/CamDegrees.v ===== *)
(** * Degrees

    [ConvertCam] of [src/cam-app/src/UserTcpServer.cpp] turns degrees, a
    [double], into an [int32_t] of [1e-7] degrees: a product of doubles, then a
    conversion, which is undefined when the number does not fit. Doubles are
    those of [SpecFloat], 53 bits and [emax] 1024. *)

From Stdlib Require Import SpecFloat.
From S2P Require Import Prelude.

Module CamDegrees.

(** The literal [1e7]. *)
Definition e7 : spec_float := S754_finite false 5368709120000000 (-29).

(** A [double] converted to [int32_t]: truncated, and undefined, [None], when
    that does not fit. *)
Definition to_int32 (d : spec_float) : option Z :=
  match d with
  | S754_zero _ => Some 0
  | S754_finite s m e =>
      let z := (if s then -1 else 1) * (if 0 <=? e then Z.pos m * 2 ^ e else Z.pos m / 2 ^ (- e)) in
      if (- 2 ^ 31 <=? z) && (z <? 2 ^ 31) then Some z else None
  | _ => None
  end.

(** src/cam-app/src/UserTcpServer.cpp:60-61, [ConvertCam]. *)
Definition degrees (d : spec_float) : option Z := to_int32 (SFmul 53 1024 d e7).

(** The absolute value is at most [k]; [e] is the exponent of a double. *)
Definition within (k : Z) (d : spec_float) : Prop :=
  match d with
  | S754_zero _ => True
  | S754_finite _ m e => -1074 <= e <= 971 /\ Z.pos m * 2 ^ (e + 1074) <= k * 2 ^ 1074
  | _ => False
  end.

(** ** Lemmas *)

Lemma digits_size p : digits2_pos p = Pos.size p.
Proof. induction p; simpl; congruence. Qed.

Lemma Zdigits2_bounds m :
  0 < m -> 0 < Zdigits2 m /\ 2 ^ (Zdigits2 m - 1) <= m < 2 ^ Zdigits2 m.
Proof.
  intros Hm. destruct m as [|p|p]; [lia| |lia]. cbn [Zdigits2]. rewrite digits_size.
  pose proof (Pos.size_gt p) as Hgt. pose proof (Pos.size_le p) as Hle.
  split; [lia|]. split; [|by apply Pos2Z.pos_lt_pos in Hgt; rewrite Pos2Z.inj_pow in Hgt].
  apply Pos2Z.pos_le_pos in Hle. rewrite Pos2Z.inj_pow, (Pos2Z.inj_xO p) in Hle.
  replace (Z.pos (Pos.size p)) with (Z.succ (Z.pos (Pos.size p) - 1)) in Hle by lia.
  rewrite Z.pow_succ_r in Hle by lia. lia.
Qed.

(** A shift of the record halves its mantissa. *)
Lemma shr_1_m mrs : 0 <= shr_m mrs -> shr_m (shr_1 mrs) = shr_m mrs / 2.
Proof.
  destruct mrs as [m r s]. simpl. intros Hm.
  assert (shr_m (shr_1 (Build_shr_record m r s)) = Z.div2 m) as H
    by (destruct m as [|[p|p|]|p]; [done..|lia]).
  by rewrite Z.div2_div in H.
Qed.

Lemma iter_shr_m n mrs :
  0 <= shr_m mrs -> shr_m (SpecFloat.iter_pos shr_1 n mrs) = shr_m mrs / 2 ^ Z.pos n.
Proof.
  revert mrs. induction n as [n IH|n IH|]; intros mrs Hm; cbn [SpecFloat.iter_pos].
  - rewrite IH, IH, shr_1_m.
    + rewrite !Z.div_div by lia. f_equal. rewrite (Pos2Z.inj_xI n), Z.pow_add_r, Z.pow_1_r by lia.
      replace (2 * Z.pos n) with (Z.pos n + Z.pos n) by lia. rewrite Z.pow_add_r by lia. lia.
    + done.
    + rewrite shr_1_m by done. apply Z.div_pos; lia.
    + rewrite IH; rewrite shr_1_m by done; repeat apply Z.div_pos; lia.
  - rewrite IH, IH.
    + rewrite Z.div_div by lia. f_equal. rewrite (Pos2Z.inj_xO n).
      replace (2 * Z.pos n) with (Z.pos n + Z.pos n) by lia. by rewrite Z.pow_add_r by lia.
    + done.
    + rewrite IH by done. apply Z.div_pos; lia.
  - by rewrite shr_1_m.
Qed.

(** What is below [k], in units of [2 ^ -1103], stays there when it is brought
    to 53 bits, and if it changes its exponent is small. *)
Definition small (k m e : Z) : Prop :=
  0 <= m /\ -1103 <= e <= 971 /\ m * 2 ^ (e + 1103) <= k * 2 ^ 1103.

Lemma shr_fexp_small k m e mrs e' :
  0 < k < 2 ^ 31 -> small k m e -> shr_fexp 53 1024 m e loc_Exact = (mrs, e') ->
  small k (shr_m mrs) e' /\ (e' <= -22 \/ shr_m mrs = m /\ loc_of_shr_record mrs = loc_Exact).
Proof.
  intros Hk (Hm & He & Hle). unfold shr_fexp, shr, shr_record_of_loc.
  set (n := fexp 53 1024 (Zdigits2 m + e) - e). destruct n as [|p|p] eqn:En;
    try (intros [= <- <-]; simpl; split; [done|by right]).
  intros [= <- <-]. assert (e + Z.pos p = fexp 53 1024 (Zdigits2 m + e)) as Hf by lia.
  assert (e + Z.pos p <= -22) as Hsmall.
  { rewrite Hf. unfold fexp, SpecFloat.emin. destruct (decide (m = 0)) as [->|Hne].
    - simpl. unfold fexp, SpecFloat.emin in *. simpl in *. lia.
    - destruct (Zdigits2_bounds m ltac:(lia)) as (Hd & Hlo & _).
      assert (2 ^ (Zdigits2 m - 1 + (e + 1103)) < 2 ^ (31 + 1103)) as Hpow%Z.pow_lt_mono_r_iff.
      { rewrite (Z.pow_add_r 2 (Zdigits2 m - 1)), (Z.pow_add_r 2 31) by lia.
        eapply Z.le_lt_trans; [apply Z.mul_le_mono_nonneg_r; [lia|exact Hlo]|].
        eapply Z.le_lt_trans; [exact Hle|]. apply Z.mul_lt_mono_pos_r; lia. }
      all: lia. }
  rewrite iter_shr_m by done. cbn [shr_m]. split; [|by left]. split; [apply Z.div_pos; lia|].
  split; [lia|]. etransitivity; [|exact Hle].
  replace (e + Z.pos p + 1103) with (Z.pos p + (e + 1103)) by lia.
  rewrite Z.pow_add_r, Z.mul_assoc by lia. apply Z.mul_le_mono_nonneg_r; [lia|].
  rewrite Z.mul_comm. apply Z.mul_div_le. lia.
Qed.

Lemma round_le m l : m <= round_nearest_even m l <= m + 1 /\ (l = loc_Exact -> round_nearest_even m l = m).
Proof. destruct l as [|[]]; simpl; try destruct (Z.even m); split; (lia || done). Qed.

Lemma to_int32_small k s m e :
  0 < k < 2 ^ 31 -> small k (Z.pos m) e ->
  exists z, to_int32 (S754_finite s m e) = Some z /\ Z.abs z <= k.
Proof.
  intros Hk (_ & He & Hle). unfold to_int32.
  set (a := if 0 <=? e then _ else _).
  assert (0 <= a <= k) as Ha.
  { unfold a. destruct (Z.leb_spec 0 e).
    - split; [lia|]. apply (Z.mul_le_mono_pos_r _ _ (2 ^ 1103)); [lia|].
      by rewrite <- Z.mul_assoc, <- Z.pow_add_r by lia.
    - split; [apply Z.div_pos; lia|]. apply Z.div_le_upper_bound; [lia|].
      apply (Z.mul_le_mono_pos_r _ _ (2 ^ (e + 1103))); [lia|]. etransitivity; [exact Hle|].
      replace 1103 with (- e + (e + 1103)) at 1 by lia. rewrite Z.pow_add_r by lia. lia. }
  exists ((if s then -1 else 1) * a). destruct s; cbv zeta.
  all: rewrite (proj2 (andb_true_iff _ _)) by lia; split; [done|lia].
Qed.

(** What the conversion makes of at most [k] degrees. *)
Lemma degrees_within k d :
  0 < k <= 214 -> within k d -> exists z, degrees d = Some z /\ Z.abs z <= k * 10000000 + 1.
Proof.
  intros Hk. unfold degrees. destruct d as [s|s| |s m e]; simpl; try done; [exists 0; split; [done|lia]|].
  intros [He Hle]. unfold binary_round_aux. set (K := k * 10000000) in *.
  assert (small K (Z.pos (m * 5368709120000000)) (e + -29)) as H0.
  { split; [lia|]. split; [lia|]. rewrite Pos2Z.inj_mul. replace (e + -29 + 1103) with (e + 1074) by lia.
    change (2 ^ 1103) with (2 ^ 29 * 2 ^ 1074). unfold K. lia. }
  destruct (shr_fexp _ _ _ _ _) as [mrs1 e1] eqn:E1.
  destruct (shr_fexp_small K _ _ _ _ ltac:(lia) H0 E1) as [(Hm1 & He1 & Hle1) H1].
  destruct (round_le (shr_m mrs1) (loc_of_shr_record mrs1)) as [Hr Hx].
  set (r := round_nearest_even _ _) in *.
  assert (small (K + 1) r e1) as H2.
  { split; [lia|]. split; [done|]. destruct H1 as [Hs|[_ Hl]].
    - transitivity (shr_m mrs1 * 2 ^ (e1 + 1103) + 1 * 2 ^ (e1 + 1103)).
      { rewrite <- Z.mul_add_distr_r. apply Z.mul_le_mono_nonneg_r; lia. }
      pose proof (Z.pow_le_mono_r 2 (e1 + 1103) 1103 ltac:(lia) ltac:(lia)). lia.
    - rewrite (Hx Hl). lia. }
  destruct (shr_fexp _ _ r _ _) as [mrs2 e2] eqn:E2.
  destruct (shr_fexp_small (K + 1) _ _ _ _ ltac:(lia) H2 E2) as [Hsm _].
  destruct (shr_m mrs2) as [|p|p]; [exists 0; split; [done|lia]| |destruct Hsm; lia].
  pose proof Hsm as (_ & He2 & _). rewrite (proj2 (Z.leb_le e2 (1024 - 53))) by lia.
  apply (to_int32_small (K + 1)); [lia|done].
Qed.

(** A latitude of at most 90 degrees and a longitude of at most 180, north or
    south, east or west, always fit: the conversions are defined and give at
    most [900000001] and [1800000001], the largest values the messages allow
    for. *)
Theorem degrees_fit (lat lon : spec_float) :
  within 90 lat -> within 180 lon ->
  (exists z, degrees lat = Some z /\ Z.abs z <= 900000001)
  /\ (exists z, degrees lon = Some z /\ Z.abs z <= 1800000001).
Proof.
  intros Hlat Hlon.
  split; [apply (degrees_within 90 lat)|apply (degrees_within 180 lon)]; (done || lia).
Qed.

Lemma degrees_fit_witness :
  (exists z, degrees (S754_finite false 8810166771043533 (-48)) = Some z /\ Z.abs z <= 900000001)
  /\ (exists z, degrees (S754_finite true 8528691794332877 (-46)) = Some z /\ Z.abs z <= 1800000001).
Proof. apply degrees_fit; vm_compute; repeat split; discriminate. Defined.

End CamDegrees.
