(* ===== verification/CamFusion.v ===== *)
(** * From the sensors to the database

    The edge and the cloud side of the camera application: [ConvertCam] and the
    end of [onSocketReadable] of [src/cam-app/src/UserTcpServer.cpp],
    [callback::message_arrived] of [src/cam-app/src/MqttSubscriber.cpp], and of
    [src/cam-app/src/CamTopic.cpp] the writer with [send_cam] and the reader
    with [handle_node], with the queues between them. Protobuf's generated
    (de)serialisers are parameters; [Context] says which. *)

From Stdlib Require Import SpecFloat.
From S2P Require Import Prelude SafeQueue StrUtil SnowFlake Printf Proto Insert.
From S2P Require Import CamInsert CamCorrect CamCrc CamTcp CamDegrees.
Import StrUtil Printf Proto Insert CamInsert CamCorrect CamCrc CamTcp CamDegrees.

Module CamFusion.

(** [s.c_str()], made a string again. *)
Definition nul : ascii := "000"%char.
Definition c_str (s : str) : str := (until nul s).1.

(** ** The queues *)

(** src/cam-app/utils/common.h:8-8, [MAX_MSG]. *)
Definition MAX_MSG : Z := 20000.

(** src/cam-app/src/UserTcpServer.cpp:82-86, [ConvertCam]. [Empty] only tells
    whether the queue is empty. The same lines for every queue. *)
Definition push {A} (v : A) (q : list A) : list A :=
  let q := if MAX_MSG <? Size q then let _ := Empty q in q else q in
  Push v q.

(** ** The configuration *)

(** src/cam-app/dds/NodeInfo.h:24-68, [NodeInfo]. What the handlers use. *)
Record NodeInfo := mkInfo {
  nodeId_ : str;
  camType_ : Z;
  camVer_ : str;
  deviceId_ : str;
  mapDevId_ : str;
  sceneType_ : Z;
  lat_ : Z;
  lon_ : Z;
  ele_ : Z;
}.

(** ** [ConvertCam] *)

(** src/cam-app/src/UserTcpServer.cpp:43-54, [ConvertCam]. *)
Definition deviceIdList (l : list msg) : str :=
  match l with
  | [] => []
  | o :: l' => foldl (fun acc x => acc ++ $"," ++ text x "deviceid") (text o "deviceid") l'
  end.

(** src/cam-app/src/UserTcpServer.cpp:57-75, [ConvertCam]. *)
Definition position (path : msg) : option (list (string * value)) :=
  let p := path ~> "objposdatas" in
  if has path "objposdatas" then
    lat ← degrees (real p "lattitude");
    lon ← degrees (real p "longitude");
    Some [("ptcpos", VSub (Msg [("lat", VInt lat); ("lon", VInt lon);
                                ("ele", VInt (int p "elevation"))]));
          ("speed", VInt (uwrap 32 (int p "speed")));
          ("heading", VInt (uwrap 32 (int p "speedheading")));
          ("ptcsize", VSub (Msg [("width", VInt (uwrap 32 (int p "objwidth")));
                                 ("length", VInt (uwrap 32 (int p "objlength")));
                                 ("height", VInt (uwrap 32 (int p "objheight")))]))]
  else Some [].

(** src/cam-app/src/UserTcpServer.cpp:76-80, [ConvertCam]. *)
Definition vision (path : msg) : list (string * value) :=
  let v := path ~> "objvisiondata" in
  if has path "objvisiondata" then
    [("plateno", VText (text v "plateno")); ("platecolor", VInt (int v "platecolor"))]
  else [].

(** src/cam-app/src/UserTcpServer.cpp:38-81, [ConvertCam]. A turn of the loop. *)
Definition participant (datatime : Z) (path : msg) : option msg :=
  pos ← position path;
  Some (Msg ([("ptcid", VInt (uwrap 64 (int path "objid")));
              ("ptctype", VInt (int path "objtype"));
              ("datasource", VInt 7);
              ("vehicletype", VInt (int path "objkind"));
              ("deviceidlist", VText (deviceIdList (rep path "oriposdatalist")));
              ("timestamp", VInt (uwrap 64 datatime))] ++ pos ++ vision path)).

Section Convert.
Context (nodeInfo_ : NodeInfo).

(** src/cam-app/src/UserTcpServer.cpp:18-81, [ConvertCam]. *)
Definition ConvertCam (fusion : msg) (msgNum : Z) : option msg :=
  ptclist ← mapM (participant (int fusion "datatime")) (rep fusion "pathlist");
  Some (Msg [("type", VInt (uwrap 32 (camType_ nodeInfo_)));
             ("ver", VText (c_str (camVer_ nodeInfo_)));
             ("msgcnt", VInt msgNum);
             ("timestamp", VInt (uwrap 64 (int fusion "datatime")));
             ("scenetype", VInt (sceneType_ nodeInfo_));
             ("toalgorithmtime", VInt (uwrap 64 (int fusion "sendtime")));
             ("deviceid", VText (c_str (deviceId_ nodeInfo_)));
             ("mapdeviceid", VText (c_str (mapDevId_ nodeInfo_)));
             ("refpos", VSub (Msg [("lat", VInt (lat_ nodeInfo_)); ("lon", VInt (lon_ nodeInfo_));
                                   ("ele", VInt (ele_ nodeInfo_))]));
             ("ptclist", VRep ptclist)]).

End Convert.

(** ** The process at the edge *)

(** The threads that put messages into the queues: the reactor of the TCP server
    and the callbacks of the broker's client. *)
Inductive producer := Tcp | Mqtt.

(** src/cam-app/src/UserTcpServer.cpp:14-17, [camSendQueue_]. With the queues of
    [callback], the messages that the producers have put into the first of their two
    queues only, the one the writer has taken and not yet put on the bus, and what
    it has published. *)
Record edge := mkEdge {
  msgNum : Z;
  camSendQueue_ : list msg;
  simplifiedCamQueue_ : list msg;
  cameraQueue_ : list msg;
  radarQueue_ : list msg;
  tcp_pushing : option msg;
  mqtt_pushing : option msg;
  held : option msg;
  published : list str;
}.

Definition boot : edge := mkEdge 0 [] [] [] [] None None None [].

Definition pushing (p : producer) (s : edge) : option msg :=
  match p with Tcp => tcp_pushing s | Mqtt => mqtt_pushing s end.

(** src/cam-app/src/UserTcpServer.cpp:82-86, [ConvertCam]. The first of the two
    queues; the same in [message_arrived]. *)
Definition push_send (p : producer) (cam : msg) (s : edge) : edge :=
  mkEdge (msgNum s) (push cam (camSendQueue_ s)) (simplifiedCamQueue_ s) (cameraQueue_ s) (radarQueue_ s)
    (match p with Tcp => Some cam | Mqtt => tcp_pushing s end)
    (match p with Tcp => mqtt_pushing s | Mqtt => Some cam end) (held s) (published s).

(** src/cam-app/src/UserTcpServer.cpp:87-92, [ConvertCam]. The second one. The
    reactor then counts the message up (line 216). *)
Definition push_simplified (p : producer) (cam : msg) (s : edge) : edge :=
  mkEdge (match p with Tcp => uwrap 8 (msgNum s + 1) | Mqtt => msgNum s end)
    (camSendQueue_ s) (push cam (simplifiedCamQueue_ s)) (cameraQueue_ s) (radarQueue_ s)
    (match p with Tcp => None | Mqtt => tcp_pushing s end)
    (match p with Tcp => mqtt_pushing s | Mqtt => None end) (held s) (published s).

Section Edge.
Context (nodeInfo_ : NodeInfo) (monNodeId_ : str).
(** [FusionPathDatas::ParseFromArray]; [CamData] and [MultiPathDatas] from a
    string, whatever the answer; [CamData] and [Cam] to a string. *)
Context (parseFusion : list Z -> option msg).
Context (parseCamData parseMultiPath : str -> msg) (serializeCamData serializeCam : msg -> str).

(** What happens at the edge: a socket becomes readable; a message comes from
    the broker at the time [now]; a producer goes on to its second queue; the writer
    takes a message, names it [msgId] and calls [put], which throws or not. *)
Inductive event :=
  | Readable (sock : list (list Z))
  | Arrived (topic payload : str) (now : Z)
  | PushOn (p : producer)
  | Take
  | Put (msgId : str) (now : Z) (thrown : bool).

(** src/cam-app/src/UserTcpServer.cpp:197-223, [UserServiceHandler::onSocketReadable].
    Up to the first queue. [None]: the memory is overwritten, or a coordinate does not
    fit. *)
Definition onSocketReadable (sock : list (list Z)) (s : edge) : option edge :=
  match (read_frame sock).1 with
  | Got fusion =>
      match parseFusion fusion with
      | Some fusionPbData => cam ← ConvertCam nodeInfo_ fusionPbData (msgNum s); Some (push_send Tcp cam s)
      | None => Some s
      end
  | Overwritten => None
  | _ => Some s
  end.

(** [m.set_x(z)]. *)
Definition set_int (m : msg) (f : string) (z : Z) : msg :=
  Msg ((f, VInt z) :: filter (fun kv => kv.1 <> f) (fields m)).

(** src/cam-app/src/MqttSubscriber.cpp:80-130, [callback::message_arrived]. Up to the
    first queue. *)
Definition message_arrived (topic payload : str) (now : Z) (s : edge) : edge :=
  if bool_decide (is_Some (sfind $"camera" topic)) then
    mkEdge (msgNum s) (camSendQueue_ s) (simplifiedCamQueue_ s)
      (push (parseMultiPath payload) (cameraQueue_ s)) (radarQueue_ s)
      (tcp_pushing s) (mqtt_pushing s) (held s) (published s)
  else if bool_decide (is_Some (sfind $"cam" topic)) then
    push_send Mqtt (set_int (parseCamData payload) "tocloudtime" now) s
  else if bool_decide (is_Some (sfind $"radar" topic)) then
    mkEdge (msgNum s) (camSendQueue_ s) (simplifiedCamQueue_ s)
      (cameraQueue_ s) (push (parseMultiPath payload) (radarQueue_ s))
      (tcp_pushing s) (mqtt_pushing s) (held s) (published s)
  else s.

(** src/cam-app/src/CamTopic.cpp:698-708, [CamTopic::writer_worker]. *)
Definition cam_message (msgId : str) (now : Z) (cam : msg) : msg :=
  let camStr := serializeCamData cam in
  Msg [("msgid", VText msgId); ("srcnodeid", VText (nodeId_ nodeInfo_));
       ("tonodeid", VText monNodeId_); ("msgtype", VInt 11);
       ("length", VInt (uwrap 32 (Z.of_nat (length camStr)))); ("data", VText camStr);
       ("createdat", VInt now); ("updatedat", VInt now)].

(** src/cam-app/src/CamTopic.cpp:776-791, [CamTopic::send_cam]. The vector has
    one byte more than the message, which is zero. *)
Definition send_cam (node_msg : msg) : str := serializeCam node_msg ++ [nul].

(** src/cam-app/src/CamTopic.cpp:695-695, [CamTopic::writer_worker]. With an empty
    queue the call times out. *)
Definition writer_take (s : edge) : edge :=
  match TryPop (camSendQueue_ s) with
  | (Some cam, q) =>
      mkEdge (msgNum s) q (simplifiedCamQueue_ s) (cameraQueue_ s) (radarQueue_ s)
        (tcp_pushing s) (mqtt_pushing s) (Some cam) (published s)
  | (None, _) => s
  end.

(** src/cam-app/src/CamTopic.cpp:697-722, [CamTopic::writer_worker]. The rest of the
    turn; an exception loses the message. *)
Definition writer_put (msgId : str) (now : Z) (thrown : bool) (cam : msg) (s : edge) : edge :=
  mkEdge (msgNum s) (camSendQueue_ s) (simplifiedCamQueue_ s) (cameraQueue_ s) (radarQueue_ s)
    (tcp_pushing s) (mqtt_pushing s) None
    (if thrown then published s else published s ++ [send_cam (cam_message msgId now cam)]).

(** A step of a thread. [None]: what happens is undefined, or the event cannot
    happen, as the thread is elsewhere. *)
Definition step (s : edge) (e : event) : option edge :=
  match e with
  | Readable sock => match tcp_pushing s with None => onSocketReadable sock s | Some _ => None end
  | Arrived topic payload now =>
      match mqtt_pushing s with None => Some (message_arrived topic payload now s) | Some _ => None end
  | PushOn p => cam ← pushing p s; Some (push_simplified p cam s)
  | Take => match held s with None => Some (writer_take s) | Some _ => None end
  | Put msgId now thrown => cam ← held s; Some (writer_put msgId now thrown cam s)
  end.

Fixpoint run (s : edge) (es : list event) : option edge :=
  match es with
  | [] => Some s
  | e :: es' => s' ← step s e; run s' es'
  end.

End Edge.

(** ** The process in the cloud *)

Section Cloud.
Context {E : Type} `{!Gen E} (parseCam parseCamData : str -> msg).

(** src/cam-app/src/CamTopic.cpp:812-833, [CamTopic::handle_node]. *)
Definition handle_node (rand : Z) (sample : str) : M E () :=
  let cam_msg := parseCam sample in
  let camData := parseCamData (text cam_msg "data") in
  camInsert rand camData.

End Cloud.

(** ** Topics *)

Definition contains (w t : str) : Prop := exists a b, t = a ++ w ++ b.

Lemma sfind_contains w t : is_Some (sfind w t) <-> contains w t.
Proof.
  split.
  - intros [i [[b Ht] _]%sfind_some]. by exists (take i t), b.
  - intros (a & b & Ht). destruct (sfind w t) eqn:E; [done|].
    exfalso. by eapply sfind_none in E.
Qed.

#[export] Instance contains_dec w t : Decision (contains w t).
Proof. refine (cast_if (decide (is_Some (sfind w t)))); by rewrite <- sfind_contains. Defined.

Lemma camera_is_cam t : contains $"camera" t -> contains $"cam" t.
Proof. intros (a & b & ->). by exists a, ($"era" ++ b). Qed.

(** ** What comes in at the edge *)

Lemma push_app {A} (v : A) q : push v q = q ++ [v].
Proof. unfold push. by destruct (_ <? _). Qed.

Section Queues.
Context (nodeInfo_ : NodeInfo) (monNodeId_ : str) (parseFusion : list Z -> option msg).
Context (parseCamData parseMultiPath : str -> msg) (serializeCamData serializeCam : msg -> str).

Local Abbreviation Step := (step nodeInfo_ monNodeId_ parseFusion parseCamData parseMultiPath
                              serializeCamData serializeCam).
Local Abbreviation Run := (run nodeInfo_ monNodeId_ parseFusion parseCamData parseMultiPath
                             serializeCamData serializeCam).

(** The message for the cloud that an event brings, when [n] messages came from
    sockets before it: a frame of the fusion, converted under the number [n], or a
    message from the broker whose topic has "cam" in it, but not "camera", with the
    time of arrival. *)
Definition brings (n : nat) (e : event) : option msg :=
  match e with
  | Readable sock =>
      match (read_frame sock).1 with
      | Got fusion => f ← parseFusion fusion; ConvertCam nodeInfo_ f (Z.of_nat n mod 2 ^ 8)
      | _ => None
      end
  | Arrived topic payload now =>
      if decide (contains $"cam" topic /\ ~ contains $"camera" topic)
      then Some (set_int (parseCamData payload) "tocloudtime" now) else None
  | _ => None
  end.

Definition from_socket (e : event) : bool := match e with Readable _ => true | _ => false end.

(** The messages that come in, in their order. *)
Fixpoint incoming (n : nat) (es : list event) : list msg :=
  match es with
  | [] => []
  | e :: es' =>
      match brings n e with
      | Some cam => cam :: incoming (if from_socket e then S n else n) es'
      | None => incoming n es'
      end
  end.

(** A published text carries a message. *)
Definition carries (cam : msg) (sample : str) : Prop :=
  exists msgId now, sample
    = send_cam serializeCam (cam_message nodeInfo_ monNodeId_ serializeCamData msgId now cam).

Definition thrown (e : event) : bool :=
  match e with Put _ _ t => t | _ => false end.

(** The number of messages from sockets that the state counts, with the one that
    is on its way. *)
Definition numbered (n : nat) (s : edge) : Prop :=
  match tcp_pushing s with
  | None => msgNum s = Z.of_nat n mod 2 ^ 8
  | Some _ => exists k, n = S k /\ msgNum s = Z.of_nat k mod 2 ^ 8
  end.

(** [l] has come in so far; of it the writer has finished with [taken], and published
    [kept]. *)
Definition tracked (l taken kept : list msg) (s : edge) : Prop :=
  l = taken ++ option_list (held s) ++ camSendQueue_ s /\
  l ≡ₚ simplifiedCamQueue_ s ++ option_list (tcp_pushing s) ++ option_list (mqtt_pushing s) /\
  kept `sublist_of` taken /\ Forall2 carries kept (published s).

Lemma push_send_tracked p l taken kept cam s :
  pushing p s = None -> tracked l taken kept s -> tracked (l ++ [cam]) taken kept (push_send p cam s).
Proof.
  intros Hp (Hq & Hd & Hr). unfold tracked, push_send.
  cbn [held camSendQueue_ simplifiedCamQueue_ tcp_pushing mqtt_pushing published].
  split; [|split; [|done]].
  - by rewrite push_app, Hq, <- !(assoc_L (++)).
  - rewrite Hd. destruct p; cbn [pushing] in Hp; rewrite Hp; cbn [option_list app].
    + rewrite app_nil_l, <- (assoc_L (++)). apply Permutation_app_head, Permutation_app_comm.
    + by rewrite app_nil_r, <- (assoc_L (++)).
Qed.

Lemma push_on_tracked p l taken kept cam s :
  pushing p s = Some cam -> tracked l taken kept s -> tracked l taken kept (push_simplified p cam s).
Proof.
  intros Hp (Hq & Hd & Hr). unfold tracked, push_simplified.
  cbn [held camSendQueue_ simplifiedCamQueue_ tcp_pushing mqtt_pushing published].
  split; [done|split; [|done]]. rewrite push_app, Hd.
  destruct p; cbn [pushing] in Hp; rewrite Hp; cbn [option_list app]; rewrite <- !(assoc_L (++)).
  - done.
  - apply Permutation_app_head. rewrite app_nil_r. apply Permutation_app_comm.
Qed.

Lemma count_up n : uwrap 8 (Z.of_nat n mod 2 ^ 8 + 1) = Z.of_nat (S n) mod 2 ^ 8.
Proof. unfold uwrap. rewrite Zplus_mod_idemp_l. f_equal. lia. Qed.

(** A step, and what it brings. *)
Lemma step_tracked n l taken kept s e s' :
  numbered n s -> tracked l taken kept s -> Step s e = Some s' ->
  exists taken' kept',
    tracked (l ++ option_list (brings n e)) taken' kept' s' /\
    numbered (if from_socket e && bool_decide (is_Some (brings n e)) then S n else n) s' /\
    (kept = taken -> thrown e = false -> kept' = taken').
Proof.
  intros Hn Ht. destruct e as [sock|topic payload now|p| |id now t]; cbn [step brings from_socket andb].
  - destruct (tcp_pushing s) as [|] eqn:Et; [done|]. unfold numbered in Hn. rewrite Et in Hn.
    unfold onSocketReadable. exists taken, kept.
    destruct (fst _) as [| | | | | |fusion] eqn:Ef; intros; simplify_eq/=;
      try (rewrite app_nil_r; split_and!; [done| |done]; unfold numbered; by rewrite Et).
    destruct (parseFusion _) as [f|]; simplify_eq/=;
      [|rewrite app_nil_r; split_and!; [done| |done]; unfold numbered; by rewrite Et].
    rewrite <- Hn. destruct (ConvertCam _ _ _) as [cam|]; simplify_eq/=.
    split_and!; [by apply push_send_tracked| |done]. by exists n.
  - destruct (mqtt_pushing s) as [|] eqn:Em; [done|]. intros [= <-]. exists taken, kept.
    split; [|split; [|done]].
    + unfold message_arrived. pose proof (camera_is_cam topic).
      repeat case_bool_decide; rewrite sfind_contains in *; case_decide; try tauto;
        cbn [option_list]; rewrite ?app_nil_r; try done. by apply push_send_tracked.
    + unfold message_arrived. by repeat case_bool_decide.
  - destruct (pushing p s) as [cam|] eqn:Ep; [|done]. intros [= <-]. exists taken, kept.
    rewrite app_nil_r. split; [by apply push_on_tracked|]. split; [|done].
    unfold numbered in *. destruct p; cbn [pushing] in Ep; cbn [push_simplified tcp_pushing msgNum].
    + rewrite Ep in Hn. destruct Hn as (k & -> & ->). apply count_up.
    + done.
  - destruct (held s) as [|] eqn:Eh; [done|]. intros [= <-]. exists taken, kept. rewrite app_nil_r.
    destruct Ht as (Hq & Hd & Hr). rewrite Eh in Hq. unfold writer_take, TryPop.
    destruct (camSendQueue_ s) as [|cam q] eqn:Ec.
    + split; [|done]. unfold tracked. by rewrite Eh, Ec.
    + split; [|done]. split; [exact Hq|]. by split.
  - destruct (held s) as [cam|] eqn:Eh; [|done]. intros [= <-].
    destruct Ht as (Hq & Hd & Hsub & Hall). rewrite Eh in Hq.
    exists (taken ++ [cam]), (if t then kept else kept ++ [cam]). rewrite app_nil_r.
    split; [split; [|split; [|split]]|split; [done|]].
    + cbn [writer_put held camSendQueue_ option_list app]. by rewrite Hq, <- (assoc_L (++)).
    + done.
    + destruct t; [by apply sublist_inserts_r|by apply sublist_app].
    + destruct t; cbn [writer_put published]; [done|]. apply Forall2_app; [done|].
      constructor; [|done]. by exists id, now.
    + intros -> Ht. cbn [thrown] in Ht. by subst t.
Qed.

Lemma run_tracked n l taken kept s es s' :
  numbered n s -> tracked l taken kept s -> Run s es = Some s' ->
  exists taken' kept', tracked (l ++ incoming n es) taken' kept' s' /\
    (kept = taken -> forallb (negb ∘ thrown) es = true -> kept' = taken').
Proof.
  revert n l taken kept s. induction es as [|e es IH]; intros n l taken kept s Hn Ht; cbn [run incoming].
  - intros [= <-]. exists taken, kept. by rewrite app_nil_r.
  - destruct (Step s e) as [s1|] eqn:E; cbn [mbind option_bind]; [|done]. intros Hr.
    destruct (step_tracked _ _ _ _ _ _ _ Hn Ht E) as (t1 & k1 & Ht1 & Hn1 & Hk1).
    destruct (IH _ _ _ _ _ Hn1 Ht1 Hr) as (t2 & k2 & Ht2 & Hk2). exists t2, k2. split.
    + rewrite <- (assoc_L (++)) in Ht2. destruct (brings n e) as [cam|].
      * rewrite (bool_decide_true (is_Some (Some cam))), andb_true_r in Ht2 by by eexists. exact Ht2.
      * rewrite (bool_decide_false (is_Some None)), andb_false_r in Ht2 by (by intros []). exact Ht2.
    + intros Hk [He Hes]%andb_true_iff. apply Hk2; [|done]. apply Hk1; [done|].
      by apply negb_true_iff.
Qed.

(** The same from the start. *)
Lemma boot_tracked es s :
  Run boot es = Some s ->
  exists taken kept, tracked (incoming 0 es) taken kept s /\
    (forallb (negb ∘ thrown) es = true -> kept = taken).
Proof.
  intros H. destruct (run_tracked 0 [] [] [] boot es s) as (taken & kept & Ht & Hk);
    [done|by split_and!|done|]. exists taken, kept. auto.
Qed.

End Queues.


(** A configuration, and codecs for examples. *)
Definition an_info : NodeInfo := mkInfo $"edge-1" 1 $"01" $"mec-1" $"map-1" 0 313050472 1212170908 23.
Definition no_codec : str -> msg := fun _ => Msg [].
Definition no_text : msg -> str := fun _ => $"x".

(** A message from the broker while the reactor is between its two queues: the two
    queues have the messages in different orders. *)
Definition some_events : list event :=
  [Readable [frame a_mid a_fusion]; Arrived $"v2x/cam" [] 7; PushOn Mqtt; PushOn Tcp;
   Take; Put $"a" 8 true; Take; Arrived $"v2x/cam" [] 9; Put $"b" 10 false].

Definition some_fusion : list Z -> option msg := fun _ => Some (Msg []).


(** [MAX_MSG] bounds nothing: whatever the number of messages, all of them are in
    the queue of simplified messages, which nobody reads. *)
Theorem queues_unbounded nodeInfo_ monNodeId_ parseFusion parseCamData parseMultiPath
    serializeCamData serializeCam payload now n s :
  sfind $"camera" s = None -> is_Some (sfind $"cam" s) ->
  exists e, run nodeInfo_ monNodeId_ parseFusion parseCamData parseMultiPath serializeCamData serializeCam
    boot (concat (replicate n [Arrived s payload now; PushOn Mqtt])) = Some e
    /\ length (simplifiedCamQueue_ e) = n /\ length (camSendQueue_ e) = n.
Proof.
  intros Hc Hs. change n with (length (simplifiedCamQueue_ boot) + n)%nat at 2.
  change n with (length (camSendQueue_ boot) + n)%nat at 3.
  assert (mqtt_pushing boot = None) as Hb by done. revert Hb. generalize boot as b.
  induction n as [|n IH]; intros b Hb; cbn [replicate concat].
  - exists b. rewrite !Nat.add_0_r. done.
  - cbn [app run step]. rewrite Hb. cbn [mbind option_bind]. unfold message_arrived. rewrite Hc.
    rewrite bool_decide_false by (by intros []). rewrite bool_decide_true by done.
    cbn [pushing push_send mqtt_pushing mbind option_bind].
    match goal with |- context [run _ _ _ _ _ _ _ ?b' (concat _)] => destruct (IH b') as (e & He & H1 & H2) end;
      [done|]. exists e. split; [done|]. rewrite H1, H2. cbn.
    rewrite !push_app, !length_app. simpl. lia.
Qed.

Lemma queues_unbounded_witness :
  exists e, run an_info $"mgr" (fun _ => None) no_codec no_codec no_text no_text
    boot (concat (replicate (Z.to_nat 30000) [Arrived $"v2x/cam" [] 7; PushOn Mqtt])) = Some e
    /\ length (simplifiedCamQueue_ e) = Z.to_nat 30000 /\ length (camSendQueue_ e) = Z.to_nat 30000.
Proof. apply queues_unbounded; [reflexivity|by eexists]. Defined.

(** What becomes of a message from the broker depends on its topic: one with
    "camera" in it is a path of cameras, otherwise one with "cam" is a message
    for the cloud and, next, for display, with the time of arrival, otherwise one
    with "radar" is a path of radars; anything else is dropped. *)
Theorem topic_decides parseCamData parseMultiPath topic payload now s :
  mqtt_pushing s = None ->
  let s' := message_arrived parseCamData parseMultiPath topic payload now s in
  let cam := set_int (parseCamData payload) "tocloudtime" now in
  let path := parseMultiPath payload in
  camSendQueue_ s' = camSendQueue_ s ++
    (if decide (contains $"cam" topic /\ ~ contains $"camera" topic) then [cam] else [])
  /\ mqtt_pushing s' =
    (if decide (contains $"cam" topic /\ ~ contains $"camera" topic) then Some cam else None)
  /\ cameraQueue_ s' = cameraQueue_ s ++ (if decide (contains $"camera" topic) then [path] else [])
  /\ radarQueue_ s' = radarQueue_ s ++
    (if decide (contains $"radar" topic /\ ~ contains $"cam" topic) then [path] else [])
  /\ int cam "tocloudtime" = now /\ published s' = published s.
Proof.
  intros Hs s' cam path. unfold s', message_arrived, push_send.
  pose proof (camera_is_cam topic).
  repeat case_bool_decide; rewrite sfind_contains in *;
    repeat case_decide; try tauto; simpl; by rewrite ?push_app, ?app_nil_r.
Qed.

(** ** From a frame to the rows *)

Lemma convert_regular info fusion n cam : ConvertCam info fusion n = Some cam -> regular cam.
Proof.
  unfold ConvertCam. destruct (mapM _ _) as [l|]; simpl; [|done]. intros [= <-].
  split; [reflexivity|]. intros e r He%not_elem_of_nil. destruct He.
Qed.

(** A path whose position, if it has one, is given in degrees. *)
Definition on_earth (path : msg) : Prop :=
  has path "objposdatas" = true ->
  within 180 (real (path ~> "objposdatas") "lattitude")
  /\ within 180 (real (path ~> "objposdatas") "longitude").

Lemma participant_defined t path :
  on_earth path -> exists p, participant t path = Some p
    /\ int p "ptcid" = uwrap 64 (int path "objid")
    /\ has p "ptcpos" = has path "objposdatas".
Proof.
  unfold on_earth, participant, position. destruct (has path "objposdatas").
  - intros H. destruct (H eq_refl) as [(lat & Hlat & _)%degrees_within (lon & Hlon & _)%degrees_within]; [|lia..].
    rewrite Hlat, Hlon. by eexists.
  - intros _. simpl. eexists. split; [done|]. split; [done|]. unfold vision.
    by destruct (has path "objvisiondata").
Qed.

(** When the positions are given in degrees, [ConvertCam] is defined: it makes
    one participant of each path, in their order, with the path's id and with a
    position if and only if the path has one, under the number given. *)
Theorem convert_paths info fusion n :
  (forall path, path ∈ rep fusion "pathlist" -> on_earth path) ->
  exists cam, ConvertCam info fusion n = Some cam
    /\ int cam "msgcnt" = n /\ int cam "id" = 0
    /\ Forall2 (fun path p => int p "ptcid" = uwrap 64 (int path "objid")
                 /\ has p "ptcpos" = has path "objposdatas")
         (rep fusion "pathlist") (rep cam "ptclist").
Proof.
  intros H. unfold ConvertCam. set (t := int fusion "datatime"). clearbody t.
  assert (exists l, mapM (participant t) (rep fusion "pathlist") = Some l
    /\ Forall2 (fun path p => int p "ptcid" = uwrap 64 (int path "objid")
                 /\ has p "ptcpos" = has path "objposdatas") (rep fusion "pathlist") l)
    as (l & -> & Hl); [|by eexists].
  induction (rep fusion "pathlist") as [|path ps IH]; [by exists []|].
  destruct (participant_defined t path) as (p & Hp & Hid); [apply H, list_elem_of_here|].
  destruct IH as (l & Hl & Hall); [intros; apply H; by apply list_elem_of_further|].
  exists (p :: l). cbn [mapM]. rewrite Hp. simpl. rewrite Hl. simpl. split; [done|]. by constructor.
Qed.

(** C3. A frame with a message of the fusion that arrives at the edge, when nothing
    waits to be sent: it is converted, put into both queues, taken and published by
    the writer, and what the cloud does with the sample is what [camInsert] does with
    the message converted. When its texts have at most 500 chars, [camInsert] stores
    it to the end, unless the source of ids fails. The codecs must restore the two
    messages, the outer one with the zero byte that [send_cam] puts after it, and
    [put] must not throw. *)
Theorem frame_reaches_database {E} `{!Gen E} nodeInfo_ monNodeId_ parseFusion
    (parseCam parseCamData parseMultiPath : str -> msg) (serializeCamData serializeCam : msg -> str)
    mid fusion segs f cam msgId now rand (s : edge) (db : st E) :
  sendable mid fusion -> full segs -> (length segs <= 100)%nat -> concat segs = frame mid fusion ->
  parseFusion fusion = Some f -> ConvertCam nodeInfo_ f (msgNum s) = Some cam ->
  camSendQueue_ s = [] -> tcp_pushing s = None -> held s = None -> short 500 cam = true ->
  let sent := cam_message nodeInfo_ monNodeId_ serializeCamData msgId now cam in
  parseCam (serializeCam sent ++ [nul]) = sent ->
  parseCamData (serializeCamData cam) = cam ->
  exists s' sample,
    run nodeInfo_ monNodeId_ parseFusion parseCamData parseMultiPath serializeCamData serializeCam
      s [Readable segs; PushOn Tcp; Take; Put msgId now false] = Some s' /\
    published s' = published s ++ [sample] /\
    simplifiedCamQueue_ s' = simplifiedCamQueue_ s ++ [cam] /\
    handle_node parseCam parseCamData rand sample db = camInsert rand cam db /\
    (fst (camInsert rand cam db) = inl () \/ fst (camInsert rand cam db) = inr NoId).
Proof.
  intros Hs Hf Hle Hc Hp Hconv Hq Ht Hh Hshort sent Hcam Hdata.
  pose proof (camInsert_needs_ids rand cam Hshort (convert_regular _ _ _ _ Hconv) db) as Hdb.
  eexists _, _. cbn [run step]. rewrite Ht. unfold onSocketReadable.
  rewrite <- (app_nil_r segs), (read_sent mid fusion) by done. cbn [fst]. rewrite Hp, Hconv.
  cbn [option_bind mbind pushing push_send tcp_pushing push_simplified held]. rewrite Hh.
  unfold writer_take. cbn [camSendQueue_ push_send push_simplified]. rewrite push_app, Hq.
  cbn [app TryPop held option_bind mbind].
  split; [done|]. split; [done|]. split; [apply push_app|].
  split.
  - unfold handle_node, send_cam. fold sent. rewrite Hcam.
    change (text sent "data") with (serializeCamData cam). by rewrite Hdata.
  - destruct (fst (camInsert rand cam db)) as [[]|e]; [by left|right; by subst].
Qed.

(** A message of the fusion: a path at 31.3 N, 121.2 E, seen by two devices. *)
Definition a_fused : msg :=
  Msg [("sendtime", VInt 1691985600123); ("datatime", VInt 1691985600000);
       ("pathlist", VRep [Msg [("objid", VInt 42); ("objtype", VInt 1);
          ("objposdatas", VSub (Msg [("lattitude", VReal (S754_finite false 8810166771043533 (-48)));
                                     ("longitude", VReal (S754_finite false 8528691794332877 (-46)));
                                     ("speed", VInt (-5))]));
          ("oriposdatalist", VRep [Msg [("deviceid", VText $"cam-1")]; Msg [("deviceid", VText $"cam-2")]])]])].

Definition a_cam : msg := default (Msg []) (ConvertCam an_info a_fused 0).

Example a_cam_converted :
  map (fun p => (int p "ptcid", text p "deviceidlist", int (p ~> "ptcpos") "lat", int p "speed")) (rep a_cam "ptclist")
  = [(42, $"cam-1,cam-2", 313000000, 4294967291)].
Proof. vm_compute. reflexivity. Qed.

Lemma convert_paths_witness :
  exists cam, ConvertCam an_info a_fused 7 = Some cam
    /\ int cam "msgcnt" = 7 /\ int cam "id" = 0
    /\ Forall2 (fun path p => int p "ptcid" = uwrap 64 (int path "objid")
                 /\ has p "ptcpos" = has path "objposdatas")
         (rep a_fused "pathlist") (rep cam "ptclist").
Proof.
  apply convert_paths. intros path [->|Hp]%elem_of_cons _.
  - split; vm_compute; repeat split; discriminate.
  - by apply not_elem_of_nil in Hp.
Defined.

#[local] Existing Instance count.

Lemma frame_reaches_database_witness :
  exists s' sample,
    run an_info $"mgr" (fun _ => Some a_fused) (fun _ => a_cam) (fun _ => Msg []) no_text no_text
      boot [Readable [frame a_mid a_fusion]; PushOn Tcp; Take; Put $"a" 8 false] = Some s'
    /\ published s' = [] ++ [sample]
    /\ fst (handle_node (fun _ => cam_message an_info $"mgr" no_text $"a" 8 a_cam) (fun _ => a_cam)
         12345 sample (mkSt 1%nat [])) = inl ().
Proof.
  destruct (frame_reaches_database an_info $"mgr" (fun _ => Some a_fused)
    (fun _ => cam_message an_info $"mgr" no_text $"a" 8 a_cam) (fun _ => a_cam) (fun _ => Msg [])
    no_text no_text a_mid a_fusion [frame a_mid a_fusion] a_fused a_cam $"a" 8 12345 boot (mkSt 1%nat []))
    as (s' & sample & H1 & H2 & _ & H3 & H4);
    [by_decision| |simpl; lia|apply app_nil_r|vm_compute; reflexivity..|].
  - repeat constructor; discriminate.
  - exists s', sample. split; [exact H1|]. split; [exact H2|]. rewrite H3.
    destruct H4 as [H4|H4]; [exact H4|]. vm_compute in H4. discriminate.
Defined.

End CamFusion.
