(* ===== verification/CamStart.v ===== *)
(** * Starting the camera application

    [main] of [src/cam-app/src/CamService.cpp]: from the file of settings to
    what is started, in the cloud (location "mgr") or at the edge; the
    callbacks of [src/cam-app/src/MqttSubscriber.cpp] that keep the connection
    to the broker; and the two processes together, with the bus between them.
    Opening the data base, the log and the socket is not modelled. *)

From stdpp Require Import gmap.
From S2P Require Import Prelude SnowFlake Ini Wiring Printf Proto Insert.
From S2P Require Import CamInsert CamCorrect CamTcp CamFusion.
Import Ini Insert Proto CamInsert CamFusion.

Module CamStart.

(** ** Settings *)

Section Config.
Context (values : gmap str str).

Definition GetInt (section name : str) (d : Z) : Z := Wiring.to_int (GetInteger values section name d).

Definition location : str := GetString values $"base" $"location" [].

(** src/cam-app/src/CamService.cpp:60-75, [main]. With the assignments at
    105-118. *)
Definition load_nodeInfo : NodeInfo := {|
  nodeId_ := GetString values $"base" $"node_id" [];
  camType_ := GetInt $"mec" $"type" 1;
  camVer_ := GetString values $"mec" $"version" $"01";
  deviceId_ := GetString values $"mec" $"device_id" [];
  mapDevId_ := GetString values $"mec" $"map_dev_id" [];
  sceneType_ := GetInt $"mec" $"scene_type" 0;
  lat_ := GetInt $"mec" $"lat" 0;
  lon_ := GetInt $"mec" $"lon" 0;
  ele_ := GetInt $"mec" $"ele" 0;
|}.

(** src/cam-app/src/CamService.cpp:67-67, [main]. *)
Definition camTopic : str :=
  GetString values $"route" $"cam_topic"
    $"memory/shuangzhi/v2x/edge/000000000000/comprehensive/camdata/up".

(** src/cam-app/dds/TopicInfo.h:5-51, [TopicInfo]. What the camera topic uses. *)
Record TopicInfo := mkTopic {
  needReply_ : bool;
  topic_ : str;
  monNodeId_ : str;
  machineId_ : Z;
  datacenterId_ : Z;
}.

(** src/cam-app/src/CamService.cpp:141-149, [main]. *)
Definition recvCam : TopicInfo :=
  mkTopic true camTopic [] (GetInt $"gid" $"machine_id" 1) (GetInt $"gid" $"datacenter_id" 1).

(** src/cam-app/src/CamService.cpp:151-157, [main]. The two ids are members
    without a value: whatever [memory] holds. *)
Definition sendCam (memory : Z * Z) : TopicInfo := mkTopic false camTopic [] memory.1 memory.2.

(** src/cam-app/src/MqttThreadClass.h:9-18, [MQTTCONF]. *)
Record MQTTCONF := mkMqtt {
  mqttAddr : str;
  clientId : str;
  sessionFlag : bool;
  user : str;
  pwd : str;
  subTopic : str;
}.

(** src/cam-app/src/CamService.cpp:90-97, [main]. With the assignments at
    160-166. *)
Definition mqttSubConf : MQTTCONF := {|
  mqttAddr := GetString values $"mqtt_sub" $"address" $"tcp://localhost:1883";
  clientId := GetString values $"mqtt_sub" $"sub_client_id" $"test1";
  sessionFlag := GetBoolean values $"mqtt_sub" $"cleansession" true;
  user := GetString values $"mqtt_sub" $"namename" $"admin";
  pwd := GetString values $"mqtt_sub" $"password" $"public";
  subTopic := GetString values $"mqtt_sub" $"cam_topic" $"hello";
|}.

(** ** What is started *)

Inductive part :=
  | CloudReader (t : TopicInfo) (g_sf_ : SnowFlake.t)
  | EdgeWriter (t : TopicInfo) (g_sf_ : SnowFlake.t)
  | MqttSub (conf : MQTTCONF)
  | TcpServer (ip : str) (port : Z).

(** src/cam-app/src/CamTopic.cpp:609-613, [CamTopic::CamTopic]. [None]: the
    generator ends the process. *)
Definition new_CamTopic (t : TopicInfo) : option SnowFlake.t :=
  SnowFlake.new (datacenterId_ t) (machineId_ t).

(** src/cam-app/src/CamService.cpp:167-193, [main]. *)
Definition start_parts (memory : Z * Z) : option (list part) :=
  if bool_decide (location = $"mgr") then
    sf ← new_CamTopic recvCam; Some [CloudReader recvCam sf]
  else
    let mqtt := if 0 <? GetInt $"mqtt_sub" $"recv_flag" 0 then [MqttSub mqttSubConf] else [] in
    sf ← new_CamTopic (sendCam memory);
    Some (mqtt ++ [EdgeWriter (sendCam memory) sf;
                   TcpServer (GetString values $"tcp" $"address" $"127.0.0.1") (GetInt $"tcp" $"port" 18089)]).

End Config.

(** How [main] goes: it returns -1, [exit(0)] is called, or it runs. *)
Inductive course := NoConfig | Exited | Running (parts : list part).

Definition settings (file : option str) : gmap str str := (INIReader_file file).2.

(** src/cam-app/src/CamService.cpp:36-202, [main]. The file named on the
    command line. *)
Definition main (file : option str) (memory : Z * Z) : course :=
  if (INIReader_file file).1 <? 0 then NoConfig
  else match start_parts (settings file) memory with
       | None => Exited
       | Some parts => Running parts
       end.

(** ** The connection to the broker *)

(** The client and its callback: what is subscribed to and how often [connect]
    and [subscribe] were called. *)
Record callback := mkCallback {
  topic_list : list str;
  nretry_ : Z;
  connects : nat;
  subscribes : list str;
}.

(** src/cam-app/utils/common.h:17-17, [N_RETRY_ATTEMPTS]. *)
Definition N_RETRY_ATTEMPTS : Z := 5.

(** src/cam-app/src/MqttThreadClass.cpp:20-41, [MqttThreadClass::mqtt_sub_work]. *)
Definition mqtt_sub_work (conf : MQTTCONF) : callback := mkCallback [subTopic conf] 0 1 [].

(** src/cam-app/src/MqttSubscriber.cpp:32-46, [callback::reconnection]. An
    exception is logged. *)
Definition reconnection (c : callback) : callback :=
  mkCallback (topic_list c) (nretry_ c) (S (connects c)) (subscribes c).

(** src/cam-app/src/MqttSubscriber.cpp:48-55, [callback::on_failure]. *)
Definition on_failure (c : callback) : callback :=
  let n := nretry_ c + 1 in
  reconnection (mkCallback (topic_list c) (if N_RETRY_ATTEMPTS <? n then 0 else n) (connects c) (subscribes c)).

(** src/cam-app/src/MqttSubscriber.cpp:57-67, [callback::connected]. *)
Definition connected (c : callback) : callback :=
  mkCallback (topic_list c) (nretry_ c) (connects c) (subscribes c ++ topic_list c).

(** src/cam-app/src/MqttSubscriber.cpp:69-78, [callback::connection_lost]. *)
Definition connection_lost (c : callback) : callback :=
  reconnection (mkCallback (topic_list c) 0 (connects c) (subscribes c)).

Inductive mqtt_event := Connected | Failed | Lost.
#[export] Instance mqtt_event_eq_dec : EqDecision mqtt_event.
Proof. solve_decision. Defined.

Definition mqtt_step (c : callback) (e : mqtt_event) : callback :=
  match e with Connected => connected c | Failed => on_failure c | Lost => connection_lost c end.

(** ** The two processes *)

Section System.
Context {E : Type} `{!Gen E} (parseCam parseCamData : str -> msg).

(** The samples that come in, one after the other, each with what [rand] gives. *)
Fixpoint handle_all (l : list (Z * str)) : M E () :=
  match l with
  | [] => mret ()
  | (rand, sample) :: l' => _ ← handle_node parseCam parseCamData rand sample; handle_all l'
  end.

(** Storing messages as they are. *)
Fixpoint store_all (l : list (Z * msg)) : M E () :=
  match l with
  | [] => mret ()
  | (rand, cam) :: l' => _ ← camInsert rand cam; store_all l'
  end.

End System.

(** The keys a process publishes on, and those it listens to. *)
Definition publishes (ps : list part) : list str :=
  omap (fun p => match p with EdgeWriter t _ => Some (topic_ t) | _ => None end) ps.
Definition listens (ps : list part) : list str :=
  omap (fun p => match p with CloudReader t _ => Some (topic_ t) | _ => None end) ps.

(** What comes in at [to] of what [from] publishes. *)
Definition bus (from to : list part) (samples : list str) : list str :=
  if existsb (fun k => bool_decide (k ∈ listens to)) (publishes from) then samples else [].

(** The generator of the process in the cloud. *)
Definition generator (ps : list part) : option SnowFlake.t :=
  head (omap (fun p => match p with CloudReader _ sf => Some sf | _ => None end) ps).

(** ** Lemmas *)

Lemma handle_all_carries {E} `{!Gen E} (parseCam parseCamData : str -> msg)
    (serializeCamData serializeCam : msg -> str) info mon (kept : list msg) (samples : list str) rands :
  (forall m, text (parseCam (serializeCam m ++ [nul])) "data" = text m "data") ->
  (forall cam, cam ∈ kept -> parseCamData (serializeCamData cam) = cam) ->
  Forall2 (carries info mon serializeCamData serializeCam) kept samples ->
  length rands = length kept ->
  forall s : st E, handle_all parseCam parseCamData (zip rands samples) s = store_all (zip rands kept) s.
Proof.
  intros Hcam Hdata Hall. revert rands.
  induction Hall as [|cam x kept samples (id & now & ->) Hall IH]; intros [|r rands] Hlen s; try done.
  cbn [zip zip_with handle_all store_all]. unfold handle_node. unfold send_cam. rewrite Hcam.
  change (text (cam_message _ _ _ _ _ cam) "data") with (serializeCamData cam).
  rewrite Hdata by constructor. cbv [mbind M_bind]. destruct (camInsert r cam s) as [[[]|e] s']; [|done].
  apply IH; [|simpl in Hlen; lia]. intros. apply Hdata. by constructor.
Qed.

Lemma running file memory ps :
  main file memory = Running ps -> start_parts (settings file) memory = Some ps.
Proof. unfold main. destruct (_ <? 0); [done|]. destruct (start_parts _ _); [|done]. by intros [= ->]. Qed.

Lemma cloud_parts values memory ps :
  location values = $"mgr" -> start_parts values memory = Some ps ->
  exists sf, new_CamTopic (recvCam values) = Some sf /\ ps = [CloudReader (recvCam values) sf].
Proof.
  intros Hl. unfold start_parts. rewrite bool_decide_true by done.
  destruct (new_CamTopic _) as [sf|]; [|done]. intros [= <-]. by exists sf.
Qed.

Lemma edge_publishes values memory ps :
  location values <> $"mgr" -> start_parts values memory = Some ps ->
  publishes ps = [camTopic values].
Proof.
  intros Hl. unfold start_parts. rewrite bool_decide_false by done. cbv zeta.
  destruct (new_CamTopic _) as [sf|]; [|done]. intros [= <-]. by destruct (_ <? _).
Qed.

(** ** Theorems *)

(** The edge starts or not by chance: [exit(0)] is called, without a word,
    unless the two ids that [main] leaves unset happen to be less than 32. The
    settings for them are read, and used in the cloud only. *)
Theorem edge_start_by_chance file machine datacenter :
  0 <= (INIReader_file file).1 -> location (settings file) <> $"mgr" ->
  - 2 ^ 31 <= machine < 2 ^ 31 -> - 2 ^ 31 <= datacenter < 2 ^ 31 ->
  main file (machine, datacenter) = Exited <-> ~ (0 <= machine < 32 /\ 0 <= datacenter < 32).
Proof.
  intros He Hl Hm Hd. unfold main. destruct (Z.ltb_spec (INIReader_file file).1 0); [lia|]. unfold start_parts.
  rewrite bool_decide_false by done. unfold new_CamTopic, sendCam.
  cbn [datacenterId_ machineId_ fst snd]. unfold SnowFlake.new.
  change SnowFlake.max_datacenter_num_ with 31. change SnowFlake.max_machine_num_ with 31.
  assert (forall z, - 2 ^ 31 <= z < 2 ^ 31 ->
    (31 <? uwrap 64 z) || (z <? 0) = negb ((0 <=? z) && (z <? 32))) as Hz.
  { intros z Hz. destruct (Z.ltb_spec z 0); [by rewrite orb_true_r; destruct (Z.leb_spec 0 z); [lia|]|].
    rewrite uwrap_small by lia. lia. }
  rewrite !Hz by done.
  destruct ((0 <=? datacenter) && _) eqn:E1; cbn [negb option_bind mbind]; [|split; [lia|done]].
  destruct ((0 <=? machine) && _) eqn:E2; cbn [negb option_bind mbind]; [|split; [lia|done]].
  split; [done|lia].
Qed.

(** The number of attempts to connect to the broker is not bounded by
    [N_RETRY_ATTEMPTS]: there is one at the start and one for every failure and
    every loss, and after each connection the topic is subscribed to again. *)
Theorem mqtt_never_gives_up conf (es : list mqtt_event) :
  let c := foldl mqtt_step (mqtt_sub_work conf) es in
  connects c = (1 + length (filter (fun e => e <> Connected) es))%nat
  /\ subscribes c = replicate (length (filter (fun e => e = Connected) es)) (subTopic conf)
  /\ 0 <= nretry_ c <= N_RETRY_ATTEMPTS.
Proof.
  intros c. subst c.
  assert (let c := foldl mqtt_step (mqtt_sub_work conf) es in topic_list c = [subTopic conf] /\
    connects c = (1 + length (filter (fun e => e <> Connected) es))%nat
    /\ subscribes c = replicate (length (filter (fun e => e = Connected) es)) (subTopic conf)
    /\ 0 <= nretry_ c <= N_RETRY_ATTEMPTS) as H; [|by destruct H].
  induction es as [|e es IH] using rev_ind; [done|]. cbv zeta in *. rewrite foldl_app. cbn [foldl].
  destruct IH as (Ht & Hc & Hs & Hn). rewrite !filter_app, !length_app.
  destruct e; cbn [mqtt_step]; unfold connected, on_failure, connection_lost, reconnection;
    cbn [topic_list connects subscribes nretry_]; rewrite Ht, Hc, Hs;
    (split; [done|]); (split; [vm_compute length; lia|]);
    rewrite ?Nat.add_1_r, ?Nat.add_0_r, ?replicate_S_end; (split; [done|]); try lia.
  unfold N_RETRY_ATTEMPTS in *. destruct (Z.ltb_spec 5 (nretry_ (foldl mqtt_step (mqtt_sub_work conf) es) + 1)); lia.
Qed.


(** ** Examples *)

Definition file_of (ls : list string) : option str :=
  Some (concat (map (fun l => list_ascii_of_string l ++ [newline]) ls)).
Definition edge_ini : option str :=
  file_of ["[base]"; "node_id=edge-1"; "location=edge"; "[route]"; "cam_topic=cams"; "[gid]"; "machine_id=3"].
Definition cloud_ini : option str :=
  file_of ["[base]"; "location=mgr"; "[route]"; "cam_topic=cams"; "[gid]"; "machine_id=3"; "datacenter_id=2"].

Definition parts_of (c : course) : list part := match c with Running ps => ps | _ => [] end.

(** The settings for the ids do not matter at the edge. *)
Lemma edge_start_by_chance_witness :
  main edge_ini (3, 32766) = Exited <-> ~ (0 <= 3 < 32 /\ 0 <= 32766 < 32).
Proof. apply edge_start_by_chance; crunch. Defined.

(** Two messages from the broker; the publication of the first one throws. *)
Definition two_arrive : list event :=
  [Arrived $"v2x/cam" [] 9; PushOn Mqtt; Take; Put $"a" 8 true;
   Arrived $"v2x/cam" [] 9; Take; PushOn Mqtt; Put $"b" 10 false].


End CamStart.
