(* ===== verification/Monitor.v ===== *)
(** * Counting messages

    Every topic of the node counts what it sends and receives and publishes
    the counts from time to time ([src/dds/ZenohBase.h]); the monitor
    application stores them ([src/monitor-app/src/MonitorTopic.cpp]). The
    handlers count on their threads while another thread publishes, without a
    lock. So neither is one step here: a handler's call stores field after field,
    and adds to a counter by a load and a store; the thread tests, serialises,
    puts and clears. A serialisation in whose course a field is stored has no
    determined result ([Torn]). That a load or a store of one field is one step is
    an assumption: C++ leaves such races undefined. *)

From stdpp Require Import functions.
From S2P Require Import Prelude Printf Proto Insert.
Import Printf Proto Insert.

Module Monitor.

(** src/dds/monitor.proto:6-20, [TopicMonInfo]. *)
Record TopicMonInfo := mkMon {
  uuid : str;
  domain : Z;
  srcnodeid : str;
  tonodeid : str;
  topicname : str;
  cycle : Z;
  updatetime : Z;
  ncount : Z;
  nsize : Z;
  srctype : Z;
  progarmname : str;
}.

#[export] Instance TopicMonInfo_eq_dec : EqDecision TopicMonInfo.
Proof. solve_decision. Defined.

Definition no_info : TopicMonInfo := mkMon [] 0 [] [] [] 0 0 0 0 0 [].

(** src/dds/TopicInfo.h:5-47, [TopicInfo]. What the counting uses. *)
Record TopicInfo := mkTopic {
  topic_ : str;
  topicReply_ : str;
  nodeId_ : str;
  programName_ : str;
  domain_ : Z;
  monSendSleep_ : Z;
}.

(** The four infos, in the order they are published in. *)
Inductive slot := Pub | ReplyPub | Reader | ReplyReader.
#[export] Instance slot_eq_dec : EqDecision slot.
Proof. solve_decision. Defined.

(** src/dds/ZenohBase.h:278-291, [ZenohBase::startWriterMon]. Where the thread is:
    before the test of a slot, in [SerializeToArray] of an info that was [seen] at
    its start, before the [put], before [set_ncount(0)], before [set_nsize(0)]; or
    it has serialised an info that changed meanwhile. *)
Inductive place :=
  | At (k : slot)
  | Serialising (k : slot) (seen : TopicMonInfo)
  | Copied (k : slot) (info : TopicMonInfo)
  | Sent (k : slot) (info : TopicMonInfo)
  | CountCleared (k : slot) (info : TopicMonInfo)
  | Torn (k : slot).

(** The fields that are stored. *)
Inductive field :=
  | Uuid | Domain | Topicname | Cycle | Tonodeid | Srcnodeid | Updatetime | Nsize | Ncount | Srctype
  | Progarmname.

#[export] Instance field_eq_dec : EqDecision field.
Proof. solve_decision. Defined.

(** An access of a handler's call to the info of its slot. *)
Inductive access := Store (f : field) | Load (f : field).
#[export] Instance access_eq_dec : EqDecision access.
Proof. solve_decision. Defined.

(** A call under way: the slot, its data, the sum it has made, what it still does. *)
Record pending_call := mkCall { c_slot : slot; c_data : TopicMonInfo; c_sum : Z; c_todo : list access }.

(** The four infos. *)
Record four := mkFour { monPubInfo_ : TopicMonInfo; monReplyPubInfo_ : TopicMonInfo;
                        monReaderInfo_ : TopicMonInfo; monReplyReaderInfo_ : TopicMonInfo }.
Definition info_of (k : slot) (l : four) : TopicMonInfo :=
  match k with
  | Pub => monPubInfo_ l | ReplyPub => monReplyPubInfo_ l
  | Reader => monReaderInfo_ l | ReplyReader => monReplyReaderInfo_ l
  end.
Definition set_info (k : slot) (i : TopicMonInfo) (l : four) : four :=
  match k with
  | Pub => mkFour i (monReplyPubInfo_ l) (monReaderInfo_ l) (monReplyReaderInfo_ l)
  | ReplyPub => mkFour (monPubInfo_ l) i (monReaderInfo_ l) (monReplyReaderInfo_ l)
  | Reader => mkFour (monPubInfo_ l) (monReplyPubInfo_ l) i (monReplyReaderInfo_ l)
  | ReplyReader => mkFour (monPubInfo_ l) (monReplyPubInfo_ l) (monReaderInfo_ l) i
  end.

(** src/dds/ZenohBase.h:266-270, [ZenohBase]. With the calls under way; [published]
    says of each info which slot it is from. *)
Record base := mkBase {
  write_mon_publisher_ : bool;
  infos : four;
  calls : list pending_call;
  thread : place;
  published : list (slot * TopicMonInfo);
}.

Definition boot : base := mkBase false (mkFour no_info no_info no_info no_info) [] (At Pub) [].

(** [to] with field [f] as [from] has it. *)
Definition copy_field (f : field) (from to : TopicMonInfo) : TopicMonInfo :=
  let pick {A} (g : field) (get : TopicMonInfo -> A) : A :=
    match f, g with
    | Uuid, Uuid | Domain, Domain | Topicname, Topicname | Cycle, Cycle | Tonodeid, Tonodeid
    | Srcnodeid, Srcnodeid | Updatetime, Updatetime | Nsize, Nsize | Ncount, Ncount
    | Srctype, Srctype | Progarmname, Progarmname => get from
    | _, _ => get to
    end in
  mkMon (pick Uuid uuid) (pick Domain domain) (pick Srcnodeid srcnodeid) (pick Tonodeid tonodeid)
    (pick Topicname topicname) (pick Cycle cycle) (pick Updatetime updatetime) (pick Ncount ncount)
    (pick Nsize nsize) (pick Srctype srctype) (pick Progarmname progarmname).

(** What a call stores: its data, but the sum for the two counters. *)
Definition hand (c : pending_call) : TopicMonInfo :=
  let d := c_data c in
  mkMon (uuid d) (domain d) (srcnodeid d) (tonodeid d) (topicname d) (cycle d) (updatetime d)
    (c_sum c) (c_sum c) (srctype d) (progarmname d).

(** [info.nsize() + data->nsize()], and [info.ncount() + 1]. *)
Definition sum_of (f : field) (info data : TopicMonInfo) : Z :=
  match f with
  | Ncount => swrap 64 (ncount info + ncount data)
  | Nsize => swrap 64 (nsize info + nsize data)
  | _ => 0
  end.

(** src/dds/ZenohBase.h:152-263, [ZenohBase::write_mon_msg]. The accesses of the four
    functions, in their order: they differ in the info only. *)
Definition write_mon_msg : list access :=
  [Store Uuid; Store Domain; Store Topicname; Store Cycle; Store Tonodeid; Store Srcnodeid;
   Store Updatetime; Load Nsize; Store Nsize; Load Ncount; Store Ncount; Store Srctype;
   Store Progarmname].

(** One access: the info and the call behind it. *)
Definition call_step (a : access) (todo : list access) (info : TopicMonInfo) (c : pending_call)
    : TopicMonInfo * pending_call :=
  match a with
  | Store f => (copy_field f (hand c) info, mkCall (c_slot c) (c_data c) (c_sum c) todo)
  | Load f => (info, mkCall (c_slot c) (c_data c) (sum_of f info (c_data c)) todo)
  end.

Section Base.
Context (t : TopicInfo).

(** src/dds/ZenohBase.h:75-144, [ZenohBase::stat_writer_mon_data]. What the four
    functions make of their arguments, with what [write_mon_msg] stores instead:
    [peer] is the other node, [topic] the argument of the two for receiving, [now]
    the reading of the clock. *)
Definition mon_data (k : slot) (id topic peer : str) (length now : Z) : TopicMonInfo :=
  let sent := match k with Pub | ReplyPub => true | _ => false end in {|
  uuid := id;
  domain := domain_ t;
  topicname := match k with Pub => topic_ t | ReplyPub => topicReply_ t | _ => topic end;
  srcnodeid := if sent then nodeId_ t else peer;
  tonodeid := if sent then peer else nodeId_ t;
  cycle := monSendSleep_ t;
  updatetime := now;
  ncount := 1;
  nsize := length;
  srctype := if sent then 1 else 2;
  progarmname := programName_ t;
|}.

(** src/dds/ZenohBase.h:75-144, [ZenohBase::stat_writer_mon_data]. A call begins. *)
Definition begin_stat (k : slot) (id topic peer : str) (length now : Z) (s : base) : base :=
  if 0 <? length then
    mkBase (write_mon_publisher_ s) (infos s)
      (calls s ++ [mkCall k (mon_data k id topic peer length now) 0 write_mon_msg]) (thread s) (published s)
  else s.

(** src/dds/ZenohBase.h:163-177, [ZenohBase::write_mon_msg]. The next access of call
    [n]. *)
Definition access_step (n : nat) (s : base) : base :=
  match calls s !! n with
  | Some c =>
      match c_todo c with
      | [] => s
      | a :: todo =>
          let '(info, c') := call_step a todo (info_of (c_slot c) (infos s)) c in
          mkBase (write_mon_publisher_ s) (set_info (c_slot c) info (infos s))
            (match todo with [] => delete n (calls s) | _ => <[n := c']> (calls s) end)
            (thread s) (published s)
      end
  | None => s
  end.

(** src/dds/ZenohBase.h:63-71, [ZenohBase::create_writer_mon_pub]. *)
Definition create_writer_mon_pub (s : base) : base :=
  mkBase true (infos s) (calls s) (thread s) (published s).

(** The slot that comes next; after the last the thread sleeps. *)
Definition following (k : slot) : slot :=
  match k with Pub => ReplyPub | ReplyPub => Reader | Reader => ReplyReader | ReplyReader => Pub end.

(** src/dds/ZenohBase.h:278-321, [ZenohBase::startWriterMon]. A step of the
    thread; [thrown]: [put] throws, and the turn is over. The same lines for
    every slot. *)
Definition monitor (thrown : bool) (s : base) : base :=
  let go p := mkBase (write_mon_publisher_ s) (infos s) (calls s) p (published s) in
  match thread s with
  | At k =>
      if negb (write_mon_publisher_ s) then go (At Pub)
      else if 0 <? ncount (info_of k (infos s)) then go (Serialising k (info_of k (infos s)))
      else go (At (following k))
  | Serialising k seen => go (if decide (info_of k (infos s) = seen) then Copied k seen else Torn k)
  | Copied k info =>
      if thrown then go (At Pub)
      else mkBase (write_mon_publisher_ s) (infos s) (calls s) (Sent k info) (published s ++ [(k, info)])
  | Sent k info =>
      mkBase (write_mon_publisher_ s)
        (set_info k (copy_field Ncount no_info (info_of k (infos s))) (infos s)) (calls s)
        (CountCleared k info) (published s)
  | CountCleared k _ =>
      mkBase (write_mon_publisher_ s)
        (set_info k (copy_field Nsize no_info (info_of k (infos s))) (infos s)) (calls s)
        (At (following k)) (published s)
  | Torn _ => s
  end.

Inductive event :=
  | Stat (k : slot) (id topic peer : str) (length now : Z)
  | Access (n : nat)
  | Create
  | Monitor (thrown : bool).

Definition step (s : base) (e : event) : base :=
  match e with
  | Stat k id topic peer length now => begin_stat k id topic peer length now s
  | Access n => access_step n s
  | Create => create_writer_mon_pub s
  | Monitor thrown => monitor thrown s
  end.

Definition run (s : base) (es : list event) : base := foldl step s es.

(** A call that nothing comes between: all its accesses, one after the other. *)
Definition alone (k : slot) (id topic peer : str) (length now : Z) (n : nat) : list event :=
  Stat k id topic peer length now :: replicate 13 (Access n).
Definition stat (k : slot) (id topic peer : str) (len now : Z) (s : base) : base :=
  if 0 <? len then run s (alone k id topic peer len now (length (calls s))) else s.

(** ** What is counted *)

(** A counter: the messages, or their bytes. *)
Inductive meter := Messages | Bytes.
Definition amount (m : meter) (i : TopicMonInfo) : Z :=
  match m with Messages => ncount i | Bytes => nsize i end.

(** What an event counts in the slot. *)
Definition counts (m : meter) (k : slot) (e : event) : Z :=
  match e with
  | Stat k' _ _ _ length _ =>
      if decide (k' = k) then
        if 0 <? length then match m with Messages => 1 | Bytes => length end else 0
      else 0
  | _ => 0
  end.
Definition counted (m : meter) (k : slot) (es : list event) : Z :=
  foldr (fun e n => counts m k e + n) 0 es.

(** What has been published for a slot. *)
Definition total (m : meter) (k : slot) (l : list (slot * TopicMonInfo)) : Z :=
  foldr (fun x n => (if decide (x.1 = k) then amount m x.2 else 0) + n) 0 l.

(** What of the slot's counter has been published already, but is not yet cleared. *)
Definition in_flight (m : meter) (k : slot) (s : base) : Z :=
  match thread s, m with
  | Sent k' i, _ => if decide (k' = k) then amount m i else 0
  | CountCleared k' i, Bytes => if decide (k' = k) then nsize i else 0
  | _, _ => 0
  end.
Definition waiting (m : meter) (k : slot) (s : base) : Z := amount m (info_of k (infos s)) - in_flight m k s.

(** What the calls under way have not yet stored. *)
Definition meter_field (m : meter) : field := match m with Messages => Ncount | Bytes => Nsize end.
Definition stores (m : meter) (a : access) : bool :=
  match a, m with Store Ncount, Messages | Store Nsize, Bytes => true | _, _ => false end.
Definition unstored_of (m : meter) (c : pending_call) : Z :=
  if existsb (stores m) (c_todo c) then amount m (c_data c) else 0.
Definition calls_on (k : slot) (s : base) : list pending_call := filter (fun c => c_slot c = k) (calls s).
Definition unstored (m : meter) (k : slot) (s : base) : Z :=
  foldr (fun c n => unstored_of m c + n) 0 (calls_on k s).

(** The thread is between testing the slot and clearing it. *)
Definition busy (k : slot) (s : base) : bool :=
  match thread s with
  | At _ => false
  | Serialising k' _ | Copied k' _ | Sent k' _ | CountCleared k' _ | Torn k' => bool_decide (k' = k)
  end.

(** Two of those who use the slot are at it at the same time. *)
Definition clash (k : slot) (s : base) : bool :=
  match calls_on k s with [] => false | [_] => busy k s | _ => true end.

(** They never are, from [s] on. *)
Fixpoint calm (k : slot) (s : base) (es : list event) : bool :=
  negb (clash k s) && match es with [] => true | e :: es' => calm k (step s e) es' end.

End Base.

(** ** The monitor application *)

Section App.
Context {E : Type} `{!Gen E}.

(** src/monitor-app/src/MonitorTopic.cpp:93-113, [MonitorTopic::insert_mon]. *)
Definition insert_mon (m : TopicMonInfo) : M E () :=
  monInfoSql ← sprintf 4096
    (lines ["insert into `topic_mon_info`(`uuid`,`domain`,`src_node_id`,";
            "	`to_node_id`,`topic_name`,`cycle`,`n_count`,";
            "	`n_size`,`src_type`,`program_name`)";
            "	VALUES";
            "	('%s', %d, '%s',";
            "	'%s', '%s', %ld, %ld,";
            "	%ld, %d,'%s');"])
    [P (uuid m); D (domain m); P (srcnodeid m); P (tonodeid m); P (topicname m);
     L (cycle m); L (ncount m); L (nsize m); D (srctype m); P (progarmname m)];
  excute monInfoSql.

(** src/monitor-app/src/MonitorTopic.cpp:73-87, [MonitorTopic::handle_mon].
    [parse] is [ParsePartialFromArray]. *)
Definition handle_mon (parse : str -> TopicMonInfo) (sample : str) : M E () :=
  insert_mon (parse sample).

End App.

(** ** Lemmas *)

Lemma run_keeps_publisher t es : forall s,
  Forall (fun e => match e with Stat _ _ _ _ _ _ | Access _ => True | _ => False end) es ->
  write_mon_publisher_ (run t s es) = write_mon_publisher_ s.
Proof.
  induction es as [|e es IH]; intros s He; [done|]. apply Forall_cons in He as [He Hes].
  unfold run in *. cbn [foldl]. rewrite IH by done. destruct e; try done; cbn [step].
  - unfold begin_stat. by case_match.
  - unfold access_step. destruct (calls s !! n) as [c|]; [|done]. destruct (c_todo c) as [|a l]; [done|].
    by destruct (call_step _ _ _ _).
Qed.

Lemma stat_keeps_publisher t k id topic peer len now s :
  write_mon_publisher_ (stat t k id topic peer len now s) = write_mon_publisher_ s.
Proof.
  unfold stat, alone. case_match; [|done]. apply run_keeps_publisher. constructor; [done|].
  by apply Forall_replicate.
Qed.

Lemma info_set k k' i l : info_of k (set_info k' i l) = if decide (k' = k) then i else info_of k l.
Proof. case_decide as H; destruct k, k'; done. Qed.

Lemma total_app m k l x :
  total m k (l ++ [x]) = total m k l + (if decide (x.1 = k) then amount m x.2 else 0).
Proof. induction l as [|y l IH]; simpl; [lia|]. rewrite IH. lia. Qed.

Lemma calls_on_update k (l : list pending_call) n c :
  l !! n = Some c -> exists a b,
    filter (fun c => c_slot c = k) l = a ++ filter (fun c => c_slot c = k) [c] ++ b /\
    (forall c', filter (fun c => c_slot c = k) (<[n := c']> l) = a ++ filter (fun c => c_slot c = k) [c'] ++ b) /\
    filter (fun c => c_slot c = k) (delete n l) = a ++ b.
Proof.
  intros H. exists (filter (fun c => c_slot c = k) (take n l)), (filter (fun c => c_slot c = k) (drop (S n) l)).
  split; [|split].
  - rewrite <- !filter_app. f_equal. symmetry. by apply take_drop_middle.
  - intros c'. rewrite <- !filter_app. f_equal. apply insert_take_drop. by eapply lookup_lt_Some.
  - rewrite <- filter_app. by rewrite delete_take_drop.
Qed.

(** A call is somewhere in its accesses, and its sum is right between load and store. *)
Record call_ok (m : meter) (info : TopicMonInfo) (c : pending_call) : Prop := mkCallOk {
  call_at : exists pc, (pc < 13)%nat /\ c_todo c = drop pc write_mon_msg;
  call_sum : head (c_todo c) = Some (Store (meter_field m)) -> c_sum c = amount m info + amount m (c_data c);
  call_pos : 0 <= amount m (c_data c);
}.

(** The counter of a slot, after [n]. *)
Record inv (m : meter) (k : slot) (n : Z) (s : base) : Prop := mkInv {
  inv_pos : 0 <= amount m (info_of k (infos s)) /\ 0 <= total m k (published s);
  inv_call : match calls_on k s with [] => True | [c] => call_ok m (info_of k (infos s)) c | _ => False end;
  inv_thread : match thread s with
               | At _ => True
               | Serialising k' i | Copied k' i | Sent k' i => k' = k -> i = info_of k (infos s)
               | CountCleared k' i => k' = k ->
                   nsize i = nsize (info_of k (infos s)) /\ ncount (info_of k (infos s)) = 0
               | Torn k' => k' <> k
               end;
  inv_sum : total m k (published s) + waiting m k s + unstored m k s = n;
}.

Lemma in_flight_idle m k s : busy k s = false -> in_flight m k s = 0.
Proof.
  unfold busy, in_flight. destruct (thread s), m; try done; intros H%bool_decide_eq_false;
    by rewrite decide_False.
Qed.

Lemma inv_thread_idle k s :
  busy k s = false ->
  forall info,
  match thread s with
  | At _ => True
  | Serialising k' i | Copied k' i | Sent k' i => k' = k -> i = info
  | CountCleared k' i => k' = k -> nsize i = nsize info /\ ncount info = 0
  | Torn k' => k' <> k
  end.
Proof.
  unfold busy. intros H info. destruct (thread s); try done; by apply bool_decide_eq_false in H.
Qed.

Lemma begin_inv t m k n s k' id topic peer len now :
  inv m k n s -> clash k (begin_stat t k' id topic peer len now s) = false ->
  inv m k (n + counts m k (Stat k' id topic peer len now)) (begin_stat t k' id topic peer len now s).
Proof.
  unfold begin_stat, counts. destruct (Z.ltb_spec 0 len) as [Hl|Hl];
    [|intros Hi _; case_decide; by rewrite Z.add_0_r].
  intros [Hp Hc Ht Hs] Hcl. set (c := mkCall _ _ _ _) in *.
  assert (forall b x th l, calls_on k (mkBase b x (calls s ++ [c]) th l)
    = calls_on k s ++ if decide (k' = k) then [c] else []) as Hon.
  { intros. unfold calls_on. cbn [calls]. by rewrite filter_app, filter_cons, filter_nil. }
  unfold clash in Hcl. rewrite Hon in Hcl. case_decide as Hk.
  - subst k'. destruct (calls_on k s) as [|x [|y r]] eqn:E; [|done|done].
    change (busy k s = false) in Hcl. constructor; rewrite ?Hon; cbn [infos thread published app]; try done.
    + constructor; [exists 0%nat; split; [lia|done]|by destruct m|destruct m; simpl; lia].
    + unfold waiting, unstored, in_flight in *. rewrite Hon. rewrite E in Hs. cbn [infos thread published app].
      cbn [foldr] in *. assert (unstored_of m c = match m with Messages => 1 | Bytes => len end) as ->
        by (destruct m; vm_compute; reflexivity).
      lia.
  - rewrite app_nil_r in Hcl. rewrite Z.add_0_r. constructor; rewrite ?Hon, ?app_nil_r; try done.
    unfold waiting, unstored in *. by rewrite Hon, app_nil_r.
Qed.

(** An access keeps what is stored and what is not together. *)
Lemma call_step_ok m info c a todo :
  call_ok m info c -> c_todo c = a :: todo -> 0 <= amount m info ->
  amount m info + unstored_of m c < 2 ^ 63 ->
  let '(info', c') := call_step a todo info c in
  0 <= amount m info' /\
  match todo with
  | [] => amount m info' = amount m info + unstored_of m c
  | _ => call_ok m info' c' /\ amount m info' + unstored_of m c' = amount m info + unstored_of m c
  end.
Proof.
  destruct c as [k d sum l]. intros [(pc & Hpc & Hl) Hsum Hpos] Ha H0 Hlt. simpl in *. subst l.
  unfold unstored_of. simpl.
  assert (forall x, 0 <= x < 2 ^ 63 -> swrap 64 x = x) as Hw by (intros; apply swrap_small; lia).
  assert (todo <> [] -> exists pc', (pc' < 13)%nat /\ todo = drop pc' write_mon_msg) as Hat.
  { intros Hne. exists (S pc). assert (drop (S pc) write_mon_msg = todo) as E.
    { rewrite <- Nat.add_1_r, <- drop_drop, Ha. done. }
    split; [|done]. destruct (decide (S pc < 13)%nat); [done|]. exfalso. apply Hne.
    rewrite <- E. apply drop_ge. simpl. lia. }
  destruct pc as [|[|[|[|[|[|[|[|[|[|[|[|[|pc]]]]]]]]]]]]]; [..|lia]; injection Ha as <- <-;
    destruct m; cbn in *; try (specialize (Hsum eq_refl)); rewrite ?Hw by lia;
    (split; [lia|]); try lia;
    (split; [constructor; [by apply Hat|simpl; done|simpl; lia]|lia]).
Qed.

Lemma unstored_pos m info c : call_ok m info c -> 0 <= unstored_of m c <= amount m (c_data c).
Proof. intros [_ _ Hp]. unfold unstored_of. case_match; lia. Qed.

Lemma access_inv m k n i s :
  inv m k n s -> clash k s = false -> n < 2 ^ 63 -> inv m k n (access_step i s).
Proof.
  intros [Hp Hc Ht Hs] Hcl Hn. unfold access_step.
  destruct (calls s !! i) as [c|] eqn:Ei; [|by constructor].
  destruct (calls_on_update k _ _ _ Ei) as (a & b & E1 & E2 & E3).
  destruct (c_todo c) as [|x todo] eqn:Etodo; [by constructor|].
  destruct (call_step x todo (info_of (c_slot c) (infos s)) c) as [info' c'] eqn:Estep.
  assert (c_slot c' = c_slot c) as Hslot by (destruct x; by injection Estep as _ <-).
  assert (forall pub inf th l, calls_on k (mkBase pub inf
      (match todo with [] => delete i (calls s) | _ => <[i := c']> (calls s) end) th l)
    = a ++ (if decide (c_slot c = k) then match todo with [] => [] | _ => [c'] end else []) ++ b) as Hon.
  { intros. unfold calls_on. cbn [calls].
    destruct todo; [rewrite E3; by case_decide|].
    rewrite E2, filter_cons, filter_nil, Hslot. by case_decide. }
  fold (calls_on k s) in E1. rewrite filter_cons, filter_nil in E1.
  destruct (decide (c_slot c = k)) as [Hk|Hk].
  - unfold clash in Hcl. rewrite E1 in Hcl, Hc. rewrite Hk in *.
    assert (a = [] /\ b = []) as [-> ->] by (destruct a as [|? [|]], b; try done).
    cbn [app] in *. assert (in_flight m k s = 0) as Hf by (by apply in_flight_idle).
    unfold waiting, unstored in Hs. rewrite E1, Hf in Hs. cbn [foldr] in Hs.
    pose proof (call_step_ok m _ c x todo Hc Etodo (proj1 Hp) ltac:(lia)) as Hok. rewrite Estep in Hok.
    destruct Hok as [H0 Hok]. constructor; rewrite ?Hon; cbn [infos thread published app];
      rewrite ?info_set, ?decide_True by done; [by split; [|apply Hp]|by destruct todo; [|apply Hok]|by apply inv_thread_idle|].
    unfold waiting, unstored. rewrite Hon. unfold in_flight in *. cbn [infos thread published app].
    rewrite info_set, decide_True, Hf by done. destruct todo; cbn [foldr app]; lia.
  - assert (info_of k (set_info (c_slot c) info' (infos s)) = info_of k (infos s)) as Hi
      by (by rewrite info_set, decide_False).
    constructor; rewrite ?Hon; cbn [infos thread published app]; rewrite ?Hi; try done.
    + cbn [app] in E1. by rewrite <- E1.
    + unfold waiting, unstored, in_flight in *. rewrite Hon. cbn [infos thread published app] in *.
      by rewrite Hi, <- E1.
Qed.

Lemma monitor_inv m k n th s :
  inv m k n s -> clash k s = false -> inv m k n (monitor th s).
Proof.
  intros Hi0 Hcl. pose proof Hi0 as [Hp Hc Ht Hs]. unfold waiting, unstored, in_flight, calls_on, monitor in *.
  destruct (thread s) as [k'|k' i|k' i|k' i|k' i|k'] eqn:Eth.
  - destruct (negb _); [|destruct (0 <? _)]; constructor; cbn; try done; by intros ->.
  - case_decide as Hd; constructor; cbn; try done. intros ->. by rewrite Ht in Hd.
  - destruct th; constructor; unfold waiting, unstored, in_flight, calls_on;
      cbn [published infos thread calls]; try done; rewrite total_app; cbn [fst snd];
      (case_decide; [subst k'; rewrite Ht by done|]); lia.
  - assert (k' = k -> calls_on k s = []) as Hcase.
    { intros ->. unfold clash, busy in Hcl. rewrite Eth, bool_decide_true in Hcl by done.
      by destruct (calls_on k s) as [|? []]. }
    unfold calls_on in Hcase. case_decide as Hk.
    + specialize (Hcase Hk). subst k'. specialize (Ht eq_refl). subst i. rewrite Hcase in *.
      constructor; unfold waiting, unstored, in_flight, calls_on; cbn [published infos thread calls];
        rewrite ?info_set, ?Hcase, ?decide_True by done.
      * destruct m; simpl in *; lia.
      * done.
      * done.
      * destruct m; simpl in *; lia.
    + assert (info_of k (set_info k' (copy_field Ncount no_info (info_of k' (infos s))) (infos s))
              = info_of k (infos s)) as Hi by (by rewrite info_set, decide_False).
      constructor; unfold waiting, unstored, in_flight, calls_on; cbn [published infos thread calls];
        rewrite ?Hi; try done. destruct m; [done|]. by rewrite decide_False.
  - assert (k' = k -> calls_on k s = []) as Hcase.
    { intros ->. unfold clash, busy in Hcl. rewrite Eth, bool_decide_true in Hcl by done.
      by destruct (calls_on k s) as [|? []]. }
    unfold calls_on in Hcase. destruct (decide (k' = k)) as [Hk|Hk].
    + specialize (Hcase Hk). subst k'. destruct (Ht eq_refl) as [Hz H0]. rewrite Hcase in *.
      constructor; unfold waiting, unstored, in_flight, calls_on; cbn [published infos thread calls];
        rewrite ?info_set, ?Hcase, ?decide_True by done.
      * destruct m; simpl in *; lia.
      * done.
      * done.
      * destruct m; simpl in *; lia.
    + assert (info_of k (set_info k' (copy_field Nsize no_info (info_of k' (infos s))) (infos s))
              = info_of k (infos s)) as Hi by (by rewrite info_set, decide_False).
      constructor; unfold waiting, unstored, in_flight, calls_on; cbn [published infos thread calls];
        rewrite ?Hi; try done. destruct m; lia.
  - exact Hi0.
Qed.

Lemma create_inv m k n s : inv m k n s -> inv m k n (create_writer_mon_pub s).
Proof. intros []. by constructor. Qed.

Lemma counted_nonneg m k es : 0 <= counted m k es.
Proof.
  induction es as [|e es IH]; [done|]. cbn [counted foldr]. fold (counted m k es).
  enough (0 <= counts m k e) by lia. destruct e; cbn; try lia.
  case_decide; [|lia]. destruct (Z.ltb_spec 0 length), m; lia.
Qed.

Lemma run_inv t m k es : forall n s,
  inv m k n s -> calm t k s es = true -> n + counted m k es < 2 ^ 63 ->
  inv m k (n + counted m k es) (run t s es).
Proof.
  induction es as [|e es IH]; intros n s Hi Hc Hn; cbn [calm counted foldr] in *.
  - by rewrite Z.add_0_r.
  - fold (counted m k es) in *. apply andb_true_iff in Hc as [Hc1%negb_true_iff Hc2].
    pose proof (counted_nonneg m k es).
    assert (clash k (step t s e) = false) as Hc3.
    { destruct es; cbn [calm] in Hc2; apply andb_true_iff in Hc2 as [Hc2%negb_true_iff _]; done. }
    rewrite Z.add_assoc. apply IH; [|done|lia].
    destruct e as [k' id topic peer len now|i| |th]; cbn [step].
    + by apply begin_inv.
    + cbn [counts]. rewrite Z.add_0_r. cbn [counts] in Hn. apply access_inv; [done|done|lia].
    + rewrite Z.add_0_r. by apply create_inv.
    + rewrite Z.add_0_r. by apply monitor_inv.
Qed.

Lemma boot_inv m k : inv m k 0 boot.
Proof. by constructor; destruct m, k. Qed.

(** ** The theorems *)

(** C22. As long as two of those who use a slot are never at it at the same time (two
    calls that count, or a call and the thread between testing and clearing), every
    message and every byte is accounted for, step by step: what has been
    published for the slot, what waits in it and what a call under way has not
    stored yet come to what was counted, in messages and in bytes, whatever [put]
    throws, and no serialisation is torn. When two are at it, this is lost in
    every way: see [counted_twice], [count_lost] and [calls_overwrite]. *)
Theorem counts_account (t : TopicInfo) (m : meter) (k : slot) (es : list event) :
  calm t k boot es = true -> counted m k es < 2 ^ 63 ->
  let s := run t boot es in
  total m k (published s) + waiting m k s + unstored m k s = counted m k es /\ thread s <> Torn k.
Proof.
  intros Hc Hn s. destruct (run_inv t m k es 0 boot (boot_inv m k) Hc ltac:(lia)) as [_ _ Ht Hs].
  split; [exact Hs|]. intros E. fold s in Ht. by rewrite E in Ht.
Qed.

Definition a_topic : TopicInfo := mkTopic $"node/cmd" $"node/reply" $"edge-1" $"node" 1 60.
(** A call that nothing comes between, and the four steps in which the thread
    serialises, puts and clears, after its test. *)
Definition a_stat (peer : str) : list event := alone Pub $"id" [] peer 100 7 0.
Definition a_turn : list event := replicate 5 (Monitor false).

Lemma counts_account_witness :
  let es := Create :: a_stat $"a" ++ a_stat $"b" ++ a_turn ++ a_stat $"a" in
  let s := run a_topic boot es in
  map (fun x => (ncount x.2, nsize x.2)) (published s) = [(2, 200)] /\
  total Messages Pub (published s) + waiting Messages Pub s + unstored Messages Pub s = counted Messages Pub es
  /\ thread s <> Torn Pub.
Proof.
  intros es s. split; [vm_compute; reflexivity|].
  apply (counts_account a_topic Messages Pub); vm_compute; reflexivity.
Defined.

(** The thread publishes one message and clears between the load and the store of a
    call: two messages were counted, three are reported. *)
Theorem counted_twice :
  let es := Create :: a_stat $"a" ++ Stat Pub $"id" [] $"b" 100 7 :: replicate 10 (Access 0)
              ++ a_turn ++ replicate 3 (Access 0) in
  let s := run a_topic boot es in
  total Messages Pub (published s) + waiting Messages Pub s = 3 /\ counted Messages Pub es = 2.
Proof. vm_compute. split; reflexivity. Qed.

(** A call stores between the serialisation and the clearing: its message is never
    reported. *)
Theorem count_lost :
  let es := Create :: a_stat $"a" ++ replicate 3 (Monitor false) ++ a_stat $"b" ++ replicate 2 (Monitor false) in
  let s := run a_topic boot es in
  total Messages Pub (published s) + waiting Messages Pub s = 1 /\ counted Messages Pub es = 2.
Proof. vm_compute. split; reflexivity. Qed.

(** Two calls load the same count: one of the messages is lost. *)
Theorem calls_overwrite :
  let es := [Stat Pub $"id" [] $"a" 100 7; Stat Pub $"id" [] $"b" 100 7] ++ replicate 10 (Access 0)
              ++ replicate 10 (Access 1) ++ replicate 3 (Access 1) ++ replicate 3 (Access 0) in
  let s := run a_topic boot es in
  waiting Messages Pub s = 1 /\ unstored Messages Pub s = 0 /\ counted Messages Pub es = 2.
Proof. vm_compute. repeat split; reflexivity. Qed.

(** ** The statement *)

(** Every text of the info is short. *)
Definition info_short (n : nat) (m : TopicMonInfo) : Prop :=
  Forall (fun s => (length s <= n)%nat) [uuid m; srcnodeid m; tonodeid m; topicname m; progarmname m].

#[export] Instance info_short_dec n m : Decision (info_short n m).
Proof. unfold info_short. apply _. Defined.

(** An info whose texts have at most 700 chars is stored with one statement. *)
Theorem insert_mon_stores {E} `{!Gen E} (m : TopicMonInfo) (s : st E) :
  info_short 700 m -> exists sql, insert_mon m s = (inl (), mkSt (gen s) (sqls s ++ [sql])).
Proof.
  intros Hm. unfold insert_mon. unfold info_short in Hm. rewrite !Forall_cons in Hm.
  match goal with |- context [sprintf ?z ?f ?a] =>
    destruct (sprintf_fits 700 z f a s) as [sql Hs] end;
    [vm_compute; reflexivity..| |exists sql; cbv [mbind M_bind]; by rewrite Hs].
  repeat apply Forall_cons_2; simpl; tauto || constructor.
Qed.

(** A source of ids, which no statement needs. *)
#[local] Instance no_ids : Gen () := fun _ => None.

Lemma insert_mon_stores_witness :
  exists sql, insert_mon (mkMon $"u" 1 $"a" $"b" $"t" 60 7 2 120 1 $"node") (mkSt () [])
    = (inl (), mkSt () ([] ++ [sql])).
Proof.
  apply (insert_mon_stores (mkMon $"u" 1 $"a" $"b" $"t" 60 7 2 120 1 $"node") (mkSt () [])).
  by_decision.
Defined.

End Monitor.
