(* ===== verification/MonitorStart.v ===== *)
(** * From the counters of the nodes to the rows of the monitor

    [main] of [src/monitor-app/src/MonitorService.cpp], which subscribes to the
    topic of the counters, the topic the nodes publish them on
    ([src/node/src/main.cpp]), and the two together: what a node counts
    ([Monitor.run]) and what the monitor application stores. *)

From stdpp Require Import gmap.
From S2P Require Import Prelude StrUtil Ini ConfigMap Topics Wiring Printf Proto Insert Monitor.
Import Ini ConfigMap Topics Wiring Printf Insert Monitor.

Module MonitorStart.

(** ** The monitor application *)

Section Config.
Context (values : gmap str str).

(** src/monitor-app/src/MonitorService.cpp:159-164, [main]. *)
Definition mon_settings : route := mkRoute
  (GetString values $"route" $"mon_project" $"platform")
  (GetString values $"route" $"mon_buss_domain" $"mon")
  (GetString values $"route" $"mon_domain" $"cloud")
  (GetString values $"route" $"mon_group" $"mgr_x86_linux")
  (GetString values $"route" $"mon_buss" $"monitor")
  (GetString values $"route" $"mon_func" $"mon").

(** src/monitor-app/src/MonitorService.cpp:170-188, [main]. [None]: element 0
    of an empty vector. *)
Definition monStats (groupMap : gmap str (list str)) : option Topic :=
  let monGroupName := StrUtil.split (r_group mon_settings) ","%char in
  let monIdsVec := getGroupVec groupMap monGroupName [] in
  n ← head monIdsVec;
  Some (createTopic TIMES (r_project mon_settings) (r_bussDomain mon_settings) (r_domain mon_settings)
          n (r_buss mon_settings) (r_func mon_settings) UP).

End Config.

(** How [main] goes: it returns at once, the exception of the group file ends
    it, an index is out of range, or the reader of a topic is started. *)
Inductive course :=
  | NoConfig
  | NoGroupPath
  | BadGroups
  | NoGroup
  | Reading (topic : str).

(** src/monitor-app/src/MonitorService.cpp:112-223, [main]. [doc] is the
    document at a path, parsed. *)
Definition main (file : option str) (doc : str -> option json) : course :=
  let '(err, values) := INIReader_file file in
  if err <? 0 then NoConfig
  else
    let groupPath := GetString values $"group" $"group_path" [] in
    if bool_decide (groupPath = []) then NoGroupPath
    else match parseJsonToMap (doc groupPath) with
    | None => BadGroups
    | Some groupMap =>
        match monStats values groupMap with
        | None => NoGroup
        | Some t => Reading (buildKeyExpr t)
        end
    end.

(** ** A node *)

(** src/node/src/main.cpp:628-628, [main]. *)
Definition monTopicName_ (values : gmap str str) (groupMap : gmap str (list str)) : option str :=
  buildKeyExpr <$> monStatsTopic values groupMap.

(** src/dds/ZenohBase.h:284-287, [ZenohBase::startWriterMon]. The vector has one
    byte more than the message. *)
Definition sample (serialize : TopicMonInfo -> str) (info : TopicMonInfo) : str :=
  serialize info ++ ["000"%char].

(** ** Both *)

(** What is published on [key] comes in at the topic. *)
Definition bus (key topic : str) (samples : list str) : list str :=
  if decide (key = topic) then samples else [].

Section System.
Context {E : Type} `{!Gen E} (parse : str -> TopicMonInfo).

Fixpoint handle_all (l : list str) : M E () :=
  match l with
  | [] => mret ()
  | x :: l' => _ ← handle_mon parse x; handle_all l'
  end.

(** The statement that stores an info. *)
Definition stored (i : TopicMonInfo) (sql : str) : Prop :=
  forall s : st E, insert_mon i s = (inl (), mkSt (gen s) (sqls s ++ [sql])).

(** ** Lemmas *)

Lemma sprintf_same size fmt args (s s' : st E) t :
  sprintf size fmt args s = (inl t, s) -> sprintf size fmt args s' = (inl t, s').
Proof. unfold sprintf. destruct (format fmt args); [|done]. destruct (_ <? _); [|done]. by intros [= ->]. Qed.

Lemma short_stored (g : E) i : info_short 700 i -> exists sql, stored i sql.
Proof.
  intros Hi. unfold stored, insert_mon. unfold info_short in Hi. rewrite !Forall_cons in Hi.
  match goal with |- context [sprintf ?z ?f ?a] =>
    destruct (sprintf_fits 700 z f a (mkSt g [])) as [sql Hs] end;
    [vm_compute; reflexivity..| |].
  - repeat apply Forall_cons_2; simpl; tauto || constructor.
  - exists sql. intros s. cbv [mbind M_bind]. by rewrite (sprintf_same _ _ _ _ s _ Hs).
Qed.

Lemma handle_all_stored (serialize : TopicMonInfo -> str) l rows :
  Forall2 stored l rows -> (forall i, i ∈ l -> parse (sample serialize i) = i) ->
  forall s : st E, handle_all (map (sample serialize) l) s = (inl (), mkSt (gen s) (sqls s ++ rows)).
Proof.
  intros Hall. induction Hall as [|i sql l rows Hi Hall IH]; intros Hp s.
  - simpl. rewrite app_nil_r. by destruct s.
  - cbn [map handle_all]. unfold handle_mon. rewrite Hp by constructor. cbv [mbind M_bind]. rewrite Hi.
    rewrite IH by (intros; apply Hp; by constructor). cbn [gen sqls]. by rewrite <- app_assoc.
Qed.

End System.

(** Texts of at most 700 chars, in the topic and in what is counted. *)
Definition topic_short (t : TopicInfo) : Prop :=
  Forall (fun s => (length s <= 700)%nat)
    [Monitor.topic_ t; Monitor.topicReply_ t; Monitor.nodeId_ t; Monitor.programName_ t].
Definition event_short (e : event) : Prop :=
  match e with
  | Stat _ id topic peer _ _ => Forall (fun s => (length s <= 700)%nat) [id; topic; peer]
  | _ => True
  end.

#[export] Instance topic_short_dec t : Decision (topic_short t).
Proof. unfold topic_short. apply _. Defined.
#[export] Instance event_short_dec e : Decision (event_short e).
Proof. destruct e; simpl; apply _. Defined.

(** All infos of a node are short. *)
Record all_short (s : base) : Prop := mkShort {
  infos_short : forall k, info_short 700 (info_of k (infos s));
  calls_short : Forall (fun c => info_short 700 (c_data c)) (calls s);
  thread_short : match thread s with
                 | At _ | Torn _ => True
                 | Serialising _ i | Copied _ i | Sent _ i | CountCleared _ i => info_short 700 i
                 end;
  published_short : Forall (fun x => info_short 700 x.2) (published s);
}.

Lemma copy_short n f from to : info_short n from -> info_short n to -> info_short n (copy_field f from to).
Proof. unfold info_short. rewrite !Forall_cons. intros. destruct f; simpl; intuition. Qed.

Lemma set_short k i l :
  info_short 700 i -> (forall k', info_short 700 (info_of k' l)) ->
  forall k', info_short 700 (info_of k' (set_info k i l)).
Proof. intros Hi Hl k'. rewrite info_set. by case_decide. Qed.

Lemma begin_short t k id topic peer len now s :
  topic_short t -> Forall (fun s => (length s <= 700)%nat) [id; topic; peer] ->
  all_short s -> all_short (begin_stat t k id topic peer len now s).
Proof.
  intros Ht He [Hi Hc Hth Hp]. unfold begin_stat. destruct (0 <? len); [|done].
  constructor; cbn [infos calls thread published]; try done.
  apply Forall_app. split; [done|]. apply Forall_singleton. cbn [c_data].
  unfold topic_short, info_short in *. rewrite !Forall_cons in *. destruct k; simpl; intuition.
Qed.

Lemma access_short n s : all_short s -> all_short (access_step n s).
Proof.
  intros Hs. pose proof Hs as [Hi Hc Hth Hp]. unfold access_step.
  destruct (calls s !! n) as [c|] eqn:En; [|done]. destruct (c_todo c) as [|a todo]; [done|].
  pose proof (Forall_lookup_1 _ _ _ _ Hc En) as Hd. simpl in Hd.
  assert (info_short 700 (hand c)) as Hh by done.
  destruct a as [f|f]; cbn [call_step]; (constructor; cbn [infos calls thread published]; try done;
    [apply set_short; [try apply copy_short; done|done]|]);
    (destruct todo; [by apply Forall_delete|by apply Forall_insert]).
Qed.

Lemma no_info_short : info_short 700 no_info.
Proof. by_decision. Qed.

Lemma monitor_short thrown s : all_short s -> all_short (monitor thrown s).
Proof.
  intros Hs. pose proof Hs as [Hi Hc Hth Hp]. pose proof no_info_short. unfold monitor.
  destruct (thread s) as [k|k i|k i|k i|k i|k];
    [destruct (negb _); [|destruct (0 <? _)]|case_decide|destruct thrown| | |done];
    constructor; cbn [infos calls thread published]; try done.
  - rewrite Forall_app. split; [done|]. by constructor.
  - apply set_short; [by apply copy_short|done].
  - apply set_short; [by apply copy_short|done].
Qed.

Lemma run_short t es :
  topic_short t -> Forall event_short es -> all_short (run t boot es).
Proof.
  intros Ht He. unfold run. induction es as [|e es IH] using rev_ind.
  - constructor; simpl; [|done..]. intros []; apply no_info_short.
  - apply Forall_app in He as [Hes [He _]%Forall_cons]. rewrite foldl_app. cbn [foldl].
    specialize (IH Hes). destruct e; cbn [step].
    + by apply begin_short.
    + by apply access_short.
    + by destruct IH.
    + by apply monitor_short.
Qed.

(** The names of the settings the topic is made of. *)
Definition mon_keys : list str :=
  map (MakeKey $"route") [$"mon_project"; $"mon_buss_domain"; $"mon_domain"; $"mon_group"; $"mon_buss"; $"mon_func"].

Lemma same_settings vn vm :
  Forall (fun k => vn !! k = vm !! k) mon_keys -> mon_route vn = mon_settings vm.
Proof.
  unfold mon_keys. cbn [map]. rewrite !Forall_cons. intros (H1 & H2 & H3 & H4 & H5 & H6 & _).
  unfold mon_route, mon_settings, get_route, GetString, Get. by rewrite H1, H2, H3, H4, H5, H6.
Qed.

Lemma same_topic vn vm groups :
  Forall (fun k => vn !! k = vm !! k) mon_keys ->
  monTopicName_ vn groups = buildKeyExpr <$> monStats vm groups.
Proof.
  intros H%same_settings. unfold monTopicName_, monStatsTopic, monStats, group_ids, route_topic.
  rewrite H. by destruct (head _).
Qed.

(** ** The theorem *)


(** ** An example *)

(** A source of ids, which no statement needs. *)
#[local] Instance no_ids : Gen () := fun _ => None.

Definition mon_ini : option str :=
  Some (concat (map (fun l => list_ascii_of_string l ++ [newline])
    ["[group]"; "group_path=g.json"; "[route]"; "mon_group=mon"])).
Definition node_values : gmap str str := {[ MakeKey $"route" $"mon_group" := $"mon" ]}.
Definition groups_doc : json :=
  JObject [($"groups", JArray [JObject [($"group_name", JString $"mon");
                                        ($"group_member", JArray [JString $"m1"])]])].
Definition mon_key : str := $"times/platform/mon/cloud/m1/monitor/mon/up".
Definition one_count : list event := Create :: a_stat $"a" ++ a_stat $"b" ++ a_turn.
Definition one_info : TopicMonInfo := snd (default (Pub, no_info) (head (published (run a_topic boot one_count)))).


End MonitorStart.
