(* ===== verification/Machine.v ===== *)
(** * The state of a node

    What the edge nodes tell the manager about themselves:
    [src/node/src/PingTopic.cpp], that they are there, and
    [src/node/src/MachineStateTopic.cpp], what they run on; and the rows the
    manager makes of it. The figures of the hardware come from the [hwinfo]
    library and are an argument, the programs from the process manager. *)

From Stdlib Require Import SpecFloat.
From S2P Require Import Prelude Printf Proto Insert ProcessManager.
Import Printf Proto Insert ProcessManager.

Module Machine.

(** ** Ping *)

(** src/node/src/PingTopic.cpp:70-77, [PingTopic::writer_worker]. What is sent
    every 15 seconds, if anything. *)
Definition ping_message (nodeId monNodeId : str) (now : Z) : option msg :=
  let ping_msg := Msg [("src_node_id", VText nodeId); ("to_node_id", VText monNodeId);
                       ("state", VInt 1); ("created_at", VInt now); ("desc", VText $"online")] in
  if (0 <? length nodeId)%nat then Some ping_msg else None.

Section Handlers.
Context {E : Type} `{!Gen E}.

(** src/node/src/PingTopic.cpp:153-182, [PingTopic::handle_ping]. After the
    message is parsed. *)
Definition handle_ping (ping_msg : msg) : M E () :=
  let nodeStat := int ping_msg "state" in
  let updateTime := uwrap 64 (Z.quot (int ping_msg "created_at") 1000) in
  pingSql ← sprintf 1024
    (lines ["insert into node_ping(`node_id`,`node_status_id`,`description`,`updated_at`) values('%s',%llu,'%s',%llu) on duplicate key update ";
            "            node_status_id=%llu,description='%s',updated_at=%llu"])
    [P (text ping_msg "src_node_id"); L nodeStat; P (text ping_msg "desc"); L updateTime;
     L nodeStat; P (text ping_msg "desc"); L updateTime];
  excute pingSql.

(** ** Machine state *)

Section State.
Context (state : msg) (uuid : str) (now : Z).

(** src/node/src/MachineStateTopic.cpp:179-190, [MachineStateTopic::handle_state_data]. *)
Definition machine_row : M E () :=
  let board := state ~> "main_board_infos" in
  let os := state ~> "os_infos" in
  let rams := state ~> "rams" in
  let usedRam := swrap 64 (int rams "size" - int rams "free") in
  machineStatSql ← sprintf 2048
    (lines ["insert into machine_state(node_id,main_board_vendor,main_board_name,main_board_version,main_board_serial_number,operating_system,";
            "            os_short_name,os_version,os_kernel,os_architecture,os_endianess,uuid,updated_at,ram_vendor,ram_model,ram_name,ram_serial_number,ram_size,ram_free,ram_available,ram_used)value('%s','%s','%s','%s','%s','%s','%s','%s','%s','%s','%s','%s',%llu,'%s','%s','%s','%s',%ld,%ld,%ld,%ld)"])
    [P (text state "src_node_id"); P (text board "vendor"); P (text board "name");
     P (text board "version"); P (text board "serial_number"); P (text os "operating_system");
     P (text os "short_name"); P (text os "version"); P (text os "kernel");
     P (text os "architecture"); P (text os "endianess"); P uuid; L now; P (text rams "vendor");
     P (text rams "model"); P (text rams "name"); P (text rams "serial_number");
     L (int rams "size"); L (int rams "free"); L (int rams "available"); L usedRam];
  excute machineStatSql.

(** src/node/src/MachineStateTopic.cpp:200-212, [MachineStateTopic::handle_state_data]. *)
Definition curFreq (l : list Z) : str :=
  match l with
  | [] => []
  | f :: l' => foldl (fun s g => s ++ $"," ++ to_strz g) (to_strz f) l'
  end.

(** src/node/src/MachineStateTopic.cpp:193-224, [MachineStateTopic::handle_state_data]. *)
Definition cpu_row (i : nat) (c : msg) (_ : ()) : M E () :=
  cpuSql ← sprintf 4096
    (lines ["insert into node_cpu(node_id,cpu_number,cpu_vendor,cpu_model,cpu_physical_cores,cpu_logical_cores,cpu_min_frequency,cpu_max_frequency,cpu_regular_frequency,";
            "                cpu_current_frequency,cpu_cache_size,cpu_usage_average,machine_state_uuid,updated_at)value('%s',%d,'%s','%s',%d,%d,%lld,%lld,%lld,'%s',%lld,%lf,'%s',%llu)"])
    [P (text state "src_node_id"); D (Z.of_nat i); P (text c "vendor"); P (text c "model");
     D (int c "physical_cores"); D (int c "logical_cores"); L (int c "min_frequency");
     L (int c "max_frequency"); L (int c "regular_frequency"); P (curFreq (ints c "current_frequency"));
     L (int c "cache_size"); F (real c "cpu_usage"); P uuid; L now];
  excute cpuSql.

(** src/node/src/MachineStateTopic.cpp:228-239, [MachineStateTopic::handle_state_data].
    The frequency has 64 bits. *)
Definition gpu_row (i : nat) (g : msg) (_ : ()) : M E () :=
  gpuSql ← sprintf 4096
    (lines ["insert into node_gpu(node_id,gpu_number,gpu_vendor,gpu_model,driver_version,gpu_memory,gpu_frequency,machine_state_uuid,updated_at)value('%s',%d,'%s','%s','%s',%lf,%d,'%s',%llu)"])
    [P (text state "src_node_id"); D (Z.of_nat i); P (text g "vendor"); P (text g "model");
     P (text g "driver_version"); F (real g "memory"); L (int g "frequency"); P uuid; L now];
  excute gpuSql.

(** src/node/src/MachineStateTopic.cpp:243-254, [MachineStateTopic::handle_state_data]. *)
Definition disk_row (i : nat) (d : msg) (_ : ()) : M E () :=
  diskSql ← sprintf 4096
    (lines ["insert into node_disks(node_id,disks_number,disks_vendor,disks_model,disks_serial_number,disks_size,machine_state_uuid,updated_at)value('%s',%d,'%s','%s','%s',%lld,'%s',%llu)"])
    [P (text state "src_node_id"); D (Z.of_nat i); P (text d "vendor"); P (text d "model");
     P (text d "serial_number"); L (int d "size"); P uuid; L now];
  excute diskSql.

(** src/node/src/MachineStateTopic.cpp:258-269, [MachineStateTopic::handle_state_data]. *)
Definition network_row (i : nat) (n : msg) (_ : ()) : M E () :=
  networksSql ← sprintf 4096
    (lines ["insert into node_network(node_id,network_number,network_name,ipv4,ipv6,broadband,broadband_using,machine_state_uuid,updated_at)value('%s',%d,'%s','%s','%s',%lld,%lld,'%s',%llu)"])
    [P (text state "src_node_id"); D (Z.of_nat i); P (text n "name"); P (text n "ipv4s");
     P (text n "ipv6s"); L (int n "broadband"); L (int n "broadband_using"); P uuid; L now];
  excute networksSql.

(** src/node/src/MachineStateTopic.cpp:273-287, [MachineStateTopic::handle_state_data]. *)
Definition process_row (i : nat) (p : msg) (_ : ()) : M E () :=
  processSql ← sprintf 4096
    (lines ["insert into node_process(node_id,machine_state_uuid,name,work_path,pid,args,cpu_usage,mem_usage,start_time,stop_time,reboot_count,priority)value('%s','%s','%s','%s',%d,'%s',%lf,%lf,%lld,%lld,%d,%d)"])
    [P (text state "src_node_id"); P uuid; P (text p "name"); P (text p "work_path");
     D (int p "pid"); P (text p "args"); F (real p "cpu_usage"); F (real p "mem_usage");
     L (int p "start_time"); L (int p "stop_time"); D (int p "reboot_count"); D (int p "priority")];
  excute processSql.

(** src/node/src/MachineStateTopic.cpp:162-298, [MachineStateTopic::handle_state_data].
    After the message is parsed; [uuid] is what [generate] returns. *)
Definition handle_state_data : M E () :=
  _ ← machine_row;
  _ ← for_ (rep state "cpus") cpu_row ();
  _ ← for_ (rep state "gpus") gpu_row ();
  _ ← for_ (rep state "disks") disk_row ();
  _ ← for_ (rep state "networks") network_row ();
  for_ (rep state "processes") process_row ().

End State.
End Handlers.

(** ** What a node sends *)

Section System.
Context {O : Type} `{!Os O}.

(** src/node/src/MachineStateTopic.cpp:383-391, [MachineStateTopic::get_system_info].
    [cpu_usage] and [mem_usage] are figures of the operating system. A process
    that was never launched has the id of a default child, [-1]. *)
Definition process_info (usage : ProcessAttribute -> spec_float * spec_float)
    (process : ProcessAttribute) : msg :=
  Msg [("pid", VInt (default (-1) (instance process)));
       ("name", VText (ProcessManager.uuid process));
       ("cpu_usage", VReal (usage process).1);
       ("mem_usage", VReal (usage process).2);
       ("work_path", VText (work_path process));
       ("start_time", VInt (swrap 64 (latest_start_time process)));
       ("stop_time", VInt (swrap 64 (latest_stop_time process)));
       ("reboot_count", VInt (swrap 32 (reboot_count process)))].

(** src/node/src/MachineStateTopic.cpp:302-401, [MachineStateTopic::get_system_info].
    [hardware] are the fields of the figures of the hardware; the listener of
    the process manager runs first. *)
Definition get_system_info (usage : ProcessAttribute -> spec_float * spec_float)
    (hardware : list (string * value)) (nodeId monNodeId : str) (now : Z) (o : O)
    (ps : list ProcessAttribute) : msg * O * list ProcessAttribute :=
  let '(_, o', ps') := listener now o ps in
  (Msg ([("src_node_id", VText nodeId); ("to_node_id", VText monNodeId);
         ("processes", VRep (map (process_info usage) ps'))] ++ hardware), o', ps').

End System.

(** ** The rows of a state *)

(** A statement that inserts a row: the columns with their values. *)
Fixpoint listed (l : list str) : str :=
  match l with
  | [] => []
  | [x] => x
  | x :: l' => x ++ $"," ++ listed l'
  end.
Definition insertion (table : string) (row : list (string * str)) : str :=
  $"insert into " ++ $table ++ $"(" ++ listed (map (fun cv => list_ascii_of_string cv.1) row) ++ $")value("
  ++ listed (map snd row) ++ $")".

(** Values: texts, and numbers of 32 and 64 bits. *)
Definition quoted (s : str) : str := $"'" ++ s ++ $"'".
Definition num (z : Z) : str := show_d 0 (swrap 32 z).
Definition lnum (z : Z) : str := to_strz (swrap 64 z).
Definition unum (z : Z) : str := to_strz (uwrap 64 z).

Section Rows.
Context (node uuid : str) (now : Z).

(** The literals of the program have spaces before two of the columns. *)
Definition machine_values (os board rams : msg) : list (string * str) :=
  [("node_id", quoted node); ("main_board_vendor", quoted (text board "vendor"));
   ("main_board_name", quoted (text board "name")); ("main_board_version", quoted (text board "version"));
   ("main_board_serial_number", quoted (text board "serial_number"));
   ("operating_system", quoted (text os "operating_system"));
   ("            os_short_name", quoted (text os "short_name")); ("os_version", quoted (text os "version"));
   ("os_kernel", quoted (text os "kernel")); ("os_architecture", quoted (text os "architecture"));
   ("os_endianess", quoted (text os "endianess")); ("uuid", quoted uuid); ("updated_at", unum now);
   ("ram_vendor", quoted (text rams "vendor")); ("ram_model", quoted (text rams "model"));
   ("ram_name", quoted (text rams "name")); ("ram_serial_number", quoted (text rams "serial_number"));
   ("ram_size", lnum (int rams "size")); ("ram_free", lnum (int rams "free"));
   ("ram_available", lnum (int rams "available"));
   ("ram_used", lnum (swrap 64 (int rams "size" - int rams "free")))].

Definition cpu_values (i : nat) (vendor model : str) (physical logical lowest highest regular : Z)
    (frequencies : list Z) (cache : Z) (usage : spec_float) : list (string * str) :=
  [("node_id", quoted node); ("cpu_number", num (Z.of_nat i)); ("cpu_vendor", quoted vendor);
   ("cpu_model", quoted model); ("cpu_physical_cores", num physical); ("cpu_logical_cores", num logical);
   ("cpu_min_frequency", lnum lowest); ("cpu_max_frequency", lnum highest);
   ("cpu_regular_frequency", lnum regular);
   ("                cpu_current_frequency", quoted (curFreq frequencies)); ("cpu_cache_size", lnum cache);
   ("cpu_usage_average", show_f usage); ("machine_state_uuid", quoted uuid); ("updated_at", unum now)].

Definition disk_values (i : nat) (vendor model serial : str) (size : Z) : list (string * str) :=
  [("node_id", quoted node); ("disks_number", num (Z.of_nat i)); ("disks_vendor", quoted vendor);
   ("disks_model", quoted model); ("disks_serial_number", quoted serial); ("disks_size", lnum size);
   ("machine_state_uuid", quoted uuid); ("updated_at", unum now)].

Definition network_values (i : nat) (n : msg) : list (string * str) :=
  [("node_id", quoted node); ("network_number", num (Z.of_nat i)); ("network_name", quoted (text n "name"));
   ("ipv4", quoted (text n "ipv4s")); ("ipv6", quoted (text n "ipv6s")); ("broadband", lnum (int n "broadband"));
   ("broadband_using", lnum (int n "broadband_using")); ("machine_state_uuid", quoted uuid);
   ("updated_at", unum now)].

Definition process_values (p : msg) : list (string * str) :=
  [("node_id", quoted node); ("machine_state_uuid", quoted uuid); ("name", quoted (text p "name"));
   ("work_path", quoted (text p "work_path")); ("pid", num (int p "pid")); ("args", quoted (text p "args"));
   ("cpu_usage", show_f (real p "cpu_usage")); ("mem_usage", show_f (real p "mem_usage"));
   ("start_time", lnum (int p "start_time")); ("stop_time", lnum (int p "stop_time"));
   ("reboot_count", num (int p "reboot_count")); ("priority", num (int p "priority"))].

(** The same of the messages. *)
Definition cpu_sql (i : nat) (c : msg) : str :=
  insertion "node_cpu" (cpu_values i (text c "vendor") (text c "model") (int c "physical_cores")
    (int c "logical_cores") (int c "min_frequency") (int c "max_frequency") (int c "regular_frequency")
    (ints c "current_frequency") (int c "cache_size") (real c "cpu_usage")).
Definition disk_sql (i : nat) (d : msg) : str :=
  insertion "node_disks"
    (disk_values i (text d "vendor") (text d "model") (text d "serial_number") (int d "size")).
Definition network_sql (i : nat) (n : msg) : str := insertion "node_network" (network_values i n).
Definition process_sql (p : msg) : str := insertion "node_process" (process_values p).

End Rows.

(** The rows of a state without graphics cards. *)
Definition state_sqls (state : msg) (uuid : str) (now : Z) : list str :=
  let node := text state "src_node_id" in
  [insertion "machine_state"
     (machine_values node uuid now (state ~> "os_infos") (state ~> "main_board_infos") (state ~> "rams"))]
  ++ imap (cpu_sql node uuid now) (rep state "cpus") ++ imap (disk_sql node uuid now) (rep state "disks")
  ++ imap (network_sql node uuid now) (rep state "networks") ++ map (process_sql node uuid) (rep state "processes").

Section Adds.
Context {E : Type} `{!Gen E}.

(** [m] returns and executes the statements [l]. *)
Definition adds (l : list str) (m : M E ()) : Prop :=
  forall s, m s = (inl (), mkSt (gen s) (sqls s ++ l)).

Lemma adds_then l l' m m' : adds l m -> adds l' m' -> adds (l ++ l') (m ≫= fun _ => m').
Proof.
  intros Hm Hm' s. cbv [mbind M_bind]. rewrite Hm, Hm'. cbn [gen sqls]. by rewrite <- app_assoc.
Qed.

Lemma adds_statement n size fmt args sql :
  fits fmt (map class_of args) = true -> Z.of_nat (bound n fmt) <? size = true ->
  Forall (arg_short n) args -> format fmt args = Some sql -> adds [sql] (sprintf size fmt args ≫= excute).
Proof.
  intros _ Hb%Z.ltb_lt Ha Hf s. cbv [mbind M_bind]. unfold sprintf. rewrite Hf.
  pose proof (format_length n _ _ _ Ha Hf). by destruct (Z.ltb_spec (Z.of_nat (length sql)) size); [|lia].
Qed.

Lemma adds_for_from (g : nat -> msg -> str) (f : nat -> msg -> () -> M E ()) l : forall i,
  (forall i x, x ∈ l -> adds [g i x] (f i x ())) -> adds (imap (fun k => g (i + k)%nat) l) (for_from i l f ()).
Proof.
  induction l as [|x l IH]; intros i H.
  - intros s. cbn. rewrite app_nil_r. by destruct s.
  - cbn [for_from imap]. intros s. cbv [mbind M_bind]. rewrite (H i x ltac:(by left)).
    assert (adds (imap (fun k => g (S i + k)%nat) l) (for_from (S i) l f ())) as Hl.
    { apply IH. intros; apply H. by right. }
    rewrite Hl. cbn [gen sqls]. rewrite <- app_assoc, Nat.add_0_r. do 3 f_equal. cbn [app]. f_equal.
    apply imap_ext. intros k y _. cbn. f_equal. lia.
Qed.

Lemma adds_for g l (f : nat -> msg -> () -> M E ()) :
  (forall i x, x ∈ l -> adds [g i x] (f i x ())) -> adds (imap g l) (for_ l f ()).
Proof. intros H. exact (adds_for_from g f l 0 H). Qed.

End Adds.

Ltac short_args := repeat apply Forall_cons_2; cbn [arg_short]; try apply Forall_nil; try exact I; auto.

(** A format prints the columns and the values of a row. *)
Ltac printed :=
  cbv beta; unfold cpu_sql, disk_sql, network_sql, process_sql, insertion, machine_values, cpu_values, disk_values,
    network_values, process_values, quoted, num, lnum, unum;
  cbn [map listed fst snd]; repeat rewrite <- app_assoc; reflexivity.

(** A figure, or a list of them, prints short. *)
Definition cpu_short (c : msg) : Prop :=
  (length (curFreq (ints c "current_frequency")) <= 500)%nat
  /\ (length (show_f (real c "cpu_usage")) <= 500)%nat.
Definition usage_short (p : msg) : Prop :=
  (length (show_f (real p "cpu_usage")) <= 500)%nat
  /\ (length (show_f (real p "mem_usage")) <= 500)%nat.

Lemma text_500 m f : short 80 m = true -> (length (text m f) <= 500)%nat.
Proof. intros H%(short_text 80 m f). lia. Qed.

Section Stored.
Context {E : Type} `{!Gen E} (state : msg) (uuid : str) (now : Z).
Context (Hs : short 80 state = true) (Hu : (length uuid <= 80)%nat).
Notation node := (text state "src_node_id").

Lemma machine_stored :
  adds (E := E) [insertion "machine_state" (machine_values node uuid now (state ~> "os_infos")
    (state ~> "main_board_infos") (state ~> "rams"))] (machine_row state uuid now).
Proof.
  unfold machine_row. cbv zeta. apply (adds_statement 80); [vm_compute; reflexivity..| |printed].
  short_args; apply short_text; repeat apply short_sub; done.
Qed.

Lemma state_text f : (length (text state f) <= 500)%nat.
Proof. by apply text_500. Qed.

Lemma row_text f g x : x ∈ rep state f -> (length (text x g) <= 500)%nat.
Proof. intros Hx. eapply text_500, short_rep; eassumption. Qed.

Lemma uuid_500 : (length uuid <= 500)%nat.
Proof. lia. Qed.

(** The arguments of a row: texts of the state, of the row, and the uuid. *)
Ltac short_row :=
  repeat apply Forall_cons_2; cbn [arg_short]; try apply Forall_nil; try exact I;
  first [apply state_text | apply uuid_500 | eapply row_text; eassumption | assumption].

Lemma cpus_stored :
  (forall c, c ∈ rep state "cpus" -> cpu_short c) ->
  adds (E := E) (imap (cpu_sql node uuid now) (rep state "cpus"))
    (for_ (rep state "cpus") (cpu_row state uuid now) ()).
Proof.
  intros Hc. apply adds_for. intros i x Hx. apply (adds_statement 500); [vm_compute; reflexivity..| |printed].
  destruct (Hc x Hx). short_row.
Qed.

Lemma disks_stored :
  adds (E := E) (imap (disk_sql node uuid now) (rep state "disks"))
    (for_ (rep state "disks") (disk_row state uuid now) ()).
Proof.
  apply adds_for. intros i x Hx. apply (adds_statement 500); [vm_compute; reflexivity..| |printed].
  short_row.
Qed.

Lemma networks_stored :
  adds (E := E) (imap (network_sql node uuid now) (rep state "networks"))
    (for_ (rep state "networks") (network_row state uuid now) ()).
Proof.
  apply adds_for. intros i x Hx. apply (adds_statement 500); [vm_compute; reflexivity..| |printed].
  short_row.
Qed.

Lemma processes_stored :
  (forall p, p ∈ rep state "processes" -> usage_short p) ->
  adds (E := E) (map (process_sql node uuid) (rep state "processes"))
    (for_ (rep state "processes") (process_row state uuid) ()).
Proof.
  intros Hp. change (map ?f ?l) with (f <$> l). rewrite <- (imap_const (process_sql node uuid) (rep state "processes")). unfold const.
  apply adds_for. intros i x Hx. apply (adds_statement 500); [vm_compute; reflexivity..| |printed].
  destruct (Hp x Hx). short_row.
Qed.

End Stored.

Lemma state_rows {E} `{!Gen E} (state : msg) (uuid : str) (now : Z) :
  short 80 state = true -> (length uuid <= 80)%nat -> rep state "gpus" = [] ->
  (forall c, c ∈ rep state "cpus" -> cpu_short c) ->
  (forall p, p ∈ rep state "processes" -> usage_short p) ->
  adds (E := E) (state_sqls state uuid now) (handle_state_data state uuid now).
Proof.
  intros Hs Hu Hg Hc Hp. unfold handle_state_data, state_sqls. cbv zeta.
  apply adds_then; [by apply machine_stored|]. apply adds_then; [by apply cpus_stored|].
  change (?l ++ ?m) with ([] ++ (l ++ m)).
  apply adds_then; [rewrite Hg; apply (adds_for (fun _ _ => [])); by intros i x []%not_elem_of_nil|].
  apply adds_then; [by apply disks_stored|]. apply adds_then; [by apply networks_stored|].
  by apply processes_stored.
Qed.

(** The state of a machine without graphics cards, with texts of at most 80 chars
    and figures that print in at most 500, is stored: one row for the machine
    and one for every processor, disk, network and program, under the id of the
    machine's. *)
Theorem state_stored {E} `{!Gen E} (state : msg) (uuid : str) (now : Z) :
  short 80 state = true -> (length uuid <= 80)%nat -> rep state "gpus" = [] ->
  (forall c, c ∈ rep state "cpus" -> cpu_short c) ->
  (forall p, p ∈ rep state "processes" -> usage_short p) ->
  adds (E := E) (state_sqls state uuid now) (handle_state_data state uuid now).
Proof. apply state_rows. Qed.

Definition a_machine : msg :=
  Msg [("src_node_id", VText $"edge-1"); ("cpus", VRep [Msg [("current_frequency", VInts [3500; 800])]]);
       ("disks", VRep [Msg []; Msg []])].

#[local] Instance no_ids : Gen () := fun _ => None.

Lemma state_stored_witness :
  adds (E := ()) (state_sqls a_machine $"u-1" 7) (handle_state_data a_machine $"u-1" 7)
  /\ drop 2 (state_sqls a_machine $"u-1" 7)
     = [$"insert into node_disks(node_id,disks_number,disks_vendor,disks_model,disks_serial_number,disks_size,machine_state_uuid,updated_at)value('edge-1',0,'','','',0,'u-1',7)";
        $"insert into node_disks(node_id,disks_number,disks_vendor,disks_model,disks_serial_number,disks_size,machine_state_uuid,updated_at)value('edge-1',1,'','','',0,'u-1',7)"].
Proof.
  split; [|vm_compute; reflexivity].
  apply (state_stored a_machine $"u-1" 7); [reflexivity|simpl; lia|reflexivity|..].
  - intros c [->|[]%not_elem_of_nil]%elem_of_cons. split; vm_compute; lia.
  - intros p []%not_elem_of_nil.
Defined.

Section Undefined.
Context {E : Type} `{!Gen E}.

Lemma gpu_row_undefined state uuid now i g a (s : st E) : gpu_row state uuid now i g a s = (inr BadFormat, s).
Proof. reflexivity. Qed.

End Undefined.

(** The frequency of a graphics card is a 64-bit integer given to [%d]: what
    [sprintf] then does is undefined. With texts of at most 80 chars and short
    figures that is where the handler stops, after the rows of the machine and
    of its processors; disks, networks and programs are not stored. *)
Theorem gpu_format_undefined {E} `{!Gen E} (state : msg) (uuid : str) (now : Z) (s : st E) :
  short 80 state = true -> (length uuid <= 80)%nat -> rep state "gpus" <> [] ->
  (forall c, c ∈ rep state "cpus" -> cpu_short c) ->
  exists l, handle_state_data state uuid now s = (inr BadFormat, mkSt (gen s) (sqls s ++ l))
    /\ length l = S (length (rep state "cpus")).
Proof.
  intros Hs Hu Hg Hc.
  pose proof (adds_then _ _ _ _ (machine_stored state uuid now Hs Hu) (cpus_stored state uuid now Hs Hu Hc) s) as Hl.
  match type of Hl with _ = (_, mkSt _ (_ ++ ?l)) => exists l end.
  split; [|cbn [app length]; f_equal; apply length_imap]. unfold handle_state_data. cbv [mbind M_bind] in *.
  destruct (machine_row state uuid now s) as [[[]|e] s1]; [|done]. rewrite Hl.
  destruct (rep state "gpus") as [|g gs]; [done|]. unfold for_. cbn [for_from].
  cbv [mbind M_bind]. by rewrite gpu_row_undefined.
Qed.

Lemma gpu_format_undefined_witness :
  exists l, handle_state_data (Msg [("gpus", VRep [Msg []])]) $"u-1" 7 (mkSt () [])
    = (inr BadFormat, mkSt () ([] ++ l)) /\ length l = 1%nat.
Proof.
  apply (gpu_format_undefined (Msg [("gpus", VRep [Msg []])]) $"u-1" 7 (mkSt () []));
    [reflexivity|simpl; lia|done|]. intros c []%not_elem_of_nil.
Defined.

(** ** The programs in the state *)

Section Programs.
Context {O : Type} `{Os O}.

(** The state names every program of the process manager, once and in its
    order. *)
Theorem state_names_programs usage hardware nodeId monNodeId now o ps :
  let '(state, _, _) := get_system_info usage hardware nodeId monNodeId now o ps in
  map (fun p => text p "name") (rep state "processes") = ids ps.
Proof.
  unfold get_system_info. rewrite <- (listener_ids now o ps).
  destruct (listener now o ps) as [[r o'] ps']. cbn [snd].
  change (map (fun p => text p "name") (map (process_info usage) ps') = ids ps').
  by rewrite map_map.
Qed.

End Programs.

End Machine.
