(* ===== verification/HwState.v ===== *)
(** * The state of a machine, from its files to the message
    ([src/node/src/MachineStateTopic.cpp], [get_system_info])

    What the hardware library reports, put into the message a node sends. An
    exception of the library is caught, and nothing is sent; what is undefined is
    not caught. *)

From Stdlib Require Import SpecFloat.
From S2P Require Import Prelude Uuid Ini ProcStat Proto Insert ProcessManager Machine HwText HwPci HwCpu HwDisk HwSystem HwDevices.
Import Ini ProcStat Proto ProcessManager HwText.

Module HwState.
Import HwPci HwCpu HwDisk HwSystem HwDevices.

(** What the library asks the machine for. [stat_at i] are the files when the
    usage of the [i]-th processor is taken, a second after that before it. *)
Record machine := mkMachine {
  content : str -> option str;
  exists_ : str -> bool;
  stat_at : nat -> str -> option str;
  block_entries : list str;
  sc : sysconf;
  release : option str;
  little : bool;
  home : option str;
  pci_ids : str;
  cores : nat;  (* more turns than there are cores or cards *)
}.

Section State.
Context (m : machine).

(** src/node/src/MachineStateTopic.cpp:307-330, [MachineStateTopic::get_system_info].
    The [i]-th processor; [last] are the counters that were seen last. *)
Definition cpu_info (i : nat) (cpu : CPU) (last : Jiffies) : res (msg * Jiffies) :=
  speeds ← currentClockSpeed_MHz (content m) (cores m) (_numLogicalCores cpu);
  cur_freq_vec ← match speeds with
                 | [] => mret []
                 | _ => currentClockSpeed_MHz (content m) (cores m) (_numLogicalCores cpu)
                 end;
  cache ← fits_in 64 (_L1CacheSize_Bytes cpu + _L2CacheSize_Bytes cpu + _L3CacheSize_Bytes cpu);
  '(usage, last') ← currentUtilisation (stat_at m i) last;
  mret (Msg [("vendor", VText (_vendor cpu)); ("model", VText (_modelName cpu));
             ("physical_cores", VInt (_numPhysicalCores cpu)); ("logical_cores", VInt (_numLogicalCores cpu));
             ("max_frequency", VInt (_maxClockSpeed_MHz cpu)); ("regular_frequency", VInt (_regularClockSpeed_MHz cpu));
             ("min_frequency", VInt (_regularClockSpeed_MHz cpu)); ("current_frequency", VInts cur_freq_vec);
             ("cache_size", VInt cache); ("cpu_usage", VReal usage)], last').

(** src/node/src/MachineStateTopic.cpp:307-330, [MachineStateTopic::get_system_info].
    The loop; the counters are kept when it is left. *)
Fixpoint cpus_info (i : nat) (sockets : list CPU) (last : Jiffies) : res (list msg) * Jiffies :=
  match sockets with
  | [] => (mret [], last)
  | cpu :: sockets' =>
      match cpu_info i cpu last with
      | inl (c, last') => let '(cs, last'') := cpus_info (S i) sockets' last' in (cs ← cs; mret (c :: cs), last'')
      | inr e => (fail e, last)
      end
  end.

(** src/node/src/MachineStateTopic.cpp:333-340, [MachineStateTopic::get_system_info]. *)
Definition os_info (os : OS) : msg :=
  Msg [("operating_system", VText (_name os)); ("short_name", VText (_name os)); ("version", VText (_version os));
       ("kernel", VText (_kernel os)); ("architecture", VText (if _32bit os then $"32 bit" else $"64 bit"));
       ("endianess", VText (if _littleEndian os then $"little endian" else $"big endian"))].

(** src/node/src/MachineStateTopic.cpp:344-352, [MachineStateTopic::get_system_info]. *)
Definition gpu_info (gpu : GPU) : msg :=
  Msg [("vendor", VText (g_vendor gpu)); ("model", VText (g_name gpu)); ("driver_version", VText (g_driverVersion gpu));
       ("memory", VReal (SFdiv 53 1024 (SFdiv 53 1024 (of_Z (g_memory_Bytes gpu)) (of_Z 1024)) (of_Z 1024)));
       ("frequency", VInt (g_frequency_MHz gpu))].

(** Bytes in MiB. *)
Definition MiB (bytes : Z) : Z := Z.quot (Z.quot bytes 1024) 1024.

(** src/node/src/MachineStateTopic.cpp:355-359, [MachineStateTopic::get_system_info]. *)
Definition ram_info : res msg :=
  ram ← Memory (content m) (sc m);
  size ← total_Bytes ram; free ← free_Bytes (content m) (sc m); available ← available_Bytes (content m) (sc m);
  mret (Msg [("size", VInt (MiB size)); ("free", VInt (MiB free)); ("available", VInt (MiB available))]).

(** src/node/src/MachineStateTopic.cpp:362-367, [MachineStateTopic::get_system_info]. *)
Definition board_info (board : MainBoard) : msg :=
  Msg [("vendor", VText (b_vendor board)); ("name", VText (b_name board)); ("version", VText (b_version board));
       ("serial_number", VText (b_serialNumber board))].

(** src/node/src/MachineStateTopic.cpp:371-377, [MachineStateTopic::get_system_info]. *)
Definition disk_info (disk : Disk) : msg :=
  Msg [("vendor", VText (d_vendor disk)); ("model", VText (d_model disk)); ("serial_number", VText (d_serial disk));
       ("size", VInt (d_size_Bytes disk))].

(** src/node/src/MachineStateTopic.cpp:332-377, [MachineStateTopic::get_system_info].
    What comes behind the processors. *)
Definition devices_info (cpus : list msg) : res (list (string * value)) :=
  os ← new_OS (content m) (exists_ m) (release m) (little m);
  gpus ← getAllGPUs (content m) (exists_ m) (cores m) (home m) (pci_ids m);
  ram ← ram_info;
  disks ← getAllDisks (content m) (exists_ m) (block_entries m);
  mret [("cpus", VRep cpus); ("os_infos", VSub (os_info os)); ("gpus", VRep (map gpu_info gpus));
        ("rams", VSub ram); ("main_board_infos", VSub (board_info (new_MainBoard (content m))));
        ("disks", VRep (map disk_info disks))].

(** src/node/src/MachineStateTopic.cpp:304-377, [MachineStateTopic::get_system_info].
    The figures of the hardware. *)
Definition hardware_info (last : Jiffies) : res (list (string * value)) * Jiffies :=
  match getAllCPUs (content m) with
  | inl sockets =>
      let '(cpus, last') := cpus_info 0 sockets last in
      (cpus ← cpus; devices_info cpus, last')
  | inr e => (fail e, last)
  end.

(** An exception, which is caught. *)
Definition thrown (e : fault) : bool :=
  match e with InvalidArgument | OutOfRange | LengthError => true | HwText.Undefined | Endless => false end.

(** src/node/src/MachineStateTopic.cpp:301-401, [MachineStateTopic::get_system_info].
    [Some]: the function returns 0, and the message is sent; [None]: it returns -1. *)
Definition system_info {O : Type} `{!Os O} (usage : ProcessAttribute -> spec_float * spec_float)
    (nodeId monNodeId : str) (now : Z) (last : Jiffies) (o : O) (ps : list ProcessAttribute) :
    res (option msg) * Jiffies * O * list ProcessAttribute :=
  match hardware_info last with
  | (inl hardware, last') =>
      let '(state, o', ps') := Machine.get_system_info usage hardware nodeId monNodeId now o ps in
      (mret (Some state), last', o', ps')
  | (inr e, last') => (if thrown e then mret None else fail e, last', o, ps)
  end.

End State.

(** ** A machine as it should be reported *)

(** What the files of a machine say. *)
Record hardware := mkHardware {
  h_sockets : list (processor * list processor);
  h_frequencies : list Z;  (* of the cores, now *)
  h_os : OS;
  h_cards : list (option card);
  h_pci : gmap str PCIVendor;
  h_total_kB : Z;
  h_free_kB : Z;
  h_available_kB : Z;
  h_blocks : list block;
}.

(** A clock speed: that of a file, in MHz, or -1 when there is none. *)
Definition speed_file (content : str -> option str) (path : str) (mhz : Z) : Prop :=
  (content path = None /\ mhz = -1)
  \/ exists hz, content path = Some (to_strz hz ++ [newline]) /\ 0 <= hz < 2 ^ 63 /\ mhz = Z.quot hz 1000.
Definition has_speeds (content : str -> option str) (p : processor) (mx rg : Z) : Prop :=
  speed_file content (cpu_path (p_socket p) "scaling_max_freq") mx
  /\ speed_file content (cpu_path (p_socket p) "base_frequency") rg.

(** Counters of the processor that can be subtracted. *)
Definition counted (j : Jiffies) : Prop :=
  - 2 ^ 62 <= all j < 2 ^ 62 /\ - 2 ^ 62 <= working j < 2 ^ 62.
#[export] Instance counted_dec j : Decision (counted j).
Proof. unfold counted. apply _. Defined.

Definition meminfo_of (content : str -> option str) (h : hardware) : Prop :=
  exists p1 n1 p2 n2 p3 n3 rest,
    content $"/proc/meminfo" = Some (meminfo_text p1 n1 (h_total_kB h) p2 n2 (h_free_kB h)
                                       (p3 ++ mem_line $"MemAvailable" n3 (h_available_kB h) :: rest))
    /\ Forall other_line p1 /\ Forall other_line p2 /\ Forall other_line p3 /\ Forall (fun l => newline ∉ l) rest
    /\ kB_ok (h_total_kB h) /\ kB_ok (h_free_kB h) /\ kB_ok (h_available_kB h).

(** The files of the machine are those of such a machine. Of the usage of the
    processors nothing is said, but that its counters can be read and subtracted;
    [h_pci] is what the mapper has read of its data base. *)
Record is_machine (m : machine) (h : hardware) : Prop := {
  im_cpuinfo : cpuinfo_lists (content m) (processors (h_sockets h));
  im_processors : Forall processor_ok (processors (h_sockets h));
  im_sockets : by_socket 0 (h_sockets h);
  im_speeds : Forall (fun p => exists mx rg, has_speeds (content m) p mx rg) (map fst (h_sockets h));
  im_siblings : Forall (fun p => 0 <= p_siblings p) (processors (h_sockets h));
  im_frequencies : forall i f, h_frequencies h !! i = Some f ->
    content m (cpu_path (Z.of_nat i) "scaling_cur_freq") = Some (to_strz f ++ [newline]) /\ 0 <= f < 2 ^ 63;
  im_last_core : content m (cpu_path (Z.of_nat (length (h_frequencies h))) "scaling_cur_freq") = None;
  im_cores : (length (h_frequencies h) < cores m)%nat;
  im_stat : forall i, exists j, get_jiffies (stat_at m i) 0 = inl j /\ counted j;
  im_os : os_is (content m) (exists_ m) (release m) (little m) (h_os h);
  im_pci : getMapper (home m) (pci_ids m) = inl (h_pci h);
  im_cards : cards_at (content m) (exists_ m) 0 (h_cards h);
  im_turns : (length (h_cards h) < cores m)%nat;
  im_memory : meminfo_of (content m) h;
  im_blocks : Forall (described (content m)) (h_blocks h);
  im_there : Forall (fun b => exists_ m (path_of b) = true) (h_blocks h);
  im_entries : block_entries m = map name_of (h_blocks h);
}.

(** What is said of a processor: that of its socket's first; of the frequencies,
    those of all cores; the size of the cache is two bytes short, and the lowest
    frequency is the regular one. *)
Definition cpu_says (content : str -> option str) (frequencies : list Z) (p : processor) (c : msg) : Prop :=
  has_speeds content p (int c "max_frequency") (int c "regular_frequency")
  /\ text c "model" = p_model p /\ text c "vendor" = p_vendor p
  /\ int c "physical_cores" = p_cores p /\ int c "logical_cores" = p_siblings p
  /\ int c "cache_size" = p_cache_KB p * 1024 - 2
  /\ int c "min_frequency" = int c "regular_frequency"
  /\ ints c "current_frequency" = map (fun f => Z.quot f 1000) frequencies.

(** ** Lemmas *)

Lemma share_counted limit last current :
  counted last -> counted current -> exists u, share limit last current = inl u.
Proof.
  intros [H1 H2] [H3 H4]. unfold share.
  assert (forall z, - 2 ^ 63 <= z < 2 ^ 63 -> fits_in 64 z = inl z) as Hf.
  { intros z Hz. unfold fits_in. destruct (Z.leb_spec (- 2 ^ (64 - 1)) z), (Z.ltb_spec z (2 ^ (64 - 1)));
      simpl in *; try lia; done. }
  rewrite !Hf by lia. cbv [mbind res_bind]. by eexists.
Qed.

Lemma utilisation_counted stat last :
  counted last -> (exists j, get_jiffies stat 0 = inl j /\ counted j) ->
  exists u j, currentUtilisation stat last = inl (u, j) /\ counted j.
Proof.
  intros Hl (j & Hj & Hc). unfold currentUtilisation. rewrite Hj. cbv [mbind res_bind].
  destruct (share_counted one last j Hl Hc) as [u ->]. by exists u, j.
Qed.

Lemma speeds_read m h n :
  is_machine m h -> 0 <= n ->
  currentClockSpeed_MHz (content m) (cores m) n = inl (map (fun f => Z.quot f 1000) (h_frequencies h)).
Proof. intros H Hn. apply clock_speeds_end; [apply H|apply H|apply H|done]. Qed.

Lemma speed_read content path mhz :
  speed_file content path mhz ->
  (Hz ← get_specs_by_file_path content path; mret (if -1 <? Hz then Z.quot Hz 1000 else -1)) = inl mhz.
Proof.
  unfold get_specs_by_file_path. intros [[-> ->]|(hz & -> & Hr & ->)]; [done|].
  rewrite line_of_line by (by apply to_strz_without || apply to_strz_nonempty).
  unfold stoll. rewrite <- (app_nil_r (to_strz hz)), sto_printed; [|simpl; lia|done].
  cbv [mbind res_bind]. by destruct (Z.ltb_spec (-1) hz); [|lia].
Qed.

Lemma cpu_speeds content p mx rg :
  has_speeds content p mx rg ->
  cpu_of content p = inl (mkCPU (p_socket p) (p_model p) (p_vendor p) (p_cores p) (p_siblings p) mx rg (-1) (-1)
    (p_cache_KB p * 1024) (p_flags p)).
Proof.
  intros [Hm Hr]. apply speed_read in Hm, Hr. unfold cpu_of, getMaxClockSpeed_MHz, getRegularClockSpeed_MHz.
  by rewrite Hm, Hr.
Qed.

Lemma each_speeds content ps :
  Forall (fun p => exists mx rg, has_speeds content p mx rg) ps -> exists cs, each (cpu_of content) ps = inl cs.
Proof.
  induction 1 as [|p ps (mx & rg & Hp) _ [cs IH]]; [by exists []|]. cbn [each].
  rewrite (cpu_speeds _ _ _ _ Hp). cbv [mbind res_bind]. rewrite IH. by eexists.
Qed.

Lemma cpu_info_says m h i p cpu last :
  is_machine m h -> processor_ok p -> 0 <= p_siblings p ->
  (exists mx rg, has_speeds (content m) p mx rg) -> cpu_of (content m) p = inl cpu -> counted last ->
  exists c last', cpu_info m i cpu last = inl (c, last') /\ cpu_says (content m) (h_frequencies h) p c /\ counted last'.
Proof.
  intros H (_ & _ & Hk & _) Hs (max & regular & Hsp) Hc Hl. rewrite (cpu_speeds _ _ _ _ Hsp) in Hc. injection Hc as <-.
  unfold cpu_info. cbn [_numLogicalCores _L1CacheSize_Bytes _L2CacheSize_Bytes _L3CacheSize_Bytes].
  rewrite (speeds_read m h) by done. cbv [mbind res_bind].
  assert (match map (fun f => Z.quot f 1000) (h_frequencies h) with
          | [] => mret []
          | _ :: _ => inl (map (fun f => Z.quot f 1000) (h_frequencies h))
          end = (inl (map (fun f => Z.quot f 1000) (h_frequencies h)) : res (list Z))) as -> by by destruct (map _ _).
  assert (fits_in 64 (-1 + -1 + p_cache_KB p * 1024) = inl (p_cache_KB p * 1024 - 2)) as ->.
  { unfold in_int in Hk. apply andb_true_iff in Hk as [Hk1%Z.leb_le Hk2%Z.ltb_lt]. unfold fits_in.
    destruct (Z.leb_spec (- 2 ^ (64 - 1)) (-1 + -1 + p_cache_KB p * 1024)),
      (Z.ltb_spec (-1 + -1 + p_cache_KB p * 1024) (2 ^ (64 - 1))); simpl in *; try lia. f_equal. lia. }
  destruct (utilisation_counted (stat_at m i) last Hl (im_stat m h H i)) as (u & j & -> & Hj).
  eexists _, _. split; [reflexivity|]. split; [|done]. split; [exact Hsp|]. by repeat split.
Qed.

Lemma cpus_say m h ps : forall i cpus last,
  is_machine m h -> Forall processor_ok ps -> Forall (fun p => 0 <= p_siblings p) ps ->
  Forall (fun p => exists mx rg, has_speeds (content m) p mx rg) ps ->
  each (cpu_of (content m)) ps = inl cpus -> counted last ->
  exists cs last', cpus_info m i cpus last = (inl cs, last') /\ Forall2 (cpu_says (content m) (h_frequencies h)) ps cs.
Proof.
  induction ps as [|p ps IH]; intros i cpus last H Hp Hs Hf Hc Hl.
  - injection Hc as <-. eexists _, _. split; [reflexivity|constructor].
  - apply Forall_cons in Hp as [Hp Hps]. apply Forall_cons in Hs as [Hs Hss].
    apply Forall_cons in Hf as [Hf Hfs]. cbn [each] in Hc.
    destruct (cpu_of (content m) p) as [cpu|] eqn:Ec; [|done]. cbv [mbind res_bind] in Hc.
    destruct (each (cpu_of (content m)) ps) as [cpus'|] eqn:Ee; [|done]. injection Hc as <-.
    destruct (cpu_info_says m h i p cpu last H Hp Hs Hf Ec Hl) as (c & last' & Hi & Hsay & Hl').
    destruct (IH (S i) cpus' last' H Hps Hss Hfs eq_refl Hl') as (cs & last'' & Hi' & Hall).
    cbn [cpus_info]. rewrite Hi, Hi'. eexists _, _. split; [reflexivity|]. by constructor.
Qed.

Lemma ram_says m h :
  is_machine m h ->
  ram_info m = inl (Msg [("size", VInt (h_total_kB h / 1024)); ("free", VInt (h_free_kB h / 1024));
                         ("available", VInt (h_available_kB h / 1024))]).
Proof.
  intros H. destruct (im_memory m h H) as (p1 & n1 & p2 & n2 & p3 & n3 & rest & Hc & H1 & H2 & H3 & Hr & Ht & Hf & Ha).
  assert (forall k, kB_ok k -> MiB (k * 1024) = k / 1024) as Hm.
  { intros k Hk. unfold kB_ok in Hk. unfold MiB. rewrite Z.quot_mul by done. apply Z.quot_div_nonneg; lia. }
  unfold ram_info, Memory, free_Bytes, available_Bytes.
  rewrite (memory_parsed _ (sc m) _ _ _ _ _ _ _ _ _ _ Hc H1 H2 H3 Hr Ht Hf Ha).
  cbv [mbind res_bind mret res_ret]. unfold total_Bytes. cbn [loop m_total_Bytes total].
  rewrite fits_in_64 by (unfold kB_ok in Ht; lia). cbv [mbind res_bind mret res_ret].
  cbn [free available]. by rewrite Z.add_0_l, !Hm.
Qed.

Lemma firsts_of {A} (P : A -> Prop) (groups : list (A * list A)) :
  Forall P (concat (map (fun g => g.1 :: g.2) groups)) -> Forall P (map fst groups).
Proof.
  induction groups as [|[p ps] groups IH]; intros H; [constructor|]. cbn [map concat app fst snd] in *.
  apply Forall_cons in H as [Hp H]. apply Forall_app in H as [_ H]. constructor; auto.
Qed.

(** What is said of the whole machine, one message for every socket. *)
Definition fields_of (m : machine) (h : hardware) (cs : list msg) : list (string * value) :=
  [("cpus", VRep cs); ("os_infos", VSub (os_info (h_os h)));
   ("gpus", VRep (map gpu_info (gpus_of (h_pci h) 0 (h_cards h))));
   ("rams", VSub (Msg [("size", VInt (h_total_kB h / 1024)); ("free", VInt (h_free_kB h / 1024));
                       ("available", VInt (h_available_kB h / 1024))]));
   ("main_board_infos", VSub (board_info (new_MainBoard (content m))));
   ("disks", VRep (map disk_info (omap disk_of (h_blocks h))))].

Lemma hardware_fields m h last :
  is_machine m h -> counted last ->
  exists cs last', hardware_info m last = (inl (fields_of m h cs), last')
    /\ Forall2 (cpu_says (content m) (h_frequencies h)) (map fst (h_sockets h)) cs.
Proof.
  intros H Hl. destruct (each_speeds _ _ (im_speeds m h H)) as [cpus Hcpus].
  destruct (cpus_say m h (map fst (h_sockets h)) 0 cpus last H) as (cs & last' & Hi & Hall);
    [apply firsts_of, H|apply firsts_of, H|apply H|done|done|].
  assert (getAllCPUs (content m) = inl cpus) as Ec.
  { rewrite <- Hcpus. apply sockets_reported; apply H. }
  exists cs, last'. split; [|done].
  unfold hardware_info. rewrite Ec, Hi. cbv [mbind res_bind]. unfold devices_info. rewrite (os_read _ _ _ _ _ (im_os m h H)).
  cbv [mbind res_bind]. unfold getAllGPUs. rewrite (im_pci m h H). cbv [mbind res_bind].
  rewrite (gpus_from_cards _ _ _ (h_cards h)) by apply H. rewrite (ram_says m h H).
  by rewrite (im_entries m h H), all_disks by apply H.
Qed.

(** ** The theorem *)

(** C24. A machine whose files are in order ([is_machine]: [/proc/cpuinfo] lists the
    processors socket by socket from 0, with the lines that [one_cpu_per_socket]
    asks for; the frequency files of the cores and sockets hold a number, those of
    the sockets may be missing; [/etc/os-release] has a line of the name and one of
    the version; [/proc/meminfo] has the total, the free and the available memory in
    this order; the places of cards are as [gpus_reported] and the entries of
    [/sys/class/block] as [disks_reported] ask for; the counters of [/proc/stat] can
    be read and subtracted) is reported as it is: one processor for every socket,
    with its counts, cache, speeds and the frequencies of all cores; the name,
    version, kernel, width and byte order of the operating system; the cards with
    the names that were read of the data base; the memory in MiB; and the disks
    without partitions and virtual devices. Of the size of the cache two bytes are
    missing. The usage of the processors and the board are not described. *)
Theorem state_of_machine (m : machine) (h : hardware) (last : Jiffies)
  (H : is_machine m h) (Hl : counted last) :
  exists fields last', hardware_info m last = (inl fields, last')
    /\ let state := Msg fields in
       Forall2 (cpu_says (content m) (h_frequencies h)) (map fst (h_sockets h)) (rep state "cpus")
       /\ state ~> "os_infos" = os_info (h_os h)
       /\ rep state "gpus" = map gpu_info (gpus_of (h_pci h) 0 (h_cards h))
       /\ int (state ~> "rams") "size" = h_total_kB h / 1024
       /\ int (state ~> "rams") "free" = h_free_kB h / 1024
       /\ int (state ~> "rams") "available" = h_available_kB h / 1024
       /\ rep state "disks" = map disk_info (omap disk_of (h_blocks h)).
Proof.
  destruct (hardware_fields m h last H Hl) as (cs & last' & Hf & Hc).
  exists (fields_of m h cs), last'. split; [exact Hf|]. by repeat split.
Qed.

(** A server with two sockets, a SCSI disk and perhaps a card. *)
Definition server_files : list (string * string) :=
  [("/proc/meminfo", "MemTotal:       16316412 kB
MemFree:         1047660 kB
MemAvailable:    9411752 kB
"); ("/etc/os-release", "PRETTY_NAME='Ubuntu 22.04'
ID=ubuntu
VERSION='22.04'
"); ("/sys/devices/system/cpu/cpu0/cpufreq/scaling_cur_freq", "1200000
"); ("/sys/devices/system/cpu/cpu0/cpufreq/scaling_max_freq", "3900000
"); ("/sys/class/drm/card0/device/vendor", "0x0e11
"); ("/sys/class/drm/card0/device/device", "0xb203
"); ("/sys/class/block/sda/device/vendor", "ATA     
"); ("/sys/class/block/sda/device/model", "ST2000DM008-2FR1
"); ("/sys/class/block/sda/size", "3907029168
")]%string.

Definition two_sockets : list (processor * list processor) := [(xeon 0, [xeon 0]); (xeon 1, [xeon 1])].

Definition server (card : bool) : machine :=
  mkMachine
    (fun path => if decide (path = $"/proc/cpuinfo") then Some (xeon_text (processors two_sockets))
                 else lookup_file server_files path)
    (fun path => card && bool_decide (path = $"/sys/class/drm/card0/")
                 || bool_decide (path ∈ [$"/sys/class/block/sda"; $"/sys/class/block/sda1"]))
    (fun i path => if decide (path = $"/proc/stat") then Some $"cpu  300 0 99 600 0 0 0 0 0 0
" else None)
    [$"sda"; $"sda1"] (mkSysconf 1 1 4096) (Some $"5.15.0") true (Some $"/root") (database_text excerpt) 8.

Definition server_hardware (card : bool) : hardware :=
  mkHardware two_sockets [1200000] (mkOS $"Ubuntu 22.04" $"22.04" $"5.15.0" true false false true)
    [if card then Some (mkCard $"0x0e11" $"0xb203" None) else None; None; None] (database_of excerpt) 16316412 1047660 9411752
    [Sd "a" seagate; SdPart "a" $"1"].

Lemma server_described card : is_machine (server card) (server_hardware card).
Proof.
  assert (meminfo_of (content (server card)) (server_hardware card)) as Hm.
  { exists [], 7%nat, [], 9%nat, [], 4%nat, [].
    split_and!; try apply Forall_nil_2; try (split; vm_compute; congruence); vm_compute; reflexivity. }
  assert (Forall (described (content (server card))) (h_blocks (server_hardware card))) as Hb.
  { repeat apply Forall_cons_2; [..|apply Forall_nil_2]; [|by_decision].
    split; [reflexivity|]. split; [|split_and!].
    - split; [left; vm_compute; congruence|vm_compute; split; congruence].
    - split; [by_decision|]. by exists 5%nat.
    - split; [by_decision|]. by exists 0%nat.
    - reflexivity.
    - reflexivity. }
  assert (forall i, exists j, get_jiffies (stat_at (server card) i) 0 = inl j /\ counted j) as Hj.
  { intros i. eexists. split; [vm_compute; reflexivity|]. by_decision. }
  assert (cpuinfo_lists (content (server card)) (processors two_sockets)) as Hi.
  { exists (imap xeon_block (processors two_sockets)). split; [reflexivity|by_decision]. }
  assert (Forall (fun p => exists mx rg, has_speeds (content (server card)) p mx rg) [xeon 0; xeon 1]) as Hs.
  { repeat apply Forall_cons_2; [exists 3900, (-1)|exists (-1), (-1)|by apply Forall_nil_2];
      (split; [|by left]); [right; exists 3900000; split; [reflexivity|split; [lia|reflexivity]]|by left]. }
  assert (os_is (content (server card)) (exists_ (server card)) (release (server card)) true
            (h_os (server_hardware card))) as Ho.
  { split; [|by destruct card]. exists [], "'"%char, "'"%char, [$"ID=ubuntu"], "'"%char, "'"%char, [].
    split; [left; reflexivity|]. split_and!; by_decision. }
  destruct card; (split;
    [exact Hi|by_decision|by_decision|exact Hs|by_decision| |
     vm_compute; reflexivity|simpl; lia|exact Hj|exact Ho|vm_compute; reflexivity| |simpl; lia|
     exact Hm|exact Hb|by_decision|reflexivity]).
  1, 3: intros [|i] f; [intros [= <-]; split; [vm_compute; reflexivity|lia]|done].
  - by_decision.
  - by_decision.
Qed.

Lemma state_of_machine_witness :
  exists fields last', hardware_info (server true) (mkJiffies (-1) (-1)) = (inl fields, last')
    /\ map (fun c => int c "cache_size") (rep (Msg fields) "cpus") = [23068670; 23068670]
    /\ int (Msg fields ~> "rams") "size" = 15933.
Proof.
  destruct (state_of_machine (server true) (server_hardware true) (mkJiffies (-1) (-1)))
    as (fields & last' & Hf & Hc & _ & _ & Hr & _).
  - apply server_described.
  - by_decision.
  - exists fields, last'. split; [exact Hf|]. split; [|exact Hr].
    destruct (rep (Msg fields) "cpus") as [|c1 [|c2 [|]]]; cbv [server_hardware two_sockets h_sockets map fst] in Hc.
    1-2, 4: by repeat (apply Forall2_cons in Hc as [_ Hc]); inversion Hc.
    apply Forall2_cons in Hc as [(_ & _ & _ & _ & _ & E1 & _) Hc]. apply Forall2_cons in Hc as [(_ & _ & _ & _ & _ & E2 & _) _].
    cbn [map]. rewrite E1, E2. reflexivity.
Defined.

(** ** The rows in the data base *)

(** The row of the machine. *)
Definition machine_of (m : machine) (h : hardware) (node uuid : str) (received : Z) : str :=
  Machine.insertion "machine_state" (Machine.machine_values node uuid received (os_info (h_os h))
    (board_info (new_MainBoard (content m)))
    (Msg [("size", VInt (h_total_kB h / 1024)); ("free", VInt (h_free_kB h / 1024));
          ("available", VInt (h_available_kB h / 1024))])).

(** A row of the [i]-th socket, the first processor of which is [p]. *)
Definition socket_row (m : machine) (h : hardware) (node uuid : str) (received : Z)
    (ip : nat * processor) (sql : str) : Prop :=
  let p := ip.2 in
  exists mx rg usage, has_speeds (content m) p mx rg /\
    sql = Machine.insertion "node_cpu" (Machine.cpu_values node uuid received ip.1 (p_vendor p) (p_model p)
            (p_cores p) (p_siblings p) rg mx rg (map (fun f => Z.quot f 1000) (h_frequencies h))
            (p_cache_KB p * 1024 - 2) usage).

Definition disk_of_row (node uuid : str) (received : Z) (i : nat) (d : Disk) : str :=
  Machine.insertion "node_disks"
    (Machine.disk_values node uuid received i (d_vendor d) (d_model d) (d_serial d) (d_size_Bytes d)).

Definition program_row (usage : ProcessAttribute -> spec_float * spec_float) (node uuid : str)
    (p : ProcessAttribute) : str :=
  Machine.insertion "node_process" (Machine.process_values node uuid (Machine.process_info usage p)).

Lemma socket_rows m h node uuid received ps cs : forall i,
  Forall2 (cpu_says (content m) (h_frequencies h)) ps cs ->
  Forall2 (socket_row m h node uuid received) (imap (fun k p => ((i + k)%nat, p)) ps)
    (imap (fun k => Machine.cpu_sql node uuid received (i + k)) cs).
Proof.
  intros i H. revert i. induction H as [|p c ps cs Hc _ IH]; intros i; [constructor|]. cbn [imap]. constructor.
  - rewrite Nat.add_0_r. destruct Hc as (Hsp & Em & Ev & Ep & El & Ec & Er & Ef).
    exists (int c "max_frequency"), (int c "regular_frequency"), (real c "cpu_usage"). split; [exact Hsp|].
    unfold Machine.cpu_sql. cbn [fst snd]. by rewrite Em, Ev, Ep, El, Ec, Er, Ef.
  - specialize (IH (S i)).
    rewrite (imap_ext ((fun k p => ((i + k)%nat, p)) ∘ S) (fun k p => ((S i + k)%nat, p)) ps)
      by (intros; simpl; f_equal; lia).
    rewrite (imap_ext ((fun k => Machine.cpu_sql node uuid received (i + k)) ∘ S)
      (fun k => Machine.cpu_sql node uuid received (S i + k)) cs) by (intros; simpl; f_equal; lia).
    exact IH.
Qed.

(** The statements for the message of a machine. *)
Lemma state_rows_of m h usage nodeId monNodeId ps cs uuid received :
  Machine.state_sqls
    (Msg ([("src_node_id", VText nodeId); ("to_node_id", VText monNodeId);
           ("processes", VRep (map (Machine.process_info usage) ps))] ++ fields_of m h cs)) uuid received
  = machine_of m h nodeId uuid received :: imap (Machine.cpu_sql nodeId uuid received) cs
    ++ imap (disk_of_row nodeId uuid received) (omap disk_of (h_blocks h)) ++ map (program_row usage nodeId uuid) ps.
Proof.
  transitivity (machine_of m h nodeId uuid received :: imap (Machine.cpu_sql nodeId uuid received) cs
    ++ imap (Machine.disk_sql nodeId uuid received) (map disk_info (omap disk_of (h_blocks h)))
    ++ map (Machine.process_sql nodeId uuid) (map (Machine.process_info usage) ps)); [reflexivity|].
  rewrite map_map. do 3 f_equal. exact (imap_fmap _ _ _).
Qed.

(** C38. From the files of a node to the data base of the manager: a machine whose
    files are in order (as for [state_of_machine]) and that has no graphics card
    sends its state; when its texts have at most 80 chars and the printed figures at
    most 500, the manager executes exactly these statements for it, in this order:
    the row of the machine, with its system and memory; a row of every socket, of
    every disk and of every program; each with the node's id and the id that was
    drawn for the message, in the columns named. Only the usage of the processors
    is not described. *)
Theorem hardware_reaches_database {O E : Type} `{!Os O} `{!Gen E} (m : machine) (h : hardware) usage
  nodeId monNodeId now last (o : O) ps uu uuid received
  (H : is_machine m h) (Hl : counted last) (Hg : gpus_of (h_pci h) 0 (h_cards h) = [])
  (Hu : length uu = 16%nat) (Hd : Uuid.generate uu = Some uuid) :
  exists state, (system_info m usage nodeId monNodeId now last o ps).1.1.1 = mret (Some state)
    /\ (short 80 state = true -> (forall c, c ∈ rep state "cpus" -> Machine.cpu_short c) ->
        (forall p, p ∈ rep state "processes" -> Machine.usage_short p) ->
        exists sockets,
          Forall2 (socket_row m h nodeId uuid received) (imap pair (map fst (h_sockets h))) sockets
          /\ forall s : Insert.st E, Machine.handle_state_data state uuid received s
             = (inl (), Insert.mkSt (Insert.gen s) (Insert.sqls s ++
                 machine_of m h nodeId uuid received :: sockets
                 ++ imap (disk_of_row nodeId uuid received) (omap disk_of (h_blocks h))
                 ++ map (program_row usage nodeId uuid) (ProcessManager.listener now o ps).2))).
Proof.
  destruct (hardware_fields m h last H Hl) as (cs & last' & Hf & Hc).
  unfold system_info. rewrite Hf. unfold Machine.get_system_info.
  destruct (ProcessManager.listener now o ps) as [[r o'] ps']. cbn [fst snd] in *.
  eexists. split; [reflexivity|]. intros Hshort Hcpu Husage.
  destruct (Uuid.generate_fits uu Hu) as (s & Hs & Hsl). rewrite Hd in Hs. injection Hs as <-.
  exists (imap (Machine.cpu_sql nodeId uuid received) cs).
  split; [exact (socket_rows m h nodeId uuid received _ _ 0 Hc)|]. intros s.
  rewrite (Machine.state_rows _ uuid received Hshort); [|lia| |done|done].
  - by rewrite state_rows_of.
  - change (map gpu_info (gpus_of (h_pci h) 0 (h_cards h)) = []). by rewrite Hg.
Qed.

#[local] Existing Instance Machine.no_ids.

Lemma hardware_reaches_database_witness :
  exists state,
    (system_info (server false) (fun _ => (S754_zero false, S754_zero false)) $"edge" $"center" 0 (mkJiffies (-1) (-1))
       (mkToy 1 []) []).1.1.1 = mret (Some state)
    /\ drop 3 (Insert.sqls (Machine.handle_state_data state $"AB-AB-AB-AB-AB-AB-AB-AB-AB-AB-AB-AB-AB-AB-AB-AB" 7
         (Insert.mkSt () [])).2)
       = [$"insert into node_disks(node_id,disks_number,disks_vendor,disks_model,disks_serial_number,disks_size,machine_state_uuid,updated_at)value('edge',0,'ATA','ST2000DM008-2FR1','<unknown>',2000398934016,'AB-AB-AB-AB-AB-AB-AB-AB-AB-AB-AB-AB-AB-AB-AB-AB',7)"].
Proof.
  destruct (hardware_reaches_database (E := ()) (server false) (server_hardware false)
    (fun _ => (S754_zero false, S754_zero false)) $"edge" $"center" 0 (mkJiffies (-1) (-1)) (mkToy 1 []) []
    (replicate 16 171) $"AB-AB-AB-AB-AB-AB-AB-AB-AB-AB-AB-AB-AB-AB-AB-AB" 7) as (state & Hs & Ha).
  - apply server_described.
  - by_decision.
  - reflexivity.
  - reflexivity.
  - vm_compute. reflexivity.
  - exists state. split; [exact Hs|]. destruct Ha as (sockets & Hf & Ha).
    + vm_compute in Hs. injection Hs as <-. vm_compute. reflexivity.
    + vm_compute in Hs. injection Hs as <-. intros c Hc.
      repeat (apply elem_of_cons in Hc as [->|Hc]; [split; vm_compute; lia|]). by apply elem_of_nil in Hc.
    + vm_compute in Hs. injection Hs as <-. intros c Hc. by apply elem_of_nil in Hc.
    + rewrite Ha. apply Forall2_length in Hf. destruct sockets as [|r1 [|r2 [|]]]; [done|done| |done].
      vm_compute. reflexivity.
Defined.

(** Where the first processor has no line of its siblings, room for -1
    frequencies is asked for: nothing is sent, and the programs are not looked
    after. *)
Theorem no_siblings_nothing_sent {O : Type} `{!Os O} (m : machine) usage nodeId monNodeId now last (o : O) ps cpu cpus
  (Hc : getAllCPUs (content m) = inl (cpu :: cpus)) (Hn : _numLogicalCores cpu < 0) :
  system_info m usage nodeId monNodeId now last o ps = (mret None, last, o, ps).
Proof.
  unfold system_info, hardware_info. rewrite Hc. cbn [cpus_info]. unfold cpu_info, currentClockSpeed_MHz.
  by destruct (Z.ltb_spec (_numLogicalCores cpu) 0); [|lia].
Qed.

(** A virtual machine that lists no siblings. *)
Definition small_machine : machine :=
  mkMachine (fun path => if decide (path = $"/proc/cpuinfo") then Some $"model name	: QEMU
physical id	: 0
power management:

" else None) (fun _ => false) (fun _ _ => None) [] (mkSysconf 1 1 4096) None true None [] 8.

Lemma no_siblings_nothing_sent_witness :
  system_info small_machine (fun _ => (S754_zero false, S754_zero false)) $"edge" $"center" 0
    (mkJiffies (-1) (-1)) (mkToy 1 []) []
  = (mret None, mkJiffies (-1) (-1), mkToy 1 [], []).
Proof.
  apply (no_siblings_nothing_sent small_machine _ _ _ _ _ _ _ (mkCPU 0 $"QEMU" [] (-1) (-1) (-1) (-1) (-1) (-1) (-1) []) []);
    [vm_compute; reflexivity|simpl; lia].
Defined.

End HwState.
