(* ===== verification/NodeReg.v ===== *)
(** * Configurations for the nodes

    [src/node/src/NodeTopic.cpp]. The manager sends the rows of [node_msg] as
    configurations; an edge node puts the configuration it gets in the place of
    its own, keeps the old one, looks whether the new one is meant for it, and
    answers; the manager stores the answer. Serialisation is not modelled. *)

From stdpp Require Import gmap.
From S2P Require Import Prelude SnowFlake StrUtil Ini FileSys FileSplit Printf Proto Insert.
Import Ini FileSys FileSplit Printf Insert.

Module NodeReg.

(** src/node/src/proto/node.proto:240-258, [Node]. *)
Record Node := mkNode {
  uuid : str;
  to_node_id : str;
  to_node_name : str;
  src_node_id : str;
  to_config_path : str;
  src_config_path : str;
  config : str;
  config_hash : str;
  arch : Z;
  os : Z;
  domain : Z;
  to_group : str;
}.

(** src/node/src/proto/node.proto:260-272, [NodeReply]. *)
Record NodeReply := mkReply {
  r_uuid : str;
  r_to_node_id : str;
  r_to_node_name : str;
  r_src_node_id : str;
  r_to_group : str;
  reply_uuid : str;
  status : Z;
  desc : str;
  created_at : Z;
  updated_at : Z;
}.

(** src/dds/NodeInfo.h:24-48, [NodeInfo]. What the handlers use. *)
Record NodeInfo := mkInfo {
  nodeId_ : str;
  nodeName_ : str;
  archType_ : str;
  osType_ : str;
  domain_ : Z;
  group_ : str;
}.

(** src/node/src/NodeTopic.cpp:24-29, [NodeTopic::arch_map_]. *)
Definition arch_map_ : gmap str Z :=
  list_to_map [($"archType_UNKNOWN", 0); ($"amd64", 1); ($"x86", 2); ($"arm64v8", 3)].
(** src/node/src/NodeTopic.cpp:31-35, [NodeTopic::os_map_]. *)
Definition os_map_ : gmap str Z :=
  list_to_map [($"OSType_UNKNOWN", 0); ($"windows", 1); ($"linux", 2)].

(** ** The manager *)

Section Topic.
Context (nodeInfo_ : NodeInfo).

(** The eight columns of a row. *)
Abbreviation row8 := (str * str * str * str * str * str * str * str)%type.

(** src/node/src/NodeTopic.cpp:124-148, [NodeTopic::writer_worker]. *)
Definition node_msg (row : row8) : Node :=
  let '(c0, c1, c2, c3, c4, c5, c6, c7) := row in {|
    uuid := c0; to_node_id := c1; to_node_name := c2; src_node_id := c3;
    to_config_path := c4; src_config_path := c5; config := c6; config_hash := c7;
    arch := default 0 (arch_map_ !! archType_ nodeInfo_);
    os := default 0 (os_map_ !! osType_ nodeInfo_);
    domain := uwrap 32 (domain_ nodeInfo_);
    to_group := group_ nodeInfo_;
  |}.

Section Manager.
Context {E : Type} `{!Gen E}.

(** src/node/src/NodeTopic.cpp:116-119, [NodeTopic::writer_worker]. *)
Definition task_sql (partition_ : str) : M E str :=
  sprintf 1024
    (lines ["select `uuid`,`to_node_id`,`to_node_name`,`src_node_id`,`to_config_path`,";
            "`src_config_path`,`config`,`config_hash` from node_msg where comm_status_id=1 and to_node_id='%s'"])
    [P partition_].

(** src/node/src/NodeTopic.cpp:114-171, [NodeTopic::writer_worker]. A turn of
    the loop: what is sent; [select] is the data base's answer. *)
Definition writer_worker (select : str -> list row8) (partition_ : str) : M E (list Node) :=
  sql ← task_sql partition_;
  mret (map node_msg (select sql)).

(** src/node/src/NodeTopic.cpp:336-391, [NodeTopic::handle_reply]. After the
    message is parsed. The id is drawn and not used. *)
Definition handle_reply (reply : NodeReply) : M E () :=
  if (0 <? length (r_uuid reply))%nat then
    _ ← next;
    updateReplyStat ← sprintf 1024 (lines ["update node_msg set comm_status_id=%d where uuid='%s'"])
      [D (status reply); P (reply_uuid reply)];
    _ ← excute updateReplyStat;
    replyInfo ← sprintf 1024
      (lines ["insert into node_msg_reply (uuid,to_node_id,to_node_name,reply_uuid,description,";
              "                 to_group,comm_status_id) values ('%s','%s','%s','%s','%s','%s',%d)"])
      [P (r_uuid reply); P (r_to_node_id reply); P (r_to_node_name reply); P (reply_uuid reply);
       P (desc reply); P (r_to_group reply); D (status reply)];
    excute replyInfo
  else mret ().

End Manager.

(** ** The edge node *)

(** src/node/src/NodeTopic.cpp:247-247, [NodeTopic::process_config]. *)
Definition tmpDir (configPath : str) : str := configPath ++ $"_tmp" ++ $"/".

(** src/node/src/NodeTopic.cpp:255-257, [NodeTopic::process_config]. [back] of
    an empty vector is undefined; a path is not empty here. *)
Definition copyFilename (configPath : str) : str :=
  tmpDir configPath ++ default [] (last (StrUtil.split configPath "/"%char)).

(** src/node/src/NodeTopic.cpp:264-265, [NodeTopic::process_config]. *)
Definition newNodeId (content : option str) : str :=
  GetString (INIReader_file content).2 $"base" $"node_id" [].

(** src/node/src/NodeTopic.cpp:245-289, [NodeTopic::process_config]. [None]:
    [mkdir] throws. *)
Definition process_config (id : str) (now : Z) (fs : FileSys.t) (node : Node) :
    option (FileSys.t * NodeReply) :=
  let configPath := to_config_path node in
  fs1 ← mkdir fs (tmpDir configPath);
  let copy := copyFilename configPath in
  let fs2 := (move fs1 configPath copy).2 in
  let fs3 := write_file fs2 configPath (config node) in
  let accepted := bool_decide (newNodeId (read fs3 configPath) = nodeId_ nodeInfo_) in
  let fs4 := if accepted then fs3 else (move fs3 copy configPath).2 in
  let desc := if accepted then nodeName_ nodeInfo_ ++ $" config update success!"
              else $"Because nodeId unmatch, " ++ nodeName_ nodeInfo_ ++ $" config update fail!" in
  Some (fs4, {|
    r_uuid := id; r_to_node_id := src_node_id node; r_to_node_name := [];
    r_src_node_id := to_node_id node; r_to_group := to_group node; reply_uuid := uuid node;
    status := if accepted then 2 else 3; desc := desc; created_at := now; updated_at := now |}).

(** src/node/src/NodeTopic.cpp:310-334, [NodeTopic::handle_node]. After the
    message is parsed: the reply that is sent, if any. *)
Definition handle_node (needReply_ : bool) (id : str) (now : Z) (fs : FileSys.t) (node : Node) :
    FileSys.t * option NodeReply :=
  if needReply_ && (0 <? length (uuid node))%nat then
    match process_config id now fs node with
    | Some (fs', reply) => (fs', Some reply)
    | None => (fs, None)
    end
  else (fs, None).

End Topic.

(** ** The configuration file *)

(** Writing and moving files changes no directories. *)
Lemma write_file_dirs fs f b : dirs (write_file fs f b) = dirs fs /\ cwd (write_file fs f b) = cwd fs.
Proof. unfold write_file, write, writep. by destruct (_ || _). Qed.

(** A place for a file: its directory exists and it is not a directory. *)
Definition place (fs : FileSys.t) (s : str) (p : FileSys.path) : Prop :=
  resolve fs s = p /\ is_dirp fs (removelast p) = true /\ p <> [] /\ p ∉ dirs fs.

Lemma place_same fs fs' s p :
  dirs fs' = dirs fs -> cwd fs' = cwd fs -> place fs s p -> place fs' s p.
Proof.
  intros Hd Hc (<- & H1 & H2 & H3). unfold place. rewrite (resolve_cwd fs' fs) by done.
  by rewrite (is_dirp_dirs fs' fs), Hd by done.
Qed.

Lemma write_file_place fs s p b :
  place fs s p -> write_file fs s b = mk (<[p := b]> (files fs)) (dirs fs) (cwd fs).
Proof.
  intros (<- & Hd & Hne & Hn). unfold write_file, write, writep. rewrite Hd.
  unfold is_dirp at 1. by rewrite !bool_decide_false by done.
Qed.

Lemma read_place fs s p : place fs s p -> read fs s = files fs !! p.
Proof. by intros (<- & _). Qed.

(** [move] between two places: of a file that is not there an empty one is
    made. *)
Lemma move_places fs s p s' p' :
  place fs s p -> place fs s' p' -> p <> p' ->
  (move fs s s').2 = mk (delete p (<[p' := default [] (files fs !! p)]> (files fs))) (dirs fs) (cwd fs).
Proof.
  intros Hs Hs' Hne. unfold move. rewrite (read_place _ _ _ Hs).
  destruct (files fs !! p) as [b|] eqn:Hb; cbn [default].
  2:{ rewrite (write_file_place _ _ _ _ Hs'). by rewrite delete_id by by rewrite lookup_insert_ne. }
  rewrite bool_decide_false by (destruct Hs as [-> _], Hs' as [-> _]; done).
  rewrite (write_file_place _ _ _ _ Hs'). unfold remove. cbn [snd].
  assert (resolve (mk (<[p' := b]> (files fs)) (dirs fs) (cwd fs)) s = p) as ->
    by (rewrite <- (proj1 Hs); by apply resolve_cwd).
  cbn [files]. by rewrite bool_decide_true by (rewrite lookup_insert_ne, Hb by done; by eexists).
Qed.

(** ** Paths *)

Lemma split_last d a f :
  d ∉ f -> f <> [] -> last (StrUtil.split (a ++ d :: f) d) = Some f.
Proof.
  intros Hd Hf. assert (forall s, s <> [] -> StrUtil.until d s = (s, []) -> last (StrUtil.split s d) = Some s) as Hone.
  { intros s Hs Hu. by rewrite (StrUtil.split_step d s s []). }
  remember (length a) as n eqn:Hn. revert a Hn. induction n as [n IH] using lt_wf_ind. intros a ->.
  assert (exists seg rest, StrUtil.until d (a ++ d :: f) = (seg, rest)
    /\ (rest = f \/ exists a', rest = a' ++ d :: f /\ (length a' < length a)%nat)) as (seg & rest & Hu & Hr).
  { destruct (decide (d ∈ a)) as [(l1 & l2 & -> & Hl1)%list_elem_of_split_l|Hn].
    - exists l1, (l2 ++ d :: f). rewrite <- app_assoc. simpl. rewrite StrUtil.until_app by done.
      split; [done|]. right. exists l2. rewrite length_app. simpl. split; [done|lia].
    - exists a, f. rewrite StrUtil.until_app by done. by split; [|left]. }
  rewrite (StrUtil.split_step d _ seg rest); [|by destruct a|done]. rewrite last_cons.
  destruct Hr as [->|(a' & -> & Hlt)].
  - by rewrite Hone by (done || by apply StrUtil.until_none).
  - by rewrite (IH _ Hlt a' eq_refl).
Qed.

Lemma prefixes_take done todo q :
  q ∈ prefixes done todo <-> exists k, (k < length todo)%nat /\ q = done ++ take (S k) todo.
Proof.
  revert done. induction todo as [|c todo IH]; intros done; simpl.
  - split; [by intros ?%not_elem_of_nil|]. intros (k & ? & _). lia.
  - rewrite elem_of_cons, IH. split.
    + intros [->|(k & Hk & ->)]; [exists 0%nat; simpl; split; [lia|done]|].
      exists (S k). split; [lia|]. by rewrite <- app_assoc.
    + intros (k & Hk & ->). destruct k as [|k]; [by left|]. right. exists k. split; [lia|].
      by rewrite <- app_assoc.
Qed.

Lemma tmp_name f : name f -> name (f ++ $"_tmp").
Proof.
  intros (H1 & H2 & H3 & H4). split_and!.
  - rewrite elem_of_app. intros [?|Hin]; [done|]. revert Hin. by_decision.
  - by destruct f.
  - intros E%(f_equal length). rewrite length_app in E. simpl in E. lia.
  - intros E%(f_equal length). rewrite length_app in E. simpl in E. lia.
Qed.

Section Places.
Context (d f : str) (Hd : d <> []) (Hf : name f).

Definition configPath : str := d ++ $"/" ++ f.

Lemma tmpDir_eq : tmpDir configPath = (d ++ $"/" ++ (f ++ $"_tmp")) ++ $"/".
Proof. unfold tmpDir, configPath. by rewrite <- !app_assoc. Qed.

Lemma tmp_file_nonempty : d ++ $"/" ++ (f ++ $"_tmp") <> [].
Proof. by destruct d. Qed.

Lemma resolve_config fs : resolve fs configPath = resolve fs d ++ [f].
Proof. by apply resolve_member. Qed.

Lemma resolve_tmp fs : resolve fs (tmpDir configPath) = resolve fs d ++ [f ++ $"_tmp"].
Proof.
  rewrite tmpDir_eq, resolve_slash by apply tmp_file_nonempty.
  apply resolve_member; [done|by apply tmp_name].
Qed.

Lemma resolve_copy fs : resolve fs (copyFilename configPath) = resolve fs d ++ [f ++ $"_tmp"; f].
Proof.
  unfold copyFilename. unfold configPath at 2. change ($"/" ++ f) with ("/"%char :: f).
  rewrite (split_last "/"%char d f) by apply Hf. cbn [default].
  rewrite tmpDir_eq, <- app_assoc, resolve_member by (done || apply tmp_file_nonempty).
  rewrite resolve_member by (done || by apply tmp_name). by rewrite <- app_assoc.
Qed.

(** The directory of the old configuration does not exist as a file, the
    directory of the configuration exists, neither path is a directory. *)
Definition prepared (fs : FileSys.t) : Prop :=
  is_directory fs d = true /\ resolve fs d ++ [f] ∉ dirs fs
  /\ resolve fs d ++ [f ++ $"_tmp"; f] ∉ dirs fs.

Lemma mkdir_places fs fs1 :
  prepared fs -> mkdir fs (tmpDir configPath) = Some fs1 ->
  files fs1 = files fs /\ prepared fs1 /\ resolve fs1 d = resolve fs d
  /\ place fs1 configPath (resolve fs d ++ [f])
  /\ place fs1 (copyFilename configPath) (resolve fs d ++ [f ++ $"_tmp"; f]).
Proof.
  intros (Hdir & Hp & Hr). unfold mkdir, create_directories. rewrite resolve_tmp.
  destruct (existsb _ _); [done|]. intros [= <-].
  set (fs1 := mk _ _ _). assert (forall s, resolve fs1 s = resolve fs s) as Hres
    by (intros; by apply resolve_cwd).
  set (dir := resolve fs d) in *.
  assert (forall q, q ∈ dirs fs1 <-> (exists k, (k < S (length dir))%nat /\ q = take (S k) (dir ++ [f ++ $"_tmp"]))
                                     \/ q ∈ dirs fs) as Hin.
  { intros q. unfold fs1. cbn [dirs]. rewrite elem_of_union, elem_of_list_to_set, prefixes_take.
    rewrite length_app. simpl. by rewrite Nat.add_1_r. }
  assert (dir ++ [f] ∉ dirs fs1) as Hp1.
  { rewrite Hin. intros [(k & Hk & Heq)|]; [|done].
    assert (k = length dir) as ->.
    { apply (f_equal length) in Heq. rewrite length_take, !length_app in Heq. cbn [length] in Heq. lia. }
    rewrite take_ge in Heq by (rewrite length_app; simpl; lia).
    apply app_inv_head in Heq. injection Heq as Heq%(f_equal length).
    rewrite length_app in Heq. simpl in Heq. lia. }
  assert (dir ++ [f ++ $"_tmp"; f] ∉ dirs fs1) as Hr1.
  { rewrite Hin. intros [(k & Hk & Heq%(f_equal length))|]; [|done].
    rewrite length_take, !length_app in Heq. cbn [length] in Heq. lia. }
  assert (is_dirp fs1 dir = true) as Hd1.
  { unfold is_directory, is_dirp in *. fold dir in Hdir. apply orb_true_iff in Hdir as [?|Hdd]; [by apply orb_true_iff; left|].
    apply orb_true_iff. right. apply bool_decide_eq_true in Hdd. apply bool_decide_eq_true, Hin. by right. }
  split; [done|]. split; [|split; [apply Hres|split]].
  - unfold prepared, is_directory. by rewrite !Hres.
  - split; [by rewrite Hres, resolve_config|]. rewrite removelast_snoc. by destruct dir.
  - split; [by rewrite Hres, resolve_copy|].
    change [f ++ $"_tmp"; f] with ([f ++ $"_tmp"] ++ [f]). rewrite app_assoc, removelast_snoc, <- app_assoc.
    split; [|split; [by destruct dir|done]]. unfold is_dirp. apply orb_true_iff. right.
    apply bool_decide_eq_true, Hin. left. exists (length dir). split; [lia|].
    by rewrite take_ge by (rewrite length_app; simpl; lia).
Qed.

End Places.

(** ** The theorems *)

Section Update.
Context (nodeInfo_ : NodeInfo) (d f : str) (Hd : d <> []) (Hf : name f).
Context (id : str) (now : Z) (node : Node) (Hpath : to_config_path node = configPath d f).

Lemma process_config_files fs fs1 :
  prepared d f fs -> mkdir fs (tmpDir (configPath d f)) = Some fs1 ->
  let old := default [] (files fs !! (resolve fs d ++ [f])) in
  exists fs' reply, process_config nodeInfo_ id now fs node = Some (fs', reply)
    /\ prepared d f fs' /\ resolve fs' d = resolve fs d
    /\ dirs fs' = dirs fs1 /\ cwd fs' = cwd fs1
    /\ reply_uuid reply = uuid node /\ r_to_node_id reply = src_node_id node
    /\ let p := resolve fs d ++ [f] in
       let r := resolve fs d ++ [f ++ $"_tmp"; f] in
       if decide (newNodeId (Some (config node)) = nodeId_ nodeInfo_) then
         status reply = 2 /\ files fs' = <[p := config node]> (<[r := old]> (files fs))
       else status reply = 3 /\ files fs' = <[p := old]> (delete r (files fs)).
Proof.
  intros Hp Hm old. destruct (mkdir_places d f Hd Hf fs fs1 Hp Hm) as (Hfs & Hp1 & Hr & Hpl & Hpl').
  set (p := resolve fs d ++ [f]) in *. set (r := resolve fs d ++ [f ++ $"_tmp"; f]) in *.
  assert (p <> r) as Hpr by (unfold p, r; intros E%(f_equal length); rewrite !length_app in E; simpl in E; lia).
  assert (default [] (files fs1 !! p) = old) as Hold by (unfold old, p; by rewrite Hfs).
  clearbody old. rewrite <- Hfs. unfold process_config. rewrite Hpath, Hm. cbn [mbind option_bind].
  rewrite (move_places fs1 _ p _ r Hpl Hpl' Hpr).
  rewrite (write_file_place _ _ p) by (by eapply place_same, Hpl).
  rewrite Hold. cbn [files dirs cwd]. rewrite insert_delete_eq.
  set (fs3 := mk (<[p := config node]> (<[r := old]> (files fs1))) (dirs fs1) (cwd fs1)).
  assert (place fs3 (configPath d f) p) as Hpl3 by by eapply place_same, Hpl.
  assert (place fs3 (copyFilename (configPath d f)) r) as Hpl3' by by eapply place_same, Hpl'.
  assert (forall s, resolve fs3 s = resolve fs1 s) as Hr3 by (intros; by apply resolve_cwd).
  assert (files fs3 !! p = Some (config node)) as Hnew by (unfold fs3; cbn [files]; apply lookup_insert_eq).
  rewrite (read_place fs3 _ p Hpl3), Hnew.
  assert (prepared d f fs3) as Hp3 by done.
  eexists _, _. split; [done|]. cbn [status files reply_uuid r_to_node_id].
  case_decide as Hid.
  - rewrite bool_decide_true by done. by rewrite Hr3, Hr.
  - rewrite bool_decide_false by done.
    rewrite (move_places fs3 _ r _ p Hpl3' Hpl3 (not_eq_sym Hpr)).
    assert (files fs3 !! r = Some old) as ->
      by (unfold fs3; cbn [files]; by rewrite lookup_insert_ne, lookup_insert_eq by done).
    split; [done|]. split; [by rewrite <- Hr|]. do 4 (split; [done|]). split; [done|].
    unfold fs3. cbn [files default]. rewrite insert_insert_eq, insert_insert_ne, delete_insert_eq by done.
    by rewrite delete_insert_ne by done.
Qed.

(** The directory of the backup can be made again when no other files have
    come. *)
Lemma mkdir_again fs fs1 fs' :
  mkdir fs (tmpDir (configPath d f)) = Some fs1 -> resolve fs' d = resolve fs d ->
  (forall q, q <> resolve fs d ++ [f] -> q <> resolve fs d ++ [f ++ $"_tmp"; f] ->
    files fs' !! q = files fs !! q) ->
  exists fs1', mkdir fs' (tmpDir (configPath d f)) = Some fs1'.
Proof.
  unfold mkdir, create_directories. rewrite !resolve_tmp by done. intros Hm Hr Hq.
  destruct (existsb _ _) eqn:E in Hm; [done|]. rewrite Hr.
  match goal with |- context [if ?b then _ else _] => destruct b eqn:E' end; [|by eexists]. exfalso.
  apply existsb_exists in E' as (q & Hin & Hsome%bool_decide_eq_true).
  apply list_elem_of_In, prefixes_take in Hin as Hk. destruct Hk as (k & Hk & Hqk).
  rewrite length_app in Hk. simpl in Hk, Hqk.
  assert (existsb (fun p => bool_decide (is_Some (files fs !! p)))
    (prefixes [] (resolve fs d ++ [f ++ $"_tmp"])) = true) as Htrue; [|congruence].
  apply existsb_exists. exists q. split; [by apply list_elem_of_In|]. apply bool_decide_eq_true. rewrite <- Hq; [done|..].
  - intros Heq. rewrite Hqk in Heq. assert (k = length (resolve fs d)) as ->.
    { apply (f_equal length) in Heq. rewrite length_take, !length_app in Heq. cbn [length] in Heq. lia. }
    rewrite take_ge in Heq by (rewrite length_app; simpl; lia).
    apply app_inv_head in Heq. injection Heq as Heq%(f_equal length).
    rewrite length_app in Heq. simpl in Heq. lia.
  - intros Heq%(f_equal length). rewrite Hqk, length_take, !length_app in Heq. cbn [length] in Heq. lia.
Qed.

End Update.


(** Where the node had no configuration, a refused one leaves an empty file in
    its place. *)
Theorem refused_leaves_empty nodeInfo_ d f id now node fs fs1 :
  d <> [] -> name f -> to_config_path node = configPath d f -> uuid node <> [] -> prepared d f fs ->
  mkdir fs (tmpDir (configPath d f)) = Some fs1 -> files fs !! (resolve fs d ++ [f]) = None ->
  newNodeId (Some (config node)) <> nodeId_ nodeInfo_ ->
  files (handle_node nodeInfo_ true id now fs node).1 !! (resolve fs d ++ [f]) = Some [].
Proof.
  intros Hd Hf Hpath Hu Hp Hm Hn Hid.
  destruct (process_config_files nodeInfo_ d f Hd Hf id now node Hpath fs fs1 Hp Hm)
    as (fs' & reply & Hpc & _ & _ & _ & _ & _ & _ & Hfiles).
  cbv zeta in Hfiles. rewrite decide_False in Hfiles by done. destruct Hfiles as [_ Hfs].
  unfold handle_node. rewrite Hpc. destruct (uuid node); [done|]. cbn [andb Nat.ltb Nat.leb length fst].
  by rewrite Hfs, Hn, lookup_insert_eq.
Qed.

(** A configuration that comes again, as it does every ten seconds until the
    manager has the reply, takes the place of the backup: the configuration
    from before is lost. *)
Theorem backup_overwritten nodeInfo_ d f id id' now now' node fs fs1 :
  d <> [] -> name f -> to_config_path node = configPath d f -> uuid node <> [] ->
  prepared d f fs -> mkdir fs (tmpDir (configPath d f)) = Some fs1 ->
  newNodeId (Some (config node)) = nodeId_ nodeInfo_ ->
  let '(fs', _) := handle_node nodeInfo_ true id now fs node in
  let '(fs'', reply) := handle_node nodeInfo_ true id' now' fs' node in
  files fs'' !! (resolve fs d ++ [f]) = Some (config node)
  /\ files fs'' !! (resolve fs d ++ [f ++ $"_tmp"; f]) = Some (config node)
  /\ status <$> reply = Some 2.
Proof.
  intros Hd Hf Hpath Hu Hp Hm Hid.
  destruct (process_config_files nodeInfo_ d f Hd Hf id now node Hpath fs fs1 Hp Hm)
    as (fs' & reply & Hpc & Hp' & Hr' & _ & _ & _ & _ & Hfiles).
  cbv zeta in Hfiles. rewrite decide_True in Hfiles by done. destruct Hfiles as [_ Hfs'].
  destruct (mkdir_again d f Hd Hf fs fs1 fs' Hm Hr') as [fs1' Hm'].
  { intros q ? ?. by rewrite Hfs', !lookup_insert_ne by done. }
  destruct (process_config_files nodeInfo_ d f Hd Hf id' now' node Hpath fs' fs1' Hp' Hm')
    as (fs'' & reply' & Hpc' & _ & _ & _ & _ & _ & _ & Hfiles).
  cbv zeta in Hfiles. rewrite decide_True in Hfiles by done. destruct Hfiles as [Hst Hfs''].
  unfold handle_node. destruct (uuid node); [done|]. cbn [andb Nat.ltb Nat.leb length].
  rewrite Hpc, Hpc', Hfs'', Hr'. change (status <$> Some reply') with (Some (status reply')). rewrite Hst.
  rewrite lookup_insert_eq, lookup_insert_ne, lookup_insert_eq.
  { split; [done|]. split; [|done]. by rewrite Hfs', lookup_insert_eq. }
  intros E%(f_equal length). rewrite !length_app in E. simpl in E. lia.
Qed.

(** A node with a configuration in its working directory. *)
Definition an_edge : NodeInfo := mkInfo $"edge-1" $"Edge" $"amd64" $"linux" 1 $"g".
Definition a_config (id : string) : str := $"[base]" ++ [newline] ++ $"node_id=" ++ $id ++ [newline].
Definition a_disk : FileSys.t :=
  mk (<[[$"config"; $"node.ini"] := a_config "edge-1"]> ∅) {[ [$"config"] ]} [].
Definition a_node (id : string) : Node :=
  mkNode $"m-1" $"edge-1" [] $"mgr" (configPath $"config" $"node.ini") [] (a_config id) [] 1 2 1 [].

Lemma node_ini_name : name $"node.ini".
Proof. split_and!; by_decision. Qed.

Lemma a_disk_prepared : prepared $"config" $"node.ini" a_disk.
Proof. split_and!; by_decision. Qed.

Definition a_disk1 : FileSys.t :=
  default a_disk (mkdir a_disk (tmpDir (configPath $"config" $"node.ini"))).

Lemma a_disk_made : mkdir a_disk (tmpDir (configPath $"config" $"node.ini")) = Some a_disk1.
Proof. reflexivity. Qed.

(** A configuration for another node, with a backup from before: the file is as it
    was, and the backup is gone; then one for this node. *)
Definition a_disk_backed : FileSys.t :=
  mk (<[[$"config"; $"node.ini_tmp"; $"node.ini"] := $"earlier"]> (files a_disk))
    {[ [$"config"]; [$"config"; $"node.ini_tmp"] ]} [].


(** The same on a disk without the file. *)
Lemma refused_leaves_empty_witness :
  files (handle_node an_edge true $"r" 7 (mk ∅ {[ [$"config"] ]} []) (a_node "edge-2")).1
    !! [$"config"; $"node.ini"] = Some [].
Proof.
  apply (refused_leaves_empty an_edge $"config" $"node.ini" $"r" 7 (a_node "edge-2") (mk ∅ {[ [$"config"] ]} [])
    (default a_disk (mkdir (mk ∅ {[ [$"config"] ]} []) (tmpDir (configPath $"config" $"node.ini")))));
    [done|apply node_ini_name|done|done|split_and!; by_decision|vm_compute; reflexivity|vm_compute; reflexivity|
     vm_compute; discriminate].
Defined.

Lemma backup_overwritten_witness :
  let '(fs', _) := handle_node an_edge true $"r" 7 a_disk (a_node "edge-1") in
  let '(fs'', reply) := handle_node an_edge true $"s" 8 fs' (a_node "edge-1") in
  files fs'' !! [$"config"; $"node.ini"] = Some (a_config "edge-1")
  /\ files fs'' !! [$"config"; $"node.ini_tmp"; $"node.ini"] = Some (a_config "edge-1")
  /\ status <$> reply = Some 2.
Proof.
  apply (backup_overwritten an_edge $"config" $"node.ini" $"r" $"s" 7 8 (a_node "edge-1") a_disk a_disk1); [done|apply node_ini_name|done|done|apply a_disk_prepared|apply a_disk_made|
    vm_compute; reflexivity].
Defined.

End NodeReg.
