(* ===== verification/Lifecycle.v ===== *)
(** * The topic objects: sessions, end points and threads

    [src/dds/ZenohBase.h] and the classes on it: [PingTopic], [MachineStateTopic],
    [NodeTopic], [NodeCmdTopic] and [FileTopic] of [src/node/src/], [MonitorTopic]
    of [src/monitor-app/src/], [CamTopic] of [src/cam-app/src/]. An object has up
    to two workers. Each makes its calls of the bus one by one and then goes
    round in its loop, while callbacks of the bus come in on other threads and
    the monitoring thread of [Monitor] publishes the counters.

    A call of the bus works or throws, as an argument says; a step is one call, one
    message sent, one callback, or one step of the monitoring thread. What the
    messages hold and what the handlers do with them is in [Machine], [NodeReg],
    [NodeCmd], [FileTransfer], [Monitor] and [CamFusion]; that the body of a handler
    or of a loop ends the program is an event here, [BodyEnds]. A message is counted
    in one step; the single loads and stores are in [Monitor]. *)

From S2P Require Import Prelude Wiring Monitor.
Import Monitor.

Module Lifecycle.

(** ** Objects *)

Inductive kind :=
  | PingTopic | MachineStateTopic | NodeTopic | NodeCmdTopic | FileTopic | MonitorTopic | CamTopic.
#[export] Instance kind_eq_dec : EqDecision kind.
Proof. solve_decision. Defined.

Abbreviation role := Wiring.role.
Abbreviation Writer := Wiring.Writer.
Abbreviation Listener := Wiring.Reader.
#[export] Instance role_eq_dec : EqDecision role.
Proof. solve_decision. Defined.

(** The calls a worker makes before its loop: [ZenohBase::init],
    [create_writer_mon_pub], and the declarations on [topic_] and [topicReply_]. *)
Inductive call := Initialise | DeclareMonPub | DeclarePub | DeclareReplyPub | DeclareSub | DeclareReplySub.
#[export] Instance call_eq_dec : EqDecision call.
Proof. solve_decision. Defined.

(** Where the thread of a worker is: before some calls, in its loop, or at its
    end. *)
Inductive place := Setup (todo : list call) | Loop | Ended.

#[export] Instance place_eq_dec : EqDecision place.
Proof. solve_decision. Defined.

(** A [std::thread]: its place, and whether it has not been joined. *)
Record worker_thread := mkThread { at_ : place; joinable : bool }.

Inductive session := NoSession | Open | Closed.

Inductive outlet := ToTopic | ToReply.
#[export] Instance outlet_eq_dec : EqDecision outlet.
Proof. solve_decision. Defined.

(** src/node/src/NodeTopic.h:37-63, [NodeTopic]. With the members of
    [ZenohBase]; [base] is the counters and the monitoring thread,
    [monitoring_thread_] says that this thread has been started and not joined,
    [put_] is what has been put so far. The publisher of [topic_] has another
    name in each class. *)
Record object := mkObject {
  session_ : session;
  base_ : base;
  monitoring_thread_ : bool;
  publisher_ : bool;
  reply_publisher_ : bool;
  subscriber_ : bool;
  reply_subscriber_ : bool;
  is_writer_ : bool;
  is_reader_ : bool;
  writer_thread_ : option worker_thread;
  reader_thread_ : option worker_thread;
  put_ : list (outlet * str);
}.

(** src/node/src/NodeTopic.cpp:37-39, [NodeTopic::NodeTopic]. All classes alike,
    but for a data base handle of [CamTopic] and a client of S3 of [FileTopic]. *)
Definition fresh : object :=
  mkObject NoSession boot false false false false false false false None None [].

(** A null pointer is used, or [std::terminate] is called; or the body of a loop or
    of a handler ends the program: [exit], an exception that leaves a thread, an
    overrun buffer. *)
Inductive cause := NullPointer | Terminate | Body.

(** The program with the object, or the end of the program. *)
Inductive machine := Live (o : object) | Down (why : cause).

Definition on_live (f : object -> machine) (x : machine) : machine :=
  match x with Live o => f o | Down c => Down c end.

Definition set_base (b : base) (o : object) : object :=
  mkObject (session_ o) b (monitoring_thread_ o) (publisher_ o) (reply_publisher_ o) (subscriber_ o)
    (reply_subscriber_ o) (is_writer_ o) (is_reader_ o) (writer_thread_ o) (reader_thread_ o) (put_ o).

Definition set_put (p : list (outlet * str)) (o : object) : object :=
  mkObject (session_ o) (base_ o) (monitoring_thread_ o) (publisher_ o) (reply_publisher_ o)
    (subscriber_ o) (reply_subscriber_ o) (is_writer_ o) (is_reader_ o) (writer_thread_ o)
    (reader_thread_ o) p.

Definition set_session (s : session) (m : bool) (o : object) : object :=
  mkObject s (base_ o) m (publisher_ o) (reply_publisher_ o) (subscriber_ o) (reply_subscriber_ o)
    (is_writer_ o) (is_reader_ o) (writer_thread_ o) (reader_thread_ o) (put_ o).

Definition thread_of (r : role) (o : object) : option worker_thread :=
  match r with Writer => writer_thread_ o | Listener => reader_thread_ o end.

Definition set_thread (r : role) (th : worker_thread) (o : object) : object :=
  let '(w, l) := match r with
                 | Writer => (Some th, reader_thread_ o)
                 | Listener => (writer_thread_ o, Some th) end in
  mkObject (session_ o) (base_ o) (monitoring_thread_ o) (publisher_ o) (reply_publisher_ o)
    (subscriber_ o) (reply_subscriber_ o) (is_writer_ o) (is_reader_ o) w l (put_ o).

Definition move (r : role) (p : place) (o : object) : object :=
  match thread_of r o with
  | Some th => set_thread r (mkThread p (joinable th)) o
  | None => o
  end.

(** ** The workers up to their loops *)

(** A worker: its calls, and whether the [catch] around them returns. *)
Record worker := mkWorker { setup : list call; catch_returns : bool }.

(** src/node/src/PingTopic.cpp:41-65, [PingTopic::writer_worker]. *)
Definition Ping_writer_worker : worker :=
  mkWorker [Initialise; DeclareMonPub; DeclarePub] true.
(** src/node/src/PingTopic.cpp:95-126, [PingTopic::reader_worker]. The [catch] does
    not return. *)
Definition Ping_reader_worker : worker :=
  mkWorker [Initialise; DeclareMonPub; DeclareSub] false.
(** src/node/src/MachineStateTopic.cpp:39-63, [MachineStateTopic::writer_worker]. *)
Definition MachineState_writer_worker : worker :=
  mkWorker [Initialise; DeclareMonPub; DeclarePub] true.
(** src/node/src/MachineStateTopic.cpp:103-134, [MachineStateTopic::reader_worker].
    The [catch] does not return. *)
Definition MachineState_reader_worker : worker :=
  mkWorker [Initialise; DeclareMonPub; DeclareSub] false.
(** src/node/src/NodeTopic.cpp:72-112, [NodeTopic::writer_worker]. *)
Definition Node_writer_worker : worker :=
  mkWorker [Initialise; DeclareMonPub; DeclarePub; DeclareReplySub] true.
(** src/node/src/NodeTopic.cpp:176-215, [NodeTopic::reader_worker]. *)
Definition Node_reader_worker : worker :=
  mkWorker [Initialise; DeclareMonPub; DeclareSub; DeclareReplyPub] true.
(** src/node/src/NodeCmdTopic.cpp:45-86, [NodeCmdTopic::writer_worker]. *)
Definition Cmd_writer_worker : worker :=
  mkWorker [Initialise; DeclareMonPub; DeclarePub; DeclareReplySub] true.
(** src/node/src/NodeCmdTopic.cpp:119-158, [NodeCmdTopic::reader_worker]. The
    [catch] does not return. *)
Definition Cmd_reader_worker : worker :=
  mkWorker [Initialise; DeclareMonPub; DeclareSub; DeclareReplyPub] false.
(** src/node/src/FileTopic.cpp:73-110, [FileTopic::writer_worker]. The watchers it
    starts next are those of [FileWatcher]. *)
Definition File_writer_worker : worker :=
  mkWorker [Initialise; DeclareMonPub; DeclarePub; DeclareReplySub] true.
(** src/node/src/FileTopic.cpp:219-261, [FileTopic::reader_worker]. *)
Definition File_reader_worker : worker :=
  mkWorker [Initialise; DeclareMonPub; DeclareSub; DeclareReplyPub] true.
(** src/monitor-app/src/MonitorTopic.cpp:31-62, [MonitorTopic::reader_worker]. The
    [catch] does not return. *)
Definition Monitor_reader_worker : worker := mkWorker [Initialise; DeclareSub] false.
(** src/cam-app/src/CamTopic.cpp:646-687, [CamTopic::writer_worker]. *)
Definition Cam_writer_worker : worker := mkWorker [Initialise; DeclarePub] true.
(** src/cam-app/src/CamTopic.cpp:727-767, [CamTopic::reader_worker]. *)
Definition Cam_reader_worker : worker := mkWorker [Initialise; DeclareSub] true.

(** A [MonitorTopic] has no writer. *)
Definition worker_of (k : kind) (r : role) : option worker :=
  match k, r with
  | PingTopic, Writer => Some Ping_writer_worker
  | PingTopic, Listener => Some Ping_reader_worker
  | MachineStateTopic, Writer => Some MachineState_writer_worker
  | MachineStateTopic, Listener => Some MachineState_reader_worker
  | NodeTopic, Writer => Some Node_writer_worker
  | NodeTopic, Listener => Some Node_reader_worker
  | NodeCmdTopic, Writer => Some Cmd_writer_worker
  | NodeCmdTopic, Listener => Some Cmd_reader_worker
  | FileTopic, Writer => Some File_writer_worker
  | FileTopic, Listener => Some File_reader_worker
  | MonitorTopic, Writer => None
  | MonitorTopic, Listener => Some Monitor_reader_worker
  | CamTopic, Writer => Some Cam_writer_worker
  | CamTopic, Listener => Some Cam_reader_worker
  end.

(** src/dds/ZenohBase.h:35-53, [ZenohBase::init]. [works]: a session is opened.
    With [startWriterMon] (272-276): a thread that can be joined is assigned to. *)
Definition init (works : bool) (o : object) : machine * bool :=
  if negb works then (Live o, false)
  else if monitoring_thread_ o then (Down Terminate, false)
  else (Live (set_session Open true o), true).

(** src/dds/ZenohBase.h:55-61, [ZenohBase::stop]. With [stopWriterMon] (332-338):
    it waits until the monitoring thread is at the head of its loop. *)
Definition stop (o : object) : object :=
  match thread (base_ o), monitoring_thread_ o with
  | At Pub, _ | _, false =>
      set_session (match session_ o with NoSession => NoSession | _ => Closed end) false o
  | _, true => o
  end.

(** The pointer is set already, so that nothing is declared. *)
Definition already (c : call) (o : object) : bool :=
  match c with
  | DeclareMonPub => write_mon_publisher_ (base_ o)
  | DeclarePub => publisher_ o
  | DeclareReplyPub => reply_publisher_ o
  | _ => false
  end.

Definition declared (c : call) (o : object) : object :=
  mkObject (session_ o)
    (match c with DeclareMonPub => create_writer_mon_pub (base_ o) | _ => base_ o end)
    (monitoring_thread_ o)
    (match c with DeclarePub => true | _ => publisher_ o end)
    (match c with DeclareReplyPub => true | _ => reply_publisher_ o end)
    (match c with DeclareSub => true | _ => subscriber_ o end)
    (match c with DeclareReplySub => true | _ => reply_subscriber_ o end)
    (is_writer_ o) (is_reader_ o) (writer_thread_ o) (reader_thread_ o) (put_ o).

(** ** Sending *)

(** What the code uses of a message: two ids, the two nodes and the bytes. *)
Record message := mkMessage { m_uuid : str; m_src : str; m_to : str; m_bytes : str }.

(** A uuid and the time, drawn when a message is counted. *)
Record mark := mkMark { mk_id : str; mk_now : Z }.

Definition nul : ascii := ascii_of_N 0.

Definition has (e : outlet) (o : object) : bool :=
  match e with ToTopic => publisher_ o | ToReply => reply_publisher_ o end.
Definition slot_of (e : outlet) : slot :=
  match e with ToTopic => Pub | ToReply => ReplyPub end.
Definition ByteSize (m : message) : Z := Z.of_nat (length (m_bytes m)).

Section Object.
(** The settings of the topic: [needReply_] and what [Monitor] has of them. *)
Context (k : kind) (t : TopicInfo) (needReply_ : bool).

(** src/node/src/NodeTopic.cpp:224-239, [NodeTopic::send_node]. The senders below
    differ in the publisher, in a zero byte after the message and in the counting.
    [None]: the publisher is null. *)
Definition put_with (e : outlet) (pad : str) (counts : bool) (works : bool) (x : mark) (m : message)
    (o : object) : option (bool * object) :=
  if negb (has e o) then None
  else if negb works then Some (false, o)
  else
    let o1 := set_put (put_ o ++ [(e, m_bytes m ++ pad)]) o in
    Some (true, if counts
                then set_base (stat t (slot_of e) (mk_id x) [] (m_to m) (ByteSize m) (mk_now x) (base_ o1)) o1
                else o1).

(** src/node/src/PingTopic.cpp:134-149, [PingTopic::send_ping]. *)
Definition send_ping := put_with ToTopic [nul] true.
(** src/node/src/MachineStateTopic.cpp:142-160, [MachineStateTopic::send_machine_state].
    A message of this kind can always be serialised. *)
Definition send_machine_state := put_with ToTopic [nul] true.
(** src/node/src/NodeTopic.cpp:224-239, [NodeTopic::send_node]. *)
Definition send_node := put_with ToTopic [nul] true.
(** src/node/src/NodeTopic.cpp:293-308, [NodeTopic::send_reply]. *)
Definition Node_send_reply := put_with ToReply [] true.
(** src/node/src/NodeCmdTopic.cpp:170-185, [NodeCmdTopic::send_cmd]. *)
Definition send_cmd := put_with ToTopic [nul] true.
(** src/node/src/NodeCmdTopic.cpp:187-203, [NodeCmdTopic::send_reply]. *)
Definition Cmd_send_reply := put_with ToReply [nul] true.
(** src/node/src/FileTopic.cpp:294-309, [FileTopic::send_file_data]. *)
Definition send_file_data := put_with ToTopic [] true.
(** src/node/src/FileTopic.cpp:311-326, [FileTopic::send_reply]. *)
Definition File_send_reply := put_with ToReply [] true.
(** src/cam-app/src/CamTopic.cpp:776-791, [CamTopic::send_cam]. *)
Definition send_cam := put_with ToTopic [nul] false.
(** src/cam-app/src/CamTopic.cpp:795-810, [CamTopic::send_reply]. Nothing calls
    it. *)
Definition Cam_send_reply := put_with ToReply [] false.

Definition sender := bool -> mark -> message -> object -> option (bool * object).

(** What the loop of a worker sends with: [None], it sends nothing. *)
Definition loop_sender (r : role) : option sender :=
  match k, r with
  | PingTopic, Writer => Some send_ping
  | MachineStateTopic, Writer => Some send_machine_state
  | NodeTopic, Writer => Some send_node
  | NodeCmdTopic, Writer => Some send_cmd
  | FileTopic, Writer => Some send_file_data
  | CamTopic, Writer => Some send_cam
  | NodeCmdTopic, Listener => if needReply_ then Some Cmd_send_reply else None
  | FileTopic, Listener => if needReply_ then Some File_send_reply else None
  | _, _ => None
  end.

Definition sent (x : option (bool * object)) : machine :=
  match x with None => Down NullPointer | Some (_, o) => Live o end.

(** ** The threads *)

(** src/node/src/NodeTopic.cpp:47-69, [NodeTopic::start_writer]. With
    [start_reader], and alike in the other classes; [wait] is [join]. *)
Definition start (r : role) (o : object) : object :=
  match thread_of r o, worker_of k r with
  | None, Some w =>
      let o1 := set_thread r (mkThread (Setup (setup w)) true) o in
      mkObject (session_ o1) (base_ o1) (monitoring_thread_ o1) (publisher_ o1) (reply_publisher_ o1)
        (subscriber_ o1) (reply_subscriber_ o1)
        (bool_decide (r = Writer) || is_writer_ o1) (bool_decide (r = Listener) || is_reader_ o1)
        (writer_thread_ o1) (reader_thread_ o1) (put_ o1)
  | _, _ => o
  end.

(** src/node/src/NodeTopic.cpp:54-56, [NodeTopic::start_writer]. The caller goes on
    when the thread has ended. *)
Definition join (r : role) (o : object) : object :=
  match thread_of r o with
  | Some (mkThread Ended true) => set_thread r (mkThread Ended false) o
  | _ => o
  end.

Definition running (r : role) (o : object) : bool :=
  match r with Writer => is_writer_ o | Listener => is_reader_ o end.

(** src/node/src/NodeTopic.cpp:72-114, [NodeTopic::writer_worker]. A step of a
    worker's thread, alike in the other classes. In its set-up [works] is for the
    call, in its loop for the message [m] the turn sends, if it sends one. *)
Definition worker_step (r : role) (works : bool) (x : mark) (m : option message) (o : object) : machine :=
  match thread_of r o, worker_of k r with
  | Some th, Some w =>
      match at_ th with
      | Setup [] => Live (move r Loop o)
      | Setup (Initialise :: todo) =>
          match init works o with
          | (Live o1, ok) => Live (move r (if ok then Setup todo else Ended) o1)
          | (Down c, _) => Down c
          end
      | Setup (c :: todo) =>
          if already c o then Live (move r (Setup todo) o)
          else match session_ o with
               | NoSession => Down NullPointer
               | _ => if works then Live (move r (Setup todo) (declared c o))
                      else Live (move r (if catch_returns w then Ended else Loop) o)
               end
      | Loop =>
          if negb (running r o) then Live (move r Ended o)
          else match m, loop_sender r with
               | Some m, Some send => sent (send works x m o)
               | _, _ => Live o
               end
      | Ended => Live o
      end
  | _, _ => Live o
  end.

(** ** The callbacks *)

Definition count (sl : slot) (topic : str) (x : mark) (m : message) (o : object) : object :=
  set_base (stat t sl (mk_id x) topic (m_src m) (ByteSize m) (mk_now x) (base_ o)) o.

(** What is counted by the handlers of [topic_], before anything else. A command
    counts when it is for this node. *)
Definition received (x : mark) (m : message) (o : object) : object :=
  match k with
  | PingTopic | MachineStateTopic | NodeTopic | FileTopic => count Monitor.Reader (Monitor.topic_ t) x m o
  | NodeCmdTopic =>
      if needReply_ && bool_decide (Monitor.nodeId_ t = m_to m)
      then count Monitor.Reader (Monitor.topic_ t) x m o else o
  | MonitorTopic | CamTopic => o
  end.

(** src/node/src/NodeTopic.cpp:310-334, [NodeTopic::handle_node]. Of the other
    classes only the counting concerns the object. [reply] is the reply of
    [process_config], and [works] is for sending it. *)
Definition handle_sample (works : bool) (x : mark) (m reply : message) (o : object) : machine :=
  let o1 := received x m o in
  match k with
  | NodeTopic =>
      if needReply_ && bool_decide (m_uuid m <> []) then sent (Node_send_reply works x reply o1)
      else Live o1
  | _ => Live o1
  end.

(** src/node/src/NodeTopic.cpp:336-343, [NodeTopic::handle_reply]. Alike in
    [NodeCmdTopic] and [FileTopic]. *)
Definition handle_reply (x : mark) (m : message) (o : object) : object :=
  count ReplyReader (Monitor.topicReply_ t) x m o.

(** ** What happens to an object *)

Inductive event :=
  | Start (r : role)
  | Join (r : role)
  | Step (r : role) (works : bool) (x : mark) (m : option message)
  | Sample (works : bool) (x : mark) (m reply : message)
  | ReplySample (x : mark) (m : message)
  | Publish (thrown : bool)
  | Stop
  | BodyEnds.

(** A callback comes in when the subscriber has been declared. What the bodies of
    loops and handlers do besides is in the files of the classes; that one of them
    ends the program can happen at any time. *)
Definition happen (e : event) (o : object) : machine :=
  match e with
  | Start r => Live (start r o)
  | Join r => Live (join r o)
  | Step r works x m => worker_step r works x m o
  | Sample works x m reply => if subscriber_ o then handle_sample works x m reply o else Live o
  | ReplySample x m => Live (if reply_subscriber_ o then handle_reply x m o else o)
  | Publish thrown =>
      Live (if monitoring_thread_ o then set_base (monitor thrown (base_ o)) o else o)
  | Stop => Live (stop o)
  | BodyEnds => Down Body
  end.

Definition run (x : machine) (es : list event) : machine :=
  foldl (fun x e => on_live (happen e) x) x es.

(** src/node/src/NodeTopic.cpp:41-44, [NodeTopic::~NodeTopic]. Alike in the other
    classes of this file; the members, and those of [ZenohBase], go with it. A
    thread that has not been joined must not be destroyed. *)
Definition destroy (o : object) : option cause :=
  let loose th := match th with Some (mkThread _ true) => true | _ => false end in
  if loose (writer_thread_ o) || loose (reader_thread_ o) || monitoring_thread_ o
  then Some Terminate else None.

(** The object is used in one role only, and no body ends the program. *)
Definition only (r : role) (e : event) : Prop :=
  match e with Start r' | Join r' | Step r' _ _ _ => r' = r | BodyEnds => False | _ => True end.

Definition in_loop (r : role) (o : object) : Prop :=
  exists j, thread_of r o = Some (mkThread Loop j).

Definition ended (r : role) (o : object) : Prop :=
  exists j, thread_of r o = Some (mkThread Ended j).

(** The call has been made, and has left what it makes. *)
Definition made (c : call) (o : object) : bool :=
  match c with
  | Initialise => match session_ o with NoSession => false | _ => true end
  | DeclareSub => subscriber_ o
  | DeclareReplySub => reply_subscriber_ o
  | _ => already c o
  end.

(** ** Lemmas *)

Lemma set_thread_same r th o : thread_of r (set_thread r th o) = Some th.
Proof. by destruct r. Qed.
Lemma made_set_thread r th o c : made c (set_thread r th o) = made c o.
Proof. by destruct r, c. Qed.
Lemma running_set_thread r r' th o : running r (set_thread r' th o) = running r o.
Proof. by destruct r, r'. Qed.
Lemma monitoring_set_thread r th o :
  monitoring_thread_ (set_thread r th o) = monitoring_thread_ o.
Proof. by destruct r. Qed.

(** A step that leaves the workers and their end points as they are. *)
Record frame (o o' : object) : Prop := mkFrame {
  frame_threads : forall r, thread_of r o' = thread_of r o;
  frame_running : forall r, running r o' = running r o;
  frame_made : forall c, made c o' = made c o;
  frame_monitoring : monitoring_thread_ o' = true -> monitoring_thread_ o = true;
}.

Lemma frame_refl o : frame o o.
Proof. by split. Qed.
Lemma frame_trans o1 o2 o3 : frame o1 o2 -> frame o2 o3 -> frame o1 o3.
Proof.
  intros [T1 R1 M1 N1] [T2 R2 M2 N2]. split; [intros; by rewrite T2|intros; by rewrite R2| |auto].
  intros. by rewrite M2.
Qed.
#[local] Hint Resolve frame_refl : core.

Lemma frame_base b o : write_mon_publisher_ b = write_mon_publisher_ (base_ o) -> frame o (set_base b o).
Proof. intros H. by split; [intros []|intros []|intros []|]. Qed.

Lemma frame_put p o : frame o (set_put p o).
Proof. by split; [intros []|intros []|intros []|]. Qed.

Lemma stat_publisher sl id topic peer len now b :
  write_mon_publisher_ (stat t sl id topic peer len now b) = write_mon_publisher_ b.
Proof. apply stat_keeps_publisher. Qed.

Lemma monitor_publisher th b : write_mon_publisher_ (monitor th b) = write_mon_publisher_ b.
Proof.
  unfold monitor. destruct (thread b); simpl; try done.
  - destruct (write_mon_publisher_ b) eqn:E; simpl; [by case_match|done].
  - by destruct th.
Qed.

Lemma frame_count sl topic x m o : frame o (count sl topic x m o).
Proof. apply frame_base, stat_publisher. Qed.

Lemma frame_received x m o : frame o (received x m o).
Proof. unfold received. destruct k; try apply frame_count; [case_match; [apply frame_count|done]|done..]. Qed.

Lemma frame_stop o : frame o (stop o).
Proof.
  unfold stop. destruct (thread (base_ o)) as [[]| | | | |]; destruct (monitoring_thread_ o) eqn:E; try done;
    (split; [by intros []|by intros []| |done]); intros []; try done; simpl; by destruct (session_ o).
Qed.

Lemma put_with_some e pad cs works x m o b o' :
  put_with e pad cs works x m o = Some (b, o') -> frame o o'.
Proof.
  unfold put_with. destruct (has e o), works; simpl; intros [= <- <-]; try done.
  destruct cs; [|apply frame_put]. eapply frame_trans; [apply frame_put|].
  apply frame_base, stat_publisher.
Qed.

Lemma put_with_none e pad cs works x m o :
  put_with e pad cs works x m o = None <-> has e o = false.
Proof. unfold put_with. by destruct (has e o), works. Qed.

Lemma loop_sender_spec r send :
  loop_sender r = Some send ->
  exists pad cs, send = put_with (match r with Writer => ToTopic | Listener => ToReply end) pad cs.
Proof. unfold loop_sender. destruct k, r; try destruct needReply_; intros [= <-]; by do 2 eexists. Qed.

Lemma setup_first r w :
  worker_of k r = Some w -> exists l, setup w = Initialise :: l /\ Initialise ∉ l /\ NoDup l.
Proof.
  destruct k, r; intros [= <-]; simpl; eexists; (split; [done|]); split; by_decision.
Qed.

(** What holds of the worker of role [r] in every run of an object used in this
    role alone. *)
Definition placed (r : role) (o : object) : Prop :=
  match thread_of r o, worker_of k r with
  | None, _ => (forall c, made c o = false) /\ monitoring_thread_ o = false
  | Some _, None => False
  | Some th, Some w =>
      running r o = true /\
      match at_ th with
      | Setup todo => exists done, setup w = done ++ todo
          /\ (forall c, made c o = true <-> c ∈ done)
          /\ (monitoring_thread_ o = true -> done <> [])
      | Loop => (forall c, made c o = true -> c ∈ setup w)
          /\ (catch_returns w = true -> forall c, c ∈ setup w -> made c o = true)
      | Ended => (forall c, made c o = true -> c ∈ setup w) /\ exists c, c ∈ setup w /\ made c o = false
      end
  end.

Lemma placed_frame r o o' : frame o o' -> placed r o -> placed r o'.
Proof.
  intros [Ht Hr Hm Hn]. unfold placed. rewrite Ht, Hr.
  assert (forall b, (b = true -> monitoring_thread_ o = true) -> monitoring_thread_ o = false -> b = false) as Hb
    by (intros [] H E; [by rewrite H in E by done|done]).
  destruct (thread_of r o) as [th|].
  - destruct (worker_of k r) as [w|]; [|done]. intros [Hrun Hp]. split; [done|].
    destruct (at_ th).
    + destruct Hp as (done & E & Hd & Hmon). exists done. split; [done|].
      split; [|auto]. intros c. by rewrite Hm.
    + destruct Hp as [Hs Hp]. split; [intros c; rewrite Hm; apply Hs|].
      intros Hc c Hin. rewrite Hm. by apply Hp.
    + destruct Hp as (Hs & c & Hin & Hc). split; [intros c'; rewrite Hm; apply Hs|].
      exists c. by rewrite Hm.
  - intros [Hd Hmon]. split; [intros c; by rewrite Hm|eauto].
Qed.

Definition placed_at (w : worker) (p : place) (o : object) : Prop :=
  match p with
  | Setup todo => exists done, setup w = done ++ todo
      /\ (forall c, made c o = true <-> c ∈ done)
      /\ (monitoring_thread_ o = true -> done <> [])
  | Loop => (forall c, made c o = true -> c ∈ setup w)
      /\ (catch_returns w = true -> forall c, c ∈ setup w -> made c o = true)
  | Ended => (forall c, made c o = true -> c ∈ setup w) /\ exists c, c ∈ setup w /\ made c o = false
  end.

Lemma placed_some r o th w :
  thread_of r o = Some th -> worker_of k r = Some w ->
  placed r o <-> running r o = true /\ placed_at w (at_ th) o.
Proof. intros Ht Hw. unfold placed. by rewrite Ht, Hw. Qed.

Lemma placed_at_thread w p r th o : placed_at w p (set_thread r th o) <-> placed_at w p o.
Proof.
  destruct p as [todo| |]; simpl; rewrite ?monitoring_set_thread;
    setoid_rewrite made_set_thread; done.
Qed.

Lemma placed_move r p o th w :
  thread_of r o = Some th -> worker_of k r = Some w ->
  running r o = true -> placed_at w p o -> placed r (move r p o).
Proof.
  intros Ht Hw Hr Hp. unfold move. rewrite Ht. eapply placed_some; [apply set_thread_same|done|].
  rewrite running_set_thread. by rewrite placed_at_thread.
Qed.

Lemma made_declared c c' o : c <> Initialise -> made c' (declared c o) = bool_decide (c' = c) || made c' o.
Proof. destruct c; intros Hc; try done; by destruct c'. Qed.

Lemma already_made c o : already c o = true -> made c o = true.
Proof. by destruct c. Qed.

(** The call that is next has not been made. *)
Lemma next_not_made r w done c todo o :
  worker_of k r = Some w -> setup w = done ++ c :: todo ->
  (forall c, made c o = true <-> c ∈ done) -> c ∈ setup w /\ made c o = false.
Proof.
  intros Hw E Hd. destruct (setup_first _ _ Hw) as (l & E' & Hfresh & Hnd).
  assert (NoDup (setup w)) as Hn by (rewrite E'; by constructor).
  split; [rewrite E; set_solver|]. destruct (made c o) eqn:Hm; [|done]. exfalso.
  apply Hd in Hm. rewrite E in Hn. apply NoDup_app in Hn as (_ & Hn & _). apply (Hn c Hm). set_solver.
Qed.

Lemma placed_declare r w done c todo o :
  setup w = done ++ c :: todo -> c <> Initialise -> running r o = true ->
  (forall c, made c o = true <-> c ∈ done) -> done <> [] ->
  placed_at w (Setup todo) (declared c o) /\
  (already c o = true -> placed_at w (Setup todo) o).
Proof.
  intros E Hc Hr Hd Hne. split; [|intros Ha]; exists (done ++ [c]);
    (split; [by rewrite <- app_assoc|]); (split; [|by destruct done]).
  - intros c'. rewrite made_declared, orb_true_iff, bool_decide_eq_true, Hd by done. set_solver.
  - intros c'. rewrite Hd. split; [set_solver|]. intros [?|H]%elem_of_app; [done|].
    apply list_elem_of_singleton in H as ->. apply Hd. by apply already_made.
Qed.

Lemma init_placed r works o th w todo :
  thread_of r o = Some th -> worker_of k r = Some w -> setup w = Initialise :: todo ->
  running r o = true -> (forall c, made c o = true <-> c ∈ @nil call) ->
  monitoring_thread_ o = false ->
  exists o' ok, init works o = (Live o', ok)
    /\ placed r (move r (if ok then Setup todo else Ended) o').
Proof.
  intros Ht Hw E Hr Hd Hm. unfold init. rewrite Hm. destruct works; simpl; do 2 eexists; (split; [done|]).
  - eapply placed_move; [by destruct r|done|by destruct r|]. exists [Initialise].
    split; [done|]. split; [|done]. intros c. specialize (Hd c). destruct c; simpl in *;
      rewrite ?Hd; set_solver.
  - eapply placed_move; [done..|]. split; [intros c Hc%Hd; set_solver|].
    exists Initialise. split; [rewrite E; set_solver|].
    destruct (made Initialise o) eqn:Hi; [|done]. apply Hd in Hi. set_solver.
Qed.

Lemma setup_placed r works x m o th w todo :
  thread_of r o = Some th -> at_ th = Setup todo -> worker_of k r = Some w -> placed r o ->
  exists o', worker_step r works x m o = Live o' /\ placed r o'.
Proof.
  intros Ht Hat Hw Hp. eapply placed_some in Hp as [Hr Hp]; [|done..]. rewrite Hat in Hp.
  destruct Hp as (done & E & Hd & Hm). destruct (setup_first _ _ Hw) as (l & E' & Hfresh & _).
  unfold worker_step. rewrite Ht, Hw, Hat. destruct todo as [|c todo].
  - eexists. split; [done|]. eapply placed_move; [done..|]. rewrite app_nil_r in E.
    split; [intros c; rewrite E; apply Hd|]. intros _ c Hc. apply Hd. by rewrite <- E.
  - destruct (decide (c = Initialise)) as [->|Hc].
    + destruct done as [|d done].
      2:{ rewrite E in E'. injection E' as _ E'. destruct Hfresh. rewrite <- E'. set_solver. }
      destruct (init_placed r works o th w todo) as (o' & ok & -> & Hp); try done.
      * destruct (monitoring_thread_ o); [by destruct (Hm eq_refl)|done].
      * by eexists.
    + assert (done <> []) as Hne by (intros ->; rewrite E in E'; by injection E').
      destruct (placed_declare r w done c todo o) as [Hnew Hold]; try done.
      assert (made Initialise o = true) as Hs.
      { apply Hd. destruct done; [done|]. rewrite E in E'. injection E' as -> _. set_solver. }
      assert (exists o', (if already c o then Live (move r (Setup todo) o)
                else match session_ o with NoSession => Down NullPointer | _ =>
                  if works then Live (move r (Setup todo) (declared c o))
                  else Live (move r (if catch_returns w then Ended else Loop) o) end) = Live o'
              /\ placed r o') as Hgoal; [|by destruct c].
      destruct (already c o); [eexists; split; [done|]; eapply placed_move; eauto|].
      assert (forall a b : machine, match session_ o with NoSession => a | _ => b end = b) as ->
        by (simpl in Hs; by destruct (session_ o)).
      destruct works; (eexists; split; [done|]).
      * eapply placed_move; [by destruct r|done|by destruct r|done].
      * eapply placed_move; [done..|].
        assert (forall c, made c o = true -> c ∈ setup w) as Hs' by (intros c' H%Hd; rewrite E; set_solver).
        destruct (catch_returns w) eqn:Hcr; [|by split; [|intros ?; congruence]].
        split; [done|]. exists c. by eapply next_not_made.
Qed.

(** The event that finds a pointer null: a configuration for a [NodeTopic] that
    has its subscriber and no publisher for the reply, or a reply that a
    [NodeCmdTopic] takes from the queues when it has no publisher for it. *)
Definition exposed (e : event) (o : object) : Prop :=
  needReply_ = true /\ reply_publisher_ o = false /\
  match e with
  | Sample _ _ m _ => k = NodeTopic /\ m_uuid m <> [] /\ subscriber_ o = true
  | Step Listener _ _ (Some _) => k = NodeCmdTopic /\ in_loop Listener o
  | _ => False
  end.

(** The outcome of an event in a run in which the invariant holds. *)
Definition goes_on (r : role) (e : event) (o : object) : Prop :=
  (exists o', happen e o = Live o' /\ placed r o') \/
  (happen e o = Down NullPointer /\ exposed e o).

Lemma goes_on_frame r e o o' : happen e o = Live o' -> frame o o' -> placed r o -> goes_on r e o.
Proof. intros He Hf Hp. left. exists o'. split; [done|]. by eapply placed_frame. Qed.

(** A worker in its loop has what it sends with, but for one class. *)
Lemma loop_has r w o :
  worker_of k r = Some w -> (catch_returns w = true -> forall c, c ∈ setup w -> made c o = true) ->
  forall send, loop_sender r = Some send ->
  has (match r with Writer => ToTopic | Listener => ToReply end) o = true \/
  k = NodeCmdTopic /\ r = Listener /\ needReply_ = true.
Proof.
  intros Hw Hc send. unfold loop_sender.
  destruct k, r; (discriminate Hw || injection Hw as <-); intros Hs; try discriminate Hs;
    try (left; apply (Hc eq_refl DeclarePub); by_decision);
    try (left; apply (Hc eq_refl DeclareReplyPub); by_decision).
  destruct needReply_; [auto|done].
Qed.

Lemma step_goes_on r works x m o : placed r o -> goes_on r (Step r works x m) o.
Proof.
  intros Hp. unfold goes_on, happen.
  destruct (thread_of r o) as [[p j]|] eqn:Ht.
  2:{ left. exists o. unfold worker_step. by rewrite Ht. }
  destruct (worker_of k r) as [w|] eqn:Hw; [|unfold placed in Hp; by rewrite Ht, Hw in Hp].
  destruct p as [todo| |].
  - left. by eapply setup_placed.
  - pose proof Hp as [Hr [_ Hl]]%(placed_some _ _ _ _ Ht Hw). unfold worker_step. rewrite Ht, Hw.
    cbn [at_]. rewrite Hr. cbn [negb].
    destruct m as [m|]; [|left; by exists o]. destruct (loop_sender r) as [send|] eqn:Hs; [|left; by exists o].
    pose proof (loop_has r w o Hw Hl send Hs) as Hh. apply loop_sender_spec in Hs as (pad & cs & ->).
    destruct (put_with _ pad cs works x m o) as [[b o']|] eqn:Hput.
    + left. exists o'. split; [done|]. eapply placed_frame; [by eapply put_with_some|done].
    + right. split; [done|]. apply put_with_none in Hput.
      destruct Hh as [Hh|(Hk & -> & Hn)]; [congruence|]. split; [done|]. split; [done|].
      split; [done|]. by exists j.
  - left. exists o. unfold worker_step. by rewrite Ht, Hw.
Qed.

Lemma sample_goes_on r works x m reply o : placed r o -> goes_on r (Sample works x m reply) o.
Proof.
  intros Hp. unfold goes_on, happen. destruct (subscriber_ o) eqn:Hsub; [|left; by exists o].
  pose proof (frame_received x m o) as Hf. unfold handle_sample.
  assert (exists o', Live (received x m o) = Live o' /\ placed r o') as Hplain
    by (eexists; split; [done|by eapply placed_frame]).
  destruct k eqn:Hk; try (left; done).
  destruct (needReply_ && bool_decide (m_uuid m <> [])) eqn:Hb; [|by left].
  apply andb_true_iff in Hb as [Hn Hu%bool_decide_eq_true].
  unfold Node_send_reply. destruct (put_with _ _ _ _ _ _ _) as [[b o']|] eqn:Hput.
  - left. exists o'. split; [done|]. eapply placed_frame; [|done].
    eapply frame_trans; [done|by eapply put_with_some].
  - right. split; [done|]. apply put_with_none in Hput. split; [done|]. split; [|done].
    destruct Hf as [_ _ Hf _]. specialize (Hf DeclareReplyPub). simpl in Hf, Hput. congruence.
Qed.

Lemma start_placed r o : placed r o -> placed r (start r o).
Proof.
  intros Hp. unfold start. destruct (thread_of r o) as [th|] eqn:Ht; [done|].
  destruct (worker_of k r) as [w|] eqn:Hw; [|done]. unfold placed in Hp. rewrite Ht in Hp.
  destruct Hp as [Hd Hm]. eapply placed_some; [by destruct r|done|]. split; [by destruct r|].
  exists []. split; [done|]. split; [|destruct r; simpl in *; congruence].
  intros c. specialize (Hd c). destruct r, c; simpl in *; rewrite Hd; set_solver.
Qed.

Lemma join_placed r o : placed r o -> placed r (join r o).
Proof.
  intros Hp. unfold join. destruct (thread_of r o) as [[[todo| |] []]|] eqn:Ht; try done.
  destruct (worker_of k r) as [w|] eqn:Hw; [|unfold placed in Hp; by rewrite Ht, Hw in Hp].
  pose proof Hp as [Hr He]%(placed_some _ _ _ _ Ht Hw).
  eapply placed_some; [apply set_thread_same|done|]. rewrite running_set_thread.
  by rewrite placed_at_thread.
Qed.

Lemma happen_placed r e o : only r e -> placed r o -> goes_on r e o.
Proof.
  intros Ho Hp. destruct e as [r'|r'|r' works x m|works x m reply|x m|th| |]; simpl in Ho; subst; [..|done].
  - left. eexists. split; [done|by apply start_placed].
  - left. eexists. split; [done|by apply join_placed].
  - by apply step_goes_on.
  - by apply sample_goes_on.
  - eapply goes_on_frame; [done| |done]. case_match; [apply frame_count|done].
  - eapply goes_on_frame; [done| |done]. case_match; [|done]. apply frame_base, monitor_publisher.
  - eapply goes_on_frame; [done|apply frame_stop|done].
Qed.

Lemma exposed_kind e o : exposed e o -> k = NodeTopic \/ k = NodeCmdTopic.
Proof. intros (_ & _ & He). destruct e as [| |[] ? ? [m|]|? ? m ?| | | |]; naive_solver. Qed.

(** Only a worker that listens is exposed. *)
Lemma exposed_listener r e o : only r e -> placed r o -> exposed e o -> r = Listener.
Proof.
  intros Ho Hp (_ & _ & He). destruct r; [exfalso|done].
  destruct e as [| |[] works x [m|]|works x m reply| | | |]; try done.
  destruct He as (Hk & _ & Hsub). unfold placed in Hp. change (made DeclareSub o = true) in Hsub.
  destruct (thread_of Writer o) as [th|]; [|destruct Hp as [Hp _]; congruence].
  rewrite Hk in Hp. cbn [worker_of] in Hp. destruct Hp as [_ Hp].
  assert (DeclareSub ∈ setup Node_writer_worker) as Hin.
  { destruct (at_ th) as [todo| |]; [|by apply Hp..]. destruct Hp as (done & -> & Hd & _).
    apply Hd in Hsub. set_solver. }
  revert Hin. change (DeclareSub ∉ setup Node_writer_worker). by_decision.
Qed.

Lemma run_last x es e : run x (es ++ [e]) = on_live (happen e) (run x es).
Proof. unfold run. by rewrite foldl_app. Qed.

Lemma run_app x es es' : run x (es ++ es') = run (run x es) es'.
Proof. unfold run. by rewrite foldl_app. Qed.

Lemma run_down c es : run (Down c) es = Down c.
Proof. by induction es as [|e es IH]. Qed.

Lemma fresh_placed r : placed r fresh.
Proof. unfold placed. destruct r; (split; [by intros []|done]). Qed.

(** A run of one role goes on, or has met an event that finds a null pointer. *)
Lemma run_placed r es :
  Forall (only r) es ->
  (exists o, run (Live fresh) es = Live o /\ placed r o) \/
  (run (Live fresh) es = Down NullPointer /\
   exists es1 e es2 o, es = es1 ++ e :: es2 /\ run (Live fresh) es1 = Live o /\ exposed e o).
Proof.
  induction es as [|e es IH] using rev_ind; intros Hall.
  - left. exists fresh. split; [done|]. apply fresh_placed.
  - apply Forall_app in Hall as [Hall [He _]%Forall_cons]. rewrite run_last.
    destruct (IH Hall) as [(o & Hrun & Hp)|(-> & es1 & e1 & es2 & o & -> & Ho & Hx)].
    + rewrite Hrun. destruct (happen_placed r e o He Hp) as [(o' & Ho' & Hp')|[Hd Hx]]; simpl.
      * left. eauto.
      * right. split; [done|]. exists es, e, [], o. by split_and!.
    + right. split; [done|]. exists es1, e1, (es2 ++ [e]), o. by rewrite <- app_assoc.
Qed.

Lemma exposed_down r e o : placed r o -> only r e -> exposed e o -> happen e o = Down NullPointer.
Proof.
  intros Hp Ho (Hn & Hpub & He). destruct e as [| |[] works x [m|]|works x m reply| | | |]; try done; simpl.
  - destruct He as [Hk [j Ht]]. simpl in Ho. subst r.
    destruct (worker_of k Listener) as [w|] eqn:Hw; [|unfold placed in Hp; by rewrite Ht, Hw in Hp].
    pose proof Hp as [Hr _]%(placed_some _ _ _ _ Ht Hw).
    unfold worker_step. rewrite Ht, Hw. cbn [at_]. rewrite Hr. cbn [negb].
    unfold loop_sender. rewrite Hk, Hn. unfold Cmd_send_reply, put_with. simpl. by rewrite Hpub.
  - destruct He as (Hk & Hu & Hs). rewrite Hs. unfold handle_sample. rewrite Hk, Hn.
    rewrite bool_decide_true by done. unfold Node_send_reply, put_with, received. simpl.
    rewrite Hk. simpl. by rewrite Hpub.
Qed.

(** What has been put on one of the two topics. *)
Definition puts_on (e : outlet) (o : object) : list (outlet * str) :=
  filter (fun p => p.1 = e) (put_ o).

(** A sending puts on its own topic at most. *)
Lemma put_with_other e pad cs works x m o b o' e' :
  put_with e pad cs works x m o = Some (b, o') -> e' <> e -> puts_on e' o' = puts_on e' o.
Proof.
  unfold put_with, puts_on. destruct (has e o), works; simpl; intros [= <- <-] He; try done.
  destruct cs; simpl; rewrite filter_app, filter_cons_False by (simpl; congruence);
    by rewrite app_nil_r.
Qed.

Definition settled (r : role) (o o' : object) : Prop :=
  (forall c, made c o' = made c o) /\ thread_of r o <> None /\
  (in_loop r o -> in_loop r o') /\
  (ended r o -> ended r o' /\ puts_on ToTopic o' = puts_on ToTopic o).

Lemma settled_frame r o o' :
  frame o o' -> thread_of r o <> None -> (ended r o -> puts_on ToTopic o' = puts_on ToTopic o) ->
  settled r o o'.
Proof.
  intros [Ht Hr Hm Hn] Hne Hp. split; [done|]. split; [done|].
  unfold in_loop, ended. rewrite Ht. split; [done|]. intros He. by split; [|apply Hp].
Qed.

Lemma step_settled r works x m o o' :
  placed r o -> in_loop r o \/ ended r o -> worker_step r works x m o = Live o' -> settled r o o'.
Proof.
  intros Hp [[j Ht]|[j Ht]]; unfold worker_step; rewrite Ht;
    (destruct (worker_of k r) as [w|] eqn:Hw; [|unfold placed in Hp; by rewrite Ht, Hw in Hp]); cbn [at_].
  - pose proof Hp as [Hr _]%(placed_some _ _ _ _ Ht Hw). rewrite Hr. cbn [negb].
    assert (settled r o o) as Ho by (apply settled_frame; [done|by rewrite Ht|done]).
    destruct m as [m|]; [|by intros [= <-]]. destruct (loop_sender r) as [send|] eqn:Hs; [|by intros [= <-]].
    apply loop_sender_spec in Hs as (pad & cs & ->).
    destruct (put_with _ _ _ _ _ _ _) as [[b o1]|] eqn:Hput; intros [= <-].
    apply settled_frame; [by eapply put_with_some|by rewrite Ht|].
    intros [j' He]. rewrite Ht in He. discriminate.
  - intros [= <-]. apply settled_frame; [done|by rewrite Ht|done].
Qed.

Lemma count_puts sl topic x m o : put_ (count sl topic x m o) = put_ o.
Proof. done. Qed.

Lemma received_puts x m o : put_ (received x m o) = put_ o.
Proof. unfold received. destruct k; try done. by case_match. Qed.

Lemma sample_settled r works x m reply o o' :
  thread_of r o <> None -> handle_sample works x m reply o = Live o' -> settled r o o'.
Proof.
  intros Ht. pose proof (frame_received x m o) as Hf.
  assert (puts_on ToTopic (received x m o) = puts_on ToTopic o) as Hputs
    by (unfold puts_on; by rewrite received_puts).
  assert (settled r o (received x m o)) as Hplain by by apply settled_frame.
  unfold handle_sample. destruct k; try by intros [= <-].
  destruct (_ && _); [|by intros [= <-]].
  unfold Node_send_reply. destruct (put_with _ _ _ _ _ _ _) as [[b o1]|] eqn:Hput; intros [= <-].
  apply settled_frame; [|done|].
  - eapply frame_trans; [done|by eapply put_with_some].
  - intros _. rewrite <- Hputs. by eapply put_with_other.
Qed.

Lemma happen_settled r e o o' :
  placed r o -> only r e -> in_loop r o \/ ended r o -> happen e o = Live o' -> settled r o o'.
Proof.
  intros Hp Ho Hpl. assert (thread_of r o <> None) as Ht by (destruct Hpl as [[j ->]|[j ->]]; done).
  assert (settled r o o) as Hsame by by apply settled_frame.
  destruct e as [r'|r'|r' works x m|works x m reply|x m|th| |]; simpl in Ho; subst; simpl; [..|done].
  - intros [= <-]. unfold start. destruct (thread_of r o); done.
  - intros [= <-]. destruct Hpl as [[j Hj]|[j Hj]]; unfold join; rewrite Hj; [done|].
    destruct j; [|done]. split; [intros; apply made_set_thread|]. split; [done|].
    split; [intros [j He]; congruence|]. intros _. split; [exists false; apply set_thread_same|by destruct r].
  - by apply step_settled.
  - case_match; [by apply sample_settled|by intros [= <-]].
  - intros [= <-]. case_match; [|done]. apply settled_frame; [apply frame_count|done|done].
  - intros [= <-]. case_match; [|done]. apply settled_frame; [|done|done].
    apply frame_base, monitor_publisher.
  - intros [= <-]. apply settled_frame; [apply frame_stop|done|].
    intros _. unfold stop, puts_on. by repeat case_match.
Qed.

(** Every declaration of the set-up works. *)
Definition come_up (r : role) (x : mark) : list event :=
  match worker_of k r with
  | None => []
  | Some w => Start r :: replicate (S (length (setup w))) (Step r true x None)
  end.

(** ** Theorems *)

(** An object used in one role, however its threads, the callbacks and the
    monitoring thread interleave and whichever calls of the bus throw, goes down
    exactly when one of two events comes: a configuration for a [NodeTopic] with a
    subscriber and no publisher for the reply, or a reply for a [NodeCmdTopic]
    whose set-up has failed. Writers and objects of the other classes never go
    down, and [std::terminate] is never called. *)
Theorem object_down_only (r : role) (es : list event) :
  Forall (only r) es ->
  (forall c, run (Live fresh) es = Down c ->
     c = NullPointer /\ r = Listener /\ (k = NodeTopic \/ k = NodeCmdTopic)) /\
  (run (Live fresh) es = Down NullPointer <->
   exists es1 e es2 o, es = es1 ++ e :: es2 /\ run (Live fresh) es1 = Live o /\ exposed e o).
Proof.
  intros Hall. destruct (run_placed r es Hall) as [(o & Hr & Hp)|[Hr Hx]]; rewrite Hr.
  - split; [done|]. split; [done|]. intros (es1 & e & es2 & o1 & -> & H1 & Hx).
    apply Forall_app in Hall as [Hall1 [He _]%Forall_cons].
    destruct (run_placed r es1 Hall1) as [(o2 & H2 & Hp2)|[H2 _]]; rewrite H2 in H1; [|done].
    injection H1 as ->. rewrite run_app in Hr. simpl in Hr. rewrite H2 in Hr. simpl in Hr.
    rewrite (exposed_down r) in Hr by done. change (run (Down NullPointer) es2 = Live o) in Hr.
    by rewrite run_down in Hr.
  - split; [|done]. intros c [= <-]. destruct Hx as (es1 & e & es2 & o & -> & H1 & Hx).
    apply Forall_app in Hall as [Hall1 [He _]%Forall_cons].
    destruct (run_placed r es1 Hall1) as [(o2 & H2 & Hp2)|[H2 _]]; rewrite H2 in H1; [|done].
    injection H1 as ->. split; [done|]. split; [by eapply exposed_listener|]. by apply exposed_kind in Hx.
Qed.

(** What a worker has not set up when it leaves its set-up is missing for good:
    it is never declared later, starting the worker again does nothing, and a
    worker that has ended publishes nothing on its topic any more. *)
Theorem never_recovers (r : role) (es es' : list event) (o o' : object) :
  Forall (only r) (es ++ es') ->
  run (Live fresh) es = Live o -> in_loop r o \/ ended r o ->
  run (Live o) es' = Live o' ->
  (forall c, made c o' = made c o) /\ start r o' = o' /\
  (in_loop r o -> in_loop r o') /\
  (ended r o -> ended r o' /\ puts_on ToTopic o' = puts_on ToTopic o).
Proof.
  intros [Hall Hall']%Forall_app Hr Hpl Hr'.
  destruct (run_placed r es Hall) as [(o1 & H1 & Hp)|[H1 _]]; rewrite H1 in Hr; [|done].
  injection Hr as ->. clear H1 Hall es.
  enough (settled r o o' /\ placed r o') as [(Hm & Hne & Hl & He) Hp'].
  { split; [done|]. split; [|by split]. destruct Hpl as [H|H]; [apply Hl in H|apply He in H as [H _]];
      destruct H as [j H]; unfold start; by rewrite H. }
  revert o' Hr'. induction es' as [|e es' IH] using rev_ind; intros o'.
  - intros [= <-]. split; [|done]. apply settled_frame; [done| |done]. by destruct Hpl as [[? ->]|[? ->]].
  - apply Forall_app in Hall' as [Hall' [He _]%Forall_cons]. rewrite run_last. intros Hr'.
    destruct (run (Live o) es') as [o1|] eqn:H1; [|done]. simpl in Hr'.
    destruct (IH Hall' o1 eq_refl) as [(Hm & Hne & Hl & Hd) Hp1].
    assert (in_loop r o1 \/ ended r o1) as Hpl1 by (destruct Hpl as [H|H]; [left; auto|right; by apply Hd]).
    destruct (happen_settled r e o1 o' Hp1 He Hpl1 Hr') as (Hm' & _ & Hl' & Hd').
    split.
    + split; [intros c; by rewrite Hm'|]. split; [by destruct Hpl as [[? ->]|[? ->]]|]. split; [auto|].
      intros H. destruct (Hd H) as [H2 E2]. destruct (Hd' H2) as [H3 E3]. split; [done|congruence].
    + destruct (happen_placed r e o1 He Hp1) as [(o2 & H2 & Hp2)|[H2 _]]; congruence.
Qed.

(** ** Objects used in both roles *)

(** The worker is past [ZenohBase::init] and has not ended. *)
Definition past (r : role) (o : object) : Prop :=
  match thread_of r o with
  | Some (mkThread Loop _) => True
  | Some (mkThread (Setup (Initialise :: _)) _) => False
  | Some (mkThread (Setup _) _) => True
  | _ => False
  end.

(** A thread that has not ended has not been joined; at most one worker is past
    [ZenohBase::init], and then the monitoring thread runs. *)
Record both (o : object) : Prop := mkBoth {
  both_unjoined : forall r p j, thread_of r o = Some (mkThread p j) -> p <> Ended -> j = true;
  both_past : forall r, past r o -> monitoring_thread_ o = true;
  both_one : ~ (past Writer o /\ past Listener o);
}.

(** The steps that leave the threads, and the monitoring thread, alone. *)
Lemma both_frame o o' :
  (forall r, thread_of r o' = thread_of r o) -> monitoring_thread_ o' = monitoring_thread_ o ->
  both o -> both o'.
Proof.
  intros Ht Hm [Hj Hp Ho].
  assert (forall r, past r o' <-> past r o) as Hpast by (intros r; unfold past; by rewrite Ht).
  split; [intros r p j; rewrite Ht; apply Hj|intros r; rewrite Hpast, Hm; apply Hp|by rewrite !Hpast].
Qed.

Lemma thread_of_other r r' th o : r <> r' -> thread_of r (set_thread r' th o) = thread_of r o.
Proof. by destruct r, r'. Qed.

(** A thread moves on; if it passes [init] now, the other has not. *)
Lemma both_move r p p' j o o' :
  thread_of r o = Some (mkThread p j) -> p <> Ended ->
  (forall r', thread_of r' o' = thread_of r' o) ->
  (monitoring_thread_ o = true -> monitoring_thread_ o' = true) ->
  (past r o \/ monitoring_thread_ o = false /\ monitoring_thread_ o' = true \/ p' = Ended) ->
  both o -> both (move r p' o').
Proof.
  intros Ht Hne Hsame Hmon Hcase [Hj Hp Ho]. unfold move. rewrite Hsame, Ht. simpl.
  assert (forall r', r' <> r -> past r' (set_thread r (mkThread p' j) o') <-> past r' o) as Hoth
    by (intros r' Hr; unfold past; by rewrite thread_of_other, Hsame by done).
  assert (past r (set_thread r (mkThread p' j) o') ->
    monitoring_thread_ o' = true /\ (past r o \/ monitoring_thread_ o = false)) as Hr.
  { unfold past at 1. rewrite set_thread_same. destruct Hcase as [H|[[H H']| ->]]; [|auto|done].
    split; [eauto|auto]. }
  split.
  - intros r' q j' H Hq. destruct (decide (r' = r)) as [->|Hr'].
    + rewrite set_thread_same in H. injection H as <- <-. by eapply Hj.
    + rewrite thread_of_other, Hsame in H by done. by eapply Hj.
  - rewrite monitoring_set_thread. intros r' H. destruct (decide (r' = r)) as [->|Hr']; [by apply Hr|].
    apply Hmon, (Hp r'). by apply Hoth.
  - intros [HW HL]. assert (forall r', r' <> r -> past r' o -> False) as Hno.
    { intros r' Hne' H. destruct Hr as [_ [H0|H0]]; [by destruct r| |].
      - apply Ho. destruct r, r'; done.
      - rewrite (Hp r' H) in H0. done. }
    destruct r; [apply (Hno Listener)|apply (Hno Writer)]; [done| |done|]; by apply Hoth.
Qed.

Lemma frame_both o o' :
  frame o o' -> monitoring_thread_ o' = monitoring_thread_ o -> both o -> both o'.
Proof. intros [Ht _ _ _]. by apply both_frame. Qed.

Lemma put_with_monitoring e pad cs works x m o b o' :
  put_with e pad cs works x m o = Some (b, o') -> monitoring_thread_ o' = monitoring_thread_ o.
Proof. unfold put_with. destruct (has e o), works, cs; by intros [= <- <-]. Qed.

Lemma put_with_both e pad cs works x m o b o' :
  put_with e pad cs works x m o = Some (b, o') -> both o -> both o'.
Proof.
  intros H. apply frame_both; [by eapply put_with_some|by eapply put_with_monitoring].
Qed.

Lemma declared_threads r c o : thread_of r (declared c o) = thread_of r o.
Proof. by destruct r. Qed.

Lemma setup_both r works x m o o' todo j :
  thread_of r o = Some (mkThread (Setup todo) j) -> both o ->
  worker_step r works x m o = Live o' -> both o'.
Proof.
  intros Ht Hb. unfold worker_step. rewrite Ht. destruct (worker_of k r) as [w|]; [|by intros [= <-]].
  cbn [at_]. destruct todo as [|c todo].
  - intros [= <-]. eapply both_move; [done|done|done|done| |done]. left. unfold past. by rewrite Ht.
  - destruct (decide (c = Initialise)) as [->|Hc].
    + unfold init. destruct works; simpl.
      * destruct (monitoring_thread_ o) eqn:Hm; intros [= <-].
        eapply both_move; [done|done|by intros []|done|by auto|done].
      * intros [= <-]. eapply both_move; [done|done|done|done|by auto|done].
    + assert (past r o) as Hpast by (unfold past; rewrite Ht; by destruct c).
      intros H. assert ((if already c o then Live (move r (Setup todo) o)
                else match session_ o with NoSession => Down NullPointer | _ =>
                  if works then Live (move r (Setup todo) (declared c o))
                  else Live (move r (if catch_returns w then Ended else Loop) o) end) = Live o') as H'
        by by destruct c.
      clear H. destruct (already c o); [|destruct (session_ o); [done|destruct works..]];
        injection H' as <-; (eapply both_move; [done|done|by intros []|done|by auto|done]).
Qed.

Lemma worker_both r works x m o o' : both o -> worker_step r works x m o = Live o' -> both o'.
Proof.
  intros Hb. destruct (thread_of r o) as [[[todo| |] j]|] eqn:Ht.
  - by eapply setup_both.
  - unfold worker_step. rewrite Ht. destruct (worker_of k r) as [w|]; [|by intros [= <-]].
    cbn [at_]. destruct (running r o); simpl.
    + destruct m as [m|]; [|by intros [= <-]]. destruct (loop_sender r) as [send|] eqn:Hs; [|by intros [= <-]].
      apply loop_sender_spec in Hs as (pad & cs & ->).
      destruct (put_with _ _ _ _ _ _ _) as [[b o1]|] eqn:Hput; intros [= <-]. by eapply put_with_both.
    + intros [= <-]. eapply both_move; [done|done|done|done|by auto|done].
  - unfold worker_step. rewrite Ht. destruct (worker_of k r); by intros [= <-].
  - unfold worker_step. rewrite Ht. by intros [= <-].
Qed.

Lemma received_both x m o : both o -> both (received x m o).
Proof.
  apply frame_both; [apply frame_received|]. unfold received. destruct k; try done. by case_match.
Qed.

Lemma start_both r o : both o -> both (start r o).
Proof.
  intros [Hj Hp Ho]. unfold start. destruct (thread_of r o) as [|] eqn:Ht; [done|].
  destruct (worker_of k r) as [w|] eqn:Hw; [|done]. destruct (setup_first r w Hw) as (l & E & _).
  match goal with |- both ?x => set (o' := x) end.
  assert (thread_of r o' = Some (mkThread (Setup (setup w)) true)) as Hn by by destruct r.
  assert (forall r', r' <> r -> thread_of r' o' = thread_of r' o) as Hs by (intros [] ?; by destruct r).
  assert (forall r', past r' o' -> r' <> r /\ past r' o) as Hpast.
  { intros r' H. destruct (decide (r' = r)) as [->|Hne].
    - unfold past in H. by rewrite Hn, E in H.
    - split; [done|]. unfold past in *. by rewrite Hs in H. }
  split.
  - intros r' q j H Hq. destruct (decide (r' = r)) as [->|Hne]; [congruence|].
    rewrite Hs in H by done. by eapply Hj.
  - intros r' H. replace (monitoring_thread_ o') with (monitoring_thread_ o) by by destruct r.
    apply Hpast in H as [_ H]. by eapply Hp.
  - intros [HW HL]. apply Ho. by apply Hpast in HW as [_ HW], HL as [_ HL].
Qed.

Lemma join_both r o : both o -> both (join r o).
Proof.
  intros [Hj Hp Ho]. unfold join. destruct (thread_of r o) as [[[todo| |] []]|] eqn:Ht; try done.
  assert (forall r', past r' (set_thread r (mkThread Ended false) o) -> past r' o) as Hpast.
  { intros r'. unfold past. destruct (decide (r' = r)) as [->|Hne].
    - by rewrite set_thread_same.
    - by rewrite thread_of_other. }
  split.
  - intros r' q j H Hq. destruct (decide (r' = r)) as [->|Hne].
    + rewrite set_thread_same in H. congruence.
    + rewrite thread_of_other in H by done. by eapply Hj.
  - rewrite monitoring_set_thread. intros r' H. by eapply Hp, Hpast.
  - intros [HW HL]. apply Ho. auto.
Qed.

Lemma happen_both e o o' : e <> Stop -> both o -> happen e o = Live o' -> both o'.
Proof.
  intros He Hb. destruct e as [r'|r'|r' works x m|works x m reply|x m|th| |]; simpl; [..|done|done].
  - intros [= <-]. by apply start_both.
  - intros [= <-]. by apply join_both.
  - by apply worker_both.
  - pose proof (received_both x m o Hb) as Hr. case_match; [|by intros [= <-]]. unfold handle_sample.
    destruct k; try by intros [= <-]. destruct (_ && _); [|by intros [= <-]].
    unfold Node_send_reply. destruct (put_with _ _ _ _ _ _ _) as [[b o1]|] eqn:Hput; intros [= <-].
    by eapply put_with_both.
  - intros [= <-]. case_match; [|done]. by eapply frame_both; [apply frame_count| |].
  - intros [= <-]. case_match eqn:Hm; [|done]. by eapply frame_both; [apply frame_base, monitor_publisher| |].
Qed.

Lemma run_both es o : Forall (fun e => e <> Stop) es -> run (Live fresh) es = Live o -> both o.
Proof.
  revert o. induction es as [|e es IH] using rev_ind; intros o.
  - intros _ [= <-]. by split; [intros []|intros []|intros [[] _]].
  - intros [Hall [He _]%Forall_cons]%Forall_app. rewrite run_last.
    destruct (run (Live fresh) es) as [o1|]; [|done]. simpl. apply happen_both; [done|auto].
Qed.

(** An object can be used in one role only: as long as it is not stopped, the
    writer and the reader of one object are never both in their loops. Whichever
    calls [ZenohBase::init] second, when the bus works, ends the program, because
    it assigns to a running thread. *)
Theorem one_role_per_object (es : list event) (o : object) :
  Forall (fun e => e <> Stop) es -> run (Live fresh) es = Live o ->
  ~ (in_loop Writer o /\ in_loop Listener o) /\
  (forall r r' x m todo j, in_loop r o -> r' <> r ->
     thread_of r' o = Some (mkThread (Setup (Initialise :: todo)) j) ->
     worker_of k r' <> None -> worker_step r' true x m o = Down Terminate).
Proof.
  intros Hall Hr. destruct (run_both es o Hall Hr) as [_ Hp Ho].
  assert (forall r, in_loop r o -> past r o) as Hl by (intros r [j H]; unfold past; by rewrite H).
  split; [intros [HW HL]; apply Ho; auto|].
  intros r r' x m todo j Hin _ Ht Hw. unfold worker_step. rewrite Ht.
  destruct (worker_of k r'); [|done]. cbn [at_]. unfold init. simpl. by rewrite (Hp r) by auto.
Qed.

(** Destroying an object ends the program as soon as one of its workers has
    been started and has not ended, for nothing tells the threads to end and
    waits; and once a session is open even when both have ended and been joined. *)
Theorem destroying_ends_program (es : list event) (o : object) :
  Forall (fun e => e <> Stop) es -> run (Live fresh) es = Live o ->
  (forall r p j, thread_of r o = Some (mkThread p j) -> p <> Ended -> destroy o = Some Terminate) /\
  (monitoring_thread_ o = true -> destroy o = Some Terminate).
Proof.
  intros Hall Hr. destruct (run_both es o Hall Hr) as [Hj _ _]. split.
  - intros r p j Ht Hne. pose proof (Hj r p j Ht Hne) as ->. unfold destroy.
    destruct r; simpl in Ht; rewrite Ht; simpl; rewrite ?orb_true_r; done.
  - intros Hm. unfold destroy. by rewrite Hm, !orb_true_r.
Qed.

(** A call of [start_writer] or [start_reader] that waits returns only when
    the set-up has failed. *)
Theorem waiting_returns_on_failure (r : role) (es : list event) (o : object) (p : place) (w : worker) :
  Forall (only r) es -> Forall (fun e => e <> Stop) es -> worker_of k r = Some w ->
  run (Live fresh) es = Live o -> thread_of r o = Some (mkThread p false) ->
  p = Ended /\ exists c, c ∈ setup w /\ made c o = false.
Proof.
  intros Hall Hns Hw Hr Ht. destruct (run_both es o Hns Hr) as [Hj _ _].
  assert (p = Ended) as -> by (destruct (decide (p = Ended)) as [|Hne]; [done|by specialize (Hj r p false Ht Hne)]).
  split; [done|]. destruct (run_placed r es Hall) as [(o1 & H1 & Hp)|[H1 _]]; rewrite H1 in Hr; [|done].
  injection Hr as ->. by apply (placed_some _ _ _ _ Ht Hw) in Hp as [_ [_ Hp]].
Qed.

End Object.

(** A worker in its loop, with what it calls for. *)
Definition is_up (r : role) (w : worker) (x : machine) : bool :=
  match x with
  | Live o => match thread_of r o with
              | Some (mkThread Loop _) => forallb (fun c => made c o) (setup w)
              | _ => false
              end
  | Down _ => false
  end.

Lemma come_up_is_up k t needReply_ r x w :
  worker_of k r = Some w -> is_up r w (run k t needReply_ (Live fresh) (come_up k r x)) = true.
Proof.
  destruct k, r; intros [= <-]; vm_compute; reflexivity.
Qed.

(** When every call of the bus works, a worker reaches its loop, in as many
    steps as it has calls and one, and everything it calls for is there. *)
Theorem comes_up (k : kind) t needReply_ (r : role) (x : mark) (w : worker) :
  worker_of k r = Some w ->
  exists o, run k t needReply_ (Live fresh) (come_up k r x) = Live o
    /\ in_loop r o /\ (forall c, c ∈ setup w -> made c o = true).
Proof.
  intros Hw. pose proof (come_up_is_up k t needReply_ r x w Hw) as H.
  destruct (run _ _ _ _ _) as [o|]; [|done]. exists o. split; [done|]. simpl in H.
  destruct (thread_of r o) as [[[] j]|] eqn:Ht; try done. split; [by exists j|].
  rewrite forallb_forall in H. intros c Hc. apply H. by apply list_elem_of_In.
Qed.

(** Both events come about. A configuration that comes between the declaration
    of the subscriber and that of the publisher for replies ends the node, and so
    does every configuration after this last declaration has failed: the worker
    has ended, its subscriber is still there. *)
Theorem configuration_ends_node t works x m reply :
  m_uuid m <> [] ->
  let subscribed := Start Listener :: replicate 3 (Step Listener true x None) in
  let run := run NodeTopic t true (Live fresh) in
  run (subscribed ++ [Sample works x m reply]) = Down NullPointer /\
  run (subscribed ++ [Step Listener false x None; Sample works x m reply]) = Down NullPointer /\
  exists o, run (subscribed ++ [Step Listener false x None]) = Live o
    /\ ended Listener o /\ subscriber_ o = true.
Proof.
  intros Hu. destruct m as [[|c u] src to bytes]; [done|].
  split; [vm_compute; reflexivity|]. split; [vm_compute; reflexivity|].
  eexists. split; [vm_compute; reflexivity|]. split; [exists true|]; reflexivity.
Qed.

(** A command topic whose subscriber cannot be declared goes on to its loop,
    receives nothing, and ends the node with the first reply it takes from the
    queues. *)
Theorem reply_ends_node t works x m :
  let failed := [Start Listener; Step Listener true x None; Step Listener true x None;
                 Step Listener false x None] in
  let run := run NodeCmdTopic t true (Live fresh) in
  (exists o, run failed = Live o /\ in_loop Listener o /\ subscriber_ o = false) /\
  run (failed ++ [Step Listener works x (Some m)]) = Down NullPointer.
Proof. split; [eexists; split; [done|split; [by exists true|done]]|done]. Qed.

(** ** Examples *)

Definition a_mark : mark := mkMark $"u-1" 7.
Definition a_message : message := mkMessage $"m-1" $"edge-1" $"mgr" $"bytes".
(** A node topic that comes up, then a configuration with its reply, then the
    counters are published. *)
Definition a_run : list event :=
  come_up NodeTopic Listener a_mark ++ [Sample true a_mark a_message a_message]
    ++ replicate 6 (Publish false).
(** The last declaration fails; the worker is started again, in vain. *)
Definition a_failure : list event :=
  take 4 (come_up NodeTopic Listener a_mark) ++ [Step Listener false a_mark None].

Lemma object_down_only_witness :
  (exists es1 e es2 o, a_failure ++ [Sample true a_mark a_message a_message] = es1 ++ e :: es2 /\
    run NodeTopic a_topic true (Live fresh) es1 = Live o /\ exposed NodeTopic true e o).
Proof.
  apply (object_down_only NodeTopic a_topic true Listener).
  - repeat (apply Forall_cons_2; [exact I || reflexivity|]). apply Forall_nil_2.
  - vm_compute. reflexivity.
Defined.

Lemma never_recovers_witness :
  exists o o', run NodeTopic a_topic true (Live fresh) a_failure = Live o /\
    run NodeTopic a_topic true (Live o) [Start Listener; Step Listener true a_mark None] = Live o' /\
    made DeclareReplyPub o' = made DeclareReplyPub o.
Proof.
  eexists. eexists. split; [vm_compute; reflexivity|]. split; [vm_compute; reflexivity|].
  eapply (never_recovers NodeTopic a_topic true Listener a_failure
    [Start Listener; Step Listener true a_mark None]).
  - repeat (apply Forall_cons_2; [exact I || reflexivity|]). apply Forall_nil_2.
  - vm_compute. reflexivity.
  - right. exists true. reflexivity.
  - vm_compute. reflexivity.
Defined.

(** The writer is in its loop, the reader about to call [init]. *)
Definition two_roles : list event :=
  come_up PingTopic Writer a_mark ++ [Start Listener].

Lemma one_role_per_object_witness :
  exists o, run PingTopic a_topic false (Live fresh) two_roles = Live o /\
    worker_step PingTopic a_topic false Listener true a_mark None o = Down Terminate.
Proof.
  eexists. split; [vm_compute; reflexivity|].
  assert (Forall (fun e => e <> Stop) two_roles) as Hall
    by (repeat (apply Forall_cons_2; [discriminate|]); apply Forall_nil_2).
  eapply (fun o H => proj2 (one_role_per_object PingTopic a_topic false two_roles o Hall H)
    Writer Listener); [vm_compute; reflexivity|exists true; reflexivity|discriminate|reflexivity|discriminate].
Defined.

Lemma destroying_ends_program_witness :
  exists o, run PingTopic a_topic false (Live fresh) two_roles = Live o /\ destroy o = Some Terminate.
Proof.
  eexists. split; [vm_compute; reflexivity|].
  eapply (destroying_ends_program PingTopic a_topic false two_roles).
  - repeat (apply Forall_cons_2; [discriminate|]). apply Forall_nil_2.
  - vm_compute. reflexivity.
  - reflexivity.
Defined.

Lemma configuration_ends_node_witness :
  run NodeTopic a_topic true (Live fresh)
    ((Start Listener :: replicate 3 (Step Listener true a_mark None))
      ++ [Sample true a_mark a_message a_message]) = Down NullPointer.
Proof. apply (configuration_ends_node a_topic true a_mark a_message a_message). discriminate. Defined.

End Lifecycle.
