(* ===== verification/Instance.v ===== *)
(** * The lock file that keeps a node from starting twice

    [SingleInstance] of [src/node/src/main.cpp], on POSIX: a file is opened,
    or created, and locked with [fcntl]; the destructor removes it. The state is
    what the processes share: the directory entry of the file, and who holds a
    lock on which file. A lock belongs to a process, excludes others, and goes
    when the process closes the file or ends; a file that is removed stays for
    those who have it open (POSIX). *)

From S2P Require Import Prelude.

Module Instance.

(** Where a process is in [main]: the object is made; the file is open; the lock
    is held, and [main] goes on; or another instance is believed to run. A file
    is known by its number. *)
Inductive pstate := Built | Opened (file : nat) | Holding (file : nat) | Refused.

Record world := mkWorld {
  lockfile : option nat;
  next_file : nat;
  locks : gmap nat nat;
  procs : gmap nat pstate;
}.

Definition boot : world := mkWorld None 0 ∅ ∅.

(** src/node/src/main.cpp:72-78, [SingleInstance::SingleInstance]. In a process [p]
    that has just started. *)
Definition construct (p : nat) (w : world) : world :=
  match procs w !! p with
  | None => mkWorld (lockfile w) (next_file w) (locks w) (<[p := Built]> (procs w))
  | Some _ => w
  end.

(** src/node/src/main.cpp:96-100, [SingleInstance::isAnotherInstanceRunning]. *)
Definition open_lockfile (works : bool) (p : nat) (w : world) : world :=
  match procs w !! p with
  | Some Built =>
      if works then
        match lockfile w with
        | Some f => mkWorld (Some f) (next_file w) (locks w) (<[p := Opened f]> (procs w))
        | None => mkWorld (Some (next_file w)) (S (next_file w)) (locks w)
                    (<[p := Opened (next_file w)]> (procs w))
        end
      else mkWorld (lockfile w) (next_file w) (locks w) (<[p := Refused]> (procs w))
  | _ => w
  end.

(** src/node/src/main.cpp:102-113, [SingleInstance::isAnotherInstanceRunning]. *)
Definition set_lock (p : nat) (w : world) : world :=
  match procs w !! p with
  | Some (Opened f) =>
      match locks w !! f with
      | Some _ => mkWorld (lockfile w) (next_file w) (locks w) (<[p := Refused]> (procs w))
      | None => mkWorld (lockfile w) (next_file w) (<[f := p]> (locks w)) (<[p := Holding f]> (procs w))
      end
  | _ => w
  end.

(** The process has closed its files. *)
Definition release (p : nat) (l : gmap nat nat) : gmap nat nat := filter (fun fq => fq.2 <> p) l.

(** src/node/src/main.cpp:116-127, [SingleInstance::~SingleInstance]. [main] returns:
    at once when another instance is believed to run, or later. A refused
    process has closed the file already; the file is removed in any case. *)
Definition destructor (p : nat) (w : world) : world :=
  match procs w !! p with
  | Some (Holding _) | Some Refused =>
      mkWorld None (next_file w) (release p (locks w)) (delete p (procs w))
  | _ => w
  end.

(** The process is killed: no destructor runs. *)
Definition killed (p : nat) (w : world) : world :=
  mkWorld (lockfile w) (next_file w) (release p (locks w)) (delete p (procs w)).

(** src/node/src/main.cpp:133-138, [main]. What processes do, step by step. *)
Inductive step : world -> world -> Prop :=
  | StepStart p w : step w (construct p w)
  | StepOpen works p w : step w (open_lockfile works p w)
  | StepLock p w : step w (set_lock p w)
  | StepKill p w : step w (killed p w)
  | StepReturn p w : step w (destructor p w).

(** The steps of processes that do not return from [main]. *)
Inductive quiet_step : world -> world -> Prop :=
  | QuietStart p w : quiet_step w (construct p w)
  | QuietOpen works p w : quiet_step w (open_lockfile works p w)
  | QuietLock p w : quiet_step w (set_lock p w)
  | QuietKill p w : quiet_step w (killed p w).

Definition running (p : nat) (w : world) : Prop := exists f, procs w !! p = Some (Holding f).

(** ** Lemmas *)

(** Whoever has the file open has the one in the directory, and whoever goes on
    has its lock. *)
Record exclusive (w : world) : Prop := mkExclusive {
  open_same : forall p f, procs w !! p = Some (Opened f) -> lockfile w = Some f;
  held_same : forall p f, procs w !! p = Some (Holding f) -> lockfile w = Some f /\ locks w !! f = Some p;
}.

Lemma exclusive_set p s w :
  (forall f, s = Opened f -> lockfile w = Some f) ->
  (forall f, s = Holding f -> lockfile w = Some f /\ locks w !! f = Some p) ->
  exclusive w -> exclusive (mkWorld (lockfile w) (next_file w) (locks w) (<[p := s]> (procs w))).
Proof.
  intros Ho Hh [Ho' Hh']. split; simpl; intros q f; rewrite lookup_insert_Some.
  - intros [[<- ->]|[_ H]]; eauto.
  - intros [[<- ->]|[_ H]]; eauto.
Qed.

Lemma lookup_release p q f l : release p l !! f = Some q <-> l !! f = Some q /\ q <> p.
Proof. unfold release. by rewrite map_lookup_filter_Some. Qed.

Lemma killed_exclusive p w : exclusive w -> exclusive (killed p w).
Proof.
  intros [Ho Hh]. split; simpl; intros q f [Hq H]%lookup_delete_Some; [eauto|].
  apply Hh in H as [? ?]. by rewrite lookup_release.
Qed.

Lemma open_exclusive works p w : exclusive w -> exclusive (open_lockfile works p w).
Proof.
  intros Hw. unfold open_lockfile. destruct (procs w !! p) as [[]|] eqn:Hp; try done.
  destruct works; [|by apply exclusive_set].
  destruct (lockfile w) as [f|] eqn:Hf.
  - rewrite <- Hf. apply exclusive_set; [by intros ? [= <-]|done|done].
  - destruct Hw as [Ho Hh]. split; simpl; intros q g; rewrite lookup_insert_Some.
    + intros [[_ [= ->]]|[_ H]]; [done|]. by specialize (Ho q g H); simplify_eq.
    + intros [[_ [=]]|[_ H]]. by destruct (Hh q g H); simplify_eq.
Qed.

Lemma lock_exclusive p w : exclusive w -> exclusive (set_lock p w).
Proof.
  intros Hw. unfold set_lock. destruct (procs w !! p) as [[|f|f|]|] eqn:Hp; try done.
  destruct (locks w !! f) as [q|] eqn:Hl; [by apply exclusive_set|].
  destruct Hw as [Ho Hh]. split; simpl; intros q g; rewrite lookup_insert_Some.
  - intros [[_ [=]]|[_ H]]. eauto.
  - intros [[<- [= ->]]|[_ H]].
    + split; [eauto|]. apply lookup_insert_eq.
    + apply Hh in H as [? Hg]. split; [done|]. rewrite lookup_insert_ne; [done|]. congruence.
Qed.

Lemma quiet_exclusive w w' : rtc quiet_step w w' -> exclusive w -> exclusive w'.
Proof.
  induction 1 as [|w w1 w' Hs _ IH]; [done|]. intros Hw. apply IH. destruct Hs as [p w|works p w|p w|p w].
  - unfold construct. destruct (procs w !! p) eqn:Hp; [done|]. by apply exclusive_set.
  - by apply open_exclusive.
  - by apply lock_exclusive.
  - by apply killed_exclusive.
Qed.

Lemma boot_exclusive : exclusive boot.
Proof. by split. Qed.

(** ** Theorems *)

(** As long as no process returns from [main], at most one goes on past the
    lock, in whatever order processes start, open, lock and are killed; and after
    it has been killed the next one that starts goes on. *)
Theorem one_instance (w : world) (p q : nat) :
  rtc quiet_step boot w -> running p w -> running q w ->
  p = q /\
  forall r, procs w !! r = None ->
    running r (set_lock r (open_lockfile true r (construct r (killed p w)))).
Proof.
  intros Hw [f Hp] [g Hq]. pose proof (quiet_exclusive boot w Hw boot_exclusive) as [_ Hh].
  destruct (Hh p f Hp) as [Hf Hl], (Hh q g Hq) as [Hg Hl']. split; [congruence|].
  intros r Hr. assert (procs (killed p w) !! r = None) as Hn by (simpl; by apply lookup_delete_None; right).
  unfold construct. rewrite Hn. unfold open_lockfile. cbn [procs lockfile killed].
  rewrite lookup_insert_eq, Hf. unfold set_lock. cbn [procs locks].
  rewrite lookup_insert_eq. exists f.
  destruct (locks (killed p w) !! f) as [x|] eqn:Hx; [|cbn [procs]; apply lookup_insert_eq].
  apply lookup_release in Hx as [? ?]. congruence.
Qed.

(** What a process does from its start on. *)
Definition launch (p : nat) (w : world) : world := set_lock p (open_lockfile true p (construct p w)).

Lemma launch_steps p w : rtc step w (launch p w).
Proof.
  eapply rtc_l; [apply StepStart|]. eapply rtc_l; [apply StepOpen|]. eapply rtc_l; [apply StepLock|].
  apply rtc_refl.
Qed.

(** A second start that is refused removes the lock file of the first, so that
    a third one goes on beside it. *)
Theorem refused_start_opens_door :
  exists w, rtc step boot w /\ running 1 w /\ running 3 w.
Proof.
  exists (launch 3 (destructor 2 (launch 2 (launch 1 boot)))). split.
  - etrans; [apply (launch_steps 1)|]. etrans; [apply (launch_steps 2)|].
    eapply rtc_l; [apply (StepReturn 2)|]. apply launch_steps.
  - split; eexists; vm_compute; reflexivity.
Qed.

(** And without any refusal: a process that has the file open when the first
    returns from [main] locks the removed file, and the next one a new one. *)
Theorem return_opens_door :
  exists w, rtc step boot w /\ running 2 w /\ running 3 w.
Proof.
  exists (launch 3 (set_lock 2 (destructor 1 (open_lockfile true 2 (construct 2 (launch 1 boot)))))). split.
  - etrans; [apply (launch_steps 1)|]. eapply rtc_l; [apply (StepStart 2)|].
    eapply rtc_l; [apply (StepOpen true 2)|]. eapply rtc_l; [apply (StepReturn 1)|].
    eapply rtc_l; [apply (StepLock 2)|]. apply launch_steps.
  - split; eexists; vm_compute; reflexivity.
Qed.

Lemma one_instance_witness :
  let w := launch 1 boot in
  running 2 (set_lock 2 (open_lockfile true 2 (construct 2 (killed 1 w)))).
Proof.
  apply (one_instance (launch 1 boot) 1 1).
  - eapply rtc_l; [apply (QuietStart 1)|]. eapply rtc_l; [apply (QuietOpen true 1)|].
    eapply rtc_l; [apply (QuietLock 1)|]. apply rtc_refl.
  - eexists. vm_compute. reflexivity.
  - eexists. vm_compute. reflexivity.
  - vm_compute. reflexivity.
Defined.

End Instance.
