(* ===== verification/NodeStart.v ===== *)
(** * Starting a node ([src/node/src/main.cpp])

    [main] of the node from its arguments to its last loop: the settings, the
    topics of the manager, the data base, the objects of [Wiring]'s end points
    with the settings they get, the framework and the command worker; and how it
    ends when it does not get there. Then all objects of the node together, as
    [Lifecycle] has each of them. *)

From stdpp Require Import gmap.
From S2P Require Import Prelude Ini ConfigMap Topics Wiring Monitor MonitorStart Lifecycle.
Import Ini ConfigMap Topics Wiring Lifecycle.

Module NodeStart.

(** ** The settings of the topics *)

(** src/dds/TopicInfo.h:11-48, [TopicInfo]. With what [main] sets of [NodeInfo]; the
    keys are those of the end point. *)
Record settings := mkSettings {
  s_nodeName : str;
  s_nodeId : str;
  s_domain : Z;
  s_programName : str;
  s_needReply : bool;
  s_monNodeId : str;
  s_monTopicName : str;
  s_monSendSleep : Z;
  s_configPath : str;
}.

(** An object that is made and started: its class, its role with the keys, and
    its settings. *)
Record started := mkStarted { class : kind; end_point : endpoint; info : settings }.

Definition s_role (s : started) : role := e_role (end_point s).

Section Config.
Context (values : gmap str str).

(** src/node/src/main.cpp:224-227, [main]. [monSendSleep_] is unsigned. *)
Definition monNodeId : str := GetString values $"monitor" $"node_id" $"000000000000".
Definition monSendSleep : Z := uwrap 32 (to_int (GetInteger values $"monitor" $"send_sleep" 60)).
Definition zenohConf : str := GetString values $"route" $"databus_conf" $"config/databus.json5".

Definition fill_info (needReply : bool) (monTopic : str) : settings :=
  let i := load_nodeInfo values in
  mkSettings (nodeName_ i) (nodeId_ i) (domain_ i) (programName_ i) needReply
    monNodeId monTopic monSendSleep zenohConf.

(** src/node/src/main.cpp:621-630, [main]. *)
Definition topicInfo := fill_info true.
(** src/node/src/main.cpp:633-644, [main]. *)
Definition topicInfoCmd := fill_info true.
(** src/node/src/main.cpp:646-657, [main]. *)
Definition topicInfoPing := fill_info false.
(** src/node/src/main.cpp:669-679, [main]. *)
Definition topicInfoMstate := fill_info false.
(** src/node/src/main.cpp:765-793, [main]. [fileUpInfo] differs in its topics only. *)
Definition fileDownInfo := fill_info true.

(** src/node/src/main.cpp:529-536, [main]. The arguments of [getDbInstance]. *)
Record database := mkDatabase {
  dbType : Z; dbIp : str; dbUser : str; dbPwd : str; dbName : str; dbPort : Z; dbPoolNum : Z;
}.
Definition load_database : database := mkDatabase
  (to_int (GetInteger values $"db" $"type" 1))
  (GetString values $"db" $"ip" $"10.4.1.203")
  (GetString values $"db" $"user" $"root")
  (GetString values $"db" $"pwd" $"Seisys*77889900")
  (GetString values $"db" $"name" $"databus-dev")
  (to_int (GetInteger values $"db" $"port" 3306))
  (to_int (GetInteger values $"db" $"pool_num" 10)).

(** ** The objects *)

Context (groupMap : gmap str (list str)).

Definition group : str := group_ (load_nodeInfo values).
Definition nodeId : str := nodeId_ (load_nodeInfo values).

(** src/node/src/main.cpp:494-507, [main]. [None]: a group is empty whose first node
    a topic is made with. *)
Definition manager_topics : option (list Topic) :=
  cmdDown ← nodeCmdTopic values groupMap DOWN;
  cmdUp ← nodeCmdTopic values groupMap UP;
  ping ← nodePingTopic values groupMap;
  mstate ← nodeMstateTopic values groupMap;
  mon ← monStatsTopic values groupMap;
  Some (foldl addTopic [] [cmdDown; cmdUp; nodeMsgBaseTopic values DOWN; nodeMsgBaseTopic values UP;
    ping; mstate; fileDownBaseTopic values DOWN; fileDownBaseTopic values UP;
    fileUpBaseTopic values UP; fileUpBaseTopic values DOWN; mon]).

(** src/node/src/main.cpp:659-688, [main]. *)
Definition state_objects (monTopic : str) : option (list started) :=
  eps ← state_endpoints values groupMap group nodeId;
  let n := (if is_mgr group then 2 else 1)%nat in
  Some (zip_with (fun k e => mkStarted k e
                    (if decide (k = PingTopic) then topicInfoPing monTopic else topicInfoMstate monTopic))
          (replicate n PingTopic ++ replicate n MachineStateTopic) eps).

(** src/node/src/main.cpp:699-731, [main]. *)
Definition node_objects (monTopic : str) : list started :=
  map (fun e => mkStarted NodeTopic e (topicInfo monTopic)) (nodeMsg_endpoints values groupMap group nodeId).

(** src/node/src/main.cpp:795-859, [main]. *)
Definition file_objects (monTopic : str) : list started :=
  map (fun e => mkStarted FileTopic e (fileDownInfo monTopic)) (file_endpoints values groupMap group nodeId).

(** src/node/src/main.cpp:865-879, [main]. *)
Definition cmd_objects (monTopic : str) : option (list started) :=
  eps ← cmd_endpoints values groupMap group;
  Some (map (fun e => mkStarted NodeCmdTopic e (topicInfoCmd monTopic)) eps).

End Config.

(** ** The command worker *)

(** src/node/src/NodeCmdWorker.h:50-54, [NodeCmdWorker]. Which of the static
    pointers are set; of the log topic its settings. *)
Record singletons := mkSingletons {
  pm_ : bool; cm_ : bool; lmm_ : option (str * str * bool); podm_ : option str;
}.

(** src/node/src/NodeCmdWorker.cpp:68-98, [NodeCmdWorker::init]. *)
Definition worker_init (i : settings) (podmanBaseUrl : str) (s : singletons) : singletons :=
  mkSingletons true true
    (Some (default ($"LogDataTopic", s_nodeId i, false) (lmm_ s)))
    (Some (default podmanBaseUrl (podm_ s))).

(** src/node/src/NodeCmdWorker.cpp:100-126, [NodeCmdWorker::uinit]. *)
Definition worker_uinit (s : singletons) : singletons := mkSingletons false false None None.

(** ** main *)

Inductive action :=
  | OpenDb (d : database)
  | StartObject (s : started)
  | StartFramework
  | StartWorker (s : singletons).

(** It is in its last loop, has returned, an exception ends it, or what it does is
    undefined. *)
Inductive ending := Running | Returned (code : Z) | Thrown | Undefined.

(** What [main] meets: is another instance running ([Instance]); its arguments
    after the name of the program; files, and documents at a path; whether it is
    built with S3, and its client; and the framework. *)
Record host := mkHost {
  another : bool;
  args : list str;
  file : str -> option str;
  doc : str -> option json;
  use_s3 : bool;
  s3_init : str -> str -> str -> bool;
  framework_starts : bool;
}.

(** src/node/src/main.cpp:148-152, [main]. [None]: with one argument [argv[2]] is
    null. *)
Definition configPathName (args : list str) : option str :=
  match args with
  | [] => Some $"config/node1.ini"
  | _ => args !! 1%nat
  end.

(** src/node/src/main.cpp:529-879, [main]. The part after the topics, from the data
    base on, whose calls are the definitions above. *)
Definition start_parts (h : host) (values : gmap str str) (groupMap : gmap str (list str))
    (monTopic : str) (states cmds : list started) : list action * ending :=
  let i := load_nodeInfo values in
  let db := if is_mgr (group_ i) then [OpenDb (load_database values)] else [] in
  if use_s3 h && negb (s3_init h (endpointOverride i) (accessKey i) (secretKey i)) then (db, Returned (-1))
  else
    let before := db ++ map StartObject (states ++ node_objects values groupMap monTopic) in
    if negb (framework_starts h) then (before, Returned (-1))
    else (before ++ StartFramework :: map StartObject (file_objects values groupMap monTopic ++ cmds)
            ++ [StartWorker (worker_init (topicInfoCmd values monTopic) $"http://127.0.0.1:8888"
                               (mkSingletons false false None None))],
          Running).

(** src/node/src/main.cpp:130-206, [main]. What it starts, in order, and how it ends.
    When the file of settings is missing, the message has [argv[2]], which without
    arguments lies behind the end of the array. *)
Definition main (h : host) : list action * ending :=
  if another h then ([], Returned 1)
  else match configPathName (args h) with
  | None => ([], Undefined)
  | Some path =>
      let '(err, values) := INIReader_file (file h path) in
      if err <? 0 then ([], if bool_decide (args h = []) then Undefined else Returned (-1))
      else
        let groupPath := GetString values $"group" $"group_path" [] in
        if bool_decide (groupPath = []) then ([], Returned 0)
        else match parseJsonToMap (doc h groupPath) with
        | None => ([], Thrown)
        | Some groupMap =>
            match manager_topics values groupMap, MonitorStart.monTopicName_ values groupMap with
            | Some _, Some monTopic =>
                match state_objects values groupMap monTopic, cmd_objects values groupMap monTopic with
                | Some states, Some cmds => start_parts h values groupMap monTopic states cmds
                | _, _ => ([], Undefined)
                end
            | _, _ => ([], Undefined)
            end
        end
  end.

Definition objects (l : list action) : list started :=
  omap (fun a => match a with StartObject s => Some s | _ => None end) l.

(** The workers and handlers that use the data base without asking whether there
    is one: the handlers of states, the writers that read tasks, and the handlers
    of the replies to them. ([FileTopic] asks.) *)
Definition uses_db (k : kind) (r : role) : bool :=
  match k, r with
  | PingTopic, Listener | MachineStateTopic, Listener => true
  | NodeTopic, Writer | NodeCmdTopic, Writer => true
  | _, _ => false
  end.

(** ** All objects of a node *)

Inductive node := Up (os : list object) | Crashed (i : nat) (c : cause).

(** src/dds/ZenohBase.h:36-36, [ZenohBase::init]. *)
Definition topic_of (s : started) : Monitor.TopicInfo := Monitor.mkTopic
  (topic_ (end_point s)) (topicReply_ (end_point s)) (s_nodeId (info s)) (s_programName (info s))
  (s_domain (info s)) (s_monSendSleep (info s)).

Definition object_happen (s : started) : event -> object -> machine :=
  happen (class s) (topic_of s) (s_needReply (info s)).
Definition object_run (s : started) : machine -> list event -> machine :=
  Lifecycle.run (class s) (topic_of s) (s_needReply (info s)).

(** Something happens to one of the objects. *)
Definition node_step (ss : list started) (n : node) (x : nat * event) : node :=
  match n with
  | Crashed _ _ => n
  | Up os =>
      match ss !! x.1, os !! x.1 with
      | Some s, Some o =>
          match object_happen s x.2 o with
          | Live o' => Up (<[x.1 := o']> os)
          | Down c => Crashed x.1 c
          end
      | _, _ => n
      end
  end.

Definition node_run (ss : list started) (es : list (nat * event)) : node :=
  foldl (node_step ss) (Up (replicate (length ss) fresh)) es.

(** What happens to object [i]. *)
Definition of_object (i : nat) (es : list (nat * event)) : list event :=
  omap (fun x => if decide (x.1 = i) then Some x.2 else None) es.

(** Every object is used in the role it was started in; bodies may end the program. *)
Definition in_roles (ss : list started) (es : list (nat * event)) : Prop :=
  Forall (fun x => forall s, ss !! x.1 = Some s -> only (s_role s) x.2 \/ x.2 = BodyEnds) es.

(** ** Lemmas *)

Lemma objects_app l l' : objects (l ++ l') = objects l ++ objects l'.
Proof. apply omap_app. Qed.

Lemma objects_start ss : objects (map StartObject ss) = ss.
Proof. induction ss as [|s ss IH]; [done|]. simpl. f_equal. exact IH. Qed.

(** Where [main] gets when it starts anything. *)
Inductive gets_to (h : host) : list action * ending -> Prop :=
  | GetsNowhere e : e <> Running -> gets_to h ([], e)
  | GetsTo path values groupMap monTopic states cmds :
      configPathName (args h) = Some path ->
      (INIReader_file (file h path)).2 = values ->
      parseJsonToMap (doc h (GetString values $"group" $"group_path" [])) = Some groupMap ->
      state_objects values groupMap monTopic = Some states ->
      cmd_objects values groupMap monTopic = Some cmds ->
      gets_to h (start_parts h values groupMap monTopic states cmds).

Lemma main_gets_to h : gets_to h (main h).
Proof.
  unfold main. destruct (another h); [by apply GetsNowhere|].
  destruct (configPathName (args h)) as [path|] eqn:Hp; [|by apply GetsNowhere].
  destruct (INIReader_file (file h path)) as [err values] eqn:Hf.
  destruct (err <? 0); [apply GetsNowhere; by case_bool_decide|].
  case_bool_decide; [by apply GetsNowhere|].
  destruct (parseJsonToMap _) as [groupMap|] eqn:Hg; [|by apply GetsNowhere].
  destruct (manager_topics values groupMap), (MonitorStart.monTopicName_ values groupMap) as [monTopic|];
    try by apply GetsNowhere.
  destruct (state_objects values groupMap monTopic) as [states|] eqn:Hs; [|by apply GetsNowhere].
  destruct (cmd_objects values groupMap monTopic) as [cmds|] eqn:Hc; [|by apply GetsNowhere].
  eapply GetsTo; try done. by rewrite Hf.
Qed.

Definition shape (s : started) : kind * role := (class s, s_role s).

(** What is started, by class and role. *)
Definition expected (values : gmap str str) (groupMap : gmap str (list str)) : list (kind * role) :=
  if is_mgr (group values) then
    [(PingTopic, Listener); (PingTopic, Writer);
     (MachineStateTopic, Listener); (MachineStateTopic, Writer)]
    ++ flat_map (fun n => (NodeTopic, Writer) :: if decide (n = nodeId values) then [(NodeTopic, Listener)] else [])
         (group_ids groupMap (nodeMsg_route values))
    ++ flat_map (fun _ => [(FileTopic, Writer); (FileTopic, Listener)])
         (group_ids groupMap (fileDown_route values))
    ++ [(NodeCmdTopic, Writer); (NodeCmdTopic, Listener)]
  else [(PingTopic, Writer); (MachineStateTopic, Writer); (NodeTopic, Listener);
        (FileTopic, Writer); (FileTopic, Listener); (NodeCmdTopic, Listener)].

Section Plan.
Context (values : gmap str str) (groupMap : gmap str (list str)) (monTopic : str).

Lemma state_shape states :
  state_objects values groupMap monTopic = Some states ->
  map shape states = if is_mgr (group values)
    then [(PingTopic, Listener); (PingTopic, Writer);
          (MachineStateTopic, Listener); (MachineStateTopic, Writer)]
    else [(PingTopic, Writer); (MachineStateTopic, Writer)].
Proof.
  unfold state_objects, state_endpoints.
  destruct (nodePingTopic values groupMap), (nodeMstateTopic values groupMap); try done.
  simpl. destruct (is_mgr (group values)); by intros [= <-].
Qed.

Lemma node_shape :
  map shape (node_objects values groupMap monTopic) = if is_mgr (group values)
    then flat_map (fun n => (NodeTopic, Writer) :: if decide (n = nodeId values) then [(NodeTopic, Listener)] else [])
         (group_ids groupMap (nodeMsg_route values))
    else [(NodeTopic, Listener)].
Proof.
  unfold node_objects, nodeMsg_endpoints. destruct (is_mgr (group values)); [|done].
  induction (group_ids groupMap (nodeMsg_route values)) as [|n l IH]; [done|].
  cbn [flat_map]. rewrite !map_app, IH. f_equal. cbn [map]. by case_decide.
Qed.

Lemma file_shape :
  map shape (file_objects values groupMap monTopic) = if is_mgr (group values)
    then flat_map (fun _ => [(FileTopic, Writer); (FileTopic, Listener)])
         (group_ids groupMap (fileDown_route values))
    else [(FileTopic, Writer); (FileTopic, Listener)].
Proof.
  unfold file_objects, file_endpoints. destruct (is_mgr (group values)); [|done].
  induction (group_ids groupMap (fileDown_route values)) as [|n l IH]; [done|].
  cbn [flat_map]. rewrite !map_app, IH. done.
Qed.

Lemma cmd_shape cmds :
  cmd_objects values groupMap monTopic = Some cmds ->
  map shape cmds = if is_mgr (group values)
    then [(NodeCmdTopic, Writer); (NodeCmdTopic, Listener)] else [(NodeCmdTopic, Listener)].
Proof.
  unfold cmd_objects, cmd_endpoints.
  destruct (nodeCmdTopic values groupMap DOWN), (nodeCmdTopic values groupMap UP); try done.
  simpl. destruct (is_mgr (group values)); by intros [= <-].
Qed.

End Plan.

(** An edge node starts nothing that uses a data base. *)
Lemma edge_without_db values groupMap :
  is_mgr (group values) = false -> Forall (fun x => uses_db x.1 x.2 = false) (expected values groupMap).
Proof. intros H. unfold expected. rewrite H. repeat constructor. Qed.

Lemma start_parts_shape h values groupMap monTopic states cmds :
  state_objects values groupMap monTopic = Some states ->
  cmd_objects values groupMap monTopic = Some cmds ->
  let r := start_parts h values groupMap monTopic states cmds in
  (exists rest, expected values groupMap = map shape (objects r.1) ++ rest /\
    (r.2 = Running -> rest = [])) /\
  (is_mgr (group values) = true -> exists l, r.1 = OpenDb (load_database values) :: l).
Proof.
  intros Hs Hc. unfold start_parts. fold (group values).
  assert (expected values groupMap = map shape states ++ map shape (node_objects values groupMap monTopic)
            ++ map shape (file_objects values groupMap monTopic) ++ map shape cmds) as ->.
  { rewrite (state_shape _ _ _ _ Hs), node_shape, file_shape, (cmd_shape _ _ _ _ Hc). unfold expected.
    by destruct (is_mgr (group values)). }
  assert (objects (if is_mgr (group values) then [OpenDb (load_database values)] else []) = []) as Hdb
    by by destruct (is_mgr (group values)).
  destruct (use_s3 h && _); [|destruct (framework_starts h)]; cbn [fst snd negb]; cbv zeta;
    (split; [|intros ->; by eexists]).
  - rewrite Hdb. by eexists.
  - exists []. split; [|done]. rewrite objects_app. rewrite objects_app, Hdb, objects_start.
    cbn [objects omap list_omap app]. fold (objects (map StartObject (file_objects values groupMap monTopic ++ cmds)
      ++ [StartWorker (worker_init (topicInfoCmd values monTopic) $"http://127.0.0.1:8888"
            (mkSingletons false false None None))])).
    rewrite objects_app, objects_start. cbn [objects omap list_omap].
    rewrite !app_nil_r, !map_app. by rewrite <- !app_assoc.
  - rewrite objects_app, Hdb, objects_start. cbn [app]. rewrite map_app.
    exists (map shape (file_objects values groupMap monTopic) ++ map shape cmds). split; [|done].
    by rewrite <- app_assoc.
Qed.

(** ** Theorems *)

(** Whatever a node starts that uses the data base without asking whether there
    is one is started on the manager only, and after the data base has been
    opened: no thread of any node finds it missing. *)
Theorem db_before_use (h : host) (as1 as2 : list action) (s : started) :
  (main h).1 = as1 ++ StartObject s :: as2 -> uses_db (class s) (s_role s) = true ->
  exists d, OpenDb d ∈ as1.
Proof.
  intros Hm Hu. destruct (main_gets_to h) as [e He|path values groupMap monTopic states cmds _ _ _ Hs Hc];
    [by destruct as1|].
  destruct (start_parts_shape h values groupMap monTopic states cmds Hs Hc) as [(rest & Hx & _) Hdb].
  destruct (is_mgr (group values)) eqn:Hg.
  - destruct (Hdb eq_refl) as [l Hl]. rewrite Hl in Hm. destruct as1 as [|a as1]; [done|].
    injection Hm as <- _. eexists. by constructor.
  - exfalso. pose proof (edge_without_db values groupMap Hg) as Hall. rewrite Hx in Hall.
    apply Forall_app in Hall as [Hall _]. rewrite Hm, objects_app, map_app in Hall.
    apply Forall_app in Hall as [_ Hall]. simpl in Hall. apply Forall_cons in Hall as [Hall _].
    simpl in Hall. congruence.
Qed.

(** A node that reaches its last loop has started exactly the objects of its
    kind of node: six on an edge node, and on the manager one writer for the
    configurations of every node, a writer and a reader of files for every node,
    and both roles for commands, each in an object of its own. *)
Theorem objects_started (h : host) path values groupMap :
  (main h).2 = Running ->
  configPathName (args h) = Some path -> (INIReader_file (file h path)).2 = values ->
  parseJsonToMap (doc h (GetString values $"group" $"group_path" [])) = Some groupMap ->
  map shape (objects (main h).1) = expected values groupMap.
Proof.
  intros Hr Hp Hv Hg. destruct (main_gets_to h) as [e He|path' values' groupMap' monTopic states cmds Hp' Hv' Hg' Hs Hc];
    [done|].
  rewrite Hp in Hp'. injection Hp' as <-. rewrite Hv in Hv'. subst values'. rewrite Hg in Hg'. injection Hg' as <-.
  destruct (start_parts_shape h values groupMap monTopic states cmds Hs Hc) as [(rest & -> & Hrest) _].
  by rewrite (Hrest Hr), app_nil_r.
Qed.

(** Without a file of settings nothing is started; the program says so and
    returns -1 only when it has two arguments. With one, and with none, it reads
    an argument that is not there. *)
Theorem no_settings (h : host) :
  another h = false -> (forall path, file h path = None) ->
  main h = ([], if decide (2 <= length (args h))%nat then Returned (-1) else Undefined).
Proof.
  intros Ha Hf. unfold main. rewrite Ha.
  by destruct (args h) as [|a [|b l]] eqn:E; simpl; rewrite ?Hf, ?E.
Qed.

(** A group file that cannot be read ends the node by an exception, and a
    missing setting of its path with the exit code of success. *)
Theorem groups_needed (h : host) path values :
  another h = false -> configPathName (args h) = Some path ->
  INIReader_file (file h path) = (0, values) ->
  let groupPath := GetString values $"group" $"group_path" [] in
  (groupPath = [] -> main h = ([], Returned 0)) /\
  (groupPath <> [] -> doc h groupPath = None -> main h = ([], Thrown)).
Proof.
  intros Ha Hp Hv groupPath. unfold main. rewrite Ha, Hp, Hv. change (0 <? 0) with false.
  cbv beta iota zeta. fold groupPath. split.
  - intros H. by rewrite bool_decide_true.
  - intros H Hd. by rewrite bool_decide_false, Hd.
Qed.

(** ** The node *)

(** All objects are placed. *)
Definition all_placed (ss : list started) (os : list object) : Prop :=
  Forall2 (fun s o => placed (class s) (s_role s) o) ss os.

(** The node has crashed on an object that is exposed. *)
Definition crashed_exposed (ss : list started) (n : node) : Prop :=
  exists i s, n = Crashed i NullPointer /\ ss !! i = Some s /\ s_role s = Listener /\
    s_needReply (info s) = true /\ (class s = NodeTopic \/ class s = NodeCmdTopic).

Lemma node_step_placed ss os x :
  (forall s, ss !! x.1 = Some s -> only (s_role s) x.2 \/ x.2 = BodyEnds) -> all_placed ss os ->
  (exists os', node_step ss (Up os) x = Up os' /\ all_placed ss os') \/
  crashed_exposed ss (node_step ss (Up os) x) \/
  (node_step ss (Up os) x = Crashed x.1 Body /\ x.2 = BodyEnds).
Proof.
  intros Hx Ha. destruct x as [i e]. simpl in *.
  destruct (ss !! i) as [s|] eqn:Hs; [|left; by exists os].
  destruct (os !! i) as [o|] eqn:Ho; [|left; by exists os].
  pose proof (Forall2_lookup_lr _ _ _ _ _ _ Ha Hs Ho) as Hp. simpl in Hp.
  destruct (Hx s eq_refl) as [Hon| ->];
    [|by right; right].
  destruct (happen_placed (class s) (topic_of s) (s_needReply (info s)) (s_role s) e o Hon Hp)
    as [(o' & Ho' & Hp')|[Hd Hex]]; unfold object_happen.
  - left. rewrite Ho'. eexists. split; [done|]. apply Forall2_same_length_lookup.
    pose proof (Forall2_length _ _ _ Ha) as Hlen. split; [by rewrite length_insert|].
    intros j s' o'' Hs' [(<- & <- & _)|[_ Hj]]%list_lookup_insert_Some; [congruence|].
    exact (Forall2_lookup_lr _ _ _ _ _ _ Ha Hs' Hj).
  - right. left. rewrite Hd. exists i, s. split; [done|]. split; [done|]. split; [|split].
    + by eapply exposed_listener.
    + by destruct Hex.
    + by eapply exposed_kind.
Qed.

Lemma all_fresh ss : all_placed ss (replicate (length ss) fresh).
Proof.
  induction ss as [|s ss IH]; [constructor|]. simpl. constructor; [apply fresh_placed|done].
Qed.

Lemma node_run_placed ss es :
  in_roles ss es ->
  (exists os, node_run ss es = Up os /\ all_placed ss os) \/ crashed_exposed ss (node_run ss es) \/
  (exists i, node_run ss es = Crashed i Body /\ (i, BodyEnds) ∈ es).
Proof.
  unfold node_run. induction es as [|x es IH] using rev_ind; intros Hr.
  - left. eexists. split; [done|apply all_fresh].
  - apply Forall_app in Hr as [Hr [Hx _]%Forall_cons]. rewrite foldl_app. simpl.
    destruct (IH Hr) as [(os & -> & Ha)|[(i & s & -> & H)|(i & -> & H)]].
    + destruct (node_step_placed ss os x Hx Ha) as [H|[H|[H E]]]; [by left|by right; left|].
      right. right. exists x.1. split; [done|]. destruct x as [i e]. simpl in *. subst e.
      apply elem_of_app. right. by constructor.
    + right. left. by exists i, s.
    + right. right. exists i. split; [done|]. apply elem_of_app. by left.
Qed.

(** C14. The objects of a node, all together, whichever threads run in whatever
    order and whichever calls of the bus throw: their sessions, end points and
    threads end the node only in one way, by a null pointer in a [NodeTopic] or a
    [NodeCmdTopic] that listens. Any other end is made by the body of a handler or
    of a loop (such as the [exit] of [RESTART], an exception that leaves its
    thread, an overrun buffer), which is an event of its own here. *)
Theorem node_ended_by (h : host) (es : list (nat * event)) (i : nat) (c : cause) :
  let ss := objects (main h).1 in
  in_roles ss es -> node_run ss es = Crashed i c ->
  (c = NullPointer /\
   (shape <$> ss !! i = Some (NodeTopic, Listener) \/ shape <$> ss !! i = Some (NodeCmdTopic, Listener))) \/
  (c = Body /\ (i, BodyEnds) ∈ es).
Proof.
  intros ss Hr Hc.
  destruct (node_run_placed ss es Hr) as [(os & H & _)|[(j & s & H & Hs & Hl & _ & Hk)|(j & H & Hj)]];
    rewrite H in Hc; [done| |].
  - injection Hc as <- <-. left. split; [done|]. rewrite Hs. simpl. unfold shape.
    rewrite Hl. destruct Hk as [->| ->]; auto.
  - injection Hc as <- <-. by right.
Qed.

Lemma node_step_other ss os os' j i e :
  node_step ss (Up os) (j, e) = Up os' -> j <> i -> os' !! i = os !! i.
Proof.
  unfold node_step. simpl. destruct (ss !! j) as [s|]; [|by intros [= <-]].
  destruct (os !! j) as [o|]; [|by intros [= <-]].
  destruct (object_happen s e o) as [o'|]; [|done]. intros [= <-] Hne. by apply list_lookup_insert_ne.
Qed.

(** As long as a node is up, each of its objects is in the state that its own
    events alone have brought it to: what holds of an object in every run holds
    of it in the node. *)
Theorem node_is_its_objects (ss : list started) (es : list (nat * event)) (os : list object) i s :
  node_run ss es = Up os -> ss !! i = Some s ->
  exists o, os !! i = Some o /\ object_run s (Live fresh) (of_object i es) = Live o.
Proof.
  intros Hr Hs. revert os Hr. unfold node_run. induction es as [|x es IH] using rev_ind; intros os.
  - intros [= <-]. exists fresh. split; [|done]. apply lookup_replicate. split; [done|].
    by eapply lookup_lt_Some.
  - rewrite foldl_app. simpl. destruct (foldl _ _ es) as [os1|]; [|done].
    destruct (IH os1 eq_refl) as (o & Ho & Hrun). unfold of_object. rewrite omap_app.
    change (omap _ es) with (of_object i es). unfold object_run in *. rewrite run_app, Hrun.
    destruct x as [j e]. cbn [omap list_omap fst snd]. destruct (decide (j = i)) as [->|Hj].
    + unfold node_step. cbn [fst snd]. rewrite Hs, Ho. unfold object_happen.
      destruct (happen _ _ _ e o) as [o'|] eqn:He; [|done]. intros [= <-].
      exists o'. split; [apply list_lookup_insert_eq; by eapply lookup_lt_Some|]. unfold run. simpl.
      by rewrite He.
    + intros H. exists o. by rewrite (node_step_other ss os1 os j i e H Hj).
Qed.

(** ** An example: a manager with one edge node *)

Definition node_ini (group : str) : str :=
  concat (map (fun l => l ++ [newline])
    [$"[base]"; $"node_id=m1"; $"group=" ++ group; $"[group]"; $"group_path=g.json"; $"[route]";
     $"node_msg_group=all"; $"node_ping_group=mgr"; $"node_mstate_group=mgr"; $"node_cmd_group=mgr";
     $"file_down_group=all"; $"mon_group=mgr"]).
Definition a_group (name : str) (members : list str) : json :=
  JObject [($"group_name", JString name); ($"group_member", JArray (map JString members))].
Definition a_host (group : str) : host := mkHost false [$"-c"; $"node.ini"] (fun _ => Some (node_ini group))
  (fun _ => Some (JObject [($"groups", JArray [a_group $"mgr" [$"m1"]; a_group $"all" [$"m1"; $"e1"]])]))
  false (fun _ _ _ => true) true.
Definition manager : host := a_host $"mgr".

Example manager_runs : (main manager).2 = Running /\ (main (a_host $"edge")).2 = Running.
Proof. vm_compute. split; reflexivity. Qed.

Definition a_started : started :=
  mkStarted PingTopic (mkEndpoint Wiring.Reader [] [] []) (mkSettings [] [] 0 [] false [] [] 0 []).

Lemma db_before_use_witness :
  let l := (main manager).1 in exists d, OpenDb d ∈ take 1 l.
Proof.
  intros l. apply (db_before_use manager (take 1 l) (drop 2 l)
    (default a_started (head (objects (drop 1 l))))); vm_compute; reflexivity.
Defined.

Definition manager_values : gmap str str := (INIReader_file (file manager $"node.ini")).2.
Definition manager_groups : gmap str (list str) :=
  {[ $"mgr" := [$"m1"]; $"all" := [$"m1"; $"e1"] ]}.

Lemma objects_started_witness :
  map shape (objects (main manager).1) =
    [(PingTopic, Listener); (PingTopic, Writer); (MachineStateTopic, Listener); (MachineStateTopic, Writer);
     (NodeTopic, Writer); (NodeTopic, Listener); (NodeTopic, Writer);
     (FileTopic, Writer); (FileTopic, Listener); (FileTopic, Writer); (FileTopic, Listener);
     (NodeCmdTopic, Writer); (NodeCmdTopic, Listener)].
Proof.
  etrans; [apply (objects_started manager $"node.ini" manager_values manager_groups)|].
  - vm_compute. reflexivity.
  - reflexivity.
  - exact eq_refl.
  - unfold manager_groups. vm_compute. reflexivity.
  - vm_compute. reflexivity.
Defined.

(** A configuration comes for the manager's own reader while it is set up. *)
Definition early_configuration : list (nat * event) :=
  map (pair 5%nat) (Start Listener :: replicate 3 (Step Listener true a_mark None)
    ++ [Sample true a_mark a_message a_message]).

Lemma node_ended_by_witness :
  node_run (objects (main manager).1) early_configuration = Crashed 5 NullPointer /\
  ((NullPointer = NullPointer /\
    (shape <$> objects (main manager).1 !! 5%nat = Some (NodeTopic, Listener) \/
     shape <$> objects (main manager).1 !! 5%nat = Some (NodeCmdTopic, Listener))) \/
   (NullPointer = Body /\ (5%nat, BodyEnds) ∈ early_configuration)).
Proof.
  assert (node_run (objects (main manager).1) early_configuration = Crashed 5 NullPointer) as H
    by (vm_compute; reflexivity).
  split; [exact H|]. apply (node_ended_by manager early_configuration 5 NullPointer); [|exact H].
  repeat (apply Forall_cons_2; [vm_compute; intros s [= <-]; left; exact I || reflexivity|]).
  apply Forall_nil_2.
Defined.

Lemma no_settings_witness :
  main (mkHost false [] (fun _ => None) (fun _ => None) false (fun _ _ _ => true) true) = ([], Undefined).
Proof. by rewrite no_settings. Defined.

End NodeStart.
