(* ===== verification/Delivery.v ===== *)
(** * Commands from the table of the manager to the queues of a node

    The writer of the manager's [NodeCmdTopic] and the listener of a node's,
    over a bus that delivers a sample to those who have declared a subscriber at
    that moment, and to nobody later. The rows of table [node_cmd] are written
    by others; the queues here are never emptied, so that they say what has been
    put into them. *)

From S2P Require Import Prelude Json Messages Monitor NodeCmd Lifecycle.
Import Json Messages Lifecycle NodeCmd.NodeCmdTopic.

Module Delivery.

(** The object of the node, its queues, and the data base of the manager. *)
Record system := mkSystem { edge : machine; queues_ : queues; db_ : db }.

Section Bus.
(** The settings of the node's topic, the message of a command, and the readings
    with which a command is counted. *)
Context (t : Monitor.TopicInfo) (needReply_ : bool).
Context (serialize : NodeCmd -> str) (readings : NodeCmd -> Lifecycle.mark).

Definition to_message (c : NodeCmd) : message :=
  mkMessage (c_uuid c) (c_src_node_id c) (c_to_node_id c) (serialize c).

Definition no_message : message := mkMessage [] [] [] [].

Definition subscribed (x : machine) : bool :=
  match x with Live o => subscriber_ o | Down _ => false end.

(** src/node/src/NodeCmdTopic.cpp:205-246, [NodeCmdTopic::handle_cmd]. The counting
    and the queueing, for a sample that comes in when there is a subscriber. *)
Definition deliver (e : machine * queues) (c : NodeCmd) : machine * queues :=
  let '(x, q) := e in
  if subscribed x then
    (on_live (Lifecycle.happen NodeCmdTopic t needReply_
                (Sample true (readings c) (to_message c) no_message)) x,
     NodeCmd.NodeCmdTopic.handle_cmd needReply_ (Monitor.nodeId_ t) c q)
  else (x, q).

Definition received_by (e : machine * queues) (d : db) : system := mkSystem e.1 e.2 d.

(** src/node/src/NodeCmdTopic.cpp:170-180, [NodeCmdTopic::send_cmd]. The call
    [cmd_publisher_->put], up to the handler of the node. *)
Definition bus_put (s : system) (c : NodeCmd) : bool * system :=
  let '(ok, d) := db_put (db_ s) c in
  (ok, received_by (if ok : bool then deliver (edge s, queues_ s) c else (edge s, queues_ s)) d).

Definition bus_exec (s : system) (sql : str) : Z * system :=
  let '(r, d) := db_exec (db_ s) sql in (r, mkSystem (edge s) (queues_ s) d).

(** src/node/src/NodeCmdTopic.cpp:88-117, [NodeCmdTopic::writer_worker]. One turn of
    the loop. *)
Definition turn (s : system) : list NodeCmd * system :=
  writer_worker bus_put bus_exec (fun s => db_select (db_ s)) 1 s.

(** What happens: a turn of the manager, something at the object of the node, a
    new row, whose key must be new. *)
Inductive event :=
  | Turn
  | AtNode (e : Lifecycle.event)
  | Insert (row : task).

Definition insert_row (r : task) (d : db) : db :=
  if bool_decide (t_id r ∈ map t_id (tasks d)) then d
  else mkDb (tasks d ++ [r]) (puts d) (updates d).

Definition step (s : system) (e : event) : system :=
  match e with
  | Turn => snd (turn s)
  | AtNode e => mkSystem (on_live (Lifecycle.happen NodeCmdTopic t needReply_ e) (edge s)) (queues_ s) (db_ s)
  | Insert r => mkSystem (edge s) (queues_ s) (insert_row r (db_ s))
  end.

Definition history (es : list event) (s : system) : system := foldl step s es.

(** The commands a node may be sent. *)
Definition inserted (es : list event) : list NodeCmd :=
  omap (fun e => match e with Insert r => Some (t_cmd r) | _ => None end) es.

Definition events_wf (es : list event) : Prop :=
  Forall (fun e => match e with Insert r => cmd_wf (t_cmd r) | _ => True end) es.

Definition queued (s : system) : list NodeCmd :=
  fileDataQueueIn_ (queues_ s) ++ mainCmdQueueIn_ (queues_ s).

(** For this node, for the one queue or for the other. *)
Definition is_for (file : bool) (c : NodeCmd) : Prop :=
  needReply_ = true /\ Monitor.nodeId_ t = c_to_node_id c /\ to_file_queue (c_cmd_type c) = file.
#[export] Instance is_for_dec file c : Decision (is_for file c).
Proof. solve_decision. Defined.

(** ** Lemmas *)

(** The data base does not see the node. *)
Lemma send_rows_bus rows : forall s,
  send_rows bus_put bus_exec s rows
  = let '(sent, d) := send_rows db_put db_exec (db_ s) rows in
    (sent, received_by (foldl deliver (edge s, queues_ s) sent) d).
Proof.
  induction rows as [|r rows IH]; intros [x q d]; [done|].
  cbn [send_rows]. destruct (fill_cmd_message r) as [c|]; [|done].
  unfold send_cmd, bus_put. cbn [db_ edge queues_].
  destruct (db_put d c) as [[] d1]; [|by rewrite IH].
  destruct (get_id r) as [id|]; [|done].
  rewrite IH. unfold update_cmd_status, bus_exec, received_by. cbn [db_ edge queues_ fst snd].
  destruct (db_exec d1 (update_sql id 2)) as [z d2]. cbn [db_ edge queues_ fst snd].
  destruct (send_rows db_put db_exec d2 rows) as [sent d3]. cbn [foldl].
  by destruct (deliver (x, q) c).
Qed.

Lemma turn_bus s :
  turn s
  = let '(sent, d) := send_rows db_put db_exec (db_ s) (map row_of (pending (db_ s))) in
    (sent, received_by (foldl deliver (edge s, queues_ s) sent) d).
Proof.
  unfold turn. cbn [writer_worker]. change (db_select (db_ s)) with (Some (map row_of (pending (db_ s)))).
  cbn match. rewrite send_rows_bus. destruct (send_rows _ _ _ _) as [sent d].
  by rewrite app_nil_r.
Qed.

Lemma count_subscriber sl topic x m o : subscriber_ (count t sl topic x m o) = subscriber_ o.
Proof. done. Qed.

Lemma handle_cmd_queues c q :
  NodeCmd.NodeCmdTopic.handle_cmd needReply_ (Monitor.nodeId_ t) c q
  = mkQueues (fileDataQueueIn_ q ++ filter (is_for true) [c])
      (mainCmdQueueIn_ q ++ filter (is_for false) [c]).
Proof.
  destruct q as [f m]. unfold NodeCmd.NodeCmdTopic.handle_cmd. rewrite !filter_cons, !filter_nil.
  cbn [fileDataQueueIn_ mainCmdQueueIn_].
  destruct (needReply_ && bool_decide (Monitor.nodeId_ t = c_to_node_id c)) eqn:E.
  - apply andb_true_iff in E as [E1 E2%bool_decide_eq_true]. destruct (to_file_queue _) eqn:E3.
    + rewrite decide_True by done. rewrite decide_False, app_nil_r; [done|]. intros (_ & _ & H). congruence.
    + rewrite (decide_True (P := is_for false c)) by done.
      rewrite decide_False, app_nil_r; [done|]. intros (_ & _ & H). congruence.
  - apply andb_false_iff in E. rewrite !decide_False, !app_nil_r; [done| |];
      intros (H1 & H2 & _); destruct E as [?|?%bool_decide_eq_false]; congruence.
Qed.

(** A node that listens goes on listening, and queues what is for it. *)
Lemma deliver_all cs : forall x q,
  subscribed x = true ->
  exists x', foldl deliver (x, q) cs
    = (x', mkQueues (fileDataQueueIn_ q ++ filter (is_for true) cs)
             (mainCmdQueueIn_ q ++ filter (is_for false) cs)) /\ subscribed x' = true.
Proof.
  induction cs as [|c cs IH]; intros x q Hx; cbn [foldl].
  - exists x. rewrite !filter_nil, !app_nil_r. by destruct q.
  - destruct x as [o|]; [|done]. unfold deliver at 2. rewrite Hx. cbn [on_live Lifecycle.happen].
    simpl in Hx. rewrite Hx. unfold handle_sample, received.
    rewrite handle_cmd_queues.
    destruct (IH (Live (if needReply_ && bool_decide (Monitor.nodeId_ t = m_to (to_message c))
               then count t Monitor.Reader (Monitor.topic_ t) (readings c) (to_message c) o else o))
               (mkQueues (fileDataQueueIn_ q ++ filter (is_for true) [c])
                  (mainCmdQueueIn_ q ++ filter (is_for false) [c]))) as (x' & -> & Hx').
    { simpl. by destruct (_ && _). }
    exists x'. split; [|done]. cbn [fileDataQueueIn_ mainCmdQueueIn_].
    by rewrite <- !(assoc_L (++)), <- !filter_app.
Qed.

Lemma deliver_none cs : forall x q,
  subscribed x = false -> foldl deliver (x, q) cs = (x, q).
Proof.
  induction cs as [|c cs IH]; intros x q Hx; [done|]. cbn [foldl].
  unfold deliver at 2. rewrite Hx. by apply IH.
Qed.

(** Whether a node listens or not, what it queues are some of the commands. *)
Lemma deliver_some cs x q :
  exists x' q', foldl deliver (x, q) cs = (x', q') /\
    fileDataQueueIn_ q' ++ mainCmdQueueIn_ q' ⊆+ (fileDataQueueIn_ q ++ mainCmdQueueIn_ q) ++ cs.
Proof.
  destruct (subscribed x) eqn:E.
  - destruct (deliver_all cs x q E) as (x' & -> & _). eexists _, _. split; [done|].
    cbn [fileDataQueueIn_ mainCmdQueueIn_].
    assert (filter (is_for true) cs ++ filter (is_for false) cs ⊆+ cs) as H.
    { clear. induction cs as [|c cs IH]; [done|]. rewrite !filter_cons.
      destruct (decide (is_for true c)) as [H1|_], (decide (is_for false c)) as [H2|_].
      - destruct H1 as (_ & _ & ?), H2 as (_ & _ & ?). congruence.
      - cbn [app]. by constructor.
      - rewrite <- Permutation_middle. by constructor.
      - by apply submseteq_cons. }
    rewrite <- !(assoc_L (++)).
    apply submseteq_skips_l. rewrite (assoc_L (++)), (comm (++) (filter _ _) (mainCmdQueueIn_ q)).
    rewrite <- (assoc_L (++)). by apply submseteq_skips_l.
  - rewrite (deliver_none cs x q E). eexists _, _. split; [done|]. by apply submseteq_inserts_r.
Qed.

Lemma insert_wf r d : db_wf d -> cmd_wf (t_cmd r) -> db_wf (insert_row r d).
Proof.
  intros [Hn Hc] Hr. unfold insert_row. case_bool_decide as Hin; [done|]. split; cbn [tasks].
  - rewrite map_app. apply NoDup_app. split_and!; [done| |apply NoDup_singleton].
    intros i Hi ->%list_elem_of_singleton. done.
  - apply Forall_app. split; [done|]. by apply Forall_singleton.
Qed.

Lemma insert_pending r d :
  map t_cmd (pending (insert_row r d)) ⊆+ map t_cmd (pending d) ++ [t_cmd r].
Proof.
  unfold insert_row. case_bool_decide; [by apply submseteq_inserts_r|].
  unfold pending. cbn [tasks]. rewrite filter_app, map_app. apply submseteq_skips_l.
  rewrite filter_cons, filter_nil. case_decide; [done|]. apply submseteq_nil_l.
Qed.

Lemma turn_settles s :
  db_wf (db_ s) -> works (puts (db_ s)) -> works (updates (db_ s)) ->
  exists d', turn s = (map t_cmd (pending (db_ s)),
                       received_by (foldl deliver (edge s, queues_ s) (map t_cmd (pending (db_ s)))) d') /\
    db_wf d' /\ works (puts d') /\ works (updates d') /\ pending d' = [].
Proof.
  intros Hd Hp Hu. destruct (turn_spec _ Hd) as (S & M & d' & E & Hd' & _ & _ & Hperm & Hu' & Hp').
  destruct (Hu' Hu) as [Hu2 ->]. destruct (Hp' Hp) as [Hp2 ->].
  exists d'. rewrite turn_bus, E. split_and!; try done.
  apply Permutation_length in Hperm. rewrite length_app in Hperm.
  destruct (pending d'); [done|simpl in Hperm; lia].
Qed.

Lemma turn_idle s : pending (db_ s) = [] -> turn s = ([], s).
Proof. intros Hp. rewrite turn_bus, Hp. by destruct s. Qed.

Lemma history_app es es' s : history (es ++ es') s = history es' (history es s).
Proof. apply foldl_app. Qed.

(** Without new rows nothing more comes to the queues. *)
Lemma idle_history es : forall s,
  inserted es = [] -> pending (db_ s) = [] ->
  queues_ (history es s) = queues_ s /\ pending (db_ (history es s)) = [].
Proof.
  induction es as [|e es IH]; intros s Hi Hp; [done|]. cbn [history foldl].
  change (foldl step (step s e) es) with (history es (step s e)).
  destruct e as [|e|r]; [| |done].
  - cbn [step]. rewrite turn_idle by done. by apply IH.
  - destruct (IH (step s (AtNode e))) as [-> ->]; done.
Qed.

(** ** Theorems *)

(** C7. Commands reach a node that listens: when the node has declared its
    subscriber, and publications and statements work, one turn of the manager
    leaves no pending row and puts every pending command that is addressed to
    the node into the queue for its type, behind what is there, in the order of
    the rows; the node goes on listening; and whatever happens at the node and
    however often the manager turns, none of them is queued again. *)
Theorem commands_delivered (s : system) (es : list event) :
  db_wf (db_ s) -> works (puts (db_ s)) -> works (updates (db_ s)) ->
  subscribed (edge s) = true -> inserted es = [] ->
  let s1 := step s Turn in
  subscribed (edge s1) = true /\ pending (db_ s1) = [] /\
  queues_ s1
  = mkQueues (fileDataQueueIn_ (queues_ s) ++ filter (is_for true) (map t_cmd (pending (db_ s))))
      (mainCmdQueueIn_ (queues_ s) ++ filter (is_for false) (map t_cmd (pending (db_ s)))) /\
  queues_ (history es s1) = queues_ s1.
Proof.
  intros Hd Hp Hu Hs Hi s1. subst s1. cbn [step].
  destruct (turn_settles s Hd Hp Hu) as (d' & -> & _ & _ & _ & Hn).
  destruct (deliver_all (map t_cmd (pending (db_ s))) (edge s) (queues_ s) Hs) as (x' & -> & Hx').
  unfold received_by. cbn [fst snd edge queues_ db_].
  split_and!; [done|done|done|]. by apply idle_history.
Qed.

(** Commands for a node that does not listen are lost: the manager's turn marks
    them as sent, and nothing that happens afterwards brings them to the queues
    of the node, not even that it starts listening. *)
Theorem command_lost (s : system) (es : list event) :
  db_wf (db_ s) -> works (puts (db_ s)) -> works (updates (db_ s)) ->
  subscribed (edge s) = false -> inserted es = [] ->
  let s1 := history es (step s Turn) in
  pending (db_ s1) = [] /\ queues_ s1 = queues_ s.
Proof.
  intros Hd Hp Hu Hs Hi s1. subst s1. cbn [step].
  destruct (turn_settles s Hd Hp Hu) as (d' & -> & _ & _ & _ & Hn).
  rewrite deliver_none by done. by destruct (idle_history es (received_by (edge s, queues_ s) d') Hi Hn).
Qed.

(** C6. At most once: over any history of a manager and a node, with publications
    that may fail and statements that do not, the commands put into the queues of
    the node and those still pending are among those whose rows were there or were
    inserted, each as often at most. *)
Theorem queued_at_most_once (s : system) (es : list event) :
  db_wf (db_ s) -> works (updates (db_ s)) -> events_wf es ->
  queued (history es s) ++ map t_cmd (pending (db_ (history es s)))
  ⊆+ (queued s ++ map t_cmd (pending (db_ s))) ++ inserted es.
Proof.
  revert s. induction es as [|e es IH]; intros s Hd Hu Hwf;
    [cbn [inserted omap list_omap history foldl]; by rewrite app_nil_r|].
  apply Forall_cons in Hwf as [He Hwf].
  cbn [history foldl]. change (foldl step (step s e) es) with (history es (step s e)).
  enough (db_wf (db_ (step s e)) /\ works (updates (db_ (step s e))) /\
          queued (step s e) ++ map t_cmd (pending (db_ (step s e)))
          ⊆+ (queued s ++ map t_cmd (pending (db_ s))) ++ inserted [e]) as (Hd1 & Hu1 & Hs).
  { etrans; [by apply IH|]. change (inserted (e :: es)) with (inserted ([e] ++ es)).
    unfold inserted at 2. rewrite omap_app, (assoc_L (++)). by apply submseteq_skips_r. }
  destruct e as [|e|r]; cbn [step].
  - destruct (turn_spec _ Hd) as (S & M & d' & E & Hd' & _ & _ & Hperm & Hu' & _).
    destruct (Hu' Hu) as [Hu2 ->]. rewrite turn_bus, E.
    destruct (deliver_some (map t_cmd S) (edge s) (queues_ s)) as (x' & q1 & -> & Hq).
    unfold received_by, queued. cbn [fst snd edge queues_ db_ inserted omap list_omap].
    split_and!; [done|done|]. rewrite app_nil_r, Hperm, map_app, (assoc_L (++)).
    by apply submseteq_skips_r.
  - split_and!; [done|done|]. unfold queued. cbn. by rewrite app_nil_r.
  - split_and!; [by apply insert_wf| |].
    { unfold insert_row. cbn [db_]. by case_bool_decide. }
    change (queued (mkSystem (edge s) (queues_ s) (insert_row r (db_ s)))) with (queued s).
    rewrite <- (assoc_L (++) (queued s)). apply submseteq_skips_l, insert_pending.
Qed.

End Bus.

(** ** Concrete histories *)

(** A node that listens, and one that has no thread yet. *)
Definition listening : machine :=
  Lifecycle.run NodeCmdTopic Monitor.a_topic true (Live fresh) (come_up NodeCmdTopic Listener a_mark).

Definition a_command (uuid : str) (ty : Z) : NodeCmd :=
  mkNodeCmd uuid $"mgr" $"m" (Monitor.nodeId_ Monitor.a_topic) [] ty 0 $"ls" [] [] [].

Definition a_table : db :=
  mkDb [mkTask 7 1 (a_command $"a" 3); mkTask 8 2 (a_command $"b" 3); mkTask 9 1 (demo_cmd $"c" 1)] [] [].

Lemma a_table_wf : db_wf a_table.
Proof. split; [by_decision|]. by repeat constructor. Qed.

Definition bytes (c : NodeCmd) : str := c_uuid c.
Definition reading (c : NodeCmd) : Lifecycle.mark := a_mark.

Lemma commands_delivered_witness :
  let s := mkSystem listening (mkQueues [] []) a_table in
  let s1 := step Monitor.a_topic true bytes reading s Turn in
  pending (db_ s1) = [] /\
  queues_ (history Monitor.a_topic true bytes reading [Turn; AtNode Stop; Turn] s1)
  = mkQueues [a_command $"a" 3] [].
Proof.
  intros s s1.
  edestruct (commands_delivered Monitor.a_topic true bytes reading s [Turn; AtNode Stop; Turn])
    as (_ & H1 & H2 & H3); [exact a_table_wf|constructor|constructor|vm_compute; reflexivity|reflexivity|].
  split; [exact H1|]. subst s1. rewrite H3, H2. vm_compute. reflexivity.
Defined.

(** The manager turns before the node's listener comes up. *)
Lemma command_lost_witness :
  let s := mkSystem (Live fresh) (mkQueues [] []) a_table in
  let es := map AtNode (come_up NodeCmdTopic Listener a_mark) ++ [Turn] in
  let s1 := history Monitor.a_topic true bytes reading es (step Monitor.a_topic true bytes reading s Turn) in
  subscribed (edge s1) = true /\ pending (db_ s1) = [] /\ queues_ s1 = mkQueues [] [].
Proof.
  intros s es s1. split; [vm_compute; reflexivity|].
  apply (command_lost Monitor.a_topic true bytes reading s es).
  - exact a_table_wf.
  - constructor.
  - constructor.
  - reflexivity.
  - reflexivity.
Defined.

Lemma queued_at_most_once_witness :
  let s := mkSystem listening (mkQueues [] []) a_table in
  let es := [Turn; Insert (mkTask 10 1 (a_command $"d" 1)); Turn; Turn] in
  queued (history Monitor.a_topic true bytes reading es s) = [a_command $"a" 3; a_command $"d" 1] /\
  queued (history Monitor.a_topic true bytes reading es s)
    ++ map t_cmd (pending (db_ (history Monitor.a_topic true bytes reading es s)))
  ⊆+ (queued s ++ map t_cmd (pending (db_ s))) ++ inserted es.
Proof.
  intros s es. split; [vm_compute; reflexivity|].
  apply (queued_at_most_once Monitor.a_topic true bytes reading s es).
  - exact a_table_wf.
  - constructor.
  - repeat constructor.
Defined.

End Delivery.
