(* ===== verification/RoundTrip.v ===== *)
(** * Commands and their replies, from table to table

    [Delivery] with the two workers of [Node] behind the queues, and the replies
    on their way back: a turn of the node's listener publishes one reply of each
    worker, and the manager stores what arrives. *)

From S2P Require Import Prelude Messages Monitor NodeCmd ProcessManager Exec Podman Worker FileTransfer FileCmd.
From S2P Require Import Lifecycle Node Delivery.
Import Messages Lifecycle NodeCmd.NodeCmdTopic Delivery.

Module RoundTrip.

Section Trip.
Context (t : Monitor.TopicInfo) (serialize : NodeCmd -> str) (serialize_reply : NodeCmdReply -> str)
  (readings : NodeCmd -> Lifecycle.mark) (reading : Lifecycle.mark).
Context {M W : Type} (main : Responder M) (file : Responder W).

(** Manager and bus; the workers, whose replies so far are [replies], and what
    runs of the node; how many replies have been taken from the queues; how the
    next publications of replies end; what the manager has received. *)
Record system := mkSystem {
  link : Delivery.system;
  main_worker : M;
  file_worker : W;
  node_life : Node.life;
  app_taken : nat;
  file_taken : nat;
  reply_puts : list bool;
  stored : list NodeCmdReply;
}.

(** [mainCmdReplyQueueOut_] and [fileDataReplyQueueIn_]. *)
Definition app_queue (s : system) : list NodeCmdReply :=
  drop (app_taken s) (replies (Responder := main) (main_worker s)).
Definition file_queue (s : system) : list NodeCmdReply :=
  drop (file_taken s) (replies (Responder := file) (file_worker s)).

Definition reply_message (r : NodeCmdReply) : message :=
  mkMessage (r_uuid r) (r_src_node_id r) (r_to_node_id r) (serialize_reply r).

(** The listener of the node is in its loop and has its publisher. *)
Definition answering (x : machine) : bool :=
  match x with
  | Live o => match thread_of Listener o with
              | Some (mkThread Loop _) => is_reader_ o && reply_publisher_ o
              | _ => false
              end
  | Down _ => false
  end.

(** src/node/src/NodeCmdTopic.cpp:187-203, [NodeCmdTopic::send_reply]. The call
    [reply_publisher_->put], at the object of the node. *)
Definition publish (b : machine * list bool) (r : NodeCmdReply) : bool * (machine * list bool) :=
  let '(x, outcomes) := b in
  let ok := default true (head outcomes) in
  (ok, (on_live (Lifecycle.happen NodeCmdTopic t true (Step Listener ok reading (Some (reply_message r)))) x,
        tail outcomes)).

(** src/node/src/NodeCmdTopic.cpp:160-167, [NodeCmdTopic::reader_worker]. One turn of
    the loop. The reply subscriber of the manager is there before its writer
    turns. *)
Definition answer (s : system) : system :=
  if answering (edge (link s)) then
    let '(o1, b1, app) := process_app_cmd_replies publish (edge (link s), reply_puts s) (app_queue s) in
    let '(o2, b2, fil) := process_file_cmd_replies publish b1 (file_queue s) in
    mkSystem (Delivery.mkSystem b2.1 (queues_ (link s)) (db_ (link s)))
      (main_worker s) (file_worker s) (node_life s)
      (length (replies (Responder := main) (main_worker s)) - length app)
      (length (replies (Responder := file) (file_worker s)) - length fil)
      b2.2 (stored s ++ published (o1 ++ o2))
  else s.

(** A step of one of the workers, as [Node] has it: when it ends the process, the
    object of the node is gone with it, and in a process that has ended no worker
    runs. *)
Definition work (e : Node.event) (s : system) : system :=
  match edge (link s) with
  | Down _ => s
  | Live o =>
      let n := Node.step main file (Monitor.nodeId_ t)
                 (Node.mkNode (main_worker s) (file_worker s) (queues_ (link s)) (node_life s)) e in
      mkSystem (Delivery.mkSystem (if Node.up (Node.n_life n) then Live o else Down Body)
                  (Node.n_queues n) (db_ (link s)))
        (Node.n_main n) (Node.n_file n) (Node.n_life n) (app_taken s) (file_taken s)
        (reply_puts s) (stored s)
  end.

Definition manager_turn (s : system) : system :=
  mkSystem (snd (turn t true serialize readings (link s))) (main_worker s) (file_worker s)
    (node_life s) (app_taken s) (file_taken s) (reply_puts s) (stored s).

(** Each worker takes one command, with the ids for the replies, and the listener
    makes a turn. *)
Definition round (ids : str * str) (s : system) : system :=
  answer (work (Node.TakeFile ids.2) (work (Node.TakeMain ids.1) s)).

Definition rounds (l : list (str * str)) (s : system) : system := foldl (fun s ids => round ids s) s l.

(** [r] is the reply to [c]. *)
Definition answers (c : NodeCmd) (r : NodeCmdReply) : Prop :=
  r_cmd_reply_uuid r = c_uuid c /\ r_to_node_id r = c_src_node_id c /\ r_cmd_type r = c_cmd_type c.

(** Everything runs, and no publication of a reply throws. *)
Definition runs (s : system) : Prop := node_life s = Node.all_up /\ works (reply_puts s).

(** All replies have left their queues. *)
Definition quiet (s : system) : Prop :=
  app_taken s = length (replies (Responder := main) (main_worker s)) /\
  file_taken s = length (replies (Responder := file) (file_worker s)).

Definition for_node (c : NodeCmd) : Prop := Monitor.nodeId_ t = c_to_node_id c.
#[export] Instance for_node_dec c : Decision (for_node c).
Proof. unfold for_node. apply _. Defined.

Definition good_for (c : NodeCmd) : Prop :=
  if to_file_queue (c_cmd_type c) then Node.good file c else Node.good main c.

(** ** Lemmas *)

Lemma publish_answering x ps r :
  answering x = true -> answering (snd (publish (x, ps) r)).1 = true.
Proof.
  destruct x as [o|]; [|done]. cbn [answering publish on_live Lifecycle.happen snd fst].
  destruct (thread_of Listener o) as [[[] j]|] eqn:E; try done.
  intros [Hr Hp]%andb_true_iff. unfold worker_step. rewrite E. cbn [worker_of at_ running].
  rewrite Hr. cbn [negb loop_sender]. unfold Cmd_send_reply, put_with. cbn [has]. rewrite Hp.
  destruct (default true (head ps)); cbn [negb sent answering].
  - unfold thread_of, set_base, set_put in *. cbn in *. by rewrite E, Hr, Hp.
  - by rewrite E, Hr, Hp.
Qed.

Lemma deliver_answering cs : forall e,
  answering (foldl (deliver t true serialize readings) e cs).1 = answering e.1.
Proof.
  induction cs as [|c cs IH]; intros e; [done|]. cbn [foldl]. rewrite IH. clear IH.
  destruct e as [[o|] q]; [|done]. unfold deliver. cbn [subscribed fst].
  destruct (subscriber_ o) eqn:Es; [|done]. cbn [fst on_live Lifecycle.happen]. rewrite Es.
  cbn [handle_sample received]. by case_match.
Qed.

(** A worker takes the head of its queue. *)
Definition take_one {A} (R : Responder A) (id : str) (q : list NodeCmd) (w : A) : A :=
  match q with [] => w | c :: _ => snd (respond (Responder := R) id w c) end.

Lemma take_one_spec {A} (R : Responder A) id q w :
  Forall (Node.good R) q -> id <> [] ->
  exists rs, replies (Responder := R) (take_one R id q w) = replies (Responder := R) w ++ rs /\
    Forall2 answers (take 1 q) rs /\ (rs = [] \/ exists r, rs = [r] /\ r_uuid r <> []).
Proof.
  intros Hg Hid. destruct q as [|c q].
  - exists []. rewrite app_nil_r. split_and!; [done|constructor|by left].
  - apply Forall_cons in Hg as [[Ha Hg] _].
    destruct (respond_one (Responder := R) id w c Ha) as (r & Hr & Hu & ? & ? & ?); [by rewrite Hg|].
    exists [r]. split_and!; [done|by repeat constructor|]. right. exists r. by rewrite Hu.
Qed.

(** Workers that are good for their queues each take the head. *)
Lemma work_both i j s :
  Forall (Node.good main) (mainCmdQueueIn_ (queues_ (link s))) ->
  Forall (Node.good file) (fileDataQueueIn_ (queues_ (link s))) ->
  answering (edge (link s)) = true -> node_life s = Node.all_up ->
  work (Node.TakeFile j) (work (Node.TakeMain i) s)
  = mkSystem (Delivery.mkSystem (edge (link s))
       (mkQueues (tail (fileDataQueueIn_ (queues_ (link s)))) (tail (mainCmdQueueIn_ (queues_ (link s)))))
       (db_ (link s)))
      (take_one main i (mainCmdQueueIn_ (queues_ (link s))) (main_worker s))
      (take_one file j (fileDataQueueIn_ (queues_ (link s))) (file_worker s))
      (node_life s) (app_taken s) (file_taken s) (reply_puts s) (stored s).
Proof.
  destruct s as [[x [fq mq] d] mw fw li a b ps st].
  cbn [link edge queues_ mainCmdQueueIn_ fileDataQueueIn_ node_life]. intros Hm Hf Hx ->.
  destruct x as [o|]; [|done].
  enough (work (Node.TakeMain i) (mkSystem (Delivery.mkSystem (Live o) (mkQueues fq mq) d) mw fw Node.all_up a b ps st)
    = mkSystem (Delivery.mkSystem (Live o) (mkQueues fq (tail mq)) d) (take_one main i mq mw) fw Node.all_up a b ps st) as ->.
  - destruct fq as [|f fq]; [reflexivity|]. apply Forall_cons in Hf as [[_ Hg] _].
    specialize (Hg j fw). unfold work, Node.step. cbn.
    destruct (respond j fw f) as [v w]. cbn in Hg. by subst v.
  - destruct mq as [|m mq]; [reflexivity|]. apply Forall_cons in Hm as [[_ Hg] _].
    specialize (Hg i mw). unfold work, Node.step. cbn.
    destruct (respond i mw m) as [v w]. cbn in Hg. by subst v.
Qed.

(** One reply, or none, leaves its queue and is published. *)
Lemma process_one (fil : bool) x ps rs :
  rs = [] \/ (exists r, rs = [r] /\ r_uuid r <> []) -> answering x = true -> works ps ->
  exists out x' ps',
    (if fil then process_file_cmd_replies publish else process_app_cmd_replies publish) (x, ps) rs
      = (out, (x', ps'), []) /\ published out = rs /\ answering x' = true /\ works ps'.
Proof.
  intros [->|(r & -> & Hr)] Hx Hw; [exists [], x, ps; by destruct fil|].
  pose proof (publish_answering x ps r Hx) as Hx'.
  exists [mkOutcome fil true r], (snd (publish (x, ps) r)).1, (tail ps).
  assert (publish (x, ps) r = (true, ((snd (publish (x, ps) r)).1, tail ps))) as E
    by (unfold publish; by rewrite (works_head ps Hw)).
  split; [|split; [by destruct fil|split; [exact Hx'|by apply works_tail]]].
  destruct fil; cbn [process_file_cmd_replies process_app_cmd_replies]; unfold send_reply;
    rewrite bool_decide_false by done; rewrite E at 1; reflexivity.
Qed.

Definition all_good (q : queues) : Prop :=
  Forall (Node.good main) (mainCmdQueueIn_ q) /\ Forall (Node.good file) (fileDataQueueIn_ q).

Lemma round_spec ids s :
  answering (edge (link s)) = true -> runs s -> quiet s -> all_good (queues_ (link s)) ->
  ids.1 <> [] -> ids.2 <> [] ->
  let q := queues_ (link s) in let s' := round ids s in
  exists rs, stored s' = stored s ++ rs /\
    Forall2 answers (take 1 (mainCmdQueueIn_ q) ++ take 1 (fileDataQueueIn_ q)) rs /\
    queues_ (link s') = mkQueues (tail (fileDataQueueIn_ q)) (tail (mainCmdQueueIn_ q)) /\
    db_ (link s') = db_ (link s) /\ answering (edge (link s')) = true /\ runs s' /\ quiet s'.
Proof.
  intros Hx [Hl Hw] [Ha Hf] [Hg1 Hg2] Hi Hj q s'. subst s'.
  destruct (take_one_spec main ids.1 (mainCmdQueueIn_ q) (main_worker s) Hg1 Hi) as (r1 & E1 & H1 & N1).
  destruct (take_one_spec file ids.2 (fileDataQueueIn_ q) (file_worker s) Hg2 Hj) as (r2 & E2 & H2 & N2).
  exists (r1 ++ r2). unfold round. rewrite work_both by done. fold q.
  unfold answer, app_queue, file_queue.
  cbn [edge link app_taken file_taken main_worker file_worker queues_ db_ stored reply_puts node_life].
  rewrite Hx, E1, E2, Ha, Hf, !drop_app_length.
  destruct (process_one false _ _ r1 N1 Hx Hw) as (o1 & x1 & p1 & -> & P1 & Hx1 & Hw1).
  destruct (process_one true _ _ r2 N2 Hx1 Hw1) as (o2 & x2 & p2 & -> & P2 & Hx2 & Hw2).
  cbn [edge link app_taken file_taken main_worker file_worker queues_ db_ stored fst].
  rewrite published_app, P1, P2.
  split_and!; [done|by apply Forall2_app|done|done|exact Hx2|by split|].
  split; cbn [app_taken file_taken main_worker file_worker]; rewrite ?E1, ?E2; cbn [length]; lia.
Qed.

(** As many rounds as there are commands in the longer queue empty both. *)
Lemma rounds_spec l : forall s,
  answering (edge (link s)) = true -> runs s -> quiet s -> all_good (queues_ (link s)) ->
  Forall (fun ids => ids.1 <> [] /\ ids.2 <> []) l ->
  (length (mainCmdQueueIn_ (queues_ (link s))) <= length l)%nat ->
  (length (fileDataQueueIn_ (queues_ (link s))) <= length l)%nat ->
  let s' := rounds l s in
  exists cs rs, cs ≡ₚ mainCmdQueueIn_ (queues_ (link s)) ++ fileDataQueueIn_ (queues_ (link s)) /\
    stored s' = stored s ++ rs /\ Forall2 answers cs rs /\
    queues_ (link s') = mkQueues [] [] /\ db_ (link s') = db_ (link s) /\ quiet s'.
Proof.
  induction l as [|ids l IH]; intros s Hx Hr Hq Hg Hids Hm Hf s'; subst s'.
  - exists [], []. destruct (queues_ (link s)) as [[] []] eqn:E; cbn in Hm, Hf; try lia.
    change (rounds [] s) with s. rewrite (app_nil_r (stored s)), E.
    split_and!; [done..|exact Hq].
  - apply Forall_cons in Hids as [[Hi Hj] Hids].
    destruct (round_spec ids s Hx Hr Hq Hg Hi Hj) as (r1 & Es & H1 & Eq & Ed & Hx' & Hr' & Hq').
    destruct (queues_ (link s)) as [fq mq]. cbn [mainCmdQueueIn_ fileDataQueueIn_] in *.
    destruct (IH (round ids s)) as (cs & rs & Hp & Er & H2 & E1 & E2 & H3); try done; rewrite ?Eq;
      cbn [mainCmdQueueIn_ fileDataQueueIn_].
    + destruct Hg as [G1 G2]. cbn in G1, G2. split; cbn; [by destruct G1|by destruct G2].
    + destruct mq; simpl in *; lia.
    + destruct fq; simpl in *; lia.
    + rewrite Eq in Hp. cbn [mainCmdQueueIn_ fileDataQueueIn_] in Hp.
      exists ((take 1 mq ++ take 1 fq) ++ cs), (r1 ++ rs). cbn [rounds foldl].
      change (foldl _ (round ids s) l) with (rounds l (round ids s)).
      rewrite Er, Es, E2, Ed, <- (app_assoc (stored s)). split_and!; try done; [|by apply Forall2_app].
      rewrite Hp. destruct mq as [|m mq], fq as [|f fq]; cbn [take tail app]; try done.
      apply perm_skip. exact (Permutation_middle mq fq f).
Qed.

(** Every command for the node is for one of its queues. *)
Lemma for_node_queues cs :
  filter (is_for t true false) cs ++ filter (is_for t true true) cs ≡ₚ filter for_node cs.
Proof.
  induction cs as [|c cs IH]; [done|]. rewrite !filter_cons.
  destruct (decide (for_node c)) as [Hc|Hc].
  - destruct (to_file_queue (c_cmd_type c)) eqn:E.
    + rewrite (decide_False (P := is_for t true false c)) by (intros (_ & _ & ?); congruence).
      rewrite decide_True by done. rewrite <- Permutation_middle. by constructor.
    + rewrite decide_True by done.
      rewrite (decide_False (P := is_for t true true c)) by (intros (_ & _ & ?); congruence).
      cbn [app]. by constructor.
  - rewrite !decide_False; [done|by intros (_ & ? & _)..].
Qed.

Lemma for_node_good cs :
  Forall good_for (filter for_node cs) ->
  Forall (Node.good main) (filter (is_for t true false) cs) /\
  Forall (Node.good file) (filter (is_for t true true) cs).
Proof.
  intros H. rewrite <- for_node_queues, Forall_app in H. destruct H as [H1 H2].
  rewrite Forall_forall in H1, H2. rewrite !Forall_forall. unfold good_for in H1, H2.
  split; intros c Hc; [specialize (H1 c Hc)|specialize (H2 c Hc)];
    apply list_elem_of_filter in Hc as [(_ & _ & E) _]; by rewrite E in *.
Qed.

(** ** Theorem *)

(** C4. The round trip of commands: from a node that runs and listens, with its
    queues empty, over a bus on which no publication throws, with a data base that
    executes its statements, and with workers that are good for the commands (they
    know them, neither throw nor hang on them, and do not end the process, so that
    no [RESTART] is among them): after one turn of the manager and as many rounds of
    the node as there were rows for it, no row is pending, no command waits in a
    queue, no reply is left at the node, and the manager has received one reply to
    each command for the node, and nothing else, addressed to whom the command came
    from. *)
Theorem command_round_trip (s : system) (l : list (str * str)) :
  let cmds := filter for_node (map t_cmd (NodeCmd.NodeCmdTopic.pending (db_ (link s)))) in
  db_wf (db_ (link s)) -> works (puts (db_ (link s))) -> works (updates (db_ (link s))) ->
  subscribed (edge (link s)) = true -> answering (edge (link s)) = true -> runs s ->
  queues_ (link s) = mkQueues [] [] -> quiet s -> Forall good_for cmds ->
  Forall (fun ids => ids.1 <> [] /\ ids.2 <> []) l -> (length cmds <= length l)%nat ->
  let s' := rounds l (manager_turn s) in
  exists cs rs, cs ≡ₚ cmds /\ stored s' = stored s ++ rs /\ Forall2 answers cs rs /\
    NodeCmd.NodeCmdTopic.pending (db_ (link s')) = [] /\ queues_ (link s') = mkQueues [] [] /\ quiet s'.
Proof.
  intros cmds Hd Hp Hu Hs Hx Hr Hq0 Hq Hg Hids Hl s'. subst s'.
  destruct (turn_settles t true serialize readings (link s) Hd Hp Hu) as (d' & Et & _ & _ & _ & Hn).
  destruct (deliver_all t true serialize readings (map t_cmd (NodeCmd.NodeCmdTopic.pending (db_ (link s))))
              (edge (link s)) (queues_ (link s)) Hs) as (x' & Ef & _).
  pose proof (deliver_answering (map t_cmd (NodeCmd.NodeCmdTopic.pending (db_ (link s))))
                (edge (link s), queues_ (link s))) as Hx'.
  rewrite Ef, Hq0 in *. cbn [fst fileDataQueueIn_ mainCmdQueueIn_ app] in *. rewrite Hx in Hx'.
  unfold manager_turn. rewrite Et. cbn [snd].
  pose proof (for_node_queues (map t_cmd (NodeCmd.NodeCmdTopic.pending (db_ (link s))))) as Hperm.
  apply for_node_good in Hg. fold cmds in Hperm. clear Et Ef. clearbody cmds.
  pose proof (Permutation_length Hperm) as Hlen. rewrite length_app in Hlen.
  match goal with |- context [rounds l ?s1] =>
    destruct (rounds_spec l s1) as (cs & rs & Hcs & Er & Ha & Eq & Ed & Hq') end;
    [exact Hx'|exact Hr|exact Hq|exact Hg|exact Hids|cbn in *; lia|cbn in *; lia|].
  exists cs, rs. cbn in Hcs. rewrite Hperm in Hcs. rewrite Ed. by split_and!.
Qed.

End Trip.

(** ** An example *)

#[local] Existing Instance ProcessManager.toy_os.
#[local] Existing Instance Exec.toy_shell.
#[local] Existing Instance Podman.broken_host.
#[local] Existing Instance Worker.no_framework.
#[local] Existing Instance FileCmd.no_tools.

(** A command of a type that the main worker answers without knowing it. *)
Definition unknown : NodeCmd := a_command $"x" 77.

Lemma unknown_good : Node.good Node.demo_main unknown.
Proof. split; [vm_compute; reflexivity|]. intros id w. vm_compute. reflexivity. Qed.

(** A list of the watched directories. *)
Definition watches : NodeCmd := a_command $"y" (Z_of_cmd LSS3WATCH).

Lemma watches_good : Node.good Node.demo_file watches.
Proof. split; [vm_compute; reflexivity|]. intros id w. vm_compute. reflexivity. Qed.

Definition trip_table : db :=
  mkDb [mkTask 7 1 unknown; mkTask 8 2 (a_command $"b" 3); mkTask 9 1 (demo_cmd $"c" 1);
        mkTask 10 1 watches] [] [].

Lemma trip_table_wf : db_wf trip_table.
Proof. split; [by_decision|]. by repeat constructor. Qed.

Definition trip : system :=
  mkSystem (Delivery.mkSystem listening (mkQueues [] []) trip_table) (Worker.toy_world [] [])
    FileCmd.demo_world Node.all_up 0 0 [] [].

Definition trip_ids : list (str * str) := [($"r1", $"r2"); ($"r3", $"r4")].

Lemma command_round_trip_witness :
  let s' := rounds Monitor.a_topic r_uuid a_mark Node.demo_main Node.demo_file trip_ids
              (manager_turn Monitor.a_topic bytes Delivery.reading trip) in
  map r_cmd_reply_uuid (stored s') = [$"x"; $"y"] /\
  exists cs rs, cs ≡ₚ [unknown; watches] /\ stored s' = rs /\ Forall2 answers cs rs.
Proof.
  intros s'. split; [vm_compute; reflexivity|].
  edestruct (command_round_trip Monitor.a_topic bytes r_uuid Delivery.reading a_mark Node.demo_main
    Node.demo_file trip trip_ids) as (cs & rs & Hc & Hr & Ha & _);
    [exact trip_table_wf|constructor|constructor|vm_compute; reflexivity|vm_compute; reflexivity
    |split; [reflexivity|constructor]|reflexivity|split; vm_compute; reflexivity| |repeat constructor; discriminate|vm_compute; lia|].
  - apply Forall_cons_2; [exact unknown_good|]. apply Forall_cons_2; [exact watches_good|constructor].
  - exists cs, rs. split; [exact Hc|]. split; [exact Hr|exact Ha].
Defined.

End RoundTrip.
